(* ===== verification/_CoqProject ===== *)
-Q . S2P
Prelude.v
Text.v
Opts.v
Controller.v
ControllerSpec.v
Templates.v
Metric.v
RefineQualities.v
Geometry.v
Sort.v
Gmsh.v
Bytes.v
Codecs.v
VtkArrays.v
VtkReadTyped.v
Vtu.v
VtkSeries.v
Pvd.v
Series.v
FullSeries.v
