(* ===== verification/Prelude.v ===== *)
(** * A verification development for Omega_h: adaptation core and VTK files

    This library models, in Rocq, the parts of the Omega_h mesh-adaptation
    library whose sources are in [src/] (the repository Nasrollah/omega_h-1),
    and proves the properties that make them correct.

    ** The program and how its parts interact

    - [src/src/adapt.cpp] is the adaptation controller.  [AdaptOpts::AdaptOpts]
      builds the options from the mesh dimension; [adapt] runs [pre_adapt]
      ([validate], then [adapt_check] on the global quality and length
      statistics), the do-while loop [satisfy_lengths] (refine then coarsen by
      size until neither changes the mesh), the loop [satisfy_quality] (swap
      edges, else coarsen slivers, else give up, while the minimum quality is
      below the desired one), and [post_adapt] (reports gated by verbosity).
      The mesh operators and the statistics are collaborators outside [src/].
    - [src/src/refine_qualities.cpp] predicts, for each candidate edge, the
      minimum quality of the cells that splitting it would create, from the
      edge-to-cell up-adjacency, the simplex templates and a quality measure
      (isotropic, or metric-based with [maxdet_metric] fusion); the refine
      operator uses these predictions.
    - [src/src/sort.cpp] computes the permutation that stably sorts records
      of 1, 2 or 3 integer keys lexicographically ([sort_by_keys]).
    - [src/gmsh.cpp] reads a Gmsh 2 ASCII file into vertex coordinates and
      per-dimension element connectivity and classification, and builds the
      mesh from them.
    - [src/src/vtk.cpp] writes and reads VTK XML files: each tag's array is
      encoded (raw bytes, optionally zlib-compressed, in base64) by
      [write_array] and decoded by [read_array]; [write_vtu]/[read_vtu]
      write and read one rank's cells, coordinates and tags; [write_pvtu]/
      [read_pvtu] the list of pieces of a step; [write_parallel]/
      [read_parallel] one step on all ranks; [Writer] and [FullWriter] a
      time series of steps with its [.pvd] collection, which [read_pvd]
      reads back.
    - [src/omega_h.cpp] is the unity build and [src/src/simplify.hpp] two
      declarations.

    ** The files of the development

    - [Prelude] (this file): the outcome monad used for code that can abort
      ([CHECK] failures) or run out of loop fuel, with its notation in
      [omegah_scope], the inversion tactic [ok_inv], the rewriting tactic
      [rd] for sequences of binds; [check]; the do-while combinator
      [do_while] and its termination and exit lemmas; array access [get]
      and update [set] with the out-of-range behaviour; the [min2] fold and
      its lemmas; the hint databases [omegah] and [omegah_rw].
    - [Text]: C-locale characters, integer extraction ([operator>>],
      [std::stoi]) and printing ([std::to_string]), with their round trip
      and the injectivity of printing (used for the file names of steps
      and pieces); [std::getline] on a stream held as a string.
    - [Opts]: [Verbosity], [AdaptOpts], the constructor [AdaptOpts_of_dim]
      and the checks of [validate] (adapt.cpp lines 16-32, 105-110).
    - [Controller]: the controller of adapt.cpp as a program in the outcome
      monad over an abstract distributed mesh, given by the class [MeshOps]
      (queries, collective reductions, the four operators).  Every collective
      call and every line printed by rank 0 is logged as an [event].
      Theorems (C1-C3, C5-C7, C33-C35): lockstep of collectives across
      ranks, no-op on a good mesh, fatal validation before any mesh query,
      the exit conditions and termination of the loops, idempotence,
      verbosity gating.
    - [ControllerSpec]: the controller of the specification (its section
      4.1) as a state machine over the mesh, [spec_step], whose steps are
      the pre-check, the operator calls with their results and the loop
      decisions.  Theorem (C8): every run of [adapt] that returns is a run
      of that machine, labelled by the operator calls of its log (a
      refinement proved with a Hoare-style judgement [moves] and its bind,
      loop and operator rules); with operators that make progress the run
      reaches the end of the machine ([adapt_reaches_final]).
    - [Templates]: the simplex tables, the opposite template, the
      orientation codes and [flip_new_elem] used by the evaluator (these
      live in headers outside [src/] and are modelled from the spec); the
      tables are checked exhaustively by evaluation.
    - [Metric]: small vectors and symmetric matrices over binary64 floats,
      [maxdet_metric], the isotropic and metric quality measures (outside
      [src/], modelled from the spec).
    - [RefineQualities]: the evaluator of refine_qualities.cpp over an
      explicit mesh record; the two measure policies are instances of the
      class [RefineMeasure], as the C++ template parameter.  The
      synchronization [sync_subset_array] (outside [src/], from the spec)
      is collective: every rank scatters its own candidates' values with
      the default -1.0 of line 94, the edge arrays are combined by maximum
      in rank order, and each rank gathers at its candidates; the other
      ranks are given by their candidates and values.  Theorems (C9, C26,
      C27): which cell a split creates; the value a rank gets back for a
      candidate is the maximum of its own prediction and of each other
      rank's value there, -1.0 where that rank lacks the edge; the
      prediction is the minimum of 1.0 and of the new cells' qualities.
    - [Geometry]: over exact rationals, every new cell has half the
      orientation of its parent (C25): the templates and [flip_new_elem]
      keep positive orientation, so the quality formulas apply.
    - [Sort]: [CompareKeySets] and [sort_by_keys] of sort.cpp, with
      [std::stable_sort] modelled by a stable insertion sort.  Theorem
      (C4): the result is the permutation sorted by key tuple then index;
      it is the only one ([sort_by_keys_unique]), so every stable sort
      agrees.
    - [Gmsh]: the reader of gmsh.cpp over a stream [istream] held as its
      remaining text and its [failbit]: [getline], [operator>>] on 32-bit
      [int]s and on decimal reals with the C++11 failure semantics (0,
      [INT_MAX] or [INT_MIN] stored with [failbit]; on a failed stream the
      variable is left as it was), the uninitialized locals of [read] as
      [None] and their use as undefined behaviour, [seek_line], the node
      and element loops with every [CHECK], the coordinate copy and the
      vertex classification, whose [parallel_for] runs its writes in the
      order of a schedule given as a parameter (a write out of bounds
      stops the model); the calls [read] makes on the mesh are returned as
      a list.  Theorems (C28-C32): the order of the mesh calls, the
      invariant of the element lists, the contents of the coordinate array
      (and the defect below), the vertex classification under every
      schedule, and the node list of an element cut by the end of the
      file.
    - [Bytes]: values as the bytes of their memory image, on a CPU of
      either byte order ([Serial] and its laws [SerialLaws]; two's
      complement [I8], [I32], [I64], unsigned [size_t], a [Real] as its
      64-bit pattern) and [swap_if_needed].
    - [Codecs]: base64 and zlib, library code outside [src/], as the
      classes [Base64] and [Compressor] with the laws vtk.cpp relies on,
      and two lawful instances (RFC 4648 base64, a storing compressor)
      used to run the theorems on concrete files.
    - [VtkArrays]: the XML stream as a list of tags and texts, the array
      description, [write_array]/[read_array] with the compressed header,
      [write_tag]/[read_tag] and the tag loop of [read_vtu], with the
      sizes at the width C++ computes them ([lo_mul], [size_t_bytes]).
      Theorems (C11, C12, C14): an array, a tag and a sequence of tags are
      read back as written, for every lawful codec and either byte order.
    - [VtkReadTyped]: the reader on any stream.  Theorem (C15): every
      tag the tag loop adds has an [int] number of components and as many
      values of its type as the [LO] size counts; that size can wrap, so a
      file with 65536 components on 65536 entities and no data passes
      [read_array] ([read_tag_lo_overflow]).
    - [Vtu]: [write_vtu] and [read_vtu] on a mesh record.  Theorems
      (C10, C13): the round trip of a 2D or 3D cell file (dimension,
      connectivity, globals, coordinates, tags); on several ranks a mesh
      without a visible [global] tag is written to a file [read_vtu]
      rejects.  The face file of a 3D mesh comes back in 2D
      ([read_vtu_face_coords]); an edge or vertex file is rejected
      ([read_vtu_rejects_low_dim]).
    - [VtkSeries]: the paths, [write_pvtu]/[read_pvtu], [write_parallel]/
      [read_parallel], the [.pvd] collection and the writers, over a file
      store (an association list of paths, written in place).  Theorems
      (C16-C19, C24): every rank reads back its own piece; the [.pvtu]
      lists the pieces; the [.pvd] lists one line per step in order; a
      later step never overwrites an earlier one (and leaves the whole
      directory of the earlier step alone, [writer_step_files]); the
      [.pvtu] declares each array as the pieces write it in 2D and 3D.
    - [Pvd]: [read_pvd] over the same store: [std::getline] on the text,
      [xml::parse_tag] (outside [src/]) as the class [XmlParser] with the
      laws [XmlLaws] on the lines [update_pvd] writes, a lawful instance
      [DataSetParser], and [std::stod] a parameter that may fail.
      Theorems (C20, C21): after the [Writer] constructor and any writes,
      [read_pvd] returns one time per write (what [std::stod] reads from
      its printed text) and the [.pvtu] path of each step, in order; when
      [std::stod] throws on one time, [read_pvd] aborts.
    - [Series]: [read_pvd] and [read_parallel] composed, as a reader of
      a series uses them, with a frame lemma ([read_parallel_frame]:
      the read of a step depends only on the files below its directory).
      Theorem (C22): the [k]-th entry of the collection gives the [k]-th
      time and a path on which every rank reads back the piece written
      from the [k]-th mesh.
    - [FullSeries]: [FullWriter] (a [Writer] per dimension from [EDGE]
      up, in [root/plural_names[i]]), its [write(time)] and [write()],
      and the frame of a write.  Theorem (C23): the edge files of every
      [FullWriter] cannot be read back by [read_parallel].

    ** Numbers, bounds and fuel

    In the controller and the evaluator [Real] is Rocq's primitive binary64
    [float], so the defaults ([1/sqrt 2], [sqrt 2]) and every comparison are
    the machine's, NaN included; theorems about comparisons are stated on
    the boolean tests the code performs.  In the VTK files a [Real] is only
    stored and copied, so it is its 64-bit pattern.  In the Gmsh reader an
    [int] is a [Z] clamped to [INT_MIN .. INT_MAX] with [failbit] when it is
    read, [node_number - 1] wraps at [INT_MIN] ([lo_pred]), the [LO]
    product [nnodes * max_dim] stops the model when it exceeds [INT_MAX],
    and a [Real] is the exact decimal of the file (rounding to binary64 and
    the range of a double are not modelled).  Integers of the VTK files are [Z]s of a fixed width in two's
    complement, and the reader's sizes keep C++'s widths: the [LO]
    product [nents * ncomps] wraps at 32 bits and
    [std::size_t(size) * sizeof(T)] at 64, and [HostWrite<T>(size)] with
    a negative size stops the reader.  The VTK round trips assume what the code assumes: fewer
    than [2^27] entities (so [I32] offsets and counts do not wrap), fewer
    than [2^60] bytes per array (so the [size_t] header does not wrap), at
    most [INT_MAX] steps and ranks (so their printed numbers are
    distinct).  The two adaptation loops are [do_while] loops with explicit
    fuel; the termination theorems give a fuel bound (one more than a
    measure that every accepted operator decreases) after which the loop
    returns, and the result does not depend on any larger fuel.  The loop
    of [seek_line] gets the length of the stream plus one as fuel, which is
    enough because every line consumes a character; the tag loop of
    [read_vtu] gets one more than the length of the stream, enough because
    every tag read consumes at least one item; the loop of [read_pvd]
    likewise gets one more than the length of the [.pvd] text.

    ** What modelling showed

    The verbosity levels are not cumulative at [EXTRA_STATS] (C35) and the
    input-quality warning ignores [SILENT] (C34); a candidate edge without
    cells is predicted 1 ([candidate_quality_no_cells]); [gmsh::read]
    copies coordinates up to [mesh.dim()] instead of the dimension it
    computed, so on a fresh mesh no coordinate is written (C30); duplicate
    point entities race in the vertex classification, and an out-of-range
    node number writes out of bounds (C31); [gmsh::read] never tests the
    stream after the [$Elements] loop, so a file cut in the node list of
    its last element is read with the last node number repeated (C32,
    [read_cut_file_degenerate]).  [FullWriter] writes edge files that
    [read_vtu] rejects (C23); the face file of a 3D mesh loses z
    ([read_vtu_face_coords]); a padded 2-vector tag comes back with 3
    components (C12); [read_tag] multiplies [nents * ncomps] in 32 bits
    without checking [NumberOfComponents], so the byte-count [CHECK] can be
    passed by a file whose size wraps ([read_tag_lo_overflow]), also with a
    negative number of components; on a 1D mesh the [.pvtu] declares 3 components for a
    field the pieces write with 1 ([write_p_tag_edge_mesh_mismatch]);
    the [.pvtu] declares a [global] array whenever the tag exists, the
    pieces only when it is visible, and on several ranks [read_vtu]
    requires it, so a mesh without a visible [global] tag is written in
    a form that cannot be read back (C13).  The times [read_pvd] returns are
    what [std::stod] reads from the text [operator<<] printed at its
    default precision, not the times written (C20), and one time
    [std::stod] rejects (a subnormal one, with libstdc++) makes [read_pvd]
    fail on the collection of its own [Writer] (C21).

    ** Not modelled

    The mesh data structure, its adjacency construction ([find_matches],
    [build_from_elems_and_coords], [build_from_elems2verts]), tags and the
    distributed communicator (outside [src/]), in particular the checks
    [Mesh::add_tag] makes of the tags the readers hand it, and the
    communication of [sync_subset_array]; the four mesh operators
    (only their contract is used); printing formats and timing; the XML
    tokenizer, base64 and zlib themselves (classes with laws); [std::stod]
    and the printing of a [Real] time (parameters); an [std::ifstream]
    opened on a path that holds no text (in the store only a text file is
    a readable stream); the
    unity build file and the two declarations of simplify.hpp, which have
    no behaviour. *)

From Stdlib Require Import List Arith Lia Bool.
From Stdlib Require String.
Import ListNotations.

Declare Scope omegah_scope.
Delimit Scope omegah_scope with oh.
Open Scope omegah_scope.

Create HintDb omegah.
Create Rewrite HintDb omegah_rw.

(** ** The outcome monad

    A computation over a state [S] either finishes with a value and a new
    state, aborts (a failed [CHECK] or [fail]: the program stops, the state
    reached is kept for inspection), or exhausts the fuel of a loop. *)

Inductive outcome (S A : Type) : Type :=
| Ok (a : A) (s : S)
| Abort (why : String.string) (s : S)
| OutOfFuel.

Arguments Ok {S A} a s.
Arguments Abort {S A} why s.
Arguments OutOfFuel {S A}.

Definition comp (S A : Type) : Type := S -> outcome S A.

Definition ret {S A : Type} (a : A) : comp S A := fun s => Ok a s.

Definition bind {S A B : Type} (c : comp S A) (k : A -> comp S B) : comp S B :=
  fun s => match c s with
           | Ok a s' => k a s'
           | Abort w s' => Abort w s'
           | OutOfFuel => OutOfFuel
           end.

Notation "x <- c ;; k" := (bind c (fun x => k))
  (at level 61, c at next level, right associativity) : omegah_scope.
Notation "c ;; k" := (bind c (fun _ => k))
  (at level 61, right associativity) : omegah_scope.
Notation "' p <- c ;; k" := (bind c (fun x => match x with p => k end))
  (at level 61, p pattern, c at next level, right associativity) : omegah_scope.

(** [when b c] runs [c] only if [b] holds: C++'s [if (b) c;]. *)
Definition when {S : Type} (b : bool) (c : comp S unit) : comp S unit :=
  if b then c else ret tt.

Lemma bind_ok {S A B} (c : comp S A) (k : A -> comp S B) s a s' :
  c s = Ok a s' -> bind c k s = k a s'.
Proof. intros H. unfold bind. now rewrite H. Qed.

Lemma bind_ret {S A B} (a : A) (k : A -> comp S B) s :
  bind (ret a) k s = k a s.
Proof. reflexivity. Qed.

Lemma bind_assoc {S A B C} (c : comp S A) (k : A -> comp S B) (h : B -> comp S C) s :
  bind (bind c k) h s = bind c (fun a => bind (k a) h) s.
Proof. unfold bind. destruct (c s); reflexivity. Qed.

#[export] Hint Rewrite @bind_ret @bind_assoc : omegah_rw.

Lemma bind_inv {S A B} (c : comp S A) (k : A -> comp S B) s b s' :
  bind c k s = Ok b s' -> exists a s1, c s = Ok a s1 /\ k a s1 = Ok b s'.
Proof. unfold bind. destruct (c s); try discriminate. eauto. Qed.

Lemma bind_abort {S A B} (c : comp S A) (k : A -> comp S B) s w s' :
  c s = Abort w s' -> bind c k s = Abort w s'.
Proof. intros H. unfold bind. now rewrite H. Qed.

(** Lists of output written piece by piece, put in the form
    [x :: rest] or [piece ++ rest] a reader consumes. *)
Ltac norm_app :=
  repeat first [rewrite <- app_assoc | rewrite <- app_comm_cons | rewrite app_nil_l].

(** One step of a reader over what a writer wrote: [t] proves that the
    first reader of the sequence consumes its piece. *)
Tactic Notation "rd" tactic3(t) := norm_app; erewrite bind_ok by t; cbv beta iota zeta.

(** [c] finishes from every state. *)
Definition total {S A : Type} (c : comp S A) : Prop :=
  forall s, exists a s', c s = Ok a s'.

Lemma total_ret {S A} (a : A) : total (S := S) (ret a).
Proof. intros s. eauto. Qed.

Lemma total_bind {S A B} (c : comp S A) (k : A -> comp S B) :
  total c -> (forall a, total (k a)) -> total (bind c k).
Proof.
  intros Hc Hk s. destruct (Hc s) as (a & s1 & E).
  destruct (Hk a s1) as (b & s2 & E2). exists b, s2. unfold bind. now rewrite E.
Qed.

Lemma total_when {S} b (c : comp S unit) : total c -> total (when b c).
Proof. destruct b; [auto | intros _; apply total_ret]. Qed.

(** [CHECK(cond)]: abort with the text of the condition. *)
Definition check {S : Type} (b : bool) (what : String.string) : comp S unit :=
  fun s => if b then Ok tt s else Abort what s.

(** [Omega_h_fail] and the like: stop with a message. *)
Definition abort {S A : Type} (why : String.string) : comp S A := fun s => Abort why s.

(** A sequence of [CHECK]s, in order. *)
Fixpoint checks {S : Type} (l : list (bool * String.string)) : comp S unit :=
  match l with
  | [] => ret tt
  | (b, what) :: l' => check b what ;; checks l'
  end.

Lemma checks_pass {S : Type} l (s : S) :
  forallb fst l = true -> checks l s = Ok tt s.
Proof.
  induction l as [|[b w] l IH]; simpl; [reflexivity|].
  intros Hb. apply andb_true_iff in Hb as [-> Hl]. apply IH, Hl.
Qed.

(** A failing [CHECK] aborts in the state it was reached in. *)
Lemma checks_fail {S : Type} l (s : S) :
  forallb fst l = false -> exists w, checks l s = Abort w s.
Proof.
  induction l as [|[b w] l IH]; simpl; [discriminate|].
  unfold bind, check. destruct b; simpl; [apply IH | eauto].
Qed.

Lemma check_ok {S : Type} b w (s s' : S) u : check b w s = Ok u s' -> b = true /\ s' = s.
Proof. unfold check. destruct b; intros H; inversion H; auto. Qed.

Lemma check_abort {S : Type} w (s : S) : check false w s = Abort w s.
Proof. reflexivity. Qed.

(** Invert a computation that finished: split every [bind] into its two
    halves, and read off [ret] and passing [CHECK]s. *)
Ltac ok_inv :=
  repeat match goal with
  | H : bind _ _ _ = Ok _ _ |- _ =>
      let a := fresh "a" in let s := fresh "s" in
      let H1 := fresh "H" in let H2 := fresh "H" in
      destruct (bind_inv _ _ _ _ _ H) as (a & s & H1 & H2); clear H; cbv beta in H2
  | H : check _ _ _ = Ok _ _ |- _ => apply check_ok in H as [? ?]; subst
  | H : ret _ _ = Ok _ _ |- _ => inversion H; subst; clear H
  end.

(** ** The do-while loop

    [do_while fuel body] runs [body] and repeats while it returns [true]:
    C++'s [do { ... } while (cond);] where [body] computes the iteration and
    the condition.  Each iteration costs one unit of fuel. *)

Fixpoint do_while {S : Type} (fuel : nat) (body : comp S bool) : comp S unit :=
  match fuel with
  | O => fun _ => OutOfFuel
  | S f => fun s =>
      match body s with
      | Ok true s' => do_while f body s'
      | Ok false s' => Ok tt s'
      | Abort w s' => Abort w s'
      | OutOfFuel => OutOfFuel
      end
  end.

Section DoWhile.
Context {S : Type} (body : comp S bool).

(** More fuel does not change a result that was reached. *)
Lemma do_while_more_fuel fuel s r :
  do_while fuel body s = r -> r <> OutOfFuel ->
  forall fuel', fuel <= fuel' -> do_while fuel' body s = r.
Proof.
  revert s. induction fuel as [|f IH]; intros s Hr Hne fuel' Hle; simpl in Hr.
  - subst. congruence.
  - destruct fuel' as [|f']; [lia|]. simpl.
    destruct (body s) as [[|] s'| w s'|]; try exact Hr.
    apply IH; auto. lia.
Qed.

(** The loop left on an iteration whose condition was false. *)
Lemma do_while_exit fuel s s' :
  do_while fuel body s = Ok tt s' -> exists s0, body s0 = Ok false s'.
Proof.
  revert s. induction fuel as [|f IH]; intros s H; simpl in H; [discriminate|].
  destruct (body s) as [[|] s1| w s1|] eqn:E; try discriminate.
  - exact (IH _ H).
  - inversion H; subst. eauto.
Qed.

(** Termination: if an invariant holds, [body] always finishes, keeps the
    invariant and decreases the measure when it asks for another round,
    then [mu s + 1] units of fuel are enough. *)
Variable Inv : S -> Prop.
Variable mu : S -> nat.
Hypothesis body_total : forall s, Inv s ->
  exists b s', body s = Ok b s' /\ Inv s' /\ (b = true -> mu s' < mu s).

Lemma do_while_terminates : forall fuel s, Inv s -> mu s < fuel ->
  exists s', do_while fuel body s = Ok tt s' /\ Inv s'.
Proof.
  induction fuel as [|f IH]; intros s Hs Hmu; [lia|].
  destruct (body_total s Hs) as (b & s' & Hb & Hs' & Hdec).
  simpl. rewrite Hb. destruct b.
  - apply IH; [exact Hs'|]. specialize (Hdec eq_refl). lia.
  - eauto.
Qed.
End DoWhile.

(** ** Arrays

    [get l i d] reads [l[i]]; out of range the C++ code has undefined
    behaviour, which the model replaces by the default [d]. *)

Definition get {A : Type} (l : list A) (i : nat) (d : A) : A := nth i l d.

Lemma get_in {A : Type} (l : list A) i d : i < length l -> In (get l i d) l.
Proof. apply nth_In. Qed.

Lemma get_map {A B : Type} (f : A -> B) (l : list A) i d :
  get (map f l) i (f d) = f (get l i d).
Proof. unfold get. apply map_nth. Qed.

(** [l[i] = x]; out of range the model leaves [l] unchanged. *)
Fixpoint set {A : Type} (l : list A) (i : nat) (x : A) : list A :=
  match l, i with
  | [], _ => []
  | _ :: t, O => x :: t
  | h :: t, S j => h :: set t j x
  end.

Lemma set_length {A : Type} (l : list A) i x : length (set l i x) = length l.
Proof. revert i. induction l as [|h t IH]; intros [|j]; simpl; auto. Qed.

Lemma get_set_eq {A : Type} (l : list A) i x d : i < length l -> get (set l i x) i d = x.
Proof.
  unfold get. revert i. induction l as [|h t IH]; intros [|j] Hi; simpl in *; try lia; auto.
  all: apply IH; lia.
Qed.

Lemma get_set_ne {A : Type} (l : list A) i j x d : i <> j -> get (set l i x) j d = get l j d.
Proof.
  unfold get. revert i j. induction l as [|h t IH]; intros [|i] [|j] Hij; simpl; auto; try lia.
  all: apply IH; lia.
Qed.

Lemma get_repeat {A : Type} (x d : A) n i : i < n -> get (repeat x n) i d = x.
Proof. unfold get. revert i. induction n as [|n IH]; intros [|i] Hi; simpl; try lia; auto. apply IH. lia. Qed.

Lemma set_app_r {A : Type} (l1 l2 : list A) i x :
  set (l1 ++ l2) (length l1 + i) x = l1 ++ set l2 i x.
Proof. induction l1 as [|h t IH]; simpl; [reflexivity|]. rewrite IH. reflexivity. Qed.

Lemma set_app_l {A : Type} (l1 l2 : list A) i x :
  i < length l1 -> set (l1 ++ l2) i x = set l1 i x ++ l2.
Proof.
  revert i. induction l1 as [|h t IH]; intros [|i] Hi; simpl in *; try lia; [reflexivity|].
  rewrite IH by lia. reflexivity.
Qed.

#[export] Hint Rewrite @set_length @length_app @length_map @repeat_length : omegah_rw.

(** ** Running minimum

    Omega_h's [min2(a, b)] is [(b < a) ? b : a] for any type with [<]; the
    evaluator folds it over the qualities of the new cells. *)

Section Min2.
Context {R : Type} (ltb : R -> R -> bool).

Definition min2 (a b : R) : R := if ltb b a then b else a.

Definition fold_min (init : R) (l : list R) : R := fold_left min2 l init.

(** The minimum is the initial value or one of the folded values. *)
Lemma fold_min_in init l : fold_min init l = init \/ In (fold_min init l) l.
Proof.
  unfold fold_min. revert init. induction l as [|x l IH]; intros init; simpl; [auto|].
  destruct (IH (min2 init x)) as [H|H]; [|auto].
  rewrite H. unfold min2. destruct (ltb x init); auto.
Qed.

Lemma fold_min_app init l1 l2 :
  fold_min init (l1 ++ l2) = fold_min (fold_min init l1) l2.
Proof. unfold fold_min. apply fold_left_app. Qed.

(** With a transitive, irreflexive [<] on a set [U] of values that holds
    the initial value and the folded ones, no folded value (and not the
    initial one) is below the result. *)
Section Lower.
Variable U : list R.
Hypothesis ltb_trans : forall x y z, In x U -> In y U -> In z U ->
  ltb x y = true -> ltb y z = true -> ltb x z = true.
Hypothesis ltb_irrefl : forall x, In x U -> ltb x x = false.

Lemma min2_in a b : In a U -> In b U -> In (min2 a b) U.
Proof. unfold min2. destruct (ltb b a); auto. Qed.

Lemma fold_min_lower_gen : forall l acc seen,
  incl l U -> In acc U -> incl seen U ->
  (forall x, In x seen -> ltb x acc = false) ->
  forall x, In x (seen ++ l) -> ltb x (fold_left min2 l acc) = false.
Proof.
  induction l as [|y l IH]; intros acc seen Hl Hacc Hseen Hlow x Hx; simpl.
  - rewrite app_nil_r in Hx. auto.
  - assert (Hy : In y U) by (apply Hl; simpl; auto).
    apply (IH (min2 acc y) (seen ++ [y])).
    + intros z Hz. apply Hl. simpl. auto.
    + apply min2_in; auto.
    + intros z Hz. apply in_app_or in Hz as [Hz|[<-|[]]]; auto.
    + intros z Hz. unfold min2.
      apply in_app_or in Hz as [Hz|[<-|[]]].
      * destruct (ltb y acc) eqn:Eya; [|auto].
        destruct (ltb z y) eqn:Ezy; [|reflexivity].
        pose proof (Hlow z Hz) as Hza.
        rewrite (ltb_trans z y acc) in Hza; auto.
      * destruct (ltb y acc) eqn:Eya; [apply ltb_irrefl; auto | exact Eya].
    + rewrite <- app_assoc. exact Hx.
Qed.

Lemma fold_min_lower init l :
  In init U -> incl l U ->
  forall x, In x (init :: l) -> ltb x (fold_min init l) = false.
Proof.
  intros Hi Hl x Hx. apply (fold_min_lower_gen l init [init]); auto.
  - intros z [<-|[]]; auto.
  - intros z [<-|[]]. auto.
Qed.
End Lower.

(** Boolean checks of the two hypotheses on a concrete set of values. *)
Definition transitive_on (U : list R) : bool :=
  forallb (fun x => forallb (fun y => forallb (fun z =>
    implb (ltb x y && ltb y z) (ltb x z)) U) U) U.

Definition irreflexive_on (U : list R) : bool := forallb (fun x => negb (ltb x x)) U.

Lemma transitive_on_spec U : transitive_on U = true ->
  forall x y z, In x U -> In y U -> In z U ->
    ltb x y = true -> ltb y z = true -> ltb x z = true.
Proof.
  unfold transitive_on. intros H x y z Hx Hy Hz Hxy Hyz.
  rewrite forallb_forall in H. specialize (H x Hx).
  rewrite forallb_forall in H. specialize (H y Hy).
  rewrite forallb_forall in H. specialize (H z Hz).
  rewrite Hxy, Hyz in H. exact H.
Qed.

Lemma irreflexive_on_spec U : irreflexive_on U = true -> forall x, In x U -> ltb x x = false.
Proof.
  unfold irreflexive_on. intros H x Hx. rewrite forallb_forall in H.
  apply negb_true_iff, H, Hx.
Qed.
End Min2.
