(* ===== verification/Text.v ===== *)
(** Characters, decimal numerals and strings, as the C and C++ standard
    libraries treat them: the C locale's [isspace] and [isdigit], the
    optional sign and the run of digits that [operator>>], [std::stoi]
    and [strtol] read, and the decimal printing of [operator<<] and
    [std::to_string] on integers, with the lemmas that relate them.  Used
    by the Gmsh reader and the VTK files. *)

From Stdlib Require Import ZArith List Lia Bool Ascii.
From Stdlib Require String.
From S2P Require Import Prelude.
Import ListNotations.

Local Open Scope Z_scope.

Abbreviation stream := String.string.

(** ** Characters *)

(** The C locale's [isspace]: space, tab, newline, vertical tab, form feed,
    carriage return. *)
Definition is_space (c : ascii) : bool :=
  let n := nat_of_ascii c in Nat.eqb n 32 || (Nat.leb 9 n && Nat.leb n 13).

Definition is_digit (c : ascii) : bool :=
  let n := nat_of_ascii c in Nat.leb 48 n && Nat.leb n 57.

Definition digit_val (c : ascii) : nat := nat_of_ascii c - 48.

Definition newline : ascii := ascii_of_nat 10.

Fixpoint skip_ws (s : stream) : stream :=
  match s with
  | String.String c s' => if is_space c then skip_ws s' else s
  | String.EmptyString => s
  end.

Fixpoint take_digits (s : stream) : list nat * stream :=
  match s with
  | String.String c s' =>
      if is_digit c then let '(ds, r) := take_digits s' in (digit_val c :: ds, r)
      else ([], s)
  | String.EmptyString => ([], s)
  end.

Definition digits_value (ds : list nat) : Z :=
  fold_left (fun acc d => acc * 10 + Z.of_nat d) ds 0.

(** An optional [-] or [+]. *)
Definition read_sign (s : stream) : Z * stream :=
  match s with
  | String.String c s' =>
      if Ascii.eqb c "-"%char then (-1, s')
      else if Ascii.eqb c "+"%char then (1, s') else (1, s)
  | String.EmptyString => (1, s)
  end.

(** [LO] and [Int] are 32-bit [int]s. *)
Definition INT_MIN : Z := - 2 ^ 31.
Definition INT_MAX : Z := 2 ^ 31 - 1.

(** The [int] at the head of a string, as [std::stoi] and [strtol]
    read it: white space, an optional sign, at least one digit, and a
    value that fits 32 bits. *)
Definition parse_int (s : stream) : option (Z * stream) :=
  let '(sg, s2) := read_sign (skip_ws s) in
  let '(ds, s3) := take_digits s2 in
  match ds with
  | [] => None
  | _ :: _ =>
      let v := sg * digits_value ds in
      if (INT_MIN <=? v) && (v <=? INT_MAX) then Some (v, s3) else None
  end.

(** ** Printing integers *)

(** The decimal digits of [0 <= n < 2 ^ fuel], most significant first. *)
Fixpoint zdigits (fuel : nat) (n : Z) : list nat :=
  match fuel with
  | O => []
  | S f => if n <? 10 then [Z.to_nat n] else zdigits f (n / 10) ++ [Z.to_nat (n mod 10)]
  end.

Definition digit_char (d : nat) : ascii := ascii_of_nat (48 + d).

Fixpoint string_of_digits (ds : list nat) : String.string :=
  match ds with
  | [] => String.EmptyString
  | d :: ds' => String.String (digit_char d) (string_of_digits ds')
  end.

(** An [int] as [operator<<] prints it. *)
Definition print_int (z : Z) : String.string :=
  if z <? 0 then String.String "-"%char (string_of_digits (zdigits 32 (- z)))
  else string_of_digits (zdigits 32 z).

(** ** Lemmas on the lexer *)

Lemma digits_value_app ds d :
  digits_value (ds ++ [d]) = digits_value ds * 10 + Z.of_nat d.
Proof. unfold digits_value. rewrite fold_left_app. reflexivity. Qed.

Lemma zdigits_spec fuel n :
  fuel <> 0%nat -> 0 <= n < 2 ^ Z.of_nat fuel ->
  zdigits fuel n <> [] /\ Forall (fun d => d < 10)%nat (zdigits fuel n) /\
  digits_value (zdigits fuel n) = n.
Proof.
  revert n. induction fuel as [|f IH]; intros n Hf Hn; [congruence|].
  rewrite Nat2Z.inj_succ, Z.pow_succ_r in Hn by lia. simpl.
  destruct (Z.ltb_spec n 10).
  - split; [discriminate|]. split; [constructor; [lia | constructor]|].
    unfold digits_value. simpl. lia.
  - destruct f as [|f]; [simpl in Hn; lia|].
    pose proof (Z.div_mod n 10 ltac:(lia)). pose proof (Z.mod_pos_bound n 10 ltac:(lia)).
    destruct (IH (n / 10)) as (_ & Hall & Hv); [discriminate | lia |].
    split; [|split].
    + intros E. apply app_eq_nil in E as [_ E]. discriminate.
    + apply Forall_app. split; [exact Hall|]. constructor; [|constructor].
      pose proof (Z.mod_pos_bound n 10). lia.
    + rewrite digits_value_app, Hv, Z2Nat.id by (pose proof (Z.mod_pos_bound n 10); lia).
      pose proof (Z.div_mod n 10 ltac:(lia)). lia.
Qed.

Lemma digit_char_is_digit d : (d < 10)%nat -> is_digit (digit_char d) = true.
Proof.
  intros Hd. unfold is_digit, digit_char. rewrite nat_ascii_embedding by lia.
  apply andb_true_iff. split; apply Nat.leb_le; lia.
Qed.

Lemma digit_val_char d : (d < 10)%nat -> digit_val (digit_char d) = d.
Proof. intros Hd. unfold digit_val, digit_char. rewrite nat_ascii_embedding by lia. lia. Qed.

(** The next character is not a digit (or there is none). *)
Definition starts_non_digit (s : stream) : bool :=
  match s with String.String c _ => negb (is_digit c) | String.EmptyString => true end.

Lemma take_digits_digits ds rest :
  Forall (fun d => d < 10)%nat ds -> starts_non_digit rest = true ->
  take_digits (String.append (string_of_digits ds) rest) = (ds, rest).
Proof.
  intros Hds Hr. induction Hds as [|d ds Hd _ IH]; cbn [string_of_digits String.append].
  - destruct rest as [|c rest]; [reflexivity|]. cbn [starts_non_digit] in Hr. cbn [take_digits].
    apply negb_true_iff in Hr. rewrite Hr. reflexivity.
  - cbn [take_digits]. rewrite digit_char_is_digit, IH, digit_val_char by exact Hd. reflexivity.
Qed.

Lemma digit_char_not_sign d :
  (d < 10)%nat ->
  is_space (digit_char d) = false /\ Ascii.eqb (digit_char d) "-"%char = false /\
  Ascii.eqb (digit_char d) "+"%char = false.
Proof.
  intros Hd. unfold is_space.
  assert (Hn : nat_of_ascii (digit_char d) = (48 + d)%nat)
    by (unfold digit_char; apply nat_ascii_embedding; lia).
  rewrite Hn. split; [|split].
  - apply orb_false_iff. split; [apply Nat.eqb_neq; lia|].
    apply andb_false_iff. right. apply Nat.leb_gt. lia.
  - destruct (Ascii.eqb_spec (digit_char d) "-"%char) as [E|]; [|reflexivity].
    apply (f_equal nat_of_ascii) in E. rewrite Hn in E. change (nat_of_ascii "-"%char) with 45%nat in E. lia.
  - destruct (Ascii.eqb_spec (digit_char d) "+"%char) as [E|]; [|reflexivity].
    apply (f_equal nat_of_ascii) in E. rewrite Hn in E. change (nat_of_ascii "+"%char) with 43%nat in E. lia.
Qed.

(** Reading the digits of [n] after a sign already consumed. *)
Lemma read_digits_value n rest :
  0 <= n < 2 ^ 32 -> starts_non_digit rest = true ->
  take_digits (String.append (string_of_digits (zdigits 32 n)) rest) = (zdigits 32 n, rest) /\
  zdigits 32 n <> [] /\ digits_value (zdigits 32 n) = n.
Proof.
  intros Hn Hr. destruct (zdigits_spec 32 n) as (Hne & Hall & Hv); [discriminate | exact Hn |].
  split; [apply take_digits_digits; assumption | auto].
Qed.

Lemma string_length_append s t :
  String.length (String.append s t) = (String.length s + String.length t)%nat.
Proof. induction s as [|c s IH]; cbn [String.append String.length]; lia. Qed.

Lemma string_eqb_refl s : String.eqb s s = true.
Proof. apply String.eqb_eq. reflexivity. Qed.


Lemma substring_app_prefix a b :
  String.substring 0 (String.length a) (String.append a b) = a.
Proof. induction a as [|c a IH]; cbn; [destruct b; reflexivity | rewrite IH; reflexivity]. Qed.

Lemma substring_all s : String.substring 0 (String.length s) s = s.
Proof. induction s as [|c s IH]; cbn; [reflexivity | rewrite IH; reflexivity]. Qed.

Lemma substring_app_suffix a b m :
  String.substring (String.length a) m (String.append a b) = String.substring 0 m b.
Proof. induction a as [|c a IH]; cbn; [reflexivity | exact IH]. Qed.

(** What [operator>>] and [std::stoi] see of a printed integer: a sign,
    then its digits, then what follows. *)
Lemma lex_print_int z rest :
  - 2 ^ 32 < z < 2 ^ 32 -> starts_non_digit rest = true ->
  exists sg ds s2, read_sign (skip_ws (String.append (print_int z) rest)) = (sg, s2) /\
    take_digits s2 = (ds, rest) /\ ds <> [] /\ sg * digits_value ds = z.
Proof.
  intros Hz Hr. unfold print_int. destruct (Z.ltb_spec z 0) as [Hneg|Hpos].
  - destruct (read_digits_value (- z) rest) as (Ht & Hne & Hv); [lia | exact Hr |].
    cbn [String.append skip_ws]. change (is_space "-"%char) with false.
    cbn [read_sign]. change (Ascii.eqb "-"%char "-"%char) with true. cbv iota beta.
    do 3 eexists. split; [reflexivity|]. split; [exact Ht|]. split; [exact Hne|]. rewrite Hv. lia.
  - destruct (read_digits_value z rest) as (Ht & Hne & Hv); [lia | exact Hr |].
    destruct (zdigits_spec 32 z) as (_ & Hall & _); [discriminate | lia |].
    destruct (zdigits 32 z) as [|d ds] eqn:Ed; [congruence|].
    apply Forall_inv in Hall.
    destruct (digit_char_not_sign d Hall) as (Hs & Hm & Hp).
    cbn [string_of_digits String.append skip_ws]. rewrite Hs.
    cbn [read_sign]. rewrite Hm, Hp.
    do 3 eexists. split; [reflexivity|]. split; [exact Ht|]. split; [exact Hne|]. rewrite Hv. lia.
Qed.

(** [std::stoi] and [strtol] read back a printed [int]. *)
Lemma parse_int_print z rest :
  - 2 ^ 32 < z < 2 ^ 32 -> starts_non_digit rest = true ->
  parse_int (String.append (print_int z) rest) =
  if (INT_MIN <=? z) && (z <=? INT_MAX) then Some (z, rest) else None.
Proof.
  intros Hz Hr. destruct (lex_print_int z rest Hz Hr) as (sg & ds & s2 & E1 & E2 & Hne & Hv).
  unfold parse_int. rewrite E1, E2. destruct ds; [congruence|]. rewrite Hv. reflexivity.
Qed.

Lemma string_append_nil_r s : String.append s String.EmptyString = s.
Proof. induction s as [|c s IH]; cbn; [reflexivity | rewrite IH; reflexivity]. Qed.

Lemma string_append_assoc a b c :
  String.append a (String.append b c) = String.append (String.append a b) c.
Proof. induction a as [|x a IH]; cbn; [reflexivity | rewrite IH; reflexivity]. Qed.

Lemma string_append_cancel_l a b c : String.append a b = String.append a c -> b = c.
Proof. induction a as [|x a IH]; cbn; [auto | intros H; injection H; auto]. Qed.

(** Distinct [int]s print differently, also when followed by text that
    does not start with a digit. *)
Lemma print_int_inj z1 z2 r1 r2 :
  INT_MIN <= z1 <= INT_MAX -> INT_MIN <= z2 <= INT_MAX ->
  starts_non_digit r1 = true -> starts_non_digit r2 = true ->
  String.append (print_int z1) r1 = String.append (print_int z2) r2 -> z1 = z2 /\ r1 = r2.
Proof.
  intros H1 H2 N1 N2 E. unfold INT_MIN, INT_MAX in *.
  pose proof (parse_int_print z1 r1 ltac:(lia) N1) as P1.
  pose proof (parse_int_print z2 r2 ltac:(lia) N2) as P2.
  rewrite E in P1. rewrite P1 in P2. unfold INT_MIN, INT_MAX in P1, P2.
  replace ((-2 ^ 31 <=? z1) && (z1 <=? 2 ^ 31 - 1)) with true in P2
    by (symmetry; apply andb_true_iff; split; [apply Z.leb_le | apply Z.leb_le]; lia).
  replace ((-2 ^ 31 <=? z2) && (z2 <=? 2 ^ 31 - 1)) with true in P2
    by (symmetry; apply andb_true_iff; split; [apply Z.leb_le | apply Z.leb_le]; lia).
  injection P2. auto.
Qed.

(** ** Lines *)

(** The characters up to the next newline, and the rest after it. *)
Fixpoint break_line (s : stream) : String.string * stream :=
  match s with
  | String.EmptyString => (String.EmptyString, String.EmptyString)
  | String.String c s' =>
      if Ascii.eqb c newline then (String.EmptyString, s')
      else let '(l, r) := break_line s' in (String.String c l, r)
  end.

(** [std::getline]: fails only when no character is left. *)
Definition getline (s : stream) : option (String.string * stream) :=
  match s with
  | String.EmptyString => None
  | _ => Some (break_line s)
  end.

(** Whether a string holds a newline. *)
Fixpoint has_nl (s : String.string) : bool :=
  match s with
  | String.EmptyString => false
  | String.String c s' => Ascii.eqb c newline || has_nl s'
  end.

(** Lines [ls], each followed by a newline, then [last]. *)
Fixpoint unlines (ls : list String.string) (last : stream) : stream :=
  match ls with
  | [] => last
  | l :: ls' => String.append l (String.String newline (unlines ls' last))
  end.

Lemma break_line_app l r :
  has_nl l = false -> break_line (String.append l (String.String newline r)) = (l, r).
Proof.
  induction l as [|c l IH]; intros H; cbn [String.append break_line].
  - rewrite Ascii.eqb_refl. reflexivity.
  - cbn [has_nl] in H. apply orb_false_iff in H as [Hc Hl]. rewrite Hc, IH by exact Hl. reflexivity.
Qed.

Lemma break_line_spec s :
  let '(l, r) := break_line s in
  has_nl l = false /\
  (s = String.append l (String.String newline r) \/ (r = String.EmptyString /\ s = l)).
Proof.
  induction s as [|c s IH]; cbn [break_line]; [auto|].
  destruct (Ascii.eqb_spec c newline) as [->|Hc]; [auto|].
  destruct (break_line s) as [l r]. destruct IH as [Hl [-> | [-> ->]]]; cbn [has_nl];
    (split; [apply orb_false_iff; split; [apply Ascii.eqb_neq; exact Hc | exact Hl]|]); auto.
Qed.

Lemma length_unlines ls last :
  (length ls + String.length last <= String.length (unlines ls last))%nat.
Proof.
  induction ls as [|l ls IH]; cbn [unlines length]; [lia|].
  rewrite string_length_append. cbn [String.length]. lia.
Qed.

Lemma getline_app l r :
  has_nl l = false -> getline (String.append l (String.String newline r)) = Some (l, r).
Proof.
  intros H. unfold getline. rewrite <- (break_line_app l r H).
  destruct l; reflexivity.
Qed.
