(* ===== verification/Opts.v ===== *)
(** Adaptation options: the [Verbosity] levels, the [AdaptOpts] record, its
    constructor from the mesh dimension and the invariant that [validate]
    checks (src/src/adapt.cpp, lines 16-32 and 105-110).  Reals are binary64
    floats. *)

From Stdlib Require Import ZArith Bool List PrimFloat.
From Stdlib Require String.
Import String.StringSyntax.
Local Open Scope string_scope.
Import ListNotations.
From S2P Require Import Prelude.

Set Warnings "-inexact-float".

(** ** Verbosity

    [enum Verbosity { SILENT, EACH_REBUILD, EACH_ADAPT, EXTRA_STATS }]: an
    ordered enumeration compared with [<], [>=], [==] in adapt.cpp. *)

Inductive Verbosity : Set := SILENT | EACH_REBUILD | EACH_ADAPT | EXTRA_STATS.

Definition verbosity_level (v : Verbosity) : nat :=
  match v with SILENT => 0 | EACH_REBUILD => 1 | EACH_ADAPT => 2 | EXTRA_STATS => 3 end.

Definition Verbosity_eq_dec (a b : Verbosity) : {a = b} + {a <> b}.
Proof. decide equality. Defined.

(** [a >= b], [a > b] and [a == b] on the enumeration's integer values. *)
Definition verb_ge (a b : Verbosity) : bool := Nat.leb (verbosity_level b) (verbosity_level a).
Definition verb_gt (a b : Verbosity) : bool := Nat.ltb (verbosity_level b) (verbosity_level a).
Definition verb_eq (a b : Verbosity) : bool := Nat.eqb (verbosity_level a) (verbosity_level b).

Lemma verbosity_level_inj a b : verbosity_level a = verbosity_level b -> a = b.
Proof. destruct a, b; simpl; congruence. Qed.

Lemma verb_eq_iff a b : verb_eq a b = true <-> a = b.
Proof.
  unfold verb_eq. rewrite Nat.eqb_eq. split; [apply verbosity_level_inj | now intros ->].
Qed.

Lemma verb_gt_silent v : verb_gt v SILENT = negb (verb_eq v SILENT).
Proof. destruct v; reflexivity. Qed.

Lemma verb_ge_silent v : verb_ge v SILENT = true.
Proof. destruct v; reflexivity. Qed.

#[export] Hint Rewrite verb_gt_silent verb_ge_silent : omegah_rw.

(** ** The options record *)

Record AdaptOpts : Set := mkAdaptOpts {
  min_length_desired : float;
  max_length_desired : float;
  max_length_allowed : float;
  min_quality_allowed : float;
  min_quality_desired : float;
  nsliver_layers : Z;
  verbosity : Verbosity;
  length_histogram_min : float;
  length_histogram_max : float
}.

(** [ArithTraits<Real>::max()], the largest finite double. *)
Definition real_max : float := 0x1.fffffffffffffp+1023%float.

(** [AdaptOpts::AdaptOpts(Mesh* mesh)].  The quality thresholds are set only
    for dimensions 3 and 2; for any other dimension the two members are left
    uninitialized, which the model makes explicit with the arbitrary values
    [indet_allowed] and [indet_desired] they happen to hold. *)
Definition AdaptOpts_of_dim (dim : Z) (indet_allowed indet_desired : float) : AdaptOpts :=
  let '(qa, qd) :=
    if Z.eqb dim 3 then (0.20%float, 0.30%float)
    else if Z.eqb dim 2 then (0.30%float, 0.40%float)
    else (indet_allowed, indet_desired) in
  {| min_length_desired := (1.0 / PrimFloat.sqrt 2.0)%float;
     max_length_desired := PrimFloat.sqrt 2.0%float;
     max_length_allowed := real_max;
     min_quality_allowed := qa;
     min_quality_desired := qd;
     nsliver_layers := 4%Z;
     verbosity := EACH_REBUILD;
     length_histogram_min := 0.0%float;
     length_histogram_max := 3.0%float |}.

(** ** The invariant checked by [validate]

    The five [CHECK]s of [validate], in the order of the code; [CHECK]
    aborts on the first that fails.  Comparisons are the float ones, so a
    NaN threshold fails them. *)
Definition opts_checks (o : AdaptOpts) : list (bool * String.string) :=
  [ (PrimFloat.leb 0.0%float (min_quality_allowed o), "0.0 <= opts.min_quality_allowed");
    (PrimFloat.leb (min_quality_allowed o) (min_quality_desired o),
       "opts.min_quality_allowed <= opts.min_quality_desired");
    (PrimFloat.leb (min_quality_desired o) 1.0%float, "opts.min_quality_desired <= 1.0");
    (Z.leb 0 (nsliver_layers o), "opts.nsliver_layers >= 0");
    (Z.ltb (nsliver_layers o) 100, "opts.nsliver_layers < 100") ].

Definition opts_valid (o : AdaptOpts) : bool :=
  List.forallb fst (opts_checks o).

Lemma opts_valid_nsliver o :
  opts_valid o = true -> (0 <= nsliver_layers o < 100)%Z.
Proof.
  unfold opts_valid, opts_checks. simpl.
  rewrite !andb_true_iff, Z.leb_le, Z.ltb_lt. tauto.
Qed.
