(* ===== verification/Controller.v ===== *)
(** The adaptation controller of src/src/adapt.cpp (lines 34-201).

    The distributed mesh is abstract: the class [MeshOps] gives the global
    statistics the controller reduces, the collective counts of
    [goal_stats], and the four mesh operators ([refine_by_size],
    [coarsen_by_size], [swap_edges], [coarsen_slivers]), each returning
    whether it changed the mesh.  The controller runs in the outcome monad
    of [Prelude] over a state holding the mesh and a log of [event]s: every
    collective call ([Coll]) and every line rank 0 prints ([Say]).  The rank
    of the calling process is an argument of every operation. *)

From Stdlib Require Import ZArith Bool List Lia PrimFloat.
From S2P Require Import Prelude Opts.
Import ListNotations.

Set Warnings "-inexact-float".

(** ** Data of the controller *)

(** The two fields the statistics are taken of ([ask_qualities],
    [ask_lengths]). *)
Inductive field : Set := Qualities | Lengths.

(** Entity dimensions as in Omega_h: [VERT = 0], [EDGE = 1]. *)
Definition VERT : nat := 0.
Definition EDGE : nat := 1.

Inductive operator : Set := RefineBySize | CoarsenBySize | SwapEdges | CoarsenSlivers.

(** Collective operations: every rank must call them in the same order. *)
Inductive collective : Set :=
| AllreduceMin (f : field)
| AllreduceMax (f : field)
| CountOwnedBelow (ent_dim : nat) (f : field) (floor : float)
| CountOwnedAbove (ent_dim : nat) (f : field) (ceil : float)
| NGlobalEnts (ent_dim : nat)
| GetHistogram (ent_dim : nat) (f : field) (lo hi : float)
| Operator (op : operator) (changed : bool).

(** What rank 0 prints. *)
Inductive message : Set :=
| MsgWarnQuality (mq allowed : float)
| MsgBeforeAdapting
| MsgMeshGood (minq maxq minl maxl : float)
| MsgGoalStats (f : field) (ntotal nlow nmid nhigh : Z)
| MsgHistogram (f : field)
| MsgAddressingLengths
| MsgAddressingQualities
| MsgCouldNotSatisfy
| MsgAfterAdapting
| MsgLengthsTook
| MsgQualitiesTook
| MsgAdaptingTook.

Inductive event : Set :=
| Coll (c : collective)
| Say (m : message).

(** ** The mesh collaborator

    The statistics are the globally reduced values, identical on every
    rank; the operators act on the whole distributed mesh. *)
Class MeshOps (M : Type) := {
  mesh_dim : M -> nat;
  stat_min : M -> field -> float;
  stat_max : M -> field -> float;
  count_below : M -> nat -> field -> float -> Z;
  count_above : M -> nat -> field -> float -> Z;
  nglobal_ents : M -> nat -> Z;
  apply_operator : operator -> M -> AdaptOpts -> bool * M
}.

Section Controller.
Context {M : Type} {MO : MeshOps M}.

Record AState : Type := mkAState { st_mesh : M; st_log : list event }.

Local Abbreviation CM := (comp AState).

Definition emit (e : event) : CM unit :=
  fun s => Ok tt (mkAState (st_mesh s) (st_log s ++ [e])).

(** A collective query: logged, answered from the global mesh. *)
Definition collect {A : Type} (c : collective) (q : M -> A) : CM A :=
  fun s => Ok (q (st_mesh s)) (mkAState (st_mesh s) (st_log s ++ [Coll c])).

(** Read the (local view of the) mesh, e.g. [mesh->dim()]. *)
Definition with_mesh {A : Type} (f : M -> CM A) : CM A :=
  fun s => f (st_mesh s) s.

(** [if (!mesh->comm()->rank()) std::cout << ...]. *)
Definition say (rank : Z) (m : message) : CM unit :=
  when (Z.eqb rank 0) (emit (Say m)).

(** One of the mesh operators, a collective call that may change the mesh. *)
Definition run_operator (op : operator) (opts : AdaptOpts) : CM bool :=
  fun s => let '(changed, m') := apply_operator op (st_mesh s) opts in
           Ok changed (mkAState m' (st_log s ++ [Coll (Operator op changed)])).

(** [mesh->min_quality()]: an allreduce of the minimum quality. *)
Definition min_quality : CM float :=
  collect (AllreduceMin Qualities) (fun m => stat_min m Qualities).

(** [get_minmax] (lines 63-67). *)
Definition get_minmax (f : field) : CM (float * float) :=
  lo <- collect (AllreduceMin f) (fun m => stat_min m f) ;;
  hi <- collect (AllreduceMax f) (fun m => stat_max m f) ;;
  ret (lo, hi).

(** [goal_stats] (lines 34-61): two collective counts of owned marks, a
    global count, then rank 0 prints. *)
Definition goal_stats (rank : Z) (f : field) (ent_dim : nat)
    (floor ceil minval maxval : float) : CM unit :=
  nlow <- collect (CountOwnedBelow ent_dim f floor) (fun m => count_below m ent_dim f floor) ;;
  nhigh <- collect (CountOwnedAbove ent_dim f ceil) (fun m => count_above m ent_dim f ceil) ;;
  ntotal <- collect (NGlobalEnts ent_dim) (fun m => nglobal_ents m ent_dim) ;;
  let nmid := (ntotal - nlow - nhigh)%Z in
  say rank (MsgGoalStats f ntotal nlow nmid nhigh).

(** [adapt_summary] (lines 69-75). *)
Definition adapt_summary (rank : Z) (opts : AdaptOpts)
    (minqual maxqual minlen maxlen : float) : CM unit :=
  with_mesh (fun m =>
    goal_stats rank Qualities (mesh_dim m) (min_quality_allowed opts)
      (min_quality_desired opts) minqual maxqual ;;
    goal_stats rank Lengths EDGE (min_length_desired opts)
      (max_length_desired opts) minlen maxlen).

(** The goal test of [adapt_check], boundary-inclusive. *)
Definition goals_met (opts : AdaptOpts) (minqual minlen maxlen : float) : bool :=
  PrimFloat.leb (min_quality_desired opts) minqual &&
  PrimFloat.leb (min_length_desired opts) minlen &&
  PrimFloat.leb maxlen (max_length_desired opts).

(** [adapt_check] (lines 77-94). *)
Definition adapt_check (rank : Z) (opts : AdaptOpts) : CM bool :=
  '(minqual, maxqual) <- get_minmax Qualities ;;
  '(minlen, maxlen) <- get_minmax Lengths ;;
  if goals_met opts minqual minlen maxlen then
    when (verb_gt (verbosity opts) SILENT)
      (say rank (MsgMeshGood minqual maxqual minlen maxlen)) ;;
    ret true
  else
    when (verb_gt (verbosity opts) SILENT)
      (adapt_summary rank opts minqual maxqual minlen maxlen) ;;
    ret false.

(** [do_histograms] (lines 96-103): the length histogram is taken over
    [VERT] entities although the lengths are per edge. *)
Definition do_histograms (rank : Z) (opts : AdaptOpts) : CM unit :=
  with_mesh (fun m =>
    collect (GetHistogram (mesh_dim m) Qualities 0.0%float 1.0%float) (fun _ => tt) ;;
    say rank (MsgHistogram Qualities) ;;
    collect (GetHistogram VERT Lengths (length_histogram_min opts)
               (length_histogram_max opts)) (fun _ => tt) ;;
    say rank (MsgHistogram Lengths)).

(** [validate] (lines 105-116): the five [CHECK]s of [opts_checks], then
    a collective minimum quality and a warning that is not gated by the
    verbosity. *)
Definition validate (rank : Z) (opts : AdaptOpts) : CM unit :=
  checks (opts_checks opts) ;;
  mq <- min_quality ;;
  when (PrimFloat.ltb mq (min_quality_allowed opts) && Z.eqb rank 0)
    (emit (Say (MsgWarnQuality mq (min_quality_allowed opts)))).

(** [pre_adapt] (lines 118-129): [false] when the mesh already meets the
    goals and nothing is to be done. *)
Definition pre_adapt (rank : Z) (opts : AdaptOpts) : CM bool :=
  validate rank opts ;;
  when (verb_ge (verbosity opts) EACH_ADAPT) (say rank MsgBeforeAdapting) ;;
  good <- adapt_check rank opts ;;
  if good then ret false
  else
    when (verb_ge (verbosity opts) EXTRA_STATS) (do_histograms rank opts) ;;
    when (verb_ge (verbosity opts) EACH_REBUILD) (say rank MsgAddressingLengths) ;;
    ret true.

(** [post_rebuild] (lines 131-133). *)
Definition post_rebuild (rank : Z) (opts : AdaptOpts) : CM unit :=
  when (verb_ge (verbosity opts) EACH_REBUILD) (adapt_check rank opts ;; ret tt).

(** One pass of the do-while loop of [satisfy_lengths] (lines 135-148);
    the value is [did_anything], the loop condition. *)
Definition lengths_pass (rank : Z) (opts : AdaptOpts) : CM bool :=
  r <- run_operator RefineBySize opts ;;
  when r (post_rebuild rank opts) ;;
  c <- run_operator CoarsenBySize opts ;;
  when c (post_rebuild rank opts) ;;
  ret (r || c).

Definition satisfy_lengths (fuel : nat) (rank : Z) (opts : AdaptOpts) : CM unit :=
  do_while fuel (lengths_pass rank opts).

(** The condition of the do-while of [satisfy_quality], evaluated after a
    [continue] or at the end of the body. *)
Definition quality_cond (opts : AdaptOpts) : CM bool :=
  mq <- min_quality ;;
  ret (PrimFloat.ltb mq (min_quality_desired opts)).

(** One pass of the do-while loop of [satisfy_quality] (lines 155-168):
    swap, else coarsen slivers, else report and [break]. *)
Definition quality_pass (rank : Z) (opts : AdaptOpts) : CM bool :=
  sw <- run_operator SwapEdges opts ;;
  if sw then post_rebuild rank opts ;; quality_cond opts
  else
    cs <- run_operator CoarsenSlivers opts ;;
    if cs then post_rebuild rank opts ;; quality_cond opts
    else
      when (verb_gt (verbosity opts) SILENT) (say rank MsgCouldNotSatisfy) ;;
      ret false.

(** [satisfy_quality] (lines 150-169). *)
Definition satisfy_quality (fuel : nat) (rank : Z) (opts : AdaptOpts) : CM unit :=
  mq <- min_quality ;;
  if PrimFloat.leb (min_quality_desired opts) mq then ret tt
  else
    when (verb_ge (verbosity opts) EACH_REBUILD) (say rank MsgAddressingQualities) ;;
    do_while fuel (quality_pass rank opts).

(** [post_adapt] (lines 171-189); timings are not modelled, only the
    lines that report them. *)
Definition post_adapt (rank : Z) (opts : AdaptOpts) : CM unit :=
  when (verb_eq (verbosity opts) EACH_ADAPT)
    (say rank MsgAfterAdapting ;; adapt_check rank opts ;; ret tt) ;;
  when (verb_ge (verbosity opts) EXTRA_STATS) (do_histograms rank opts) ;;
  when (verb_gt (verbosity opts) SILENT) (say rank MsgLengthsTook) ;;
  when (verb_gt (verbosity opts) SILENT) (say rank MsgQualitiesTook) ;;
  when (verb_gt (verbosity opts) SILENT) (say rank MsgAdaptingTook).

(** [adapt] (lines 191-201); [fuel] bounds each of the two loops. *)
Definition adapt (fuel : nat) (rank : Z) (opts : AdaptOpts) : CM bool :=
  go <- pre_adapt rank opts ;;
  if negb go then ret false
  else
    satisfy_lengths fuel rank opts ;;
    satisfy_quality fuel rank opts ;;
    post_adapt rank opts ;;
    ret true.

(** ** Lemma library of the controller *)

(** The collective calls of a log, in order. *)
Fixpoint collectives (l : list event) : list collective :=
  match l with
  | [] => []
  | Coll c :: l' => c :: collectives l'
  | Say _ :: l' => collectives l'
  end.

Lemma collectives_app l1 l2 :
  collectives (l1 ++ l2) = collectives l1 ++ collectives l2.
Proof. induction l1 as [|[c|m] l1 IH]; simpl; congruence. Qed.

(** Two runs are in lockstep when they hold the same mesh and have made
    the same collective calls; what they printed may differ. *)
Definition same_run (s1 s2 : AState) : Prop :=
  st_mesh s1 = st_mesh s2 /\ collectives (st_log s1) = collectives (st_log s2).

Definition out_rel {A : Type} (o1 o2 : outcome AState A) : Prop :=
  match o1, o2 with
  | Ok a1 s1, Ok a2 s2 => a1 = a2 /\ same_run s1 s2
  | Abort w1 s1, Abort w2 s2 => w1 = w2 /\ same_run s1 s2
  | OutOfFuel, OutOfFuel => True
  | _, _ => False
  end.

Definition lockstep {A : Type} (c1 c2 : CM A) : Prop :=
  forall s1 s2, same_run s1 s2 -> out_rel (c1 s1) (c2 s2).

Lemma same_run_ext s1 s2 m l1 l2 :
  same_run s1 s2 -> collectives l1 = collectives l2 ->
  same_run (mkAState m (st_log s1 ++ l1)) (mkAState m (st_log s2 ++ l2)).
Proof.
  intros [_ Hc] Hl. split; [reflexivity|]. simpl.
  rewrite !collectives_app, Hc, Hl. reflexivity.
Qed.

Lemma lockstep_ret {A} (a : A) : lockstep (ret a) (ret a).
Proof. intros s1 s2 H. simpl. auto. Qed.

Lemma lockstep_bind {A B} (c1 c2 : CM A) (k1 k2 : A -> CM B) :
  lockstep c1 c2 -> (forall a, lockstep (k1 a) (k2 a)) ->
  lockstep (bind c1 k1) (bind c2 k2).
Proof.
  intros Hc Hk s1 s2 Hs. unfold bind.
  specialize (Hc s1 s2 Hs).
  destruct (c1 s1) as [a1 t1|w1 t1|], (c2 s2) as [a2 t2|w2 t2|];
    simpl in Hc; try contradiction.
  - destruct Hc as [<- Hc]. apply Hk, Hc.
  - exact Hc.
  - exact I.
Qed.

Lemma lockstep_when b (c1 c2 : CM unit) :
  lockstep c1 c2 -> lockstep (when b c1) (when b c2).
Proof. intros H. destruct b; [exact H | apply lockstep_ret]. Qed.

(** Printing never breaks the lockstep, whatever the conditions. *)
Lemma lockstep_print b1 b2 m1 m2 :
  lockstep (when b1 (emit (Say m1))) (when b2 (emit (Say m2))).
Proof.
  intros s1 s2 [Hm Hc]. unfold when, emit, ret.
  destruct b1, b2; simpl; (split; [reflexivity|]);
    unfold same_run; simpl; rewrite ?collectives_app; simpl;
    rewrite ?app_nil_r; auto.
Qed.

Lemma lockstep_say r1 r2 m1 m2 : lockstep (say r1 m1) (say r2 m2).
Proof. apply lockstep_print. Qed.

Lemma lockstep_when_say b r1 r2 m1 m2 :
  lockstep (when b (say r1 m1)) (when b (say r2 m2)).
Proof. apply lockstep_when, lockstep_say. Qed.

Lemma lockstep_collect {A} c (q : M -> A) : lockstep (collect c q) (collect c q).
Proof.
  intros s1 s2 Hs. simpl. destruct Hs as [Hm Hc] eqn:E. rewrite Hm.
  split; auto. apply same_run_ext; auto.
Qed.

Lemma lockstep_run_operator op o : lockstep (run_operator op o) (run_operator op o).
Proof.
  intros s1 s2 Hs. unfold run_operator. destruct Hs as [Hm Hc] eqn:E. rewrite Hm.
  destruct (apply_operator op (st_mesh s2) o). simpl. split; auto.
  apply same_run_ext; auto.
Qed.

Lemma lockstep_checks l : lockstep (checks l) (checks l).
Proof.
  induction l as [|[b w] l IH]; simpl; [apply lockstep_ret|].
  apply lockstep_bind; [|auto].
  intros s1 s2 Hs. unfold check. destruct b; simpl; auto.
Qed.

Lemma lockstep_do_while fuel (b1 b2 : CM bool) :
  lockstep b1 b2 -> lockstep (do_while fuel b1) (do_while fuel b2).
Proof.
  intros Hb. induction fuel as [|f IH]; intros s1 s2 Hs; simpl; [exact I|].
  specialize (Hb s1 s2 Hs).
  destruct (b1 s1) as [[|] ? | ? ? |], (b2 s2) as [[|] ? | ? ? |];
    simpl in Hb; try contradiction; try (destruct Hb; discriminate); auto.
  - apply IH, Hb.
  - destruct Hb; split; auto.
Qed.

(** Computations that read the mesh are in lockstep when their instances
    at the same mesh are. *)
Lemma lockstep_with_mesh {A} (f1 f2 : M -> CM A) :
  (forall m, lockstep (f1 m) (f2 m)) -> lockstep (with_mesh f1) (with_mesh f2).
Proof.
  intros H s1 s2 Hs. unfold with_mesh.
  destruct Hs as [Hm Hc] eqn:E. rewrite Hm. apply H. exact Hs.
Qed.

Ltac lockstep_step :=
  match goal with
  | |- lockstep (bind _ _) (bind _ _) => apply lockstep_bind; [| intros ?]
  | |- lockstep (when _ (say _ _)) (when _ (say _ _)) => apply lockstep_when_say
  | |- lockstep (when _ (emit (Say _))) (when _ (emit (Say _))) => apply lockstep_print
  | |- lockstep (when _ _) (when _ _) => apply lockstep_when
  | |- lockstep (say _ _) (say _ _) => apply lockstep_say
  | |- lockstep (ret _) (ret _) => apply lockstep_ret
  | |- lockstep (collect _ _) (collect _ _) => apply lockstep_collect
  | |- lockstep (run_operator _ _) (run_operator _ _) => apply lockstep_run_operator
  | |- lockstep (checks _) (checks _) => apply lockstep_checks
  | |- lockstep (do_while _ _) (do_while _ _) => apply lockstep_do_while
  | |- lockstep (with_mesh _) (with_mesh _) => apply lockstep_with_mesh; intros ?
  | |- lockstep (match ?x with _ => _ end) _ => destruct x
  | |- lockstep (if ?b then _ else _) _ => destruct b
  end.

Ltac solve_lockstep :=
  repeat (lockstep_step || unfold min_quality, get_minmax, goal_stats,
          adapt_summary, adapt_check, do_histograms, validate, pre_adapt,
          post_rebuild, lengths_pass, satisfy_lengths, quality_cond,
          quality_pass, satisfy_quality, post_adapt, adapt).

Lemma same_run_refl s : same_run s s.
Proof. split; reflexivity. Qed.

(** C1: Every rank makes the same collective calls in the same order.
    Run on the same distributed mesh, [adapt] called by any two ranks
    ends the same way (same result, same abort, or both out of fuel),
    leaves the same mesh and makes exactly the same sequence of collective
    calls (reductions, counts, histograms, operators); only what rank 0
    prints differs. *)
Theorem adapt_rank_lockstep fuel r1 r2 o s :
  out_rel (adapt fuel r1 o s) (adapt fuel r2 o s).
Proof.
  assert (H : lockstep (adapt fuel r1 o) (adapt fuel r2 o)) by solve_lockstep.
  apply H, same_run_refl.
Qed.
(** ** Effects on the mesh and on the log *)

(** [obs R P c]: [c] only appends events satisfying [P] to the log and
    relates the mesh before and after by [R] ([eq]: the mesh is left
    alone). *)
Definition obs (R : M -> M -> Prop) (P : event -> Prop) {A : Type} (c : CM A) : Prop :=
  forall s a s', c s = Ok a s' ->
    R (st_mesh s) (st_mesh s') /\ exists l, st_log s' = st_log s ++ l /\ Forall P l.

Abbreviation observes := (obs eq).

Section Obs.
Variable R : M -> M -> Prop.
Hypothesis R_refl : forall m, R m m.
Hypothesis R_trans : forall m1 m2 m3, R m1 m2 -> R m2 m3 -> R m1 m3.
Variable P : event -> Prop.

Lemma obs_ret {A} (a : A) : obs R P (ret a).
Proof.
  intros s a' s' H. inversion H; subst. split; [apply R_refl|].
  exists []. rewrite app_nil_r. auto.
Qed.

Lemma obs_bind {A B} (c : CM A) (k : A -> CM B) :
  obs R P c -> (forall a, obs R P (k a)) -> obs R P (bind c k).
Proof.
  intros Hc Hk s b s' H. apply bind_inv in H as (a & s1 & E & H).
  destruct (Hc _ _ _ E) as [Hm1 [l1 [Hl1 HP1]]].
  destruct (Hk a _ _ _ H) as [Hm2 [l2 [Hl2 HP2]]].
  split; [eauto|]. exists (l1 ++ l2). rewrite Hl2, Hl1, app_assoc.
  split; [reflexivity|]. apply Forall_app; auto.
Qed.

Lemma obs_when b (c : CM unit) : obs R P c -> obs R P (when b c).
Proof. destruct b; [auto | intros _; apply obs_ret]. Qed.

Lemma obs_emit e : P e -> obs R P (emit e).
Proof. intros He s a s' H. inversion H; subst. simpl. split; [apply R_refl|]. eauto. Qed.

Lemma obs_say r m : P (Say m) -> obs R P (say r m).
Proof. intros Hm. apply obs_when, obs_emit, Hm. Qed.

Lemma obs_collect {A} c (q : M -> A) : P (Coll c) -> obs R P (collect c q).
Proof. intros Hc s a s' H. inversion H; subst. simpl. split; [apply R_refl|]. eauto. Qed.

Lemma obs_checks l : obs R P (checks l).
Proof.
  induction l as [|[b w] l IH]; simpl; [apply obs_ret|].
  apply obs_bind; [|auto].
  intros s a s' H. unfold check in H. destruct b; inversion H; subst.
  split; [apply R_refl|]. exists []. rewrite app_nil_r. auto.
Qed.

Lemma obs_with_mesh {A} (f : M -> CM A) :
  (forall m, obs R P (f m)) -> obs R P (with_mesh f).
Proof. intros H s a s' E. exact (H _ _ _ _ E). Qed.

Lemma obs_run_operator op o :
  (forall m b m', apply_operator op m o = (b, m') -> R m m') ->
  (forall b, P (Coll (Operator op b))) -> obs R P (run_operator op o).
Proof.
  intros HR HP s a s' H. unfold run_operator in H.
  destruct (apply_operator op (st_mesh s) o) as [b m'] eqn:E.
  inversion H; subst. simpl. split; [eapply HR; eauto|]. eauto.
Qed.

Lemma obs_do_while fuel (body : CM bool) : obs R P body -> obs R P (do_while fuel body).
Proof.
  intros Hb. induction fuel as [|f IH]; intros s a s' H; simpl in H; [discriminate|].
  destruct (body s) as [[|] s1| |] eqn:E; try discriminate.
  - destruct (Hb _ _ _ E) as [Hm1 [l1 [Hl1 HP1]]].
    destruct (IH _ _ _ H) as [Hm2 [l2 [Hl2 HP2]]].
    split; [eauto|]. exists (l1 ++ l2). rewrite Hl2, Hl1, app_assoc.
    split; [reflexivity|]. apply Forall_app; auto.
  - inversion H; subst. exact (Hb _ _ _ E).
Qed.

Lemma obs_weaken (Q : event -> Prop) {A} (c : CM A) :
  (forall e, Q e -> P e) -> obs R Q c -> obs R P c.
Proof.
  intros HQP Hc s a s' E. destruct (Hc _ _ _ E) as [Hm [l [Hl HQ]]].
  split; [exact Hm|]. exists l. split; [exact Hl|].
  eapply Forall_impl; eauto.
Qed.
End Obs.

Lemma observes_obs (R : M -> M -> Prop) P {A} (c : CM A) :
  (forall m, R m m) -> observes P c -> obs R P c.
Proof.
  intros HR Hc s a s' E. destruct (Hc _ _ _ E) as [Hm Hl]. rewrite Hm. auto.
Qed.

(** Events that are neither an operator call: what the checks, reports
    and reductions of the controller produce. *)
Definition not_operator (e : event) : Prop :=
  match e with Coll (Operator _ _) => False | _ => True end.

Ltac rel_tac := solve [intros; first [reflexivity | exact I | congruence | eauto]].

Ltac obs_step :=
  match goal with
  | |- obs _ _ (bind _ _) => apply obs_bind; [try rel_tac .. | intros ?]
  | |- obs _ _ (when _ _) => apply obs_when; try rel_tac
  | |- obs _ _ (say _ _) => apply obs_say; try rel_tac
  | |- obs _ _ (emit _) => apply obs_emit; try rel_tac
  | |- obs _ _ (ret _) => apply obs_ret; try rel_tac
  | |- obs _ _ (collect _ _) => apply obs_collect; try rel_tac
  | |- obs _ _ (checks _) => apply obs_checks; try rel_tac
  | |- obs _ _ (with_mesh _) => apply obs_with_mesh; intros ?
  | |- obs _ _ (do_while _ _) => apply obs_do_while; try rel_tac
  | |- obs _ _ (match ?x with _ => _ end) => destruct x
  | |- obs _ _ (if ?b then _ else _) => destruct b
  end.

Ltac solve_observes :=
  repeat (obs_step || unfold min_quality, get_minmax, goal_stats,
          adapt_summary, adapt_check, do_histograms, validate, pre_adapt).

Lemma pre_adapt_observes r o : observes not_operator (pre_adapt r o).
Proof. solve_observes. Qed.

Lemma total_emit e : total (emit e).
Proof. intros s. eexists _, _. reflexivity. Qed.

Lemma total_collect {A} c (q : M -> A) : total (collect c q).
Proof. intros s. eexists _, _. reflexivity. Qed.

Lemma total_run_operator op o : total (run_operator op o).
Proof. intros s. unfold run_operator. destruct (apply_operator op (st_mesh s) o). eauto. Qed.

Lemma total_with_mesh {A} (f : M -> CM A) : (forall m, total (f m)) -> total (with_mesh f).
Proof. intros H s. apply H. Qed.

Ltac total_step :=
  match goal with
  | |- total (bind _ _) => apply total_bind; [| intros ?]
  | |- total (when _ _) => apply total_when
  | |- total (say _ _) => apply total_when, total_emit
  | |- total (emit _) => apply total_emit
  | |- total (ret _) => apply total_ret
  | |- total (collect _ _) => apply total_collect
  | |- total (run_operator _ _) => apply total_run_operator
  | |- total (with_mesh _) => apply total_with_mesh; intros ?
  | |- total (match ?x with _ => _ end) => destruct x
  | |- total (if ?b then _ else _) => destruct b
  end.

Ltac solve_total :=
  repeat (total_step || unfold min_quality, get_minmax, goal_stats,
          adapt_summary, adapt_check, do_histograms, post_rebuild,
          lengths_pass, quality_cond, quality_pass, post_adapt).

Lemma adapt_check_total r o : total (adapt_check r o).
Proof. solve_total. Qed.

Lemma lengths_pass_total r o : total (lengths_pass r o).
Proof. solve_total. Qed.

Lemma quality_pass_total r o : total (quality_pass r o).
Proof. solve_total. Qed.

Lemma post_adapt_total r o : total (post_adapt r o).
Proof. solve_total. Qed.

Lemma post_rebuild_observes r o : observes not_operator (post_rebuild r o).
Proof. unfold post_rebuild. solve_observes. Qed.

Lemma post_adapt_observes r o : observes not_operator (post_adapt r o).
Proof. unfold post_adapt. solve_observes. Qed.

Lemma validate_observes r o : observes not_operator (validate r o).
Proof. solve_observes. Qed.

(** With valid options [validate] passes; it never changes the mesh. *)
Lemma validate_total r o : opts_valid o = true -> total (validate r o).
Proof.
  intros Hv s. unfold validate.
  rewrite (bind_ok _ _ s tt s) by (apply checks_pass, Hv).
  unfold min_quality, collect, bind, when.
  destruct (_ && _); eexists _, _; reflexivity.
Qed.

(** [adapt_check] answers the goal test on the current statistics. *)
Lemma adapt_check_result r o s a s' :
  adapt_check r o s = Ok a s' ->
  a = goals_met o (stat_min (st_mesh s) Qualities) (stat_min (st_mesh s) Lengths)
                  (stat_max (st_mesh s) Lengths).
Proof.
  unfold adapt_check, get_minmax, collect, bind, ret. simpl.
  destruct (goals_met _ _ _ _); unfold when, bind, ret;
    [ destruct (verb_gt _ _) | destruct (verb_gt _ _) ];
    try (intros H; inversion H; reflexivity);
    unfold adapt_summary, with_mesh, goal_stats, collect, say, when, emit, bind, ret;
    simpl; destruct (Z.eqb r 0); simpl; intros H; inversion H; reflexivity.
Qed.
Ltac cm_inv := ok_inv.

Lemma ret_after_value {A B} (c : CM A) (v : B) s b s' :
  bind c (fun _ => ret v) s = Ok b s' -> b = v.
Proof. intros H. cm_inv. reflexivity. Qed.

(** The statistics the goal test reads, on a mesh. *)
Definition mesh_goals_met (o : AdaptOpts) (m : M) : bool :=
  goals_met o (stat_min m Qualities) (stat_min m Lengths) (stat_max m Lengths).

Lemma pre_adapt_total r o : opts_valid o = true -> total (pre_adapt r o).
Proof.
  intros Hv. unfold pre_adapt. apply total_bind; [apply validate_total, Hv|].
  intros _. solve_total.
Qed.

(** [pre_adapt] keeps the mesh and answers whether the goals are missed. *)
Lemma pre_adapt_result r o s b s' :
  pre_adapt r o s = Ok b s' ->
  st_mesh s' = st_mesh s /\ b = negb (mesh_goals_met o (st_mesh s)).
Proof.
  intros H. split; [symmetry; exact (proj1 (pre_adapt_observes r o _ _ _ H))|].
  unfold pre_adapt in H.
  apply bind_inv in H as (u1 & s1 & Hval & H).
  apply bind_inv in H as (u2 & s2 & Hsay & H).
  apply bind_inv in H as (good & s3 & Hchk & H).
  destruct (validate_observes r o _ _ _ Hval) as [Hm1 _].
  destruct (obs_when eq (fun m => eq_refl) not_operator _ _ (obs_say eq (fun m => eq_refl) _ r _ I) _ _ _ Hsay) as [Hm2 _].
  apply adapt_check_result in Hchk. subst good. rewrite Hm2, Hm1 in *.
  unfold mesh_goals_met. destruct (goals_met _ _ _ _); simpl in H; cm_inv; reflexivity.
Qed.

Lemma pre_adapt_invalid r o s :
  opts_valid o = false -> exists w, pre_adapt r o s = Abort w s.
Proof.
  intros Hv. destruct (checks_fail (opts_checks o) s Hv) as [w Hw].
  exists w. cbv beta delta [pre_adapt validate bind]. rewrite Hw. reflexivity.
Qed.

(** C3: Invalid options are fatal before any mesh query.  When one of
    the [CHECK]s of [validate] fails, [adapt] aborts in the very state it
    was called in: nothing was reduced, printed or changed. *)
Theorem adapt_invalid_opts_abort fuel r o s :
  opts_valid o = false -> exists w, adapt fuel r o s = Abort w s.
Proof.
  intros Hv. destruct (pre_adapt_invalid r o s Hv) as [w Hw].
  exists w. cbv beta delta [adapt bind]. rewrite Hw. reflexivity.
Qed.

(** The result of [adapt].  When [adapt] returns, the options were
    valid and its result is [true] exactly when the input mesh missed one
    of the goals (min quality [>=] desired, min length [>=] desired, max
    length [<=] desired); when it returns [false] the mesh is unchanged. *)
Theorem adapt_result fuel r o s b s' :
  adapt fuel r o s = Ok b s' ->
  opts_valid o = true /\ b = negb (mesh_goals_met o (st_mesh s)) /\
  (b = false -> st_mesh s' = st_mesh s).
Proof.
  intros H. destruct (opts_valid o) eqn:Hv.
  2:{ destruct (adapt_invalid_opts_abort fuel r o s Hv) as [w Hw]. congruence. }
  unfold adapt in H. apply bind_inv in H as (go & s1 & Hpre & H).
  apply pre_adapt_result in Hpre as [Hm Hb].
  split; [reflexivity|]. rewrite <- Hb.
  destruct go; simpl in H; cm_inv; auto; split; auto; discriminate.
Qed.
(** On a mesh that meets the goals, [adapt] returns [false] after
    [pre_adapt] alone. *)
Lemma adapt_noop fuel r o s :
  opts_valid o = true -> mesh_goals_met o (st_mesh s) = true ->
  exists s', adapt fuel r o s = Ok false s' /\ pre_adapt r o s = Ok false s'.
Proof.
  intros Hv Hg. destruct (pre_adapt_total r o Hv s) as (go & s1 & Hpre).
  pose proof (pre_adapt_result _ _ _ _ _ Hpre) as [_ Hb]. rewrite Hg in Hb. subst go.
  exists s1. unfold adapt. rewrite (bind_ok _ _ _ _ _ Hpre). auto.
Qed.

(** C2: A mesh that already satisfies all goals is left alone.  With valid
    options and a mesh whose minimum quality, minimum length and maximum
    length meet the desired bounds, [adapt] returns [false], the mesh is
    unchanged and no mesh operator is called: the log only grows by
    reductions and reports. *)
Theorem adapt_good_mesh_noop fuel r o s :
  opts_valid o = true -> mesh_goals_met o (st_mesh s) = true ->
  exists s', adapt fuel r o s = Ok false s' /\ st_mesh s' = st_mesh s /\
    exists l, st_log s' = st_log s ++ l /\ Forall not_operator l.
Proof.
  intros Hv Hg. destruct (adapt_noop fuel r o s Hv Hg) as (s' & Had & Hpre).
  destruct (pre_adapt_observes r o _ _ _ Hpre) as [Hm Hl]. eauto.
Qed.

(** C33: Idempotence.  Calling [adapt] again on the result of a call that
    returned [false], with any fuel and from any rank, again returns
    [false] and leaves the mesh unchanged. *)
Theorem adapt_idempotent fuel fuel' r r' o s s' :
  adapt fuel r o s = Ok false s' ->
  exists s'', adapt fuel' r' o s' = Ok false s'' /\ st_mesh s'' = st_mesh s'.
Proof.
  intros H. destruct (adapt_result _ _ _ _ _ _ H) as (Hv & Hb & Hm).
  specialize (Hm eq_refl).
  assert (Hg : mesh_goals_met o (st_mesh s') = true)
    by (rewrite Hm; destruct (mesh_goals_met o (st_mesh s)); auto).
  destruct (adapt_noop fuel' r' o s' Hv Hg) as (s'' & Had & Hpre).
  exists s''. split; [exact Had|].
  symmetry. exact (proj1 (pre_adapt_observes r' o _ _ _ Hpre)).
Qed.
(** The pre-check is boundary-inclusive.  With the default options
    of a 2D or 3D mesh, a mesh whose minimum quality equals
    [min_quality_desired], whose minimum length equals
    [min_length_desired] and whose maximum length equals
    [max_length_desired] already meets the goals: [adapt] returns [false]
    and leaves it unchanged. *)
Theorem adapt_at_bounds_noop fuel r s dim qa qd :
  (dim = 2 \/ dim = 3)%Z ->
  stat_min (st_mesh s) Qualities = min_quality_desired (AdaptOpts_of_dim dim qa qd) ->
  stat_min (st_mesh s) Lengths = min_length_desired (AdaptOpts_of_dim dim qa qd) ->
  stat_max (st_mesh s) Lengths = max_length_desired (AdaptOpts_of_dim dim qa qd) ->
  exists s', adapt fuel r (AdaptOpts_of_dim dim qa qd) s = Ok false s' /\
             st_mesh s' = st_mesh s.
Proof.
  intros Hdim Hq Hlo Hhi.
  assert (Hv : opts_valid (AdaptOpts_of_dim dim qa qd) = true)
    by (destruct Hdim as [-> | ->]; vm_compute; reflexivity).
  assert (Hg : mesh_goals_met (AdaptOpts_of_dim dim qa qd) (st_mesh s) = true).
  { unfold mesh_goals_met. rewrite Hq, Hlo, Hhi.
    destruct Hdim as [-> | ->]; vm_compute; reflexivity. }
  destruct (adapt_noop fuel r _ s Hv Hg) as (s' & Had & Hpre).
  exists s'. split; [exact Had|].
  symmetry. exact (proj1 (pre_adapt_observes r _ _ _ _ Hpre)).
Qed.

(** ** The two loops: exit conditions *)

Lemma post_rebuild_mesh r o s u s' :
  post_rebuild r o s = Ok u s' -> st_mesh s' = st_mesh s.
Proof. intros H. symmetry. exact (proj1 (post_rebuild_observes r o _ _ _ H)). Qed.

Lemma when_post_rebuild_mesh b r o s u s' :
  when b (post_rebuild r o) s = Ok u s' -> st_mesh s' = st_mesh s.
Proof. destruct b; simpl; [apply post_rebuild_mesh | intros H; inversion H; auto]. Qed.

Lemma run_operator_inv op o s b s' :
  run_operator op o s = Ok b s' ->
  apply_operator op (st_mesh s) o = (b, st_mesh s') /\
  st_log s' = st_log s ++ [Coll (Operator op b)].
Proof.
  unfold run_operator. destruct (apply_operator op (st_mesh s) o) eqn:E.
  intros H. inversion H; subst. auto.
Qed.

(** A pass of [satisfy_lengths] that asks for no further pass called both
    operators, and both reported no change. *)
Lemma lengths_pass_false r o s s' :
  lengths_pass r o s = Ok false s' ->
  exists m1, apply_operator RefineBySize (st_mesh s) o = (false, m1) /\
    apply_operator CoarsenBySize m1 o = (false, st_mesh s') /\
    st_log s' = st_log s ++ [Coll (Operator RefineBySize false);
                             Coll (Operator CoarsenBySize false)].
Proof.
  intros H. unfold lengths_pass in H.
  apply bind_inv in H as (rb & s1 & Hr & H).
  apply bind_inv in H as (u1 & s2 & Hw1 & H).
  apply bind_inv in H as (cb & s3 & Hc & H).
  apply bind_inv in H as (u2 & s4 & Hw2 & H).
  unfold ret in H. injection H as Hrc Hs. subst s4.
  apply orb_false_iff in Hrc as [-> ->].
  simpl in Hw1, Hw2. inversion Hw1; inversion Hw2; subst.
  apply run_operator_inv in Hr as [Hr Lr]. apply run_operator_inv in Hc as [Hc Lc].
  eexists. rewrite Lc, Lr, <- app_assoc. split; [exact Hr | split; [exact Hc | reflexivity]].
Qed.
(** C5: [satisfy_lengths] stops only after a pass in which neither
    operator changed anything.  When the loop returns, its last pass
    called [refine_by_size] and then [coarsen_by_size], both reported no
    change, and these two calls are the last events of the log. *)
Theorem satisfy_lengths_exit fuel r o s s' :
  satisfy_lengths fuel r o s = Ok tt s' ->
  exists s0 m1, apply_operator RefineBySize (st_mesh s0) o = (false, m1) /\
    apply_operator CoarsenBySize m1 o = (false, st_mesh s') /\
    st_log s' = st_log s0 ++ [Coll (Operator RefineBySize false);
                              Coll (Operator CoarsenBySize false)].
Proof.
  intros H. destruct (do_while_exit _ _ _ _ H) as [s0 H0].
  destruct (lengths_pass_false _ _ _ _ H0) as (m1 & H1 & H2 & H3). eauto.
Qed.

Lemma quality_cond_inv o s b s' :
  quality_cond o s = Ok b s' ->
  b = PrimFloat.ltb (stat_min (st_mesh s) Qualities) (min_quality_desired o) /\
  st_mesh s' = st_mesh s.
Proof. unfold quality_cond, min_quality, collect, bind, ret. intros H. inversion H. auto. Qed.

Lemma rebuild_cond_false r o s s' :
  (post_rebuild r o ;; quality_cond o) s = Ok false s' ->
  PrimFloat.ltb (stat_min (st_mesh s') Qualities) (min_quality_desired o) = false.
Proof.
  intros H. apply bind_inv in H as (u & s1 & Hp & Hq).
  apply quality_cond_inv in Hq as [Hb Hm]. rewrite Hm. auto.
Qed.

(** A pass of [satisfy_quality] that asks for no further pass either saw
    the minimum quality reach the goal after a successful operator, or
    broke out because both operators refused. *)
Lemma quality_pass_false r o s s' :
  quality_pass r o s = Ok false s' ->
  PrimFloat.ltb (stat_min (st_mesh s') Qualities) (min_quality_desired o) = false \/
  exists m1, apply_operator SwapEdges (st_mesh s) o = (false, m1) /\
    apply_operator CoarsenSlivers m1 o = (false, st_mesh s').
Proof.
  intros H. unfold quality_pass in H.
  apply bind_inv in H as (sw & s1 & Hsw & H).
  destruct sw; [left; eapply rebuild_cond_false; eauto|].
  apply bind_inv in H as (cs & s2 & Hcs & H).
  destruct cs; [left; eapply rebuild_cond_false; eauto|].
  right. apply bind_inv in H as (u & s3 & Hsay & H). unfold ret in H.
  injection H as ->.
  destruct (obs_when eq (fun m => eq_refl) not_operator _ _
              (obs_say eq (fun m => eq_refl) _ r _ I) _ _ _ Hsay) as [Hm _].
  apply run_operator_inv in Hsw as [Hsw _]. apply run_operator_inv in Hcs as [Hcs _].
  rewrite <- Hm. eauto.
Qed.

(** C6: Why [satisfy_quality] stops.  When it returns, either the
    minimum quality already met the goal and the loop was skipped (the
    mesh is unchanged), or the last successful operator brought the
    minimum quality to the goal (it is no longer below the desired
    value), or both [swap_edges] and [coarsen_slivers] refused in the last
    pass and the loop bailed out. *)
Theorem satisfy_quality_exit fuel r o s s' :
  satisfy_quality fuel r o s = Ok tt s' ->
  (PrimFloat.leb (min_quality_desired o) (stat_min (st_mesh s) Qualities) = true /\
   st_mesh s' = st_mesh s) \/
  PrimFloat.ltb (stat_min (st_mesh s') Qualities) (min_quality_desired o) = false \/
  exists s0 m1, apply_operator SwapEdges (st_mesh s0) o = (false, m1) /\
    apply_operator CoarsenSlivers m1 o = (false, st_mesh s').
Proof.
  intros H. unfold satisfy_quality in H.
  apply bind_inv in H as (mq & s1 & Hmq & H).
  unfold min_quality, collect in Hmq. injection Hmq as <- <-. simpl in H.
  destruct (PrimFloat.leb _ _) eqn:Hle.
  - left. unfold ret in H. injection H as <-. auto.
  - right. apply bind_inv in H as (u & s2 & Hsay & H).
    destruct (do_while_exit _ _ _ _ H) as [s0 H0].
    destruct (quality_pass_false _ _ _ _ H0) as [Hc | (m1 & H1 & H2)]; eauto.
Qed.
(** ** Termination of the two loops

    The operators are external; the loops terminate when each accepted
    operator call decreases a measure of the mesh and a refused call does
    not increase it (the "monotonic halting" contract of the operators). *)
Section Termination.
Variable mu_len : M -> nat.
Hypothesis refine_measure : forall m o b m',
  apply_operator RefineBySize m o = (b, m') ->
  if b then mu_len m' < mu_len m else mu_len m' <= mu_len m.
Hypothesis coarsen_measure : forall m o b m',
  apply_operator CoarsenBySize m o = (b, m') ->
  if b then mu_len m' < mu_len m else mu_len m' <= mu_len m.

Variable mu_qual : M -> nat.
Hypothesis swap_measure : forall m o b m',
  apply_operator SwapEdges m o = (b, m') ->
  if b then mu_qual m' < mu_qual m else mu_qual m' <= mu_qual m.
Hypothesis slivers_measure : forall m o b m',
  apply_operator CoarsenSlivers m o = (b, m') ->
  if b then mu_qual m' < mu_qual m else mu_qual m' <= mu_qual m.

Lemma operator_measure (mu : M -> nat) op o s b s' :
  (forall m b m', apply_operator op m o = (b, m') ->
     if b then mu m' < mu m else mu m' <= mu m) ->
  run_operator op o s = Ok b s' ->
  (if b then mu (st_mesh s') < mu (st_mesh s) else mu (st_mesh s') <= mu (st_mesh s)).
Proof. intros Hmu H. apply run_operator_inv in H as [H _]. exact (Hmu _ _ _ H). Qed.

Lemma lengths_pass_measure r o s b s' :
  lengths_pass r o s = Ok b s' ->
  mu_len (st_mesh s') <= mu_len (st_mesh s) /\
  (b = true -> mu_len (st_mesh s') < mu_len (st_mesh s)).
Proof.
  intros H. unfold lengths_pass in H.
  apply bind_inv in H as (rb & s1 & Hr & H).
  apply bind_inv in H as (u1 & s2 & Hw1 & H).
  apply bind_inv in H as (cb & s3 & Hc & H).
  apply bind_inv in H as (u2 & s4 & Hw2 & H).
  unfold ret in H. injection H as <- <-.
  apply (operator_measure mu_len _ o) in Hr; [|intros; eapply refine_measure; eauto].
  apply (operator_measure mu_len _ o) in Hc; [|intros; eapply coarsen_measure; eauto].
  apply when_post_rebuild_mesh in Hw1, Hw2. rewrite Hw2 in *. rewrite Hw1 in Hc.
  destruct rb, cb; simpl; split; intros; try lia; discriminate.
Qed.

(** [satisfy_lengths] terminates.  When every accepted
    [refine_by_size] or [coarsen_by_size] decreases the measure
    [mu_len] and no call increases it, the loop returns within
    [mu_len + 1] passes: with that much fuel, or more, it never runs out. *)
Theorem satisfy_lengths_terminates fuel r o s :
  mu_len (st_mesh s) < fuel ->
  exists s', satisfy_lengths fuel r o s = Ok tt s'.
Proof.
  intros Hf.
  assert (Hb : forall s0, True -> exists b s1, lengths_pass r o s0 = Ok b s1 /\ True /\
                 (b = true -> mu_len (st_mesh s1) < mu_len (st_mesh s0))).
  { intros s0 _. destruct (lengths_pass_total r o s0) as (b & s1 & E).
    exists b, s1. split; [exact E|]. split; [exact I|].
    exact (proj2 (lengths_pass_measure _ _ _ _ _ E)). }
  destruct (do_while_terminates (lengths_pass r o) (fun _ => True)
              (fun s => mu_len (st_mesh s)) Hb fuel s I Hf) as (s' & H & _).
  eauto.
Qed.

Lemma quality_pass_measure r o s b s' :
  quality_pass r o s = Ok b s' ->
  b = true -> mu_qual (st_mesh s') < mu_qual (st_mesh s).
Proof.
  intros H Hb. subst b. unfold quality_pass in H.
  apply bind_inv in H as (sw & s1 & Hsw & H).
  apply (operator_measure mu_qual _ o) in Hsw; [|intros; eapply swap_measure; eauto].
  destruct sw.
  - apply bind_inv in H as (u & s2 & Hp & Hq).
    apply post_rebuild_mesh in Hp. apply quality_cond_inv in Hq as [_ Hq]. congruence.
  - apply bind_inv in H as (cs & s2 & Hcs & H).
    apply (operator_measure mu_qual _ o) in Hcs; [|intros; eapply slivers_measure; eauto].
    destruct cs.
    + apply bind_inv in H as (u & s3 & Hp & Hq).
      apply post_rebuild_mesh in Hp. apply quality_cond_inv in Hq as [_ Hq].
      rewrite Hq, Hp. lia.
    + apply bind_inv in H as (u & s3 & _ & H). discriminate.
Qed.

Lemma satisfy_quality_terminates fuel r o s :
  mu_qual (st_mesh s) < fuel ->
  exists s', satisfy_quality fuel r o s = Ok tt s'.
Proof.
  intros Hf. unfold satisfy_quality, min_quality, collect, bind. simpl.
  destruct (PrimFloat.leb _ _); [eexists; reflexivity|].
  set (s1 := mkAState _ _).
  destruct (total_when (verb_ge (verbosity o) EACH_REBUILD) _
              (total_when (Z.eqb r 0) _ (total_emit (Say MsgAddressingQualities))) s1)
    as (u & s2 & E). fold (say r MsgAddressingQualities) in E. rewrite E.
  assert (Hm : st_mesh s2 = st_mesh s).
  { destruct (obs_when eq (fun m => eq_refl) not_operator _ _
                (obs_say eq (fun m => eq_refl) _ r _ I) _ _ _ E) as [Hm _].
    symmetry. exact Hm. }
  assert (Hb : forall s0, True -> exists b s1, quality_pass r o s0 = Ok b s1 /\ True /\
                 (b = true -> mu_qual (st_mesh s1) < mu_qual (st_mesh s0))).
  { intros s0 _. destruct (quality_pass_total r o s0) as (b & s3 & E3).
    exists b, s3. split; [exact E3|]. split; [exact I|].
    apply (quality_pass_measure _ _ _ _ _ E3). }
  rewrite <- Hm in Hf.
  destruct (do_while_terminates (quality_pass r o) (fun _ => True)
              (fun s => mu_qual (st_mesh s)) Hb fuel s2 I Hf) as (s' & H & _).
  eauto.
Qed.
(** [adapt] returns for some fuel, and the same for every larger one. *)
Lemma adapt_terminates_fuel r o s :
  opts_valid o = true ->
  exists fuel b s', forall fuel', fuel <= fuel' -> adapt fuel' r o s = Ok b s'.
Proof.
  intros Hv. destruct (pre_adapt_total r o Hv s) as (go & s1 & Hpre).
  destruct go.
  2:{ exists 0, false, s1. intros fuel' _. unfold adapt.
      rewrite (bind_ok _ _ _ _ _ Hpre). reflexivity. }
  set (f1 := S (mu_len (st_mesh s1))).
  destruct (satisfy_lengths_terminates f1 r o s1 ltac:(lia)) as (s2 & H2).
  set (f2 := S (mu_qual (st_mesh s2))).
  destruct (satisfy_quality_terminates f2 r o s2 ltac:(lia)) as (s3 & H3).
  destruct (post_adapt_total r o s3) as (u & s4 & H4).
  exists (Nat.max f1 f2), true, s4. intros fuel' Hf.
  unfold adapt. rewrite (bind_ok _ _ _ _ _ Hpre). simpl.
  rewrite (bind_ok _ _ _ _ _ (do_while_more_fuel _ _ _ _ H2 ltac:(discriminate) fuel' ltac:(lia))).
  assert (H3' : satisfy_quality fuel' r o s2 = Ok tt s3).
  { revert H3. unfold satisfy_quality, bind.
    destruct (min_quality s2) as [mq t| |]; try discriminate. destruct (PrimFloat.leb _ _); auto.
    destruct (when _ _ t) as [u1 t1| |]; try discriminate.
    intros H. apply (do_while_more_fuel _ _ _ _ H); [discriminate | lia]. }
  rewrite (bind_ok _ _ _ _ _ H3'), (bind_ok _ _ _ _ _ H4). reflexivity.
Qed.

(** C7: [adapt] terminates.  With valid options and operators that
    decrease the two measures, there is a fuel for which [adapt]
    returns, and every larger fuel gives the same result. *)
Theorem adapt_terminates r o s :
  opts_valid o = true ->
  exists fuel b s', forall fuel', fuel <= fuel' -> adapt fuel' r o s = Ok b s'.
Proof. apply adapt_terminates_fuel. Qed.
End Termination.

(** ** What is printed at each verbosity *)

(** Rank 0's lines in a log. *)
Definition said (P : message -> Prop) (e : event) : Prop :=
  match e with Say m => P m | Coll _ => True end.

Definition is_warning (m : message) : Prop :=
  match m with MsgWarnQuality _ _ => True | _ => False end.

Abbreviation anything := (fun _ _ : M => True).

Ltac solve_obs_any :=
  repeat ((match goal with
           | |- obs _ _ (when ?b _) =>
               destruct b eqn:?; [cbv beta iota delta [when] | apply obs_ret; try rel_tac]
           end) || obs_step || unfold min_quality, get_minmax, goal_stats,
          adapt_summary, adapt_check, do_histograms, validate, pre_adapt,
          post_rebuild, lengths_pass, satisfy_lengths, quality_cond,
          quality_pass, satisfy_quality, post_adapt, adapt
          || (apply obs_run_operator; [intros; exact I | intros; exact I])).

(** C34: A silent run prints nothing but the input-quality warning.
    With [verbosity = SILENT], every line [adapt] makes rank 0 print is
    the warning of [validate], which is not gated by the verbosity. *)
Theorem adapt_silent_prints_only_warning fuel r o s b s' :
  verbosity o = SILENT -> adapt fuel r o s = Ok b s' ->
  exists l, st_log s' = st_log s ++ l /\ Forall (said is_warning) l.
Proof.
  intros Hs H.
  assert (Hobs : obs anything (said is_warning) (adapt fuel r o)).
  { solve_obs_any; rewrite Hs in *; simpl in *; discriminate. }
  exact (proj2 (Hobs _ _ _ H)).
Qed.

Definition not_after (m : message) : Prop :=
  match m with MsgAfterAdapting => False | _ => True end.

(** C35: At [EXTRA_STATS] the "after adapting" report is missing.
    [post_adapt] tests [verbosity == EACH_ADAPT], so the highest level
    never prints "after adapting:" (nor the final goal summary that goes
    with it), although each level is meant to include the reports of the
    levels below it. *)
Theorem adapt_extra_stats_no_after_report fuel r o s b s' :
  verbosity o = EXTRA_STATS -> adapt fuel r o s = Ok b s' ->
  exists l, st_log s' = st_log s ++ l /\ Forall (said not_after) l.
Proof.
  intros Hs H.
  assert (Hobs : obs anything (said not_after) (adapt fuel r o)).
  { solve_obs_any; rewrite Hs in *; simpl in *; discriminate. }
  exact (proj2 (Hobs _ _ _ H)).
Qed.
End Controller.

(** ** A small test mesh

    A mesh abstracted to three counters (edges too long, edges too short,
    cells of poor quality).  Each operator fixes one offending entity when
    there is one and reports whether it did; [coarsen_slivers] never acts.
    It serves as a concrete collaborator for the theorems above. *)
Record ToyMesh : Set := mkToy { long_edges : nat; short_edges : nat; bad_cells : nat }.

#[export] Instance toy_mesh_ops : MeshOps ToyMesh := {|
  mesh_dim _ := 2;
  stat_min m f :=
    match f with
    | Qualities => if Nat.eqb (bad_cells m) 0 then 0.5%float else 0.1%float
    | Lengths => if Nat.eqb (short_edges m) 0 then 1.0%float else 0.5%float
    end;
  stat_max m f :=
    match f with
    | Qualities => 0.9%float
    | Lengths => if Nat.eqb (long_edges m) 0 then 1.0%float else 2.0%float
    end;
  count_below m _ f _ :=
    Z.of_nat (match f with Qualities => bad_cells m | Lengths => short_edges m end);
  count_above m _ f _ := Z.of_nat (match f with Qualities => 0 | Lengths => long_edges m end);
  nglobal_ents _ _ := 10%Z;
  apply_operator op m _ :=
    match op with
    | RefineBySize =>
        if Nat.eqb (long_edges m) 0 then (false, m)
        else (true, mkToy (pred (long_edges m)) (short_edges m) (bad_cells m))
    | CoarsenBySize =>
        if Nat.eqb (short_edges m) 0 then (false, m)
        else (true, mkToy (long_edges m) (pred (short_edges m)) (bad_cells m))
    | SwapEdges =>
        if Nat.eqb (bad_cells m) 0 then (false, m)
        else (true, mkToy (long_edges m) (short_edges m) (pred (bad_cells m)))
    | CoarsenSlivers => (false, m)
    end
|}.

Definition toy_state (l sh b : nat) : AState := mkAState (mkToy l sh b) [].

(** Options of a 2D mesh, with the verbosity changed. *)
Definition opts2 (v : Verbosity) : AdaptOpts :=
  let o := AdaptOpts_of_dim 2 0 0 in
  mkAdaptOpts (min_length_desired o) (max_length_desired o) (max_length_allowed o)
    (min_quality_allowed o) (min_quality_desired o) (nsliver_layers o) v
    (length_histogram_min o) (length_histogram_max o).

(** The spec's invalid options: [min_quality_allowed = 0.5 > 0.3 = min_quality_desired]. *)
Definition inverted_opts : AdaptOpts :=
  let o := opts2 EACH_REBUILD in
  mkAdaptOpts (min_length_desired o) (max_length_desired o) (max_length_allowed o)
    0.5%float 0.3%float (nsliver_layers o) (verbosity o)
    (length_histogram_min o) (length_histogram_max o).

Lemma toy_measure_len op m o b m' :
  (op = RefineBySize \/ op = CoarsenBySize) ->
  apply_operator op m o = (b, m') ->
  if b then long_edges m' + short_edges m' < long_edges m + short_edges m
  else long_edges m' + short_edges m' <= long_edges m + short_edges m.
Proof.
  intros [-> | ->]; destruct m as [l sh c]; simpl;
    [destruct (Nat.eqb_spec l 0) | destruct (Nat.eqb_spec sh 0)];
    intros H; inversion H; subst; simpl; lia.
Qed.

Lemma toy_measure_qual op m o b m' :
  (op = SwapEdges \/ op = CoarsenSlivers) ->
  apply_operator op m o = (b, m') ->
  if b then bad_cells m' < bad_cells m else bad_cells m' <= bad_cells m.
Proof.
  intros [-> | ->]; destruct m as [l sh c]; simpl;
    [destruct (Nat.eqb_spec c 0)|]; intros H; inversion H; subst; simpl; lia.
Qed.

(** ** Runs of the controller on the test mesh *)

(** A mesh with two long edges, one short edge and one poor cell is
    adapted: [adapt] returns [true] and every offending entity is fixed. *)
Example toy_adapt_fixes :
  match adapt 10 0 (opts2 EACH_REBUILD) (toy_state 2 1 1) with
  | Ok b s => b = true /\ st_mesh s = mkToy 0 0 0
  | _ => False
  end.
Proof. vm_compute. auto. Qed.

Lemma adapt_invalid_opts_abort_witness :
  exists w, adapt 5 0 inverted_opts (toy_state 2 1 1) = Abort w (toy_state 2 1 1).
Proof. apply adapt_invalid_opts_abort. vm_compute. reflexivity. Defined.

Lemma adapt_good_mesh_noop_witness :
  exists s', adapt 5 0 (opts2 EACH_ADAPT) (toy_state 0 0 0) = Ok false s' /\
    st_mesh s' = st_mesh (toy_state 0 0 0) /\
    exists l, st_log s' = st_log (toy_state 0 0 0) ++ l /\ Forall not_operator l.
Proof. apply adapt_good_mesh_noop; vm_compute; reflexivity. Defined.

Lemma adapt_idempotent_witness :
  exists s'', adapt 7 3 (opts2 SILENT)
    (mkAState (mkToy 0 0 0) [Coll (AllreduceMin Qualities); Coll (AllreduceMin Qualities);
       Coll (AllreduceMax Qualities); Coll (AllreduceMin Lengths);
       Coll (AllreduceMax Lengths)]) = Ok false s'' /\
    st_mesh s'' = mkToy 0 0 0.
Proof. apply (adapt_idempotent 2 7 1 3 (opts2 SILENT) (toy_state 0 0 0)). vm_compute. reflexivity. Defined.

Lemma satisfy_lengths_exit_witness :
  exists s', satisfy_lengths 5 0 (opts2 SILENT) (toy_state 2 1 1) = Ok tt s' /\
  exists s0 m1, apply_operator RefineBySize (st_mesh s0) (opts2 SILENT) = (false, m1) /\
    apply_operator CoarsenBySize m1 (opts2 SILENT) = (false, st_mesh s') /\
    st_log s' = st_log s0 ++ [Coll (Operator RefineBySize false); Coll (Operator CoarsenBySize false)].
Proof.
  eexists. split; [vm_compute; reflexivity|].
  apply (satisfy_lengths_exit 5 0 (opts2 SILENT) (toy_state 2 1 1)). vm_compute. reflexivity.
Defined.

Lemma satisfy_quality_exit_witness :
  exists s', satisfy_quality 5 0 (opts2 SILENT) (toy_state 0 0 2) = Ok tt s' /\
  ((PrimFloat.leb (min_quality_desired (opts2 SILENT))
      (stat_min (st_mesh (toy_state 0 0 2)) Qualities) = true /\
    st_mesh s' = st_mesh (toy_state 0 0 2)) \/
   PrimFloat.ltb (stat_min (st_mesh s') Qualities) (min_quality_desired (opts2 SILENT)) = false \/
   exists s0 m1, apply_operator SwapEdges (st_mesh s0) (opts2 SILENT) = (false, m1) /\
     apply_operator CoarsenSlivers m1 (opts2 SILENT) = (false, st_mesh s')).
Proof.
  eexists. split; [vm_compute; reflexivity|].
  apply (satisfy_quality_exit 5 0 (opts2 SILENT) (toy_state 0 0 2)). vm_compute. reflexivity.
Defined.

Lemma satisfy_lengths_terminates_witness :
  exists s', satisfy_lengths 4 0 (opts2 EACH_ADAPT) (toy_state 2 1 0) = Ok tt s'.
Proof.
  apply (satisfy_lengths_terminates (fun m => long_edges m + short_edges m)).
  - intros m o b m' H. exact (toy_measure_len RefineBySize m o b m' (or_introl eq_refl) H).
  - intros m o b m' H. exact (toy_measure_len CoarsenBySize m o b m' (or_intror eq_refl) H).
  - simpl. lia.
Defined.

Lemma adapt_terminates_witness :
  exists fuel b s', forall fuel', fuel <= fuel' ->
    adapt fuel' 0 (opts2 EXTRA_STATS) (toy_state 3 2 4) = Ok b s'.
Proof.
  apply (adapt_terminates (fun m => long_edges m + short_edges m)
    (fun m o b m' H => toy_measure_len RefineBySize m o b m' (or_introl eq_refl) H)
    (fun m o b m' H => toy_measure_len CoarsenBySize m o b m' (or_intror eq_refl) H)
    bad_cells
    (fun m o b m' H => toy_measure_qual SwapEdges m o b m' (or_introl eq_refl) H)
    (fun m o b m' H => toy_measure_qual CoarsenSlivers m o b m' (or_intror eq_refl) H)).
  vm_compute. reflexivity.
Defined.

Lemma adapt_silent_prints_only_warning_witness :
  exists s', adapt 10 0 (opts2 SILENT) (toy_state 1 1 1) = Ok true s' /\
  exists l, st_log s' = st_log (toy_state 1 1 1) ++ l /\ Forall (said is_warning) l.
Proof.
  eexists. split; [vm_compute; reflexivity|].
  apply (adapt_silent_prints_only_warning 10 0 (opts2 SILENT) (toy_state 1 1 1) true);
    [reflexivity | vm_compute; reflexivity].
Defined.

Lemma adapt_extra_stats_no_after_report_witness :
  exists s', adapt 10 0 (opts2 EXTRA_STATS) (toy_state 1 1 1) = Ok true s' /\
  exists l, st_log s' = st_log (toy_state 1 1 1) ++ l /\ Forall (said not_after) l.
Proof.
  eexists. split; [vm_compute; reflexivity|].
  apply (adapt_extra_stats_no_after_report 10 0 (opts2 EXTRA_STATS) (toy_state 1 1 1) true);
    [reflexivity | vm_compute; reflexivity].
Defined.

(** At [EACH_ADAPT] the same run does print "after adapting:". *)
Example toy_each_adapt_after_report :
  match adapt 10 0 (opts2 EACH_ADAPT) (toy_state 1 1 1) with
  | Ok _ s => In (Say MsgAfterAdapting) (st_log s)
  | _ => False
  end.
Proof. vm_compute. tauto. Qed.

(** A mesh seen only through its four statistics, whose operators never
    act: a collaborator with exactly chosen statistics. *)
Record StatMesh : Set := mkStat { sq_min : float; sq_max : float; sl_min : float; sl_max : float }.

#[export] Instance stat_mesh_ops : MeshOps StatMesh := {|
  mesh_dim _ := 3;
  stat_min m f := match f with Qualities => sq_min m | Lengths => sl_min m end;
  stat_max m f := match f with Qualities => sq_max m | Lengths => sl_max m end;
  count_below _ _ _ _ := 0%Z;
  count_above _ _ _ _ := 0%Z;
  nglobal_ents _ _ := 1%Z;
  apply_operator _ m _ := (false, m)
|}.

Lemma adapt_at_bounds_noop_witness :
  let o := AdaptOpts_of_dim 3 0 0 in
  let s := mkAState (mkStat (min_quality_desired o) 1.0%float (min_length_desired o)
                            (max_length_desired o)) [] in
  exists s', adapt 3 0 o s = Ok false s' /\ st_mesh s' = st_mesh s.
Proof.
  intros o s. apply adapt_at_bounds_noop; [right; reflexivity | reflexivity..].
Defined.
