(* ===== verification/ControllerSpec.v ===== *)
(** The adaptation controller against the state machine of its
    specification.

    The specification describes [adapt] as a machine whose states are, in
    order, validation, the pre-check, the satisfy-lengths loop, the
    satisfy-quality loop and the post-report, with two loops and no other
    way back.  [spec_step] is that machine over the mesh: a step is either
    silent (a decision on the global statistics) or labelled with an
    operator call and the boolean it returned, and the operator steps
    change the mesh as [apply_operator] does.  [spec_run] is a run of the
    machine with the labels of its operator steps.

    [adapt_refines_spec] shows that every run of [adapt] (Controller.v)
    that returns is a run of the machine: the operator calls of its log, in
    order, label a run from the pre-check to the state the result names,
    through the meshes the controller saw.  [adapt_reaches_final] shows
    that, with operators that make progress, [adapt] returns for some fuel
    and that run is complete. *)

From Stdlib Require Import ZArith Bool List Lia PrimFloat.
From S2P Require Import Prelude Opts Controller.
Import ListNotations.

(** ** The machine of the specification *)

Inductive phase : Set :=
| PStart                 (* after validation: the pre-check *)
| PLen                   (* satisfy-lengths: refine next *)
| PLenC (refined : bool) (* satisfy-lengths: coarsen next *)
| PQualEntry             (* the entry test of satisfy-quality *)
| PQual                  (* satisfy-quality: swap next *)
| PSlivers               (* satisfy-quality: coarsen slivers next *)
| PQualCheck             (* satisfy-quality: the loop condition *)
| PDone                  (* adaptation ran: post-report, result true *)
| PNoop.                 (* goals met at the pre-check: result false *)

Section Spec.
Context {M : Type} {MO : MeshOps M}.
Variable o : AdaptOpts.

Inductive spec_step : phase -> M -> option (operator * bool) -> phase -> M -> Prop :=
| st_noop m : mesh_goals_met o m = true -> spec_step PStart m None PNoop m
| st_adapt m : mesh_goals_met o m = false -> spec_step PStart m None PLen m
| st_refine m r m' :
    apply_operator RefineBySize m o = (r, m') ->
    spec_step PLen m (Some (RefineBySize, r)) (PLenC r) m'
| st_len_again m r c m' :
    apply_operator CoarsenBySize m o = (c, m') -> r || c = true ->
    spec_step (PLenC r) m (Some (CoarsenBySize, c)) PLen m'
| st_len_done m m' :
    apply_operator CoarsenBySize m o = (false, m') ->
    spec_step (PLenC false) m (Some (CoarsenBySize, false)) PQualEntry m'
| st_qual_skip m :
    PrimFloat.leb (min_quality_desired o) (stat_min m Qualities) = true ->
    spec_step PQualEntry m None PDone m
| st_qual_enter m :
    PrimFloat.leb (min_quality_desired o) (stat_min m Qualities) = false ->
    spec_step PQualEntry m None PQual m
| st_swap m b m' :
    apply_operator SwapEdges m o = (b, m') ->
    spec_step PQual m (Some (SwapEdges, b)) (if b then PQualCheck else PSlivers) m'
| st_slivers m b m' :
    apply_operator CoarsenSlivers m o = (b, m') ->
    spec_step PSlivers m (Some (CoarsenSlivers, b)) (if b then PQualCheck else PDone) m'
| st_qual_again m :
    PrimFloat.ltb (stat_min m Qualities) (min_quality_desired o) = true ->
    spec_step PQualCheck m None PQual m
| st_qual_done m :
    PrimFloat.ltb (stat_min m Qualities) (min_quality_desired o) = false ->
    spec_step PQualCheck m None PDone m.

(** Runs, with the labels of their operator steps. *)
Inductive spec_run : phase -> M -> list (operator * bool) -> phase -> M -> Prop :=
| run_refl p m : spec_run p m [] p m
| run_silent p m p1 m1 tr p2 m2 :
    spec_step p m None p1 m1 -> spec_run p1 m1 tr p2 m2 -> spec_run p m tr p2 m2
| run_label p m x p1 m1 tr p2 m2 :
    spec_step p m (Some x) p1 m1 -> spec_run p1 m1 tr p2 m2 -> spec_run p m (x :: tr) p2 m2.

(** The final state a result of [adapt] names. *)
Definition final (b : bool) : phase := if b then PDone else PNoop.

(** The operator calls of a log, in order. *)
Definition ops_of (l : list event) : list (operator * bool) :=
  flat_map (fun e => match e with Coll (Operator op b) => [(op, b)] | _ => [] end) l.

(** [c] moves the machine from [p] to [q a] when it returns [a]: the
    operator calls it logs label a run through the meshes before and
    after. *)
Definition moves {A : Type} (c : comp (@AState M) A) (p : phase) (q : A -> phase) : Prop :=
  forall s a s', c s = Ok a s' ->
    exists l, st_log s' = st_log s ++ l /\
      spec_run p (st_mesh s) (ops_of l) (q a) (st_mesh s').

(** ** Lemmas on runs and on [moves] *)

Lemma ops_of_app l1 l2 : ops_of (l1 ++ l2) = ops_of l1 ++ ops_of l2.
Proof. apply flat_map_app. Qed.

Lemma ops_of_silent l : Forall not_operator l -> ops_of l = [].
Proof.
  induction 1 as [|[[]|] l He _ IH]; cbn; auto; contradiction.
Qed.

Lemma spec_run_trans p1 m1 tr1 p2 m2 tr2 p3 m3 :
  spec_run p1 m1 tr1 p2 m2 -> spec_run p2 m2 tr2 p3 m3 ->
  spec_run p1 m1 (tr1 ++ tr2) p3 m3.
Proof.
  induction 1; intros; cbn; [assumption | eapply run_silent | eapply run_label]; eauto.
Qed.

Lemma spec_run_one p m x p' m' :
  spec_step p m (Some x) p' m' -> spec_run p m [x] p' m'.
Proof. intros H. eapply run_label; [exact H | constructor]. Qed.

Lemma spec_run_silent p m p' m' :
  spec_step p m None p' m' -> spec_run p m [] p' m'.
Proof. intros H. eapply run_silent; [exact H | constructor]. Qed.

Create HintDb spec.
#[local] Hint Resolve spec_run_one spec_run_silent run_refl : spec.

Lemma moves_ret {A} (a : A) p q : q a = p -> moves (ret a) p q.
Proof.
  intros Hq s b s' H. injection H as <- <-. exists []. rewrite app_nil_r, Hq.
  split; [reflexivity | constructor].
Qed.

Lemma moves_bind {A B} (c : comp (@AState M) A) (k : A -> comp (@AState M) B) p q r :
  moves c p q -> (forall a, moves (k a) (q a) r) -> moves (bind c k) p r.
Proof.
  intros Hc Hk s b s' H. apply bind_inv in H as (a & s1 & H1 & H2).
  destruct (Hc _ _ _ H1) as (l1 & L1 & R1). destruct (Hk a _ _ _ H2) as (l2 & L2 & R2).
  exists (l1 ++ l2). rewrite L2, L1, app_assoc, ops_of_app.
  split; [reflexivity | eapply spec_run_trans; eauto].
Qed.

(** What only reduces, checks and prints leaves the machine where it is. *)
Lemma moves_observes {A} (c : comp (@AState M) A) p :
  obs eq not_operator c -> moves c p (fun _ => p).
Proof.
  intros Hc s a s' H. destruct (Hc _ _ _ H) as (Hm & l & L & Hl).
  exists l. rewrite ops_of_silent, <- Hm by exact Hl. split; [exact L | constructor].
Qed.

Lemma moves_run_operator op p q :
  (forall m b m', apply_operator op m o = (b, m') -> spec_step p m (Some (op, b)) (q b) m') ->
  moves (run_operator op o) p q.
Proof.
  intros Hs s b s' H. apply run_operator_inv in H as [Ha L].
  exists [Coll (Operator op b)]. split; [exact L|]. apply spec_run_one, Hs, Ha.
Qed.

Lemma moves_do_while fuel (body : comp (@AState M) bool) p q :
  moves body p (fun b => if b then p else q) -> moves (do_while fuel body) p (fun _ => q).
Proof.
  intros Hb. induction fuel as [|f IH]; intros s u s' H; cbn in H; [discriminate|].
  destruct (body s) as [[|] s1| |] eqn:E; try discriminate.
  - destruct (Hb _ _ _ E) as (l1 & L1 & R1). destruct (IH _ _ _ H) as (l2 & L2 & R2).
    exists (l1 ++ l2). rewrite L2, L1, app_assoc, ops_of_app.
    split; [reflexivity | eapply spec_run_trans; eauto].
  - injection H as <- <-. exact (Hb _ _ _ E).
Qed.

(** The global minimum quality, then a decision on it. *)
Lemma min_quality_inv s mq s' :
  min_quality s = Ok mq s' ->
  mq = stat_min (st_mesh s) Qualities /\ st_mesh s' = st_mesh s /\
  st_log s' = st_log s ++ [Coll (AllreduceMin Qualities)].
Proof. intros H. injection H as <- <-. auto. Qed.

Ltac moves_step :=
  match goal with
  | |- moves (bind _ _) _ _ => eapply moves_bind; [| intros ?]
  | |- moves (ret _) _ _ => apply moves_ret; reflexivity
  | |- moves (when _ (post_rebuild _ _)) _ _ =>
      apply moves_observes, (obs_when eq (fun m => eq_refl)), post_rebuild_observes
  | |- moves (post_rebuild _ _) _ _ => apply moves_observes, post_rebuild_observes
  | |- moves (when _ (say _ _)) _ _ =>
      apply moves_observes, (obs_when eq (fun m => eq_refl)), (obs_say eq (fun m => eq_refl)); exact I
  end.

(** ** Each part of [adapt] is a part of the machine *)

Lemma lengths_pass_moves r :
  moves (lengths_pass r o) PLen (fun b => if b then PLen else PQualEntry).
Proof.
  unfold lengths_pass.
  eapply moves_bind; [apply (moves_run_operator _ _ PLenC); intros; constructor; assumption|].
  intros rb. eapply moves_bind; [moves_step|]. intros ?; cbv beta.
  eapply moves_bind.
  - apply (moves_run_operator _ _ (fun c => if rb || c then PLen else PQualEntry)).
    intros m c m' Ha. destruct rb, c; cbn;
      first [apply st_len_again; [exact Ha | reflexivity] | apply st_len_done, Ha].
  - intros c. eapply moves_bind; [moves_step|]. intros ?; cbv beta. moves_step.
Qed.

Lemma quality_cond_moves :
  moves (quality_cond o) PQualCheck (fun b => if b then PQual else PDone).
Proof.
  intros s b s' H. unfold quality_cond in H. apply bind_inv in H as (mq & s1 & H1 & H2).
  apply min_quality_inv in H1 as (-> & Hm & L). injection H2 as <- <-.
  exists [Coll (AllreduceMin Qualities)]. split; [exact L|]. rewrite Hm. cbn.
  destruct (PrimFloat.ltb _ _) eqn:E; apply spec_run_silent; constructor; exact E.
Qed.

Lemma quality_pass_moves r :
  moves (quality_pass r o) PQual (fun b => if b then PQual else PDone).
Proof.
  unfold quality_pass.
  eapply moves_bind; [apply (moves_run_operator _ _ (fun b => if b then PQualCheck else PSlivers));
                      intros; constructor; assumption|].
  intros [].
  - eapply moves_bind; [moves_step|]. intros ?; cbv beta. apply quality_cond_moves.
  - eapply moves_bind; [apply (moves_run_operator _ _ (fun b => if b then PQualCheck else PDone));
                        intros; constructor; assumption|].
    intros [].
    + eapply moves_bind; [moves_step|]. intros ?; cbv beta. apply quality_cond_moves.
    + eapply moves_bind; [moves_step|]. intros ?; cbv beta. moves_step.
Qed.

Lemma satisfy_quality_moves fuel r :
  moves (satisfy_quality fuel r o) PQualEntry (fun _ => PDone).
Proof.
  intros s u s' H. unfold satisfy_quality in H. apply bind_inv in H as (mq & s1 & H1 & H).
  apply min_quality_inv in H1 as (-> & Hm & L).
  destruct (PrimFloat.leb _ _) eqn:E.
  - injection H as <- <-. exists [Coll (AllreduceMin Qualities)].
    rewrite Hm. split; [exact L | apply spec_run_silent, st_qual_skip, E].
  - assert (Hr : moves (when (verb_ge (verbosity o) EACH_REBUILD) (say r MsgAddressingQualities) ;;
                        do_while fuel (quality_pass r o)) PQual (fun _ => PDone)).
    { eapply moves_bind; [moves_step|]. intros ?; cbv beta.
      apply moves_do_while, quality_pass_moves. }
    destruct (Hr _ _ _ H) as (l & L2 & R).
    exists (Coll (AllreduceMin Qualities) :: l). rewrite L2, L, <- app_assoc. split; [reflexivity|].
    cbn [ops_of flat_map app].
    eapply run_silent; [apply st_qual_enter, E | rewrite <- Hm; exact R].
Qed.

Lemma pre_adapt_moves r :
  moves (pre_adapt r o) PStart (fun go => if go then PLen else PNoop).
Proof.
  intros s go s' H. destruct (pre_adapt_observes r o _ _ _ H) as (Hm & l & L & Hl).
  apply pre_adapt_result in H as [_ Hb]. exists l. split; [exact L|].
  rewrite ops_of_silent, <- Hm by exact Hl. subst go.
  destruct (mesh_goals_met o (st_mesh s)) eqn:E; cbn; apply spec_run_silent; constructor; exact E.
Qed.

Lemma adapt_moves fuel r : moves (adapt fuel r o) PStart final.
Proof.
  unfold adapt. eapply moves_bind; [apply pre_adapt_moves|]. intros [].
  - cbn [negb]. eapply moves_bind; [apply moves_do_while, lengths_pass_moves|]. intros ?; cbv beta.
    eapply moves_bind; [apply satisfy_quality_moves|]. intros ?; cbv beta.
    eapply moves_bind; [apply moves_observes, post_adapt_observes|]. intros ?; cbv beta. moves_step.
  - cbn [negb]. moves_step.
Qed.

(** C8: [adapt] refines the state machine of its specification.  Every
    call of [adapt] that returns appends to the log a sequence of events
    whose operator calls, in order and with the changes they reported,
    label a run of [spec_step] from the pre-check on the input mesh to the
    output mesh, ending in the state the result names: [PNoop] for
    [false] (goals met, no operator called) and [PDone] for [true]
    (satisfy-lengths ran until a pass changed nothing, then
    satisfy-quality until its goal held or both of its operators
    refused). *)
Theorem adapt_refines_spec fuel r s b s' :
  adapt fuel r o s = Ok b s' ->
  exists l, st_log s' = st_log s ++ l /\
    spec_run PStart (st_mesh s) (ops_of l) (final b) (st_mesh s').
Proof. apply adapt_moves. Qed.


(** ** Liveness *)

Section Live.
(** Operators that make progress, as in [adapt_terminates]: each
    accepted call of a loop's operators decreases that loop's measure
    and no call increases it. *)
Variable mu_len : M -> nat.
Hypothesis refine_measure : forall m o b m',
  apply_operator RefineBySize m o = (b, m') ->
  if b then mu_len m' < mu_len m else mu_len m' <= mu_len m.
Hypothesis coarsen_measure : forall m o b m',
  apply_operator CoarsenBySize m o = (b, m') ->
  if b then mu_len m' < mu_len m else mu_len m' <= mu_len m.
Variable mu_qual : M -> nat.
Hypothesis swap_measure : forall m o b m',
  apply_operator SwapEdges m o = (b, m') ->
  if b then mu_qual m' < mu_qual m else mu_qual m' <= mu_qual m.
Hypothesis slivers_measure : forall m o b m',
  apply_operator CoarsenSlivers m o = (b, m') ->
  if b then mu_qual m' < mu_qual m else mu_qual m' <= mu_qual m.

(** [adapt] reaches the end of the specification's machine.  With
    valid options and operators that make progress, there is a fuel for
    which [adapt] returns, and its operator calls label a complete run of
    the machine: from the pre-check on the input mesh to [PNoop] or
    [PDone], the two states with no step out. *)
Theorem adapt_reaches_final r s :
  opts_valid o = true ->
  exists fuel b s' (l : list event), adapt fuel r o s = Ok b s' /\ st_log s' = st_log s ++ l /\
    spec_run PStart (st_mesh s) (ops_of l) (final b) (st_mesh s') /\
    forall x p m', ~ spec_step (final b) (st_mesh s') x p m'.
Proof.
  intros Hv.
  destruct (adapt_terminates_fuel mu_len refine_measure coarsen_measure mu_qual swap_measure
              slivers_measure r o s Hv) as (fuel & b & s' & H).
  specialize (H fuel (le_n fuel)).
  destruct (adapt_moves fuel r s b s' H) as (l & L & R).
  exists fuel, b, s', l. split; [exact H|]. split; [exact L|]. split; [exact R|].
  intros x p m' Hs. destruct b; inversion Hs.
Qed.
End Live.

End Spec.

(** ** Runs on the test mesh of Controller.v *)

(** The mesh with two long edges, one short edge and one poor cell after
    [adapt]. *)
Definition toy_adapted : @AState ToyMesh :=
  match adapt 10 0 (opts2 EACH_REBUILD) (toy_state 2 1 1) with
  | Ok _ s => s
  | _ => toy_state 0 0 0
  end.

Lemma adapt_refines_spec_witness :
  exists l, st_log toy_adapted = st_log (toy_state 2 1 1) ++ l /\
    spec_run (opts2 EACH_REBUILD) PStart (mkToy 2 1 1) (ops_of l) (final true)
      (st_mesh toy_adapted).
Proof.
  apply (adapt_refines_spec (opts2 EACH_REBUILD) 10 0 (toy_state 2 1 1) true toy_adapted).
  vm_compute. reflexivity.
Defined.

(** The operator calls of that run, in order. *)
Example toy_adapted_ops :
  ops_of (st_log toy_adapted) =
    [(RefineBySize, true); (CoarsenBySize, true); (RefineBySize, true); (CoarsenBySize, false);
     (RefineBySize, false); (CoarsenBySize, false); (SwapEdges, true)].
Proof. vm_compute. reflexivity. Qed.

Lemma adapt_reaches_final_witness :
  exists fuel b s' (l : list event),
    adapt fuel 0 (opts2 SILENT) (toy_state 3 2 4) = Ok b s' /\
    st_log s' = st_log (toy_state 3 2 4) ++ l /\
    spec_run (opts2 SILENT) PStart (mkToy 3 2 4) (ops_of l) (final b) (st_mesh s') /\
    forall x p m', ~ spec_step (opts2 SILENT) (final b) (st_mesh s') x p m'.
Proof.
  apply (adapt_reaches_final (opts2 SILENT) (fun m => long_edges m + short_edges m)
    (fun m o b m' H => toy_measure_len RefineBySize m o b m' (or_introl eq_refl) H)
    (fun m o b m' H => toy_measure_len CoarsenBySize m o b m' (or_intror eq_refl) H)
    bad_cells
    (fun m o b m' H => toy_measure_qual SwapEdges m o b m' (or_introl eq_refl) H)
    (fun m o b m' H => toy_measure_qual CoarsenSlivers m o b m' (or_intror eq_refl) H)).
  vm_compute. reflexivity.
Defined.
