(* ===== verification/Templates.v ===== *)
(** Simplex templates and adjacency orientation codes used by the split
    evaluator.  In Omega_h they live in simplices.hpp and adj.hpp, which are
    not part of [src/]; they are modelled from the spec's description
    (section 4.3): the local vertex lists of the edges and faces of a
    triangle and a tetrahedron, the side opposite a vertex, the bit fields
    of an [I8] orientation code, and the reordering [flip_new_elem] that
    makes a new cell positively oriented.  The tables are checked
    exhaustively by evaluation. *)

From Stdlib Require Import ZArith Bool List Lia Permutation.
From S2P Require Import Prelude.
Import ListNotations.

(** ** Local vertex tables *)

Definition tri_edge_verts : list (list nat) := [[0; 1]; [1; 2]; [2; 0]].
Definition tet_edge_verts : list (list nat) :=
  [[0; 1]; [1; 2]; [2; 0]; [0; 3]; [1; 3]; [2; 3]].
Definition tet_tri_verts : list (list nat) := [[0; 2; 1]; [0; 1; 3]; [1; 2; 3]; [2; 0; 3]].

(** [DownTemplate<elem_dim, down_dim>::get(which_down, which_vert)]: the
    cell-local vertex of vertex [which_vert] of the [which_down]-th
    sub-simplex of dimension [down_dim]. *)
Definition down_template (elem_dim down_dim which_down which_vert : nat) : nat :=
  let table :=
    match elem_dim, down_dim with
    | 2, 1 => tri_edge_verts
    | 3, 1 => tet_edge_verts
    | 3, 2 => tet_tri_verts
    | _, _ => []
    end in
  get (get table which_down []) which_vert 0.

(** [OppositeTemplate<elem_dim, VERT>::get(v)]: the side (edge of a
    triangle, face of a tetrahedron) that does not contain vertex [v]. *)
Definition opposite_template (elem_dim v : nat) : nat :=
  match elem_dim with
  | 2 => get [1; 2; 0] v 0
  | 3 => get [2; 3; 1; 0] v 0
  | _ => 0
  end.

(** The vertices of side [s] of a cell of dimension [d]. *)
Definition side_verts (d s : nat) : list nat :=
  map (down_template d (d - 1) s) (seq 0 d).

(** ** Orientation codes

    An [I8] stored per incidence: bit 0 says whether the lower entity is
    flipped, bits 1-2 its rotation, bits 3 and up which local lower entity
    it is. *)

Definition make_code (is_flipped : bool) (rotation which_down : Z) : Z :=
  Z.lor (Z.lor (Z.shiftl which_down 3) (Z.shiftl rotation 1)) (if is_flipped then 1 else 0).

Definition code_is_flipped (code : Z) : bool := Z.testbit code 0.
Definition code_rotation (code : Z) : Z := Z.land (Z.shiftr code 1) 3.
Definition code_which_down (code : Z) : Z := Z.shiftr code 3.

(** ** The reordering of a new cell

    [flip_new_elem<dim>]: the new cell made of a side of the old cell and
    the midpoint has the orientation of the old one once the second and
    third entries of a tetrahedron are exchanged; a triangle keeps its
    order. *)
Definition flip_new_elem {A : Type} (dim : nat) (l : list A) : list A :=
  match dim, l with
  | 3, a :: b :: c :: rest => a :: c :: b :: rest
  | _, _ => l
  end.

(** ** Exhaustive checks of the tables *)

(** The side opposite a vertex holds every other vertex of the cell, once,
    and not the vertex itself. *)
Definition opposite_ok (d : nat) : bool :=
  forallb (fun v =>
    let f := side_verts d (opposite_template d v) in
    negb (existsb (Nat.eqb v) f) &&
    forallb (fun w => Nat.eqb v w || existsb (Nat.eqb w) f) (seq 0 (S d)) &&
    forallb (fun w => Nat.leb w d) f)
  (seq 0 (S d)).

Lemma opposite_ok_2 : opposite_ok 2 = true.
Proof. reflexivity. Qed.

Lemma opposite_ok_3 : opposite_ok 3 = true.
Proof. reflexivity. Qed.

Lemma side_verts_length d s : length (side_verts d s) = d.
Proof. unfold side_verts. rewrite length_map, length_seq. reflexivity. Qed.

Lemma opposite_side_spec d v :
  (d = 2 \/ d = 3) -> v <= d ->
  forall w, In w (side_verts d (opposite_template d v)) <-> w <= d /\ w <> v.
Proof.
  intros Hd Hv.
  assert (Hv' : In v (seq 0 (S d))) by (apply in_seq; lia).
  assert (Hok : opposite_ok d = true) by (destruct Hd as [-> | ->]; reflexivity).
  unfold opposite_ok in Hok. rewrite forallb_forall in Hok.
  specialize (Hok v Hv'). rewrite !andb_true_iff in Hok.
  destruct Hok as [[Hnot Hall] Hle]. intros w. split.
  - intros Hin. split.
    + rewrite forallb_forall in Hle. apply Nat.leb_le, Hle, Hin.
    + intros ->. apply negb_true_iff in Hnot.
      assert (E : existsb (Nat.eqb v) (side_verts d (opposite_template d v)) = true)
        by (apply existsb_exists; exists v; rewrite Nat.eqb_refl; auto).
      congruence.
  - intros [Hw Hne]. rewrite forallb_forall in Hall.
    assert (Hw' : In w (seq 0 (S d))) by (apply in_seq; lia).
    specialize (Hall w Hw'). apply orb_true_iff in Hall as [H|H].
    + apply Nat.eqb_eq in H. congruence.
    + apply existsb_exists in H as (x & Hx & Hxw). apply Nat.eqb_eq in Hxw. subst. exact Hx.
Qed.

(** ** Codes: round trip and bounds *)

(** The three fields decode back, and the code fits a signed byte. *)
Definition code_fields_ok (f : bool) (r w : Z) : bool :=
  let c := make_code f r w in
  Bool.eqb (code_is_flipped c) f && Z.eqb (code_rotation c) r &&
  Z.eqb (code_which_down c) w && Z.leb 0 c && Z.ltb c 128.

Definition zrange (n : nat) : list Z := map Z.of_nat (seq 0 n).

Lemma in_zrange n (z : Z) : (0 <= z < Z.of_nat n)%Z -> In z (zrange n).
Proof.
  intros Hz. unfold zrange. apply in_map_iff. exists (Z.to_nat z).
  split; [lia|]. apply in_seq. lia.
Qed.

(** Every code with a rotation below 4 and a lower-entity index below 16
    (a tetrahedron has 6 edges and 4 faces) is checked. *)
Lemma code_table_ok :
  forallb (fun f => forallb (fun r => forallb (code_fields_ok f r) (zrange 16)) (zrange 4))
    [true; false] = true.
Proof. vm_compute. reflexivity. Qed.

Lemma code_roundtrip f r w :
  (0 <= r < 4)%Z -> (0 <= w < 16)%Z ->
  code_is_flipped (make_code f r w) = f /\
  code_rotation (make_code f r w) = r /\
  code_which_down (make_code f r w) = w /\
  (0 <= make_code f r w < 128)%Z.
Proof.
  intros Hr Hw. pose proof code_table_ok as H.
  rewrite forallb_forall in H. specialize (H f ltac:(destruct f; simpl; auto)).
  rewrite forallb_forall in H. specialize (H r (in_zrange 4 r ltac:(lia))).
  rewrite forallb_forall in H. specialize (H w (in_zrange 16 w ltac:(lia))).
  unfold code_fields_ok in H. rewrite !andb_true_iff in H.
  destruct H as [[[[Hf Hr'] Hw'] Hlo] Hhi].
  apply eqb_prop in Hf. apply Z.eqb_eq in Hr', Hw'. apply Z.leb_le in Hlo. apply Z.ltb_lt in Hhi.
  auto.
Qed.

Lemma flip_new_elem_involutive {A : Type} dim (l : list A) :
  flip_new_elem dim (flip_new_elem dim l) = l.
Proof.
  destruct dim as [|[|[|[|]]]]; try reflexivity.
  destruct l as [|a [|b [|c rest]]]; reflexivity.
Qed.

Lemma flip_new_elem_length {A : Type} dim (l : list A) :
  length (flip_new_elem dim l) = length l.
Proof.
  destruct dim as [|[|[|[|]]]]; try reflexivity.
  destruct l as [|a [|b [|c rest]]]; reflexivity.
Qed.

Lemma flip_new_elem_map {A B : Type} (f : A -> B) dim (l : list A) :
  flip_new_elem dim (map f l) = map f (flip_new_elem dim l).
Proof.
  destruct dim as [|[|[|[|]]]]; try reflexivity.
  destruct l as [|a [|b [|c rest]]]; reflexivity.
Qed.

Lemma flip_new_elem_perm {A : Type} dim (l : list A) : Permutation (flip_new_elem dim l) l.
Proof.
  destruct dim as [|[|[|[|]]]]; try reflexivity.
  destruct l as [|a [|b [|c rest]]]; try reflexivity. simpl.
  apply perm_skip, perm_swap.
Qed.

Lemma flip_new_elem_snoc {A : Type} dim (l : list A) x :
  (dim = 2 \/ dim = 3) -> length l = dim ->
  flip_new_elem dim (l ++ [x]) = flip_new_elem dim l ++ [x].
Proof.
  intros [-> | ->] Hl; [reflexivity|].
  destruct l as [|a [|b [|c [|]]]]; simpl in Hl; try discriminate. reflexivity.
Qed.

(** The edges of a cell and their local vertices. *)
Definition nedges_of (d : nat) : nat := match d with 2 => 3 | 3 => 6 | _ => 0 end.

Definition edges_ok (d : nat) : bool :=
  forallb (fun e =>
    let a := down_template d 1 e 0 in
    let b := down_template d 1 e 1 in
    Nat.leb a d && Nat.leb b d && negb (Nat.eqb a b))
  (seq 0 (nedges_of d)).

Lemma edges_ok_2 : edges_ok 2 = true.
Proof. reflexivity. Qed.

Lemma edges_ok_3 : edges_ok 3 = true.
Proof. reflexivity. Qed.

Lemma edge_verts_spec d e k :
  (d = 2 \/ d = 3) -> e < nedges_of d -> k < 2 ->
  down_template d 1 e k <= d /\ down_template d 1 e k <> down_template d 1 e (1 - k).
Proof.
  intros Hd He Hk.
  assert (Hok : edges_ok d = true) by (destruct Hd as [-> | ->]; reflexivity).
  unfold edges_ok in Hok. rewrite forallb_forall in Hok.
  specialize (Hok e ltac:(apply in_seq; lia)). rewrite !andb_true_iff in Hok.
  destruct Hok as [[Ha Hb] Hab]. apply Nat.leb_le in Ha, Hb.
  apply negb_true_iff, Nat.eqb_neq in Hab.
  destruct k as [|[|]]; simpl; try lia; split; auto.
Qed.
