(* ===== verification/Metric.v ===== *)
(** Small vectors and matrices over binary64 floats, the metric fusion
    [maxdet_metric] and the two quality measures the split evaluator
    calls.  In Omega_h these live in algebra.hpp, metric.hpp and quality.hpp,
    outside [src/]; they are modelled from the spec (section 4.4): the
    isotropic measure is the mean ratio of a simplex (cubed for a
    tetrahedron, which keeps its order and avoids a cube root), 1 for a
    regular simplex; the metric measure is the same ratio with sizes and
    lengths measured in the metric; the fusion keeps the tensor of largest
    determinant, the first one on ties. *)

From Stdlib Require Import List PrimFloat.
From S2P Require Import Prelude.
Import ListNotations.

Local Open Scope float_scope.
Set Warnings "-inexact-float".

Definition Vec : Type := list float.
Definition Matrix : Type := list Vec.

Definition vadd (a b : Vec) : Vec := map (fun '(x, y) => x + y) (combine a b).
Definition vsub (a b : Vec) : Vec := map (fun '(x, y) => x - y) (combine a b).
Definition vscale (s : float) (a : Vec) : Vec := map (fun x => x * s) a.
Definition dot (a b : Vec) : float := fold_left (fun acc '(x, y) => acc + x * y) (combine a b) 0.

Definition entry (m : Matrix) (i j : nat) : float := get (get m i []) j 0.

Definition det2 (m : Matrix) : float :=
  entry m 0 0 * entry m 1 1 - entry m 0 1 * entry m 1 0.

Definition det3 (m : Matrix) : float :=
  entry m 0 0 * (entry m 1 1 * entry m 2 2 - entry m 1 2 * entry m 2 1)
  - entry m 0 1 * (entry m 1 0 * entry m 2 2 - entry m 1 2 * entry m 2 0)
  + entry m 0 2 * (entry m 1 0 * entry m 2 1 - entry m 1 1 * entry m 2 0).

Definition determinant (dim : nat) (m : Matrix) : float :=
  match dim with 3%nat => det3 m | _ => det2 m end.

Definition mat_vec (m : Matrix) (v : Vec) : Vec := map (fun row => dot row v) m.

(** [get_symm<dim>(a, i)]: the symmetric tensor of entity [i], stored as
    its diagonal then its off-diagonal entries ([xx, yy, xy] in 2D,
    [xx, yy, zz, xy, yz, xz] in 3D). *)
Definition get_symm (dim : nat) (a : list float) (i : nat) : Matrix :=
  let n := match dim with 3%nat => 6%nat | _ => 3%nat end in
  let c k := get a (i * n + k)%nat 0 in
  match dim with
  | 3%nat => [[c 0%nat; c 3%nat; c 5%nat]; [c 3%nat; c 1%nat; c 4%nat]; [c 5%nat; c 4%nat; c 2%nat]]
  | _ => [[c 0%nat; c 2%nat]; [c 2%nat; c 1%nat]]
  end.

(** [maxdet_metric(ms)]: the first tensor of largest determinant. *)
Definition det_above (dim : nat) (a b : Matrix) : bool :=
  PrimFloat.ltb (determinant dim b) (determinant dim a).

Definition maxdet_metric (dim : nat) (ms : list Matrix) : Matrix :=
  fold_min (det_above dim) (hd [] ms) (tl ms).

(** ** Quality measures *)

(** The edges of a simplex with [n] vertices, as pairs of local indices. *)
Definition simplex_edges (npts : nat) : list (nat * nat) :=
  flat_map (fun i => map (fun j => (i, j)) (seq (S i) (npts - S i))) (seq 0 npts).

Definition edge_vectors (p : list Vec) : list Vec :=
  map (fun '(i, j) => vsub (get p j []) (get p i [])) (simplex_edges (length p)).

(** Signed size: area of a triangle, volume of a tetrahedron. *)
Definition simplex_basis (p : list Vec) : Matrix :=
  map (fun k => vsub (get p k []) (get p 0%nat [])) (seq 1 (length p - 1)).

Definition real_simplex_size (dim : nat) (p : list Vec) : float :=
  match dim with
  | 3%nat => det3 (simplex_basis p) / 6
  | _ => det2 (simplex_basis p) / 2
  end.

Definition mean (l : list float) : float :=
  fold_left add l 0 / fold_left (fun n _ => n + 1) l 0.

(** Size of the regular simplex with unit edges. *)
Definition equilateral_size (dim : nat) : float :=
  match dim with
  | 3%nat => 1 / (6 * PrimFloat.sqrt 2)
  | _ => PrimFloat.sqrt 3 / 4
  end.

(** Mean ratio from a size and a mean squared edge length (cubed in 3D). *)
Definition mean_ratio (dim : nat) (size msl : float) : float :=
  let r := size / equilateral_size dim in
  match dim with
  | 3%nat => r * r / (msl * msl * msl)
  | _ => r / msl
  end.

Definition real_element_quality (dim : nat) (p : list Vec) : float :=
  mean_ratio dim (real_simplex_size dim p) (mean (map (fun e => dot e e) (edge_vectors p))).

(** The same ratio with edge lengths and size measured in the metric [m]. *)
Definition metric_element_quality (dim : nat) (p : list Vec) (m : Matrix) : float :=
  mean_ratio dim (real_simplex_size dim p * PrimFloat.sqrt (determinant dim m))
    (mean (map (fun e => dot e (mat_vec m e)) (edge_vectors p))).

(** ** Properties of the fusion *)

Lemma maxdet_metric_in dim m ms :
  maxdet_metric dim (m :: ms) = m \/ In (maxdet_metric dim (m :: ms)) ms.
Proof. apply fold_min_in. Qed.

Lemma maxdet_metric_single dim m : maxdet_metric dim [m] = m.
Proof. reflexivity. Qed.
