(* ===== verification/RefineQualities.v ===== *)
(** The split evaluator of src/src/refine_qualities.cpp.

    For each candidate edge, [refine_qualities_tmpl] takes the midpoint of
    the edge and, for every cell around it and each of the two endpoints,
    forms the new cell that splitting the edge would create (the side of the
    old cell opposite the endpoint, joined to the midpoint), reorders it with
    [flip_new_elem] and measures it; the candidate's value is the running
    [min2] of these qualities, started at 1.  The measure is a policy, as the
    C++ template parameter: [RealRefineQualities] (isotropic) or
    [MetricRefineQualities] (the cell's vertex metrics and the midpoint
    metric fused by [maxdet_metric]).  The mesh is the record of arrays the
    C++ reads; [refine_qualities] dispatches on the dimension and on the
    presence of the metric tag.  The values are then combined across the
    ranks sharing the edges by [sync_subset_array] (outside [src/], from
    the spec), which every rank calls with its own candidates, its own
    values and the default -1.0. *)

From Stdlib Require Import ZArith Bool List Lia Permutation PrimFloat.
From S2P Require Import Prelude Templates Metric.
Import ListNotations.
From Stdlib Require String.
Import String.StringSyntax.

Set Warnings "-inexact-float".

(** ** The arrays the evaluator reads *)

Record RMesh : Type := mkRMesh {
  m_dim : nat;                    (** [mesh->dim()] *)
  m_coords : list float;          (** [mesh->coords()], [dim] per vertex *)
  m_ev2v : list nat;              (** [ask_verts_of(EDGE)], 2 per edge *)
  m_cv2v : list nat;              (** [ask_verts_of(dim)], [dim+1] per cell *)
  m_e2ec : list nat;              (** [ask_up(EDGE, dim).a2ab], offsets *)
  m_ec2c : list nat;              (** [ask_up(EDGE, dim).ab2b] *)
  m_ec_codes : list Z;            (** [ask_up(EDGE, dim).codes] *)
  m_metric : option (list float)  (** the vertex tag "metric", if any *)
}.

(** [gather_verts<n>(a2b, a)]. *)
Definition gather_verts (n : nat) (a2b : list nat) (a : nat) : list nat :=
  map (fun i => get a2b (a * n + i) 0) (seq 0 n).

(** [get_vector<dim>(coords, v)]. *)
Definition get_vector (dim : nat) (coords : list float) (v : nat) : Vec :=
  map (fun i => get coords (v * dim + i) 0%float) (seq 0 dim).

(** [(ep[0] + ep[1]) / 2.]. *)
Definition midpoint (a b : Vec) : Vec :=
  map (fun x => (x / 2)%float) (vadd a b).

(** ** The measure policies *)

Class RefineMeasure (Msr : Type) := measure :
  Msr -> nat -> nat -> list Vec -> list nat -> float.

(** [struct RealRefineQualities]: the isotropic quality of the points. *)
Inductive RealRefineQualities : Type := real_refine_qualities.

#[export] Instance real_refine_measure : RefineMeasure RealRefineQualities :=
  fun _ dim _ p _ => real_element_quality dim p.

(** [struct MetricRefineQualities]: the metrics of the vertices of the old
    side and of the midpoint, fused by [maxdet_metric]. *)
Record MetricRefineQualities : Type := mkMetricRefineQualities {
  vert_metrics : list float;
  midpt_metrics : list float
}.

#[export] Instance metric_refine_measure : RefineMeasure MetricRefineQualities :=
  fun msr dim cand p csv2v =>
    let ms := map (get_symm dim (vert_metrics msr)) csv2v ++
              [get_symm dim (midpt_metrics msr) cand] in
    metric_element_quality dim p (maxdet_metric dim ms).

(** [get_mident_metrics(mesh, EDGE, candidates, vert_metrics)], outside
    [src/]: the metric at the midpoint of each candidate edge, modelled as
    the average of the endpoint tensors, stored as symmetric tensors. *)
Definition get_mident_metrics (m : RMesh) (candidates : list nat) (vmetrics : list float)
    : list float :=
  let n := match m_dim m with 3 => 6 | _ => 3 end in
  flat_map (fun e =>
    let vs := gather_verts 2 (m_ev2v m) e in
    map (fun k =>
      let a := get vmetrics (get vs 0 0 * n + k) 0%float in
      let b := get vmetrics (get vs 1 0 * n + k) 0%float in
      PrimFloat.div (PrimFloat.add a b) 2%float) (seq 0 n))
    candidates.

(** The constructors of the two policies. *)
Definition make_real_refine_qualities (m : RMesh) (candidates : list nat) : RealRefineQualities :=
  real_refine_qualities.

Definition make_metric_refine_qualities (m : RMesh) (candidates : list nat)
    : MetricRefineQualities :=
  let vm := match m_metric m with Some a => a | None => [] end in
  mkMetricRefineQualities vm (get_mident_metrics m candidates vm).

(** ** The new cell of a split *)

(** Lines 72-84: the vertices of the new cell formed from cell-local
    edge [cce] for the cell-local endpoint [cev], flipped. *)
Definition new_cell_verts (dim : nat) (ccv2v : list nat) (cce cev : nat) : list nat :=
  let ccv := down_template dim 1 cce cev in
  let ccs := opposite_template dim ccv in
  flip_new_elem dim
    (map (fun csv => get ccv2v (down_template dim (dim - 1) ccs csv) 0) (seq 0 dim)).

(** The points of that cell: the coordinates of the side's vertices and the
    midpoint, flipped. *)
Definition new_cell_points (dim : nat) (coords : list float) (ccv2v : list nat)
    (midp : Vec) (cce cev : nat) : list Vec :=
  let ccv := down_template dim 1 cce cev in
  let ccs := opposite_template dim ccv in
  flip_new_elem dim
    (map (fun csv => get_vector dim coords (get ccv2v (down_template dim (dim - 1) ccs csv) 0))
         (seq 0 dim) ++ [midp]).

(** ** The loop of [refine_qualities_tmpl] *)

Section Evaluator.
Context {Msr : Type} {RM : RefineMeasure Msr}.
Variable msr : Msr.
Variable dim : nat.
Variable m : RMesh.

(** Lines 62-88: the qualities of the two new cells made from the
    [ec]-th cell around the candidate. *)
Definition cell_new_quals (cand : nat) (midp : Vec) (ec : nat) : list float :=
  let c := get (m_ec2c m) ec 0 in
  let code := get (m_ec_codes m) ec 0%Z in
  let cce := Z.to_nat (code_which_down code) in
  let rot := Z.to_nat (code_rotation code) in
  let ccv2v := gather_verts (S dim) (m_cv2v m) c in
  map (fun eev =>
         let cev := Nat.lxor eev rot in
         measure msr dim cand (new_cell_points dim (m_coords m) ccv2v midp cce cev)
                 (new_cell_verts dim ccv2v cce cev))
      [0; 1].

(** The incidences of edge [e] in the up-adjacency, in order. *)
Definition edge_cells (e : nat) : list nat :=
  let lo := get (m_e2ec m) e 0 in
  seq lo (get (m_e2ec m) (S e) 0 - lo).

(** Lines 56-59: the midpoint of candidate edge [e]. *)
Definition edge_midpoint (e : nat) : Vec :=
  let eev2v := gather_verts 2 (m_ev2v m) e in
  let ep := map (get_vector dim (m_coords m)) eev2v in
  midpoint (get ep 0 []) (get ep 1 []).

(** The qualities of all new cells of candidate [cand], in loop order. *)
Definition candidate_new_quals (candidates : list nat) (cand : nat) : list float :=
  let e := get candidates cand 0 in
  flat_map (cell_new_quals cand (edge_midpoint e)) (edge_cells e).

(** Lines 55-91: the body of the parallel loop for one candidate: the
    running [min2] of the new cells' qualities, started at 1. *)
Definition candidate_quality (candidates : list nat) (cand : nat) : float :=
  fold_min PrimFloat.ltb 1.0%float (candidate_new_quals candidates cand).

End Evaluator.

(** ** Synchronizing the candidates' values

    [mesh->sync_subset_array(EDGE, cand_quals, candidates, -1.0, 1)],
    outside [src/], modelled from the spec (section 4.2, step 6): the values
    are scattered onto an edge array filled with the default, the edge
    arrays of the ranks sharing the edges are combined by maximum, and the
    result is gathered back at the candidates.  The call is collective:
    every rank sharing the edges runs the same line with its own
    candidates and values and the same default.  [others] holds, for each
    other rank, its values and its candidates numbered as local edges; it
    is empty on one rank. *)
Definition set_pair (acc : list float) (p : float * nat) : list float :=
  let '(a, e) := p in set acc e a.

Definition map_onto (a_data : list float) (a2e : list nat) (nents : nat) (default : float)
    : list float :=
  fold_left set_pair (combine a_data a2e) (repeat default nents).

Definition unmap (a2e : list nat) (e_data : list float) : list float :=
  map (fun e => get e_data e (-1)%float) a2e.

Definition fmax (a b : float) : float := if PrimFloat.ltb a b then b else a.

Definition combine_max (mine other : list float) : list float :=
  map (fun '(a, b) => fmax a b) (combine mine other).

Definition sync_subset_array (others : list (list float * list nat)) (nents : nat)
    (a_data : list float) (a2e : list nat) (default : float) : list float :=
  unmap a2e (fold_left combine_max
               (map (fun o => map_onto (fst o) (snd o) nents default) others)
               (map_onto a_data a2e nents default)).

(** What a rank with values [vals] at the edges [a2e] contributes at edge
    [e] of the combined array: its value there, or the default where it
    has none. *)
Definition peer_value (vals : list float) (a2e : list nat) (e : nat) (default : float) : float :=
  match find (fun p => Nat.eqb (snd p) e) (combine vals a2e) with
  | Some (a, _) => a
  | None => default
  end.

(** A rank's arguments to the collective call are well formed: one value
    per candidate, distinct candidates, all edges of the mesh. *)
Definition peer_wf (n : nat) (o : list float * list nat) : Prop :=
  length (fst o) = length (snd o) /\ NoDup (snd o) /\ Forall (fun e => e < n) (snd o).

(** [refine_qualities_tmpl<Measure, dim>] (lines 43-95). *)
Definition nedges (m : RMesh) : nat := Nat.div (length (m_ev2v m)) 2.

Definition refine_qualities_tmpl {Msr : Type} {RM : RefineMeasure Msr} (msr : Msr)
    (dim : nat) (m : RMesh) (candidates : list nat) (others : list (list float * list nat))
    : list float :=
  let quals := map (candidate_quality msr dim m candidates) (seq 0 (length candidates)) in
  sync_subset_array others (nedges m) quals candidates (-1)%float.

Section Messages.
Local Open Scope string_scope.
(** The condition of the [CHECK] that fails. *)
Definition check_dim2_msg : String.string := "dim == 2".
End Messages.

(** [refine_qualities] (lines 97-115): dispatch on the metric tag and the
    dimension; [CHECK(dim == 2)] aborts for any other dimension. *)
Definition refine_qualities (m : RMesh) (candidates : list nat)
    (others : list (list float * list nat))
    : String.string + list float :=
  let dim := m_dim m in
  match m_metric m with
  | Some _ =>
      let msr := make_metric_refine_qualities m candidates in
      if Nat.eqb dim 3 then inr (refine_qualities_tmpl msr 3 m candidates others)
      else if Nat.eqb dim 2 then inr (refine_qualities_tmpl msr 2 m candidates others)
      else inl check_dim2_msg
  | None =>
      let msr := make_real_refine_qualities m candidates in
      if Nat.eqb dim 3 then inr (refine_qualities_tmpl msr 3 m candidates others)
      else if Nat.eqb dim 2 then inr (refine_qualities_tmpl msr 2 m candidates others)
      else inl check_dim2_msg
  end.

(** ** Properties of the evaluator *)

(** The vertices of the new cell are the side's vertices, flipped. *)
Lemma new_cell_verts_side dim ccv2v cce cev :
  new_cell_verts dim ccv2v cce cev =
  flip_new_elem dim (map (fun i => get ccv2v i 0)
    (side_verts dim (opposite_template dim (down_template dim 1 cce cev)))).
Proof. unfold new_cell_verts, side_verts. cbv zeta. rewrite map_map. reflexivity. Qed.

(** The points handed to the measure are those of the vertex ids handed
    to it, in the same order, followed by the midpoint: [csv2v] and [ncp]
    are built and flipped in step. *)
Theorem new_cell_points_aligned dim coords ccv2v midp cce cev :
  (dim = 2 \/ dim = 3) ->
  new_cell_points dim coords ccv2v midp cce cev =
  map (get_vector dim coords) (new_cell_verts dim ccv2v cce cev) ++ [midp].
Proof.
  intros Hd. unfold new_cell_points, new_cell_verts.
  rewrite flip_new_elem_snoc by (auto; rewrite length_map, length_seq; reflexivity).
  rewrite <- flip_new_elem_map, map_map. reflexivity.
Qed.

(** C9: Which cell a split creates.  For a valid cell-local edge and either
    of its endpoints, the new cell's vertices are exactly the old cell's
    vertices other than that endpoint (the midpoint completes it). *)
Theorem new_cell_verts_spec dim ccv2v cce cev x :
  (dim = 2 \/ dim = 3) -> cce < nedges_of dim -> cev < 2 ->
  In x (new_cell_verts dim ccv2v cce cev) <->
  exists i, i <= dim /\ i <> down_template dim 1 cce cev /\ x = get ccv2v i 0.
Proof.
  intros Hd He Hk. rewrite new_cell_verts_side.
  split.
  - intros Hx. apply (Permutation_in _ (flip_new_elem_perm _ _)) in Hx.
    apply in_map_iff in Hx as (i & <- & Hi).
    apply opposite_side_spec in Hi as [Hi Hne]; [|auto|apply edge_verts_spec; auto].
    eauto.
  - intros (i & Hi & Hne & ->). apply (Permutation_in _ (Permutation_sym (flip_new_elem_perm _ _))).
    apply (in_map (fun j => get ccv2v j 0)). apply opposite_side_spec; auto. apply edge_verts_spec; auto.
Qed.

Section EvaluatorProps.
Context {Msr : Type} {RM : RefineMeasure Msr}.
Variables (msr : Msr) (dim : nat) (m : RMesh) (candidates : list nat).

(** C27: The predicted quality of a candidate is the minimum of 1 and of
    the qualities of its new cells.  It is one of these values, and when
    the float [<] is transitive and irreflexive on them (no NaN among them)
    none of them is below it. *)
Theorem candidate_quality_min cand :
  let qs := 1.0%float :: candidate_new_quals msr dim m candidates cand in
  (forall x y z, In x qs -> In y qs -> In z qs ->
     PrimFloat.ltb x y = true -> PrimFloat.ltb y z = true -> PrimFloat.ltb x z = true) ->
  (forall x, In x qs -> PrimFloat.ltb x x = false) ->
  In (candidate_quality msr dim m candidates cand) qs /\
  forall q, In q qs -> PrimFloat.ltb q (candidate_quality msr dim m candidates cand) = false.
Proof.
  intros qs Htr Hirr. split.
  - destruct (fold_min_in PrimFloat.ltb 1.0%float (candidate_new_quals msr dim m candidates cand))
      as [E|E]; [left; symmetry; exact E | right; exact E].
  - apply (fold_min_lower PrimFloat.ltb qs); auto.
    + left; reflexivity.
    + intros x Hx. right. exact Hx.
Qed.

(** A candidate edge with no cell around it is predicted 1, the value of
    a perfect cell, and not the "no data" sentinel -1 the spec describes. *)
Theorem candidate_quality_no_cells cand :
  edge_cells m (get candidates cand 0) = [] ->
  candidate_quality msr dim m candidates cand = 1.0%float.
Proof.
  intros H. unfold candidate_quality, candidate_new_quals. rewrite H. reflexivity.
Qed.
End EvaluatorProps.


(** ** Synchronization: scatter then gather *)

Lemma fold_set_other ps acc e d :
  ~ In e (map snd ps) -> get (fold_left set_pair ps acc) e d = get acc e d.
Proof.
  revert acc. induction ps as [|[a e'] ps IH]; intros acc Hn; simpl in *; [reflexivity|].
  rewrite IH by tauto. apply get_set_ne. intros ->. tauto.
Qed.

Lemma fold_set_in ps acc a e d :
  NoDup (map snd ps) -> Forall (fun p => snd p < length acc) ps -> In (a, e) ps ->
  get (fold_left set_pair ps acc) e d = a.
Proof.
  revert acc. induction ps as [|[a0 e0] ps IH]; intros acc Hnd Hlt Hin; simpl in *; [tauto|].
  inversion Hnd as [|? ? Hnotin Hnd']; subst. inversion Hlt as [|? ? Hlt0 Hlt']; subst.
  destruct Hin as [Heq|Hin].
  - inversion Heq; subst. rewrite fold_set_other by exact Hnotin. apply get_set_eq. exact Hlt0.
  - apply IH; auto. eapply Forall_impl; [|exact Hlt']. intros [? ?]. simpl. rewrite set_length. auto.
Qed.

Lemma combine_map_snd {A B : Type} (l1 : list A) (l2 : list B) :
  length l1 = length l2 -> map snd (combine l1 l2) = l2.
Proof.
  revert l2. induction l1 as [|x l1 IH]; intros [|y l2] H; simpl in *; try discriminate; auto.
  f_equal. apply IH. lia.
Qed.

Lemma map_via_combine {B C : Type} (f : B -> C) (l1 : list C) (l2 : list B) :
  length l1 = length l2 -> (forall a b, In (a, b) (combine l1 l2) -> f b = a) -> map f l2 = l1.
Proof.
  revert l2. induction l1 as [|x l1 IH]; intros [|y l2] Hlen H; simpl in *; try discriminate; auto.
  f_equal; auto.
Qed.

Lemma set_pairs_range (a_data : list float) (a2e : list nat) n (d : float) :
  Forall (fun e => e < n) a2e ->
  Forall (fun p : float * nat => snd p < length (repeat d n)) (combine a_data a2e).
Proof.
  intros Hlt. apply Forall_forall. intros [a e] Hin. apply in_combine_r in Hin.
  rewrite repeat_length. rewrite Forall_forall in Hlt. apply Hlt, Hin.
Qed.

(** Slot [e] of a scattered array is the value scattered there, or the
    default. *)
Lemma get_map_onto a_data a2e n d e :
  length a_data = length a2e -> NoDup a2e -> Forall (fun e => e < n) a2e -> e < n ->
  get (map_onto a_data a2e n d) e (-1)%float = peer_value a_data a2e e d.
Proof.
  intros Hlen Hnd Hlt He. unfold peer_value, map_onto.
  destruct (find _ _) as [[a e']|] eqn:F.
  - apply find_some in F. destruct F as [Hin Heq]. apply Nat.eqb_eq in Heq. simpl in Heq. subst e'.
    apply fold_set_in; [rewrite combine_map_snd by exact Hlen; exact Hnd| |exact Hin].
    apply set_pairs_range, Hlt.
  - rewrite fold_set_other.
    + unfold get. rewrite (nth_indep _ _ d) by (rewrite repeat_length; exact He). apply nth_repeat.
    + intros Hin. apply in_map_iff in Hin. destruct Hin as [[a e'] [He' Hin]]. simpl in He'. subst e'.
      apply (find_none _ _ F) in Hin. simpl in Hin. rewrite Nat.eqb_refl in Hin. discriminate.
Qed.

(** Scattering values onto distinct in-range slots and gathering them back
    returns the values. *)
Lemma unmap_map_onto a_data a2e n d :
  length a_data = length a2e -> NoDup a2e -> Forall (fun e => e < n) a2e ->
  unmap a2e (map_onto a_data a2e n d) = a_data.
Proof.
  intros Hlen Hnd Hlt. unfold unmap, map_onto. apply map_via_combine; [exact Hlen|].
  intros a e Hin. apply fold_set_in; [| |exact Hin].
  - rewrite combine_map_snd by exact Hlen. exact Hnd.
  - apply set_pairs_range, Hlt.
Qed.

Lemma get_combine_max a b e :
  length a = length b ->
  get (combine_max a b) e (-1)%float = fmax (get a e (-1)%float) (get b e (-1)%float).
Proof.
  unfold get, combine_max. revert b e.
  induction a as [|x a IH]; intros [|y b] e Hlen; simpl in *; try discriminate.
  - destruct e; reflexivity.
  - destruct e; [reflexivity|]. apply IH. lia.
Qed.

Lemma combine_max_length a b : length a = length b -> length (combine_max a b) = length a.
Proof. intros H. unfold combine_max. rewrite length_map, length_combine. lia. Qed.

(** Each slot of the combined array is the maximum of the contributions,
    taken in rank order. *)
Lemma fold_combine_max_get others base e :
  Forall (fun o => length o = length base) others ->
  get (fold_left combine_max others base) e (-1)%float =
  fold_left fmax (map (fun o => get o e (-1)%float) others) (get base e (-1)%float).
Proof.
  revert base. induction others as [|o others IH]; intros base Hl; simpl; [reflexivity|].
  inversion Hl as [|? ? Ho Hl']; subst.
  rewrite IH.
  - rewrite get_combine_max by auto. reflexivity.
  - eapply Forall_impl; [|exact Hl']. intros x Hx. simpl in Hx.
    rewrite combine_max_length; lia.
Qed.

Lemma map_onto_length a_data a2e n d : length (map_onto a_data a2e n d) = n.
Proof.
  unfold map_onto. generalize (repeat d n) (repeat_length d n).
  induction (combine a_data a2e) as [|[a e] ps IH]; intros acc Hacc; simpl; auto.
  apply IH. rewrite set_length. exact Hacc.
Qed.

Lemma get_map_in {A B : Type} (f : A -> B) (l : list A) i d d' :
  i < length l -> get (map f l) i d' = f (get l i d).
Proof. intros Hi. unfold get. rewrite (nth_indep _ d' (f d)) by (rewrite length_map; exact Hi). apply map_nth. Qed.

(** Slot [i] only reads candidate [i]: two candidate lists that agree at
    [i] give the same prediction there. *)
Lemma candidate_quality_local {Msr : Type} {RM : RefineMeasure Msr} (msr : Msr) dim m c1 c2 i :
  get c1 i 0 = get c2 i 0 ->
  candidate_quality msr dim m c1 i = candidate_quality msr dim m c2 i.
Proof. intros H. unfold candidate_quality, candidate_new_quals. rewrite H. reflexivity. Qed.

Section TmplProps.
Context {Msr : Type} {RM : RefineMeasure Msr}.
Variables (msr : Msr) (dim : nat) (m : RMesh) (candidates : list nat).
Hypothesis cands_nodup : NoDup candidates.
Hypothesis cands_range : Forall (fun e => e < nedges m) candidates.

Lemma tmpl_quals_length :
  length (map (candidate_quality msr dim m candidates) (seq 0 (length candidates))) =
  length candidates.
Proof. rewrite length_map, length_seq. reflexivity. Qed.

(** On a single rank, [refine_qualities_tmpl] returns, in the order of
    the candidates, each candidate's own prediction. *)
Lemma refine_qualities_tmpl_serial :
  refine_qualities_tmpl msr dim m candidates [] =
  map (candidate_quality msr dim m candidates) (seq 0 (length candidates)).
Proof.
  unfold refine_qualities_tmpl, sync_subset_array. simpl.
  apply unmap_map_onto; auto. apply tmpl_quals_length.
Qed.

(** C26: The value a rank gets back for its [i]-th candidate is the
    maximum, taken in rank order, of its own prediction and of what each
    other rank contributes at that edge: the rank's own prediction there
    when it has the edge among its candidates, and -1, the default of
    line 94, when it has not. *)
Theorem refine_qualities_tmpl_sync others i :
  Forall (peer_wf (nedges m)) others -> i < length candidates ->
  get (refine_qualities_tmpl msr dim m candidates others) i (-1)%float =
  fold_left fmax (map (fun o => peer_value (fst o) (snd o) (get candidates i 0) (-1)%float) others)
    (candidate_quality msr dim m candidates i).
Proof.
  intros Hothers Hi. unfold refine_qualities_tmpl, sync_subset_array, unmap.
  assert (He : get candidates i 0 < nedges m).
  { rewrite Forall_forall in cands_range. apply cands_range. unfold get. apply nth_In, Hi. }
  rewrite (get_map_in _ _ _ 0) by exact Hi.
  rewrite fold_combine_max_get.
  2:{ apply Forall_forall. intros o Ho. apply in_map_iff in Ho. destruct Ho as (? & <- & _).
      rewrite !map_onto_length. reflexivity. }
  rewrite map_map. f_equal.
  { apply map_ext_in. intros o Ho. rewrite Forall_forall in Hothers.
    destruct (Hothers o Ho) as (H1 & H2 & H3). apply get_map_onto; auto. }
  unfold map_onto. apply fold_set_in.
  - rewrite combine_map_snd by apply tmpl_quals_length. exact cands_nodup.
  - apply set_pairs_range, cands_range.
  - assert (Hq : get (map (candidate_quality msr dim m candidates) (seq 0 (length candidates)))
                      i 0%float = candidate_quality msr dim m candidates i).
    { rewrite (get_map_in _ _ _ 0) by (rewrite length_seq; exact Hi).
      unfold get. rewrite seq_nth by exact Hi. reflexivity. }
    rewrite <- Hq. unfold get. rewrite <- combine_nth by apply tmpl_quals_length.
    apply nth_In. rewrite length_combine, tmpl_quals_length. lia.
Qed.
End TmplProps.

(** ** The dispatcher *)

(** [refine_qualities] aborts on [CHECK(dim == 2)] for a mesh that is
    neither 2D nor 3D, with or without a metric. *)
Theorem refine_qualities_bad_dim m c others :
  m_dim m <> 2 -> m_dim m <> 3 -> refine_qualities m c others = inl check_dim2_msg.
Proof.
  intros H2 H3. unfold refine_qualities.
  rewrite (proj2 (Nat.eqb_neq _ _) H2), (proj2 (Nat.eqb_neq _ _) H3).
  destruct (m_metric m); reflexivity.
Qed.

(** The policy is chosen once per call: the metric measure when the mesh
    has a vertex metric, the isotropic one otherwise, at the mesh's
    dimension. *)
Theorem refine_qualities_policy m c others :
  m_dim m = 2 \/ m_dim m = 3 ->
  refine_qualities m c others =
  match m_metric m with
  | Some _ => inr (refine_qualities_tmpl (make_metric_refine_qualities m c) (m_dim m) m c others)
  | None => inr (refine_qualities_tmpl (make_real_refine_qualities m c) (m_dim m) m c others)
  end.
Proof.
  intros Hd. unfold refine_qualities.
  destruct Hd as [Hd|Hd]; rewrite Hd; destruct (m_metric m); reflexivity.
Qed.

(** ** Test meshes *)

(** The unit square split along its diagonal (1, 2) into the triangles
    [0 1 2] and [1 3 2]; edges [0 1], [1 2], [2 0], [1 3], [3 2].  The
    shared edge is local edge 1 of the first cell (same direction, code 8)
    and local edge 2 of the second (reversed, code 18). *)
Definition two_triangles : RMesh :=
  mkRMesh 2 [0; 0; 1; 0; 0; 1; 1; 1]%float [0; 1; 1; 2; 2; 0; 1; 3; 3; 2]
    [0; 1; 2; 1; 3; 2] [0; 1; 3; 4; 5; 6] [0; 0; 1; 0; 1; 1] [0; 8; 18; 16; 0; 8]%Z None.

(** One triangle and a dangling edge [2 3] that no cell uses. *)
Definition dangling_edge : RMesh :=
  mkRMesh 2 [0; 0; 1; 0; 0; 1; 1; 1]%float [0; 1; 1; 2; 2; 0; 2; 3]
    [0; 1; 2] [0; 1; 2; 3; 3] [0; 0; 0] [0; 8; 16]%Z None.

(** Splitting the diagonal gives four right isosceles triangles (quality
    sqrt 3 / 2); splitting a side leaves a worse cell. *)
Example two_triangles_split :
  refine_qualities two_triangles [1; 0; 3] [] =
  inr [real_element_quality 2 [[0; 1]; [0; 0]; [0.5; 0.5]]%float;
       0.49487165930539356%float; 0.49487165930539356%float].
Proof. vm_compute. reflexivity. Qed.

Lemma new_cell_points_aligned_witness :
  new_cell_points 3 (repeat 0%float 12) [4; 5; 6; 7] [1; 1; 1]%float 3 1 =
  map (get_vector 3 (repeat 0%float 12)) (new_cell_verts 3 [4; 5; 6; 7] 3 1) ++ [[1; 1; 1]%float].
Proof. apply new_cell_points_aligned. right. reflexivity. Defined.

Lemma new_cell_verts_spec_witness :
  In 4 (new_cell_verts 3 [4; 5; 6; 7] 4 1) <->
  exists i, i <= 3 /\ i <> down_template 3 1 4 1 /\ 4 = get [4; 5; 6; 7] i 0.
Proof. apply new_cell_verts_spec; [right; reflexivity | simpl; lia | lia]. Defined.

Lemma candidate_quality_min_witness :
  let qs := 1.0%float :: candidate_new_quals real_refine_qualities 2 two_triangles [1] 0 in
  In (candidate_quality real_refine_qualities 2 two_triangles [1] 0) qs /\
  forall q, In q qs -> PrimFloat.ltb q (candidate_quality real_refine_qualities 2 two_triangles [1] 0) = false.
Proof.
  apply candidate_quality_min.
  - apply transitive_on_spec. vm_compute. reflexivity.
  - apply irreflexive_on_spec. vm_compute. reflexivity.
Defined.

Lemma candidate_quality_no_cells_witness :
  candidate_quality real_refine_qualities 2 dangling_edge [3] 0 = 1.0%float.
Proof. apply candidate_quality_no_cells. reflexivity. Defined.

(** A second rank has candidate 1 (the diagonal) with prediction 0.9 and
    candidate 4, which is not a candidate here. *)
Lemma refine_qualities_tmpl_sync_witness :
  get (refine_qualities_tmpl real_refine_qualities 2 two_triangles [1; 0; 3]
         [([0.9; 0.3]%float, [4; 1])]) 0 (-1)%float =
  fold_left fmax (map (fun o => peer_value (fst o) (snd o) 1 (-1)%float) [([0.9; 0.3]%float, [4; 1])])
    (candidate_quality real_refine_qualities 2 two_triangles [1; 0; 3] 0).
Proof.
  apply refine_qualities_tmpl_sync.
  - repeat constructor; simpl; intuition discriminate.
  - repeat constructor.
  - repeat constructor; simpl; try lia; intuition discriminate.
  - simpl. lia.
Defined.

Lemma refine_qualities_bad_dim_witness :
  refine_qualities (mkRMesh 1 [] [] [] [] [] [] None) [] [] = inl check_dim2_msg.
Proof. apply refine_qualities_bad_dim; discriminate. Defined.

Lemma refine_qualities_policy_witness :
  refine_qualities two_triangles [1] [] =
  inr (refine_qualities_tmpl (make_real_refine_qualities two_triangles [1]) 2 two_triangles [1] []).
Proof. apply (refine_qualities_policy two_triangles [1] []). left. reflexivity. Defined.
