(* ===== verification/Geometry.v ===== *)
(** The geometry of the split evaluator, in exact rational arithmetic.

    The evaluator measures, for each old cell around a candidate edge and
    each endpoint of the edge, the cell [new_cell_verts] + midpoint.  Its
    quality formulas are only meaningful for positively oriented cells
    (spec section 4.2, step 4).  Over the rationals, with the orientation
    of a simplex as the determinant of its edge vectors from the first
    vertex, this file shows that every new cell has exactly half the
    orientation of the old one: the templates and [flip_new_elem] always
    produce a positively oriented cell from a positively oriented one, and
    the two new cells of an old cell split its volume in two. *)

From Stdlib Require Import QArith List Lia.
From S2P Require Import Prelude Templates RefineQualities.
Import ListNotations.

Local Open Scope Q_scope.

Definition qpt : Type := list Q.

Definition xc (p : qpt) (k : nat) : Q := nth k p 0.

Definition orient2 (p0 p1 p2 : qpt) : Q :=
  (xc p1 0 - xc p0 0) * (xc p2 1 - xc p0 1) - (xc p1 1 - xc p0 1) * (xc p2 0 - xc p0 0).

Definition det3q (a b c : Q * Q * Q) : Q :=
  let '(a0, a1, a2) := a in let '(b0, b1, b2) := b in let '(c0, c1, c2) := c in
  a0 * (b1 * c2 - b2 * c1) - a1 * (b0 * c2 - b2 * c0) + a2 * (b0 * c1 - b1 * c0).

Definition diff3 (p q : qpt) : Q * Q * Q :=
  (xc p 0 - xc q 0, xc p 1 - xc q 1, xc p 2 - xc q 2).

Definition orient3 (p0 p1 p2 p3 : qpt) : Q :=
  det3q (diff3 p1 p0) (diff3 p2 p0) (diff3 p3 p0).

(** Orientation of a triangle or a tetrahedron given by its points. *)
Definition orient (dim : nat) (ps : list qpt) : Q :=
  match dim with
  | 3%nat => orient3 (get ps 0 []) (get ps 1 []) (get ps 2 []) (get ps 3 [])
  | _ => orient2 (get ps 0 []) (get ps 1 []) (get ps 2 [])
  end.

(** The midpoint of two points, [(a + b) / 2]. *)
Definition qmid (dim : nat) (a b : qpt) : qpt :=
  map (fun k => (xc a k + xc b k) * (1 # 2)) (seq 0 dim).

(** The new cell of the split of cell [ccv2v] (vertex coordinates [P]) at
    its local edge [cce], for endpoint [cev]: the points the evaluator
    measures, in its order. *)
Definition new_cell_qpoints (dim : nat) (P : nat -> qpt) (ccv2v : list nat) (cce cev : nat)
    : list qpt :=
  let a := get ccv2v (down_template dim 1 cce 0) 0%nat in
  let b := get ccv2v (down_template dim 1 cce 1) 0%nat in
  map P (new_cell_verts dim ccv2v cce cev) ++ [qmid dim (P a) (P b)].

(** C25: Orientation of the new cells.  For a triangle or a tetrahedron with
    vertices [ccv2v], any of its edges and either endpoint, the new cell
    the evaluator forms (the side opposite the endpoint, flipped, then the
    midpoint of the edge) has exactly half the orientation of the old
    cell. *)
Theorem new_cell_orientation dim P ccv2v cce cev :
  (dim = 2 \/ dim = 3)%nat -> (cce < nedges_of dim)%nat -> (cev < 2)%nat ->
  length ccv2v = S dim ->
  orient dim (new_cell_qpoints dim P ccv2v cce cev) == orient dim (map P ccv2v) * (1 # 2).
Proof.
  intros Hd He Hk Hlen.
  destruct Hd as [-> | ->];
    (destruct ccv2v as [|v0 [|v1 [|v2 [|v3 [|v4 l]]]]]; simpl in Hlen; try discriminate);
    simpl in He;
    (assert (Hc : (cce = 0 \/ cce = 1 \/ cce = 2 \/ cce = 3 \/ cce = 4 \/ cce = 5)%nat) by lia);
    (assert (Hv : (cev = 0 \/ cev = 1)%nat) by lia);
    (destruct Hc as [ -> | [ -> | [ -> | [ -> | [ -> | -> ] ] ] ] ]; try lia);
    (destruct Hv as [ -> | -> ]);
    cbv beta iota zeta delta [new_cell_qpoints new_cell_verts down_template tri_edge_verts
      tet_edge_verts tet_tri_verts opposite_template flip_new_elem get nth map seq app
      orient orient2 orient3 det3q diff3 qmid xc Nat.sub];
    ring.
Qed.

Lemma new_cell_positive dim P ccv2v cce cev :
  (dim = 2 \/ dim = 3)%nat -> (cce < nedges_of dim)%nat -> (cev < 2)%nat ->
  length ccv2v = S dim -> 0 < orient dim (map P ccv2v) ->
  0 < orient dim (new_cell_qpoints dim P ccv2v cce cev).
Proof.
  intros Hd He Hk Hlen Hpos. rewrite new_cell_orientation by auto.
  apply Qmult_lt_0_compat; [exact Hpos | reflexivity].
Qed.

(** The unit tetrahedron, with orientation 1. *)
Definition unit_tet (v : nat) : qpt := nth v [[0; 0; 0]; [1; 0; 0]; [0; 1; 0]; [0; 0; 1]] [].

Lemma new_cell_orientation_witness :
  orient 3 (new_cell_qpoints 3 unit_tet [0; 1; 2; 3]%nat 4 1)
  == orient 3 (map unit_tet [0; 1; 2; 3]%nat) * (1 # 2).
Proof. apply new_cell_orientation; simpl; lia. Defined.
