(* ===== verification/Sort.v ===== *)
(** [sort_by_keys] of src/src/sort.cpp.

    The keys are a flat array of [width] integers per record.
    [CompareKeySets<T, N>] compares two records lexicographically; the
    permutation [0, 1, ..., n-1] is sorted with [std::stable_sort] (or a
    parallel stable sort) under that comparison.  The stable sort is
    modelled by a stable insertion sort; the theorems show that the result
    is the permutation of the record indices sorted by (key tuple, index),
    which is what any stable sort returns, so the choice of the sorting
    routine does not matter.  Keys ([LO] or [GO]) are integers of [Z]; only
    their comparisons are used. *)

From Stdlib Require Import ZArith Bool List Lia Permutation Sorted.
From S2P Require Import Prelude.
Import ListNotations.
From Stdlib Require String.
Import String.StringSyntax.

Local Open Scope Z_scope.

(** ** The comparison *)

(** [CompareKeySets<T, N>::operator()(a, b)]: the loop over the key
    positions [idx]. *)
Fixpoint compare_from (keys : list Z) (N a b : nat) (idx : list nat) : bool :=
  match idx with
  | [] => false
  | i :: idx' =>
      let x := get keys (a * N + i)%nat 0 in
      let y := get keys (b * N + i)%nat 0 in
      if negb (Z.eqb x y) then Z.ltb x y else compare_from keys N a b idx'
  end.

Definition CompareKeySets (keys : list Z) (N : nat) (a b : nat) : bool :=
  compare_from keys N a b (seq 0 N).

(** ** The sort *)

(** A stable insertion: [x] goes after every element it is not below. *)
Fixpoint insert_stable (lt : nat -> nat -> bool) (x : nat) (l : list nat) : list nat :=
  match l with
  | [] => [x]
  | y :: l' => if lt x y then x :: y :: l' else y :: insert_stable lt x l'
  end.

(** [std::stable_sort(b, e, c)] on a range of indices. *)
Definition stable_sort (lt : nat -> nat -> bool) (l : list nat) : list nat :=
  fold_left (fun acc x => insert_stable lt x acc) l [].

Section Messages.
Local Open Scope string_scope.
Definition size_check_msg : String.string := "keys.size() % N == 0".
Definition noreturn_msg : String.string := "NORETURN".
End Messages.

(** [sort_by_keys_tmpl<N>] (lines 51-61): [CHECK(keys.size() % N == 0)],
    then the permutation [0 .. size/N - 1] stably sorted. *)
Definition sort_by_keys_tmpl (N : nat) (keys : list Z) : String.string + list nat :=
  if Nat.eqb (Nat.modulo (length keys) N) 0
  then inr (stable_sort (CompareKeySets keys N) (seq 0 (Nat.div (length keys) N)))
  else inl size_check_msg.

(** [sort_by_keys] (lines 63-74): widths 1 to 3, anything else reaches
    [NORETURN]. *)
Definition sort_by_keys (keys : list Z) (width : Z) : String.string + list nat :=
  if Z.eqb width 1 then sort_by_keys_tmpl 1 keys
  else if Z.eqb width 2 then sort_by_keys_tmpl 2 keys
  else if Z.eqb width 3 then sort_by_keys_tmpl 3 keys
  else inl noreturn_msg.

(** ** The lexicographic order on key tuples *)

(** The keys of record [a]. *)
Definition key_tuple (keys : list Z) (N a : nat) : list Z :=
  map (fun i => get keys (a * N + i)%nat 0) (seq 0 N).

Fixpoint lexlt (x y : list Z) : bool :=
  match x, y with
  | u :: x', v :: y' => if Z.eqb u v then lexlt x' y' else Z.ltb u v
  | _, _ => false
  end.

Lemma compare_from_lexlt keys N a b idx :
  compare_from keys N a b idx =
  lexlt (map (fun i => get keys (a * N + i)%nat 0) idx) (map (fun i => get keys (b * N + i)%nat 0) idx).
Proof.
  induction idx as [|i idx IH]; simpl; [reflexivity|].
  destruct (Z.eqb _ _); simpl; auto.
Qed.

Lemma CompareKeySets_lexlt keys N a b :
  CompareKeySets keys N a b = lexlt (key_tuple keys N a) (key_tuple keys N b).
Proof. apply compare_from_lexlt. Qed.

Lemma lexlt_irrefl x : lexlt x x = false.
Proof. induction x as [|u x IH]; simpl; [reflexivity|]. rewrite Z.eqb_refl. exact IH. Qed.

Lemma lexlt_trans x y z : lexlt x y = true -> lexlt y z = true -> lexlt x z = true.
Proof.
  revert y z. induction x as [|u x IH]; intros [|v y] [|w z]; simpl; try discriminate.
  destruct (Z.eqb_spec u v), (Z.eqb_spec v w), (Z.eqb_spec u w); subst; try lia;
    rewrite ?Z.ltb_lt; eauto; intros; lia.
Qed.

Lemma lexlt_total x y :
  length x = length y -> lexlt x y = false -> lexlt y x = false -> x = y.
Proof.
  revert y. induction x as [|u x IH]; intros [|v y] Hl; simpl in *; try discriminate; auto.
  destruct (Z.eqb_spec u v), (Z.eqb_spec v u); subst; try lia.
  intros H1 H2. f_equal. apply IH; auto.
Qed.

Lemma key_tuple_length keys N a : length (key_tuple keys N a) = N.
Proof. unfold key_tuple. rewrite length_map, length_seq. reflexivity. Qed.

Lemma StronglySorted_impl {A : Type} (R R' : A -> A -> Prop) l :
  (forall a b, R a b -> R' a b) -> StronglySorted R l -> StronglySorted R' l.
Proof.
  intros HR Hs. induction Hs as [|a l Hs IH Ha]; constructor; auto.
  eapply Forall_impl; [|exact Ha]. auto.
Qed.

(** ** A stable sort under a strict weak order *)

Section StableSort.
Variable lt : nat -> nat -> bool.
Hypothesis lt_irrefl : forall a, lt a a = false.
Hypothesis lt_trans : forall a b c, lt a b = true -> lt b c = true -> lt a c = true.
(** Incomparable records are interchangeable. *)
Hypothesis lt_incomparable : forall a b c, lt a b = false -> lt b a = false ->
  lt a c = lt b c /\ lt c a = lt c b.

(** The order a stable sort produces: by key, then by position. *)
Definition key_then_index (a b : nat) : Prop :=
  lt a b = true \/ (lt a b = false /\ lt b a = false /\ (a < b)%nat).

Lemma insert_stable_perm x l : Permutation (insert_stable lt x l) (x :: l).
Proof.
  induction l as [|y l IH]; simpl; [reflexivity|].
  destruct (lt x y); [reflexivity|].
  rewrite IH. apply perm_swap.
Qed.

Lemma stable_sort_perm_gen l acc :
  Permutation (fold_left (fun acc x => insert_stable lt x acc) l acc) (rev l ++ acc).
Proof.
  revert acc. induction l as [|x l IH]; intros acc; simpl; [reflexivity|].
  rewrite IH, <- app_assoc. simpl. apply Permutation_app_head, insert_stable_perm.
Qed.

Lemma stable_sort_perm l : Permutation (stable_sort lt l) l.
Proof.
  unfold stable_sort. rewrite stable_sort_perm_gen, app_nil_r.
  symmetry. apply Permutation_rev.
Qed.

Lemma key_then_index_after a b c :
  lt a b = true -> key_then_index b c -> lt a c = true.
Proof.
  intros Hab [Hbc | (Hbc & Hcb & _)]; [eauto|].
  destruct (lt_incomparable b c a Hbc Hcb) as [_ E]. rewrite <- E. exact Hab.
Qed.

Lemma insert_stable_sorted x l :
  StronglySorted key_then_index l -> (forall y, In y l -> (y < x)%nat) ->
  StronglySorted key_then_index (insert_stable lt x l).
Proof.
  induction l as [|y l IH]; intros Hs Hlt; simpl.
  - repeat constructor.
  - apply StronglySorted_inv in Hs as [Hs Hy].
    destruct (lt x y) eqn:Exy.
    + constructor; [constructor; auto|]. constructor; [left; exact Exy|].
      eapply Forall_impl; [|exact Hy]. intros z Hz. left. eapply key_then_index_after; eauto.
    + constructor; [apply IH; auto; intros; apply Hlt; simpl; auto|].
      eapply Permutation_Forall; [symmetry; apply insert_stable_perm|].
      constructor; [|exact Hy].
      destruct (lt y x) eqn:Eyx; [left; exact Eyx|].
      right. repeat split; auto. apply Hlt. simpl. auto.
Qed.

Lemma stable_sort_sorted_gen l acc :
  StronglySorted key_then_index acc -> StronglySorted Nat.lt l ->
  (forall y x, In y acc -> In x l -> (y < x)%nat) ->
  StronglySorted key_then_index (fold_left (fun acc x => insert_stable lt x acc) l acc).
Proof.
  revert acc. induction l as [|x l IH]; intros acc Hacc Hl Hlt; simpl; [exact Hacc|].
  apply StronglySorted_inv in Hl as [Hl Hx]. apply IH; auto.
  - apply insert_stable_sorted; auto. intros y Hy. apply Hlt; simpl; auto.
  - intros y z Hy Hz. apply (Permutation_in _ (insert_stable_perm x acc)) in Hy.
    destruct Hy as [<-|Hy].
    + rewrite Forall_forall in Hx. apply Hx, Hz.
    + apply Hlt; simpl; auto.
Qed.

(** Sorting an increasing list of positions orders them by key, equal keys
    keeping their positions' order. *)
Lemma stable_sort_sorted l :
  StronglySorted Nat.lt l -> StronglySorted key_then_index (stable_sort lt l).
Proof. intros Hl. apply stable_sort_sorted_gen; auto. constructor. intros y x []. Qed.

Lemma key_then_index_asym a b : key_then_index a b -> key_then_index b a -> False.
Proof.
  intros [H1 | (H1 & H1' & H1'')] [H2 | (H2 & H2' & H2'')]; try congruence; try lia.
  pose proof (lt_trans _ _ _ H1 H2) as H. rewrite lt_irrefl in H. discriminate.
Qed.

(** Two lists sorted by [key_then_index] with the same elements are equal:
    there is only one stable order. *)
Lemma key_then_index_unique l1 l2 :
  StronglySorted key_then_index l1 -> StronglySorted key_then_index l2 ->
  Permutation l1 l2 -> l1 = l2.
Proof.
  revert l2. induction l1 as [|x l1 IH]; intros l2 H1 H2 Hp.
  - symmetry. apply Permutation_nil, Hp.
  - destruct l2 as [|y l2]; [apply Permutation_sym, Permutation_nil in Hp; discriminate|].
    apply StronglySorted_inv in H1 as [H1 Hx]. apply StronglySorted_inv in H2 as [H2 Hy].
    assert (Hxy : x = y).
    { destruct (Nat.eq_dec x y) as [E|Ne]; [exact E|]. exfalso.
      assert (Hx2 : In x l2).
      { assert (In x (y :: l2)) as [E|Hin] by (apply (Permutation_in _ Hp); simpl; auto);
          [congruence | exact Hin]. }
      assert (Hy1 : In y l1).
      { assert (In y (x :: l1)) as [E|Hin] by (apply (Permutation_in _ (Permutation_sym Hp)); simpl; auto);
          [congruence | exact Hin]. }
      rewrite Forall_forall in Hx, Hy.
      exact (key_then_index_asym x y (Hx y Hy1) (Hy x Hx2)). }
    subst y. f_equal. apply IH; auto. eapply Permutation_cons_inv; eauto.
Qed.
End StableSort.

(** ** [CompareKeySets] is a strict weak order *)

Lemma CompareKeySets_irrefl keys N a : CompareKeySets keys N a a = false.
Proof. rewrite CompareKeySets_lexlt. apply lexlt_irrefl. Qed.

Lemma CompareKeySets_trans keys N a b c :
  CompareKeySets keys N a b = true -> CompareKeySets keys N b c = true ->
  CompareKeySets keys N a c = true.
Proof. rewrite !CompareKeySets_lexlt. apply lexlt_trans. Qed.

Lemma CompareKeySets_equal keys N a b :
  CompareKeySets keys N a b = false -> CompareKeySets keys N b a = false ->
  key_tuple keys N a = key_tuple keys N b.
Proof.
  rewrite !CompareKeySets_lexlt. apply lexlt_total. rewrite !key_tuple_length. reflexivity.
Qed.

Lemma CompareKeySets_incomparable keys N a b c :
  CompareKeySets keys N a b = false -> CompareKeySets keys N b a = false ->
  CompareKeySets keys N a c = CompareKeySets keys N b c /\
  CompareKeySets keys N c a = CompareKeySets keys N c b.
Proof.
  intros H1 H2. rewrite !CompareKeySets_lexlt.
  rewrite (CompareKeySets_equal keys N a b H1 H2). auto.
Qed.

(** The order [sort_by_keys] promises: lexicographic on the key tuples, ties
    broken by the record index. *)
Definition by_key_then_index (keys : list Z) (N a b : nat) : Prop :=
  lexlt (key_tuple keys N a) (key_tuple keys N b) = true \/
  (key_tuple keys N a = key_tuple keys N b /\ (a < b)%nat).

Lemma key_then_index_CompareKeySets keys N a b :
  key_then_index (CompareKeySets keys N) a b <-> by_key_then_index keys N a b.
Proof.
  unfold key_then_index, by_key_then_index. rewrite !CompareKeySets_lexlt. split.
  - intros [H | (H1 & H2 & H3)]; [left; exact H|right].
    split; [|exact H3]. apply lexlt_total; auto. rewrite !key_tuple_length. reflexivity.
  - intros [H | (H1 & H2)]; [left; exact H|right]. rewrite H1, lexlt_irrefl. auto.
Qed.

Lemma sorted_key_then_index_iff keys N l :
  StronglySorted (key_then_index (CompareKeySets keys N)) l <->
  StronglySorted (by_key_then_index keys N) l.
Proof.
  split; apply StronglySorted_impl; intros a b; apply key_then_index_CompareKeySets.
Qed.

Lemma seq_strongly_sorted s n : StronglySorted Nat.lt (seq s n).
Proof.
  revert s. induction n as [|n IH]; intros s; simpl; constructor; auto.
  apply Forall_forall. intros x Hx. apply in_seq in Hx. lia.
Qed.

Lemma sort_by_keys_dispatch keys N :
  (1 <= N <= 3)%nat -> sort_by_keys keys (Z.of_nat N) = sort_by_keys_tmpl N keys.
Proof. intros HN. destruct N as [|[|[|[|N]]]]; try lia; reflexivity. Qed.

(** The stable sort of the indices under [CompareKeySets] is the
    permutation of them sorted by key then index. *)
Lemma stable_sort_CompareKeySets keys N n :
  Permutation (stable_sort (CompareKeySets keys N) (seq 0 n)) (seq 0 n) /\
  StronglySorted (by_key_then_index keys N) (stable_sort (CompareKeySets keys N) (seq 0 n)).
Proof.
  split; [apply stable_sort_perm|].
  apply sorted_key_then_index_iff, stable_sort_sorted;
    [exact (CompareKeySets_trans keys N) | exact (CompareKeySets_incomparable keys N)
    | apply seq_strongly_sorted].
Qed.

Lemma sort_by_keys_inr keys N p :
  sort_by_keys keys (Z.of_nat N) = inr p ->
  (1 <= N <= 3)%nat /\ p = stable_sort (CompareKeySets keys N) (seq 0 (Nat.div (length keys) N)).
Proof.
  intros E. assert (HN : (1 <= N <= 3)%nat).
  { unfold sort_by_keys in E.
    destruct (Z.eqb_spec (Z.of_nat N) 1); [lia|].
    destruct (Z.eqb_spec (Z.of_nat N) 2); [lia|].
    destruct (Z.eqb_spec (Z.of_nat N) 3); [lia|discriminate E]. }
  split; [exact HN|]. rewrite sort_by_keys_dispatch in E by exact HN.
  unfold sort_by_keys_tmpl in E. destruct (Nat.eqb _ 0); inversion E; reflexivity.
Qed.

(** C4: [sort_by_keys] with a width of 1, 2 or 3 and a key array whose
    size is a multiple of the width returns a permutation of the record
    indices [0 .. n-1], ordered lexicographically by the records' key
    tuples with equal tuples in increasing index order. *)
Theorem sort_by_keys_sorted_perm keys N :
  (1 <= N <= 3)%nat -> Nat.modulo (length keys) N = 0%nat ->
  exists p, sort_by_keys keys (Z.of_nat N) = inr p /\
    Permutation p (seq 0 (Nat.div (length keys) N)) /\
    StronglySorted (by_key_then_index keys N) p.
Proof.
  intros HN Hmod. rewrite sort_by_keys_dispatch by exact HN.
  unfold sort_by_keys_tmpl. rewrite Hmod. simpl.
  eexists. split; [reflexivity|]. apply stable_sort_CompareKeySets.
Qed.

(** The result of [sort_by_keys] is the only permutation of the
    record indices that is sorted by key then index: any stable sort under
    [CompareKeySets] (the serial [std::stable_sort] or the parallel one)
    returns the same permutation. *)
Theorem sort_by_keys_unique keys N p q :
  sort_by_keys keys (Z.of_nat N) = inr p ->
  Permutation q (seq 0 (Nat.div (length keys) N)) ->
  StronglySorted (by_key_then_index keys N) q -> q = p.
Proof.
  intros Hp Hq Hs. apply sort_by_keys_inr in Hp as [_ ->].
  destruct (stable_sort_CompareKeySets keys N (Nat.div (length keys) N)) as [Hperm Hsorted].
  apply sorted_key_then_index_iff in Hs, Hsorted.
  apply (key_then_index_unique (CompareKeySets keys N)
    (CompareKeySets_irrefl keys N) (CompareKeySets_trans keys N)); auto.
  rewrite Hq, Hperm. reflexivity.
Qed.

(** [sort_by_keys] fails in exactly two ways: a width other than 1, 2
    or 3 reaches [NORETURN], and a key array whose size is not a multiple
    of the width fails [CHECK(keys.size() % N == 0)]. *)
Theorem sort_by_keys_errors keys width msg :
  sort_by_keys keys width = inl msg ->
  (msg = noreturn_msg /\ ~ (1 <= width <= 3)%Z) \/
  (msg = size_check_msg /\ (1 <= width <= 3)%Z /\
   Nat.modulo (length keys) (Z.to_nat width) <> 0%nat).
Proof.
  unfold sort_by_keys. intros H.
  destruct (Z.eqb_spec width 1) as [->|N1]; [|destruct (Z.eqb_spec width 2) as [->|N2];
    [|destruct (Z.eqb_spec width 3) as [->|N3]]];
    try (inversion H; left; split; [reflexivity|lia]);
    unfold sort_by_keys_tmpl in H;
    match type of H with context [Nat.eqb ?m 0] => destruct (Nat.eqb_spec m 0) as [E|E] end;
    inversion H;
    right; repeat split; auto; lia.
Qed.

(** ** Examples *)

(** Four records of width 2: (5,1), (2,7), (5,0), (2,7). *)
Definition ex_keys : list Z := [5; 1; 2; 7; 5; 0; 2; 7].

Example sort_by_keys_example : sort_by_keys ex_keys 2 = inr [1; 3; 2; 0]%nat.
Proof. reflexivity. Qed.

Lemma sort_by_keys_sorted_perm_witness :
  exists p, sort_by_keys ex_keys (Z.of_nat 2) = inr p /\
    Permutation p (seq 0 (Nat.div (length ex_keys) 2)) /\
    StronglySorted (by_key_then_index ex_keys 2) p.
Proof. apply (sort_by_keys_sorted_perm ex_keys 2); [lia | reflexivity]. Defined.

Lemma sort_by_keys_unique_witness : [1; 3; 2; 0]%nat = [1; 3; 2; 0]%nat.
Proof.
  apply (sort_by_keys_unique ex_keys 2 [1; 3; 2; 0]%nat); [reflexivity | |].
  - vm_compute. apply (Permutation_cons_app [0%nat] [2; 3]%nat), (Permutation_cons_app [0; 2]%nat []).
    apply (Permutation_cons_app [0%nat] []). reflexivity.
  - repeat constructor; unfold by_key_then_index; vm_compute;
      first [left; reflexivity | right; split; [reflexivity | lia]].
Defined.

Lemma sort_by_keys_errors_witness :
  (size_check_msg = noreturn_msg /\ ~ (1 <= 2 <= 3)%Z) \/
  (size_check_msg = size_check_msg /\ (1 <= 2 <= 3)%Z /\
   Nat.modulo (length [1; 2; 3]) (Z.to_nat 2) <> 0%nat).
Proof. apply (sort_by_keys_errors [1; 2; 3] 2 size_check_msg). reflexivity. Defined.
