(* ===== verification/Gmsh.v ===== *)
(** The Gmsh 2 ASCII reader of src/gmsh.cpp.

    The input stream is modelled as the string of its remaining characters
    and its [failbit] ([istream]).  The [eofbit] is set only when the
    characters are exhausted, and every later operation on an exhausted
    stream fails as it would with the bit, so the model does not keep it.
    [std::getline] takes the characters up to the next newline;
    [operator>>] on an [int] skips white space and reads an optional sign
    and a run of decimal digits; on a [double] it reads a decimal numeral,
    kept exactly as a mantissa and a power of ten.  As in C++11, a failed
    extraction sets [failbit] and stores 0 (no digits) or [INT_MAX] /
    [INT_MIN] (a value that does not fit 32 bits), and every extraction on
    a failed stream leaves its variable unchanged.  The variables of
    [read] are uninitialized locals: such a variable holds an
    indeterminate value ([None]), and the use of an indeterminate value is
    undefined behaviour, which stops the model with [indeterminate_msg].
    The code tests the stream only in [seek_line], so a failure in the
    last element of the [$Elements] section goes unnoticed.

    [read] is the function of the same name, in the outcome monad of the
    prelude over the stream.  The mesh is built by library calls outside
    [src/] ([add_coords], [build_from_elems_and_coords], [find_matches],
    [add_tag], [project_classification]); the model returns the ordered list
    of those calls with the arrays the reader passes them. *)

From Stdlib Require Import ZArith List Lia Bool Ascii Permutation.
From Stdlib Require String.
From S2P Require Import Prelude Text.
Import ListNotations.
Import String.StringSyntax.

Local Open Scope Z_scope.

Section Messages.
Local Open Scope string_scope.
Definition stream_msg : String.string := "stream".
Definition type_msg : String.string := "omega_h can only accept linear simplices from Gmsh".
Definition file_type_msg : String.string := "file_type == 0".
Definition data_size_msg : String.string := "data_size == sizeof(Real)".
Definition nnodes_msg : String.string := "nnodes >= 0".
Definition numbering_msg : String.string := "number == i + 1".
Definition nents_msg : String.string := "nents >= 0".
Definition ent_number_msg : String.string := "number > 0".
Definition ntags_msg : String.string := "ntags >= 2".
Definition has_tris_msg : String.string := "ent_nodes[2].size()".
Definition oob_msg : String.string := "class_dim[e]: index out of bounds".
Definition indeterminate_msg : String.string := "use of an indeterminate value".
Definition coords_size_msg : String.string := "nnodes * max_dim: LO overflow".
Definition mesh_format_line : String.string := "$MeshFormat".
Definition nodes_line : String.string := "$Nodes".
Definition elements_line : String.string := "$Elements".
End Messages.

(** ** Extraction of numbers *)

(** A [std::istream]: the characters left and the [failbit]. *)
Record istream := mkIS { is_text : stream; is_fail : bool }.

(** A stream opened on a text. *)
Definition open_stream (s : stream) : istream := mkIS s false.

(** A variable read from the stream: [None] while it is indeterminate. *)
Abbreviation var A := (option A).

(** The use of a variable: undefined behaviour while it is
    indeterminate. *)
Definition use_value {A : Type} (x : var A) : comp istream A :=
  match x with Some v => ret v | None => abort indeterminate_msg end.

(** [stream >> x] for an [int] [x] holding [old]: on a failed stream, or
    when only white space is left (the [sentry] fails), [x] is left as it
    is and [failbit] is set; otherwise the sign and the digits are
    consumed, and no digit stores 0, a value below [INT_MIN] or above
    [INT_MAX] stores that bound, each with [failbit]. *)
Definition read_int (old : var Z) : comp istream (var Z) := fun st =>
  if is_fail st then Ok old st else
  match skip_ws (is_text st) with
  | String.EmptyString => Ok old (mkIS String.EmptyString true)
  | s1 =>
      let '(sg, s2) := read_sign s1 in
      let '(ds, s3) := take_digits s2 in
      match ds with
      | [] => Ok (Some 0) (mkIS s3 true)
      | _ :: _ =>
          let v := sg * digits_value ds in
          if v <? INT_MIN then Ok (Some INT_MIN) (mkIS s3 true)
          else if INT_MAX <? v then Ok (Some INT_MAX) (mkIS s3 true)
          else Ok (Some v) (mkIS s3 false)
      end
  end.

(** A decimal value [dec_mant * 10 ^ dec_exp]. *)
Record Dec := mkDec { dec_mant : Z; dec_exp : Z }.

(** The exponent part: [e] or [E], an optional sign, digits.  The [e]
    and the sign are consumed even when no digit follows, and the numeral
    is then invalid ([None]). *)
Definition read_exponent (s : stream) : option Z * stream :=
  match s with
  | String.String c s' =>
      if Ascii.eqb c "e"%char || Ascii.eqb c "E"%char then
        let '(sg, s2) := read_sign s' in
        let '(ds, s3) := take_digits s2 in
        match ds with [] => (None, s3) | _ => (Some (sg * digits_value ds), s3) end
      else (Some 0, s)
  | String.EmptyString => (Some 0, s)
  end.

(** The fractional part after a [.]. *)
Definition read_fraction (s : stream) : list nat * stream :=
  match s with
  | String.String c s' => if Ascii.eqb c "."%char then take_digits s' else ([], s)
  | String.EmptyString => ([], s)
  end.

(** [stream >> x] for a [double] [x] holding [old], in decimal
    notation: as [read_int], an invalid numeral stores 0 with [failbit].
    The value is kept exactly: the range of [double] (the rounding, and
    the [failbit] of a numeral beyond it) is not modelled. *)
Definition read_real (old : var Dec) : comp istream (var Dec) := fun st =>
  if is_fail st then Ok old st else
  match skip_ws (is_text st) with
  | String.EmptyString => Ok old (mkIS String.EmptyString true)
  | s1 =>
      let '(sg, s2) := read_sign s1 in
      let '(ip, s3) := take_digits s2 in
      let '(fp, s4) := read_fraction s3 in
      match ip ++ fp with
      | [] => Ok (Some (mkDec 0 0)) (mkIS s4 true)
      | ds =>
          match read_exponent s4 with
          | (Some e, s5) => Ok (Some (mkDec (sg * digits_value ds) (e - Z.of_nat (length fp)))) (mkIS s5 false)
          | (None, s5) => Ok (Some (mkDec 0 0)) (mkIS s5 true)
          end
      end
  end.

(** ** Lines *)


(** The loop of [seek_line]: [getline] until the line is [want]; [None]
    when the stream ends first.  Each line consumes a character, so the
    length of the stream plus one is enough fuel. *)
Fixpoint seek_lines (fuel : nat) (want : String.string) (s : stream) : option stream :=
  match fuel with
  | O => None
  | S f =>
      match getline s with
      | None => None
      | Some (l, r) => if String.eqb l want then Some r else seek_lines f want r
      end
  end.

(** [seek_line(stream, want)]: the [CHECK(stream)] before the loop fails
    on a failed stream, the one after it when the loop ended at the end
    of the stream ([getline] then sets [failbit]). *)
Definition seek_line (want : String.string) : comp istream unit := fun st =>
  if is_fail st then Abort stream_msg st else
  match seek_lines (S (String.length (is_text st))) want (is_text st) with
  | Some r => Ok tt (mkIS r false)
  | None => Abort stream_msg (mkIS String.EmptyString true)
  end.

(** ** Element types *)

Definition GMSH_VERT : Z := 15.
Definition GMSH_LINE : Z := 1.
Definition GMSH_TRI : Z := 2.
Definition GMSH_TET : Z := 4.

(** [type_dim]: the dimension of a linear simplex type, [fail] otherwise. *)
Definition type_dim (type : Z) : comp istream nat :=
  if type =? GMSH_VERT then ret 0%nat
  else if type =? GMSH_LINE then ret 1%nat
  else if type =? GMSH_TRI then ret 2%nat
  else if type =? GMSH_TET then ret 3%nat
  else fun s => Abort type_msg s.

(** ** The sections of the file *)

(** The [$Nodes] loop (lines 48-58): node [i] must be numbered [i + 1];
    its three coordinates, fresh locals of the iteration, are copied into
    [node_coords] by [push_back], their first use. *)
Fixpoint read_nodes (k : nat) (i : Z) : comp istream (list (list Dec)) :=
  match k with
  | O => ret []
  | S k' =>
      number <- read_int None ;;
      n <- use_value number ;;
      check (n =? i + 1) numbering_msg ;;
      x <- read_real None ;; y <- read_real None ;; z <- read_real None ;;
      x' <- use_value x ;; y' <- use_value y ;; z' <- use_value z ;;
      rest <- read_nodes k' (i + 1) ;;
      ret ([x'; y'; z'] :: rest)
  end.

(** The tags after the first two (lines 79-82), read into [tag], a local
    of the element's iteration that is never used. *)
Fixpoint read_tags (k : nat) (tag : var Z) : comp istream unit :=
  match k with
  | O => ret tt
  | S k' => tag' <- read_int tag ;; read_tags k' tag'
  end.

(** [node_number - 1] in [LO]: the two's complement wrap-around of the
    compilers at [INT_MIN]. *)
Definition lo_pred (v : Z) : Z := if v =? INT_MIN then INT_MAX else v - 1.

(** The node numbers of an element (lines 84-88), read into
    [node_number], a local of the element's iteration that keeps its
    value from one node to the next. *)
Fixpoint read_node_numbers (k : nat) (node_number : var Z) : comp istream (list Z) :=
  match k with
  | O => ret []
  | S k' =>
      n <- read_int node_number ;;
      v <- use_value n ;;
      rest <- read_node_numbers k' n ;;
      ret (lo_pred v :: rest)
  end.

(** [ent_class_ids[4]] and [ent_nodes[4]]: per dimension, the elementary
    tags and the flattened node lists of the elements read so far. *)
Record Ents := mkEnts { ent_class_ids : list (list Z); ent_nodes : list (list Z) }.

Definition no_ents : Ents := mkEnts [[]; []; []; []] [[]; []; []; []].

(** [v[d].push_back(x)] for each [x] of [xs]. *)
Definition push (v : list (list Z)) (d : nat) (xs : list Z) : list (list Z) :=
  set v d (get v d [] ++ xs).

(** One iteration of the [$Elements] loop (lines 66-88); [physical] is
    read and never used. *)
Definition read_element (e : Ents) : comp istream Ents :=
  number <- read_int None ;;
  n <- use_value number ;;
  check (0 <? n) ent_number_msg ;;
  type <- read_int None ;;
  t <- use_value type ;;
  dim <- type_dim t ;;
  ntags <- read_int None ;;
  nt <- use_value ntags ;;
  check (2 <=? nt) ntags_msg ;;
  physical <- read_int None ;;
  elementary <- read_int None ;;
  el <- use_value elementary ;;
  read_tags (Z.to_nat (nt - 2)) None ;;
  nodes <- read_node_numbers (S dim) None ;;
  ret (mkEnts (push (ent_class_ids e) dim [el]) (push (ent_nodes e) dim nodes)).

Fixpoint read_elements (k : nat) (e : Ents) : comp istream Ents :=
  match k with
  | O => ret e
  | S k' => e' <- read_element e ;; read_elements k' e'
  end.

(** ** What the reader hands to the mesh *)

Inductive mesh_call : Type :=
(** [mesh.add_coords(host_coords)]; [None] is an entry never written. *)
| AddCoords (coords : list (option Dec))
(** [build_from_elems_and_coords(mesh, max_dim, ev2v, coords)] *)
| BuildFromElems (dim : nat) (ev2v : list Z) (coords : list (option Dec))
(** [classify_elements(mesh)] *)
| ClassifyElements
(** [add_tag] of [class_dim] and [class_id] on the vertices *)
| ClassifyVerts (class_dim class_id : list Z)
(** [find_matches] of the listed entities of dimension [ent_dim] and the
    [add_tag] of their classification *)
| ClassifyMatched (ent_dim : nat) (eqv2v eq_class_id : list Z)
(** [project_classification(mesh)] *)
| ProjectClassification.

(** The copy of the node coordinates into [host_coords] (lines 95-100):
    [nnodes * max_dim] entries, written for [j < mesh.dim()], [mdim] being
    the dimension the mesh has when [read] is called. *)
Definition copy_coords (node_coords : list (list Dec)) (nnodes max_dim : nat) (mdim : Z)
    : list (option Dec) :=
  fold_left (fun hc i =>
      fold_left (fun hc j =>
          set hc (i * max_dim + j) (nth_error (get node_coords i []) j))
        (seq 0 (Z.to_nat mdim)) hc)
    (seq 0 nnodes) (repeat None (nnodes * max_dim)).

(** The arrays of lines 103-113 for dimension [ent_dim]: the first
    [ndim_ents * neev] node numbers and the first [ndim_ents] tags. *)
Definition dim_arrays (e : Ents) (ent_dim : nat) : list Z * list Z :=
  let neev := S ent_dim in
  let nodes := get (ent_nodes e) ent_dim [] in
  let ndim_ents := Nat.div (length nodes) neev in
  (firstn (ndim_ents * neev) nodes, firstn ndim_ents (get (ent_class_ids e) ent_dim [])).

(** The vertex classification (lines 131-140 with [eq2e = eqv2v]): every
    vertex starts unclassified ([-1]); each point entity [eq] writes
    dimension 0 and its elementary tag at its vertex.  The writes are a
    [parallel_for]: [order] is the order in which they happen, any
    permutation of the entities (two entities naming one vertex race, and
    the schedule decides which tag stays).  A vertex number out of range
    is a write out of bounds, undefined behaviour in the code: the model
    stops there with the error [None]. *)
Definition vert_class_tags (nverts : nat) (eqv2v eq_class_id : list Z) (order : list nat)
    : option (list Z * list Z) :=
  fold_left (fun acc eq =>
      match acc with
      | None => None
      | Some (cd, ci) =>
          let v := get eqv2v eq 0 in
          if (0 <=? v) && (v <? Z.of_nat nverts)
          then Some (set cd (Z.to_nat v) 0, set ci (Z.to_nat v) (get eq_class_id eq 0))
          else None
      end)
    order (Some (repeat (-1) nverts, repeat (-1) nverts)).

(** One iteration of the loop of lines 102-142, for dimension [ent_dim];
    [vc] is the vertex classification of lines 131-140. *)
Definition ent_calls (e : Ents) (max_dim : nat) (vc : list Z * list Z) (hc : list (option Dec))
    (ent_dim : nat) : list mesh_call :=
  let '(ev2v, class_id) := dim_arrays e ent_dim in
  if Nat.eqb ent_dim max_dim then [BuildFromElems max_dim ev2v hc; ClassifyElements]
  else if Nat.eqb ent_dim 0 then let '(cd, ci) := vc in [ClassifyVerts cd ci]
  else [ClassifyMatched ent_dim ev2v class_id].

(** [gmsh::read(stream, mesh)], [mdim] being [mesh.dim()] on entry and
    [sched n] the order in which the [parallel_for] of lines 131-140 runs
    its [n] writes. *)
Definition read (sched : nat -> list nat) (mdim : Z) : comp istream (list mesh_call) :=
  seek_line mesh_format_line ;;
  format <- read_real None ;; file_type <- read_int None ;; data_size <- read_int None ;;
  ft <- use_value file_type ;;
  check (ft =? 0) file_type_msg ;;
  dsz <- use_value data_size ;;
  check (dsz =? 8) data_size_msg ;;
  seek_line nodes_line ;;
  nnodes_v <- read_int None ;;
  nnodes <- use_value nnodes_v ;;
  check (0 <=? nnodes) nnodes_msg ;;
  node_coords <- read_nodes (Z.to_nat nnodes) 0 ;;
  seek_line elements_line ;;
  nents_v <- read_int None ;;
  nents <- use_value nents_v ;;
  check (0 <=? nents) nents_msg ;;
  e <- read_elements (Z.to_nat nents) no_ents ;;
  check (negb (Nat.eqb (length (get (ent_nodes e) 2 [])) 0)) has_tris_msg ;;
  let max_dim := if Nat.eqb (length (get (ent_nodes e) 3 [])) 0 then 2%nat else 3%nat in
  check (nnodes * Z.of_nat max_dim <=? INT_MAX) coords_size_msg ;;
  let hc := copy_coords node_coords (Z.to_nat nnodes) max_dim mdim in
  let '(eqv2v, eq_class_id) := dim_arrays e 0 in
  match vert_class_tags (Z.to_nat nnodes) eqv2v eq_class_id (sched (length eq_class_id)) with
  | None => abort oob_msg
  | Some vc =>
      ret (AddCoords hc
           :: flat_map (ent_calls e max_dim vc hc) (rev (seq 0 (S max_dim)))
           ++ [ProjectClassification])
  end.

(** Round trip of [int] extraction.  On a good stream, an integer below
    [2^32] in absolute value, printed in decimal and followed by anything
    that is not a digit, is read back by [stream >> x] when it fits 32
    bits; otherwise the bound it passes is stored and [failbit] set.  The
    rest of the stream is left. *)
Lemma read_int_print old z rest :
  - 2 ^ 32 < z < 2 ^ 32 -> starts_non_digit rest = true ->
  read_int old (mkIS (String.append (print_int z) rest) false) =
  if z <? INT_MIN then Ok (Some INT_MIN) (mkIS rest true)
  else if INT_MAX <? z then Ok (Some INT_MAX) (mkIS rest true)
  else Ok (Some z) (mkIS rest false).
Proof.
  intros Hz Hr. destruct (lex_print_int z rest Hz Hr) as (sg & ds & s2 & E1 & E2 & Hne & Hv).
  unfold read_int. cbn [is_fail is_text].
  destruct (skip_ws _) as [|c s1] eqn:E.
  - cbn [read_sign] in E1. injection E1 as <- <-. cbn in E2. injection E2 as <- _. congruence.
  - cbv match. rewrite E1, E2. destruct ds; [congruence|]. rewrite Hv. reflexivity.
Qed.

Section IntWitness.
Local Open Scope string_scope.
Lemma read_int_print_witness :
  read_int None (mkIS (String.append (print_int (-42)) " 7") false) =
  if -42 <? INT_MIN then Ok (Some INT_MIN) (mkIS " 7" true)
  else if INT_MAX <? -42 then Ok (Some INT_MAX) (mkIS " 7" true)
  else Ok (Some (-42)) (mkIS " 7" false).
Proof. apply read_int_print; [lia | reflexivity]. Defined.
End IntWitness.

(** ** Extraction on a stream cut short *)

(** Numbers [ns] as a file lists them: each after a space. *)
Fixpoint ints_text (ns : list Z) : stream :=
  match ns with
  | [] => String.EmptyString
  | n :: ns' => String.String " "%char (String.append (print_int n) (ints_text ns'))
  end.

Lemma starts_non_digit_ints_text ns : starts_non_digit (ints_text ns) = true.
Proof. destruct ns; reflexivity. Qed.

(** On a failed stream the node numbers keep the last value read. *)
Lemma read_node_numbers_failed k v t :
  read_node_numbers k (Some v) (mkIS t true) = Ok (repeat (lo_pred v) k) (mkIS t true).
Proof. induction k as [|k IH]; [reflexivity|]. simpl. cbn [bind read_int is_fail use_value ret]. unfold bind. rewrite IH. reflexivity. Qed.

(** At the end of the text the first extraction fails, and so do the
    others. *)
Lemma read_node_numbers_eof k v :
  read_node_numbers k (Some v) (mkIS String.EmptyString false) =
  Ok (repeat (lo_pred v) k) (mkIS String.EmptyString (negb (Nat.eqb k 0))).
Proof.
  destruct k as [|k]; [reflexivity|]. simpl. unfold bind, read_int, use_value, ret. simpl.
  rewrite read_node_numbers_failed. reflexivity.
Qed.

Lemma read_int_in_range old n rest :
  INT_MIN <= n <= INT_MAX -> starts_non_digit rest = true ->
  read_int old (mkIS (String.String " "%char (String.append (print_int n) rest)) false) =
  Ok (Some n) (mkIS rest false).
Proof.
  intros Hn Hr. change (read_int old (mkIS (String.String " "%char (String.append (print_int n) rest)) false))
    with (read_int old (mkIS (String.append (print_int n) rest) false)).
  rewrite read_int_print by (unfold INT_MIN, INT_MAX in Hn; lia || exact Hr).
  rewrite (proj2 (Z.ltb_ge n INT_MIN)), (proj2 (Z.ltb_ge INT_MAX n)) by lia. reflexivity.
Qed.

(** C32: An element's node list cut by the end of the file is read as if it
    were complete.  When the stream holds the [int]s [ns] and ends, the
    [k >= length ns] extractions of lines 85-88 give the numbers of [ns]
    minus one, then, for each missing node, the last of them again: an
    extraction at the end of the stream fails and leaves [node_number]
    as it was.  Only [failbit] records it, and [read] never tests the
    stream after the [$Elements] loop. *)
Theorem read_node_numbers_cut ns k :
  ns <> [] -> Forall (fun n => INT_MIN <= n <= INT_MAX) ns -> (length ns <= k)%nat ->
  read_node_numbers k None (mkIS (ints_text ns) false) =
  Ok (map lo_pred ns ++ repeat (lo_pred (last ns 0)) (k - length ns))
     (mkIS String.EmptyString (negb (Nat.eqb k (length ns)))).
Proof.
  intros Hne Hr. generalize (@None Z) as nn. revert k Hne.
  induction Hr as [|n ns Hn Hr IH]; intros k Hne nn Hk; [congruence|].
  destruct k as [|k]; cbn [length] in Hk; [lia|].
  cbn [read_node_numbers ints_text].
  rewrite (bind_ok _ _ _ (Some n) (mkIS (ints_text ns) false))
    by (apply read_int_in_range; auto using starts_non_digit_ints_text).
  erewrite bind_ok by reflexivity.
  destruct ns as [|m ns].
  - rewrite (bind_ok _ _ _ _ _ (read_node_numbers_eof k n)).
    cbn [map app last length ret]. replace (S k - 1)%nat with k by lia. reflexivity.
  - rewrite (bind_ok _ _ _ _ _ (IH k ltac:(discriminate) (Some n) ltac:(cbn [length] in *; lia))).
    reflexivity.
Qed.

(** ** Lines: the contract of [seek_line] *)



Lemma seek_lines_finds want r pre fuel :
  has_nl want = false -> Forall (fun l => has_nl l = false /\ l <> want) pre ->
  (length pre < fuel)%nat ->
  seek_lines fuel want (unlines pre (String.append want (String.String newline r))) = Some r.
Proof.
  intros Hw Hpre. revert fuel.
  induction Hpre as [|l pre [Hl Hne] _ IH]; intros [|f] Hf; cbn [length] in Hf; try lia;
    cbn [unlines seek_lines].
  - rewrite getline_app by exact Hw. rewrite string_eqb_refl. reflexivity.
  - rewrite getline_app by exact Hl. apply String.eqb_neq in Hne. rewrite Hne.
    apply IH. lia.
Qed.

Lemma seek_lines_empty fuel want : seek_lines fuel want String.EmptyString = None.
Proof. destruct fuel; reflexivity. Qed.

Lemma seek_lines_sound want fuel s r :
  seek_lines fuel want s = Some r ->
  exists pre, Forall (fun l => has_nl l = false /\ l <> want) pre /\
    (s = unlines pre (String.append want (String.String newline r)) \/
     (r = String.EmptyString /\ want <> String.EmptyString /\ s = unlines pre want)).
Proof.
  revert s. induction fuel as [|f IH]; intros s H; [discriminate|].
  cbn [seek_lines] in H. destruct s as [|c s']; [discriminate|].
  change (getline (String.String c s')) with (Some (break_line (String.String c s'))) in H.
  pose proof (break_line_spec (String.String c s')) as Hspec.
  destruct (break_line (String.String c s')) as [l r'].
  destruct Hspec as [Hl Hs]. destruct (String.eqb_spec l want) as [<-|Hne].
  - injection H as <-. exists []. split; [constructor|]. cbn [unlines].
    destruct Hs as [Hs | [-> Hs]]; [left; exact Hs | right; rewrite <- Hs; repeat split; discriminate].
  - destruct Hs as [Hs | [-> _]]; [|rewrite seek_lines_empty in H; discriminate].
    destruct (IH r' H) as (pre & Hpre & Hr). exists (l :: pre).
    split; [constructor; auto|]. cbn [unlines]. rewrite Hs.
    destruct Hr as [-> | (Hr & Hw & ->)]; [left | right]; auto.
Qed.

(** [seek_line(stream, want)] finds the first line equal to [want]:
    when the stream is lines different from [want] (none holding a
    newline), then [want] and a newline, then [r], the stream is left at
    [r]. *)
Theorem seek_line_spec want pre r :
  has_nl want = false -> Forall (fun l => has_nl l = false /\ l <> want) pre ->
  seek_line want (mkIS (unlines pre (String.append want (String.String newline r))) false) =
  Ok tt (mkIS r false).
Proof.
  intros Hw Hpre. unfold seek_line. cbn [is_fail is_text]. rewrite seek_lines_finds; auto.
  pose proof (length_unlines pre (String.append want (String.String newline r))).
  rewrite string_length_append in H. cbn [String.length] in H. lia.
Qed.

(** [seek_line] succeeds only past a line equal to [want]: the stream
    it started from is lines different from [want], then [want] and a
    newline, then the stream it leaves; or it ends with [want] without a
    newline and is left empty.  It succeeds only on a good stream and
    leaves it good. *)
Theorem seek_line_sound want s fl r fl' :
  seek_line want (mkIS s fl) = Ok tt (mkIS r fl') ->
  fl = false /\ fl' = false /\
  exists pre, Forall (fun l => has_nl l = false /\ l <> want) pre /\
    (s = unlines pre (String.append want (String.String newline r)) \/
     (r = String.EmptyString /\ want <> String.EmptyString /\ s = unlines pre want)).
Proof.
  unfold seek_line. cbn [is_fail is_text]. destruct fl; [discriminate|].
  destruct (seek_lines _ want s) as [r'|] eqn:E; intros H; [|discriminate].
  injection H as <- <-. split; [reflexivity | split; [reflexivity|]]. eapply seek_lines_sound; eauto.
Qed.

Section LineWitnesses.
Local Open Scope string_scope.

Definition ex_header : stream := unlines ["$MeshFormat"; "2.2 0 8"; "$EndMeshFormat"] "$Nodes".

Lemma seek_line_spec_witness :
  seek_line nodes_line (mkIS (unlines ["$MeshFormat"; "2.2 0 8"; "$EndMeshFormat"]
    (String.append nodes_line (String.String newline "4"))) false) = Ok tt (mkIS "4" false).
Proof.
  apply seek_line_spec; [reflexivity|].
  repeat constructor; discriminate.
Defined.

Lemma seek_line_sound_witness :
  false = false /\ false = false /\
  exists pre, Forall (fun l => has_nl l = false /\ l <> nodes_line) pre /\
    (ex_header = unlines pre (String.append nodes_line (String.String newline "")) \/
     ("" = String.EmptyString /\ nodes_line <> String.EmptyString /\ ex_header = unlines pre nodes_line)).
Proof. apply (seek_line_sound nodes_line ex_header false "" false). vm_compute. reflexivity. Defined.
End LineWitnesses.

(** ** The element lists: invariant *)

Lemma type_dim_ok t s d s' : type_dim t s = Ok d s' -> (d < 4)%nat /\ s' = s.
Proof.
  unfold type_dim, ret.
  destruct (t =? GMSH_VERT); [|destruct (t =? GMSH_LINE); [|destruct (t =? GMSH_TRI);
    [|destruct (t =? GMSH_TET)]]]; intros H; inversion H; split; auto; lia.
Qed.

Lemma read_node_numbers_length k nn s l s' :
  read_node_numbers k nn s = Ok l s' -> length l = k.
Proof.
  revert nn s l. induction k as [|k IH]; intros nn s l H; cbn [read_node_numbers] in H; ok_inv;
    [reflexivity|]. cbn [length]. f_equal. eauto.
Qed.

Lemma length_push v d xs : length (push v d xs) = length v.
Proof. apply set_length. Qed.

Lemma get_push v d d' xs :
  (d < length v)%nat ->
  get (push v d xs) d' [] = if Nat.eqb d d' then get v d [] ++ xs else get v d' [].
Proof.
  intros Hd. unfold push. destruct (Nat.eqb_spec d d') as [<-|Hne].
  - apply get_set_eq. exact Hd.
  - apply get_set_ne. exact Hne.
Qed.

(** Well-formed element lists: four dimensions, and [d + 1] nodes stored
    for every element of dimension [d]. *)
Definition ents_ok (e : Ents) : Prop :=
  length (ent_class_ids e) = 4%nat /\ length (ent_nodes e) = 4%nat /\
  forall d, (d < 4)%nat ->
    length (get (ent_nodes e) d []) = (S d * length (get (ent_class_ids e) d []))%nat.

(** The number of elements read. *)
Definition ents_count (e : Ents) : nat :=
  fold_right Nat.add 0%nat (map (@length Z) (ent_class_ids e)).

Lemma no_ents_ok : ents_ok no_ents.
Proof. split; [reflexivity|]. split; [reflexivity|]. intros [|[|[|[|d]]]] Hd; reflexivity || lia. Qed.

Lemma ents_count_push v d x :
  (d < length v)%nat ->
  fold_right Nat.add 0%nat (map (@length Z) (push v d [x])) =
  S (fold_right Nat.add 0%nat (map (@length Z) v)).
Proof.
  unfold push, get. revert d.
  induction v as [|l v IH]; intros [|d] Hd; cbn [length] in Hd; try lia; cbn [set nth map fold_right].
  - rewrite length_app. cbn. lia.
  - rewrite (IH d) by lia. lia.
Qed.

Lemma read_element_ok e s e' s' :
  ents_ok e -> read_element e s = Ok e' s' ->
  ents_ok e' /\ ents_count e' = S (ents_count e).
Proof.
  intros (Hi & Hn & Hl) H. unfold read_element in H. ok_inv.
  match goal with Ht : type_dim _ _ = Ok _ _ |- _ => apply type_dim_ok in Ht as [Hd _] end.
  match goal with Hr : read_node_numbers _ _ _ = Ok _ _ |- _ => apply read_node_numbers_length in Hr end.
  split; [|unfold ents_count; cbn [ent_class_ids]; apply ents_count_push; lia].
  unfold ents_ok. cbn [ent_class_ids ent_nodes]. split; [rewrite length_push; exact Hi|].
  split; [rewrite length_push; exact Hn|]. intros d' Hd'.
  rewrite !get_push by lia.
  match goal with |- context [Nat.eqb ?d d'] => destruct (Nat.eqb_spec d d') as [<-|]; [|auto] end.
  rewrite !length_app, Hl by exact Hd. cbn [length]. lia.
Qed.

(** C29: The [$Elements] loop keeps its lists well formed: after [k]
    elements are read from well-formed lists, there are still four
    dimensions, every element of dimension [d] has its [d + 1] nodes in
    [ent_nodes[d]] beside its tag in [ent_class_ids[d]], and exactly [k]
    more elements are recorded. *)
Theorem read_elements_ok k e s e' s' :
  ents_ok e -> read_elements k e s = Ok e' s' ->
  ents_ok e' /\ ents_count e' = (ents_count e + k)%nat.
Proof.
  revert e s. induction k as [|k IH]; intros e s He H; cbn [read_elements] in H; ok_inv.
  - split; [exact He | lia].
  - match goal with Hr : read_element _ _ = Ok _ _ |- _ => apply read_element_ok in Hr as [Ho Hc]; [|exact He] end.
    match goal with Hr : read_elements _ _ _ = Ok _ _ |- _ => destruct (IH _ _ Ho Hr) as [Ho' Hc'] end.
    split; [exact Ho' | lia].
Qed.

(** ** The coordinate copy *)

(** The row [copy_coords] makes of a node: its first [m] coordinates,
    then [max_dim - m] entries never written. *)
Definition coord_row (max_dim m : nat) (c : list Dec) : list (option Dec) :=
  map Some (firstn m c) ++ repeat None (max_dim - m).

Lemma firstn_snoc_nth {A : Type} (c : list A) s d :
  (s < length c)%nat -> firstn (S s) c = firstn s c ++ [nth s c d].
Proof.
  revert s. induction c as [|h t IH]; intros [|s] Hs; cbn [length] in Hs; try lia; [reflexivity|].
  rewrite !firstn_cons. cbn [nth app]. rewrite IH by lia. reflexivity.
Qed.

(** The inner loop, [j] from [s] to [s + k], on the row of node [i]. *)
Lemma copy_row_loop (P : list (option Dec)) (c : list Dec) s k (rest : list (option Dec)) :
  (s + k <= length c)%nat ->
  fold_left (fun hc j => set hc (length P + j) (nth_error c j)) (seq s k)
    (P ++ map Some (firstn s c) ++ repeat None k ++ rest) =
  P ++ map Some (firstn (s + k) c) ++ rest.
Proof.
  revert s. induction k as [|k IH]; intros s Hk; cbn [seq fold_left repeat app].
  - rewrite Nat.add_0_r. reflexivity.
  - assert (E : set (P ++ map Some (firstn s c) ++ None :: repeat None k ++ rest)
                  (length P + s) (nth_error c s) =
                P ++ map Some (firstn (S s) c) ++ repeat None k ++ rest).
    { rewrite app_assoc.
      replace (length P + s)%nat with (length (P ++ map Some (firstn s c)) + 0)%nat
        by (rewrite length_app, length_map, length_firstn; lia).
      rewrite set_app_r. cbn [set].
      rewrite (firstn_snoc_nth c s (mkDec 0 0)) by lia. rewrite map_app, <- !app_assoc.
      rewrite (nth_error_nth' c (mkDec 0 0)) by lia. reflexivity. }
    rewrite E, IH by lia. replace (s + S k)%nat with (S s + k)%nat by lia. reflexivity.
Qed.

Lemma Forall_firstn' {A : Type} (P : A -> Prop) k l : Forall P l -> Forall P (firstn k l).
Proof. intros H. rewrite <- (firstn_skipn k l) in H. apply Forall_app in H as [H _]. exact H. Qed.

Lemma length_coord_rows md m (nc : list (list Dec)) :
  (m <= md)%nat -> Forall (fun c => m <= length c)%nat nc ->
  length (flat_map (coord_row md m) nc) = (length nc * md)%nat.
Proof.
  intros Hm Hnc. induction Hnc as [|c nc Hc _ IH]; [reflexivity|].
  cbn [flat_map length]. rewrite length_app, IH. unfold coord_row.
  rewrite length_app, length_map, length_firstn, repeat_length. lia.
Qed.

Lemma copy_nodes_loop md m (nc : list (list Dec)) r k :
  (m <= md)%nat -> Forall (fun c => m <= length c)%nat nc -> (k + r = length nc)%nat ->
  fold_left (fun hc i =>
      fold_left (fun hc j => set hc (i * md + j) (nth_error (get nc i []) j)) (seq 0 m) hc)
    (seq k r) (flat_map (coord_row md m) (firstn k nc) ++ repeat None (r * md)) =
  flat_map (coord_row md m) nc.
Proof.
  intros Hm Hnc. revert k. induction r as [|r IH]; intros k Hk; cbn [seq fold_left].
  - rewrite app_nil_r, firstn_all2 by lia. reflexivity.
  - assert (Hlen : length (flat_map (coord_row md m) (firstn k nc)) = (k * md)%nat).
    { rewrite length_coord_rows by (auto; apply Forall_firstn'; exact Hnc).
      rewrite length_firstn. lia. }
    assert (Hc : (m <= length (get nc k []))%nat).
    { rewrite Forall_forall in Hnc. apply Hnc, get_in. lia. }
    replace (S r * md)%nat with (m + ((md - m) + r * md))%nat by nia.
    rewrite !repeat_app, <- Hlen.
    pose proof (copy_row_loop (flat_map (coord_row md m) (firstn k nc)) (get nc k []) 0 m
      (repeat None (md - m) ++ repeat None (r * md)) Hc) as E.
    cbn [firstn map app Nat.add] in E. rewrite E, <- (IH (S k)) by lia.
    f_equal. rewrite (firstn_snoc_nth nc k []) by lia. rewrite flat_map_app. cbn [flat_map].
    rewrite app_nil_r. unfold coord_row. rewrite <- !app_assoc. reflexivity.
Qed.

(** C30: The coordinates [read] hands to [mesh.add_coords]: for [mesh.dim()]
    between 0 and [max_dim], row [i] of [host_coords] holds the first
    [mesh.dim()] coordinates of node [i] and leaves the other
    [max_dim - mesh.dim()] entries unwritten.  The copy is complete only
    when [mesh.dim()] equals [max_dim]. *)
Theorem copy_coords_spec node_coords nnodes max_dim mdim :
  length node_coords = nnodes -> Forall (fun c => length c = 3%nat) node_coords ->
  (Z.to_nat mdim <= max_dim <= 3)%nat ->
  copy_coords node_coords nnodes max_dim mdim =
  flat_map (coord_row max_dim (Z.to_nat mdim)) node_coords.
Proof.
  intros Hn Hnc Hm. unfold copy_coords.
  assert (Hnc' : Forall (fun c => Z.to_nat mdim <= length c)%nat node_coords)
    by (eapply Forall_impl; [|exact Hnc]; intros c Hc; cbv beta in *; lia).
  rewrite <- (copy_nodes_loop max_dim (Z.to_nat mdim) node_coords nnodes 0 ltac:(lia) Hnc' ltac:(lia)).
  reflexivity.
Qed.

(** ** What a successful [read] produces *)

Lemma read_nodes_ok k i s nc s' :
  read_nodes k i s = Ok nc s' -> length nc = k /\ Forall (fun c => length c = 3%nat) nc.
Proof.
  revert i s nc. induction k as [|k IH]; intros i s nc H; cbn [read_nodes] in H; ok_inv.
  - auto.
  - match goal with Hr : read_nodes _ _ _ = Ok _ _ |- _ => destruct (IH _ _ _ Hr) as [Hl Hf] end.
    cbn [length]. auto.
Qed.

(** The dimension of the top elements: 3 when a tetrahedron was read. *)
Definition top_dim (e : Ents) : nat :=
  if Nat.eqb (length (get (ent_nodes e) 3 [])) 0 then 2%nat else 3%nat.

Lemma read_ok sched mdim s calls s' :
  read sched mdim s = Ok calls s' ->
  exists nc e vc,
    Forall (fun c => length c = 3%nat) nc /\ ents_ok e /\
    get (ent_nodes e) 2 [] <> [] /\
    calls = AddCoords (copy_coords nc (length nc) (top_dim e) mdim)
      :: flat_map (ent_calls e (top_dim e) vc (copy_coords nc (length nc) (top_dim e) mdim))
           (rev (seq 0 (S (top_dim e)))) ++ [ProjectClassification].
Proof.
  unfold read. intros H. ok_inv.
  match goal with Hm : context [dim_arrays ?e 0] |- _ => destruct (dim_arrays e 0) as [eqv2v eq_class_id] end.
  match goal with Hm : context [vert_class_tags ?n ?a ?b ?o] |- _ =>
    destruct (vert_class_tags n a b o) as [vc|]; [|discriminate] end.
  ok_inv.
  match goal with Hr : read_nodes _ _ _ = Ok _ _ |- _ => destruct (read_nodes_ok _ _ _ _ _ Hr) as [Hl Hf] end.
  match goal with Hr : read_elements _ _ _ = Ok _ _ |- _ =>
    destruct (read_elements_ok _ _ _ _ _ no_ents_ok Hr) as [He _] end.
  match goal with Hb : negb _ = true |- _ => apply negb_true_iff, Nat.eqb_neq in Hb end.
  do 3 eexists. split; [exact Hf|]. split; [exact He|]. split.
  - intros E. match goal with Hb : length _ <> 0%nat |- _ => apply Hb end. rewrite E. reflexivity.
  - rewrite Hl. reflexivity.
Qed.

(** The dimension a classification call is about. *)
Definition classified_dim (c : mesh_call) : option nat :=
  match c with
  | ClassifyVerts _ _ => Some 0%nat
  | ClassifyMatched d _ _ => Some d
  | _ => None
  end.

Lemma div_mul_exact n k : (k <> 0 -> (k * n) / k = n)%nat.
Proof. intros Hk. rewrite Nat.mul_comm. apply Nat.div_mul. exact Hk. Qed.

Lemma ent_calls_top e md vc hc :
  ents_ok e -> (md < 4)%nat ->
  ent_calls e md vc hc md = [BuildFromElems md (get (ent_nodes e) md []) hc; ClassifyElements].
Proof.
  intros (_ & _ & Hl) Hmd. unfold ent_calls, dim_arrays. cbv beta iota zeta. rewrite Nat.eqb_refl.
  pose proof (Hl md Hmd) as E. rewrite E, div_mul_exact by lia.
  rewrite firstn_all2 by (rewrite E; lia). reflexivity.
Qed.

Lemma ent_calls_lower e md vc hc d :
  d <> md -> map classified_dim (ent_calls e md vc hc d) = [Some d].
Proof.
  intros Hd. unfold ent_calls. destruct (dim_arrays e d). apply Nat.eqb_neq in Hd. rewrite Hd.
  destruct (Nat.eqb_spec d 0) as [->|]; [|reflexivity].
  destruct vc. reflexivity.
Qed.

Lemma classified_dims_lower e md vc hc l :
  ~ In md l -> map classified_dim (flat_map (ent_calls e md vc hc) l) = map Some l.
Proof.
  induction l as [|d l IH]; intros Hin; [reflexivity|].
  cbn [flat_map map]. rewrite map_app, ent_calls_lower, IH; [reflexivity| |];
    intros E; apply Hin; [right; exact E | left; congruence].
Qed.

Lemma rev_seq_S md : rev (seq 0 (S md)) = md :: rev (seq 0 md).
Proof. rewrite seq_S, rev_app_distr. reflexivity. Qed.

(** C28: A successful [read] makes its calls on the mesh in the order of
    the code: [add_coords], then [build_from_elems_and_coords] on the
    elements of the top dimension (2, or 3 when a tetrahedron was read),
    non-empty and [dim + 1] vertices each, with the same coordinates, then
    [classify_elements], then the classification of each lower dimension
    from [dim - 1] down to the vertices, then [project_classification]. *)
Theorem read_call_order sched mdim s calls s' :
  read sched mdim s = Ok calls s' ->
  exists hc md ev2v lower,
    (md = 2 \/ md = 3)%nat /\
    calls = AddCoords hc :: BuildFromElems md ev2v hc :: ClassifyElements
              :: lower ++ [ProjectClassification] /\
    map classified_dim lower = map Some (rev (seq 0 md)) /\
    ev2v <> [] /\ Nat.modulo (length ev2v) (S md) = 0%nat.
Proof.
  intros H. destruct (read_ok _ _ _ _ _ H) as (nc & e & vc & _ & He & Htri & ->).
  assert (Hmd : (top_dim e = 2 \/ top_dim e = 3)%nat)
    by (unfold top_dim; destruct (Nat.eqb _ 0); auto).
  assert (Hne : get (ent_nodes e) (top_dim e) [] <> []).
  { unfold top_dim in *. destruct (Nat.eqb_spec (length (get (ent_nodes e) 3 [])) 0) as [_|E];
      [exact Htri | intros E'; apply E; rewrite E'; reflexivity]. }
  rewrite rev_seq_S. cbn [flat_map]. rewrite ent_calls_top by (auto; lia).
  do 4 eexists. split; [exact Hmd|]. split; [reflexivity|]. split; [|split; [exact Hne|]].
  - apply classified_dims_lower. rewrite <- in_rev, in_seq. lia.
  - destruct He as (_ & _ & Hl). rewrite Hl by lia. rewrite Nat.mul_comm, Nat.Div0.mod_mul. reflexivity.
Qed.

Lemma flat_map_row_unwritten md (nc : list (list Dec)) :
  flat_map (coord_row md 0) nc = repeat None (length nc * md).
Proof.
  induction nc as [|c nc IH]; [reflexivity|].
  cbn [flat_map length]. rewrite IH. unfold coord_row. cbn [firstn map app].
  rewrite Nat.sub_0_r, <- repeat_app. reflexivity.
Qed.

(** When the mesh passed to [read] has no dimension yet ([mesh.dim()]
    at most 0), the loop of lines 96-100 copies nothing: every entry of
    the [host_coords] given to [mesh.add_coords] is left unwritten. *)
Theorem read_coords_unwritten sched mdim s calls s' :
  read sched mdim s = Ok calls s' -> mdim <= 0 ->
  exists n, hd_error calls = Some (AddCoords (repeat None n)).
Proof.
  intros H Hm. destruct (read_ok _ _ _ _ _ H) as (nc & e & vc & Hf & _ & _ & ->).
  exists (length nc * top_dim e)%nat. cbn [hd_error].
  rewrite copy_coords_spec; [| reflexivity | exact Hf | unfold top_dim; destruct (Nat.eqb _ 0); lia].
  replace (Z.to_nat mdim) with 0%nat by lia. rewrite flat_map_row_unwritten. reflexivity.
Qed.

(** ** The vertex classification *)

(** What the writes of the entities [done] leave at vertex [v]: either
    no entity of [done] names [v] and it is unclassified, or it has
    dimension 0 and the tag of one entity of [done] naming it; [None]
    when one of them wrote out of bounds. *)
Definition vc_inv (nverts : nat) (eqv2v ids : list Z) (v : nat) (done : list nat)
    (acc : option (list Z * list Z)) : Prop :=
  match acc with
  | Some (cd, ci) =>
      length cd = nverts /\ length ci = nverts /\
      (forall eq, In eq done -> 0 <= get eqv2v eq 0 < Z.of_nat nverts) /\
      ((get cd v 0 = -1 /\ get ci v 0 = -1 /\ forall eq, In eq done -> get eqv2v eq 0 <> Z.of_nat v) \/
       (get cd v 0 = 0 /\ exists eq, In eq done /\ get eqv2v eq 0 = Z.of_nat v /\ get ci v 0 = get ids eq 0))
  | None => exists eq, In eq done /\ ~ (0 <= get eqv2v eq 0 < Z.of_nat nverts)
  end.

Lemma vc_inv_step nverts eqv2v ids v done acc q :
  (v < nverts)%nat -> vc_inv nverts eqv2v ids v done acc ->
  vc_inv nverts eqv2v ids v (done ++ [q])
    (match acc with
     | None => None
     | Some (cd, ci) =>
         let w := get eqv2v q 0 in
         if (0 <=? w) && (w <? Z.of_nat nverts)
         then Some (set cd (Z.to_nat w) 0, set ci (Z.to_nat w) (get ids q 0))
         else None
     end).
Proof.
  intros Hv. destruct acc as [[cd ci]|]; cbn [vc_inv].
  - intros (Hcd & Hci & Hrg & Hst). cbv zeta. set (w := get eqv2v q 0).
    destruct ((0 <=? w) && (w <? Z.of_nat nverts)) eqn:Hw; cbn [vc_inv].
    + apply andb_true_iff in Hw as [Hw1 Hw2]. apply Z.leb_le in Hw1. apply Z.ltb_lt in Hw2.
      rewrite !set_length. split; [exact Hcd | split; [exact Hci|]].
      split; [intros eq Hin; apply in_app_iff in Hin as [Hin | [<- | []]]; [apply Hrg, Hin | lia]|].
      destruct (Z.eqb_spec w (Z.of_nat v)) as [E|E].
      * right. rewrite E, Nat2Z.id, !get_set_eq by lia. split; [reflexivity|].
        exists q. rewrite in_app_iff. cbn. auto.
      * rewrite !get_set_ne by lia.
        destruct Hst as [(H1 & H2 & H3) | (H1 & eq & Hin & H2 & H3)]; [left | right].
        -- split; [exact H1 | split; [exact H2|]]. intros eq Hin.
           apply in_app_iff in Hin as [Hin | [<- | []]]; [apply H3, Hin | exact E].
        -- split; [exact H1|]. exists eq. rewrite in_app_iff. auto.
    + exists q. rewrite in_app_iff. cbn. split; [auto|]. apply andb_false_iff in Hw. lia.
  - intros (eq & Hin & Hr). exists eq. rewrite in_app_iff. auto.
Qed.

Lemma vc_inv_fold nverts eqv2v ids v order : forall done acc,
  (v < nverts)%nat -> vc_inv nverts eqv2v ids v done acc ->
  vc_inv nverts eqv2v ids v (done ++ order)
    (fold_left (fun acc eq =>
        match acc with
        | None => None
        | Some (cd, ci) =>
            let w := get eqv2v eq 0 in
            if (0 <=? w) && (w <? Z.of_nat nverts)
            then Some (set cd (Z.to_nat w) 0, set ci (Z.to_nat w) (get ids eq 0))
            else None
        end) order acc).
Proof.
  induction order as [|q order IH]; intros done acc Hv H; [rewrite app_nil_r; exact H|].
  cbn [fold_left]. replace (done ++ q :: order) with ((done ++ [q]) ++ order) by (rewrite <- app_assoc; reflexivity).
  apply IH; [exact Hv|]. apply vc_inv_step; assumption.
Qed.

(** C31: The vertex classification [read] computes (lines 123-140 with
    [eq2e = eqv2v]), for every order in which the [parallel_for] runs
    its writes.  When every point entity names a vertex in range, a
    vertex named by no point entity keeps [class_dim = class_id = -1],
    and a vertex named by point entities gets [class_dim = 0] and the
    elementary tag of one of them (which one depends on the schedule when
    several name it); when an entity names a vertex out of range, the
    write is out of bounds, and only then. *)
Theorem vert_class_tags_spec nverts eqv2v ids order v :
  Permutation order (seq 0 (length ids)) -> (v < nverts)%nat ->
  match vert_class_tags nverts eqv2v ids order with
  | Some (cd, ci) =>
      (forall eq, (eq < length ids)%nat -> 0 <= get eqv2v eq 0 < Z.of_nat nverts) /\
      ((get cd v 0 = -1 /\ get ci v 0 = -1 /\
        forall eq, (eq < length ids)%nat -> get eqv2v eq 0 <> Z.of_nat v) \/
       (get cd v 0 = 0 /\ exists eq, (eq < length ids)%nat /\ get eqv2v eq 0 = Z.of_nat v /\
                                     get ci v 0 = get ids eq 0))
  | None => exists eq, (eq < length ids)%nat /\ ~ (0 <= get eqv2v eq 0 < Z.of_nat nverts)
  end.
Proof.
  intros Hp Hv.
  assert (Hin : forall eq, In eq order <-> (eq < length ids)%nat).
  { intros eq. split; intros H.
    - apply (Permutation_in _ Hp), in_seq in H. lia.
    - apply (Permutation_in _ (Permutation_sym Hp)), in_seq. lia. }
  pose proof (vc_inv_fold nverts eqv2v ids v order [] (Some (repeat (-1) nverts, repeat (-1) nverts)) Hv)
    as G.
  cbn [app vc_inv] in G. rewrite !repeat_length, !get_repeat in G by exact Hv.
  specialize (G (conj eq_refl (conj eq_refl (conj (fun _ H => False_ind _ H)
                 (or_introl (conj eq_refl (conj eq_refl (fun _ H => False_ind _ H)))))))).
  unfold vert_class_tags. destruct (fold_left _ _ _) as [[cd ci]|]; cbn [vc_inv] in G.
  - destruct G as (_ & _ & Hrg & G). split; [intros eq Heq; apply Hrg, Hin, Heq|].
    destruct G as [(H1 & H2 & H3) | (H1 & eq & Heq & H2 & H3)]; [left | right].
    + split; [exact H1 | split; [exact H2|]]. intros eq Heq. apply H3, Hin, Heq.
    + split; [exact H1|]. exists eq. split; [apply Hin, Heq | auto].
  - destruct G as (eq & Heq & Hr). exists eq. split; [apply Hin, Heq | exact Hr].
Qed.

(** The element types of the enum at the top of gmsh.cpp, with their
    dimensions. *)
Definition gmsh_types : list (Z * nat) :=
  [(GMSH_VERT, 0%nat); (GMSH_LINE, 1%nat); (GMSH_TRI, 2%nat); (GMSH_TET, 3%nat)].

(** [type_dim] accepts exactly the four linear simplex types, giving
    their dimension and leaving the stream as it is; any other type
    (quadrangles, second-order elements, ...) stops the reader with the
    message of [fail]. *)
Theorem type_dim_spec t s :
  (exists d, type_dim t s = Ok d s /\ In (t, d) gmsh_types) \/
  (~ In t (map fst gmsh_types) /\ type_dim t s = Abort type_msg s).
Proof.
  unfold type_dim, gmsh_types, ret. cbn [map In fst].
  destruct (Z.eqb_spec t GMSH_VERT) as [->|N1]; [left; eexists; split; [reflexivity | auto]|].
  destruct (Z.eqb_spec t GMSH_LINE) as [->|N2]; [left; eexists; split; [reflexivity | auto]|].
  destruct (Z.eqb_spec t GMSH_TRI) as [->|N3]; [left; eexists; split; [reflexivity | auto]|].
  destruct (Z.eqb_spec t GMSH_TET) as [->|N4]; [left; eexists; split; [reflexivity | auto 6]|].
  right. split; [|reflexivity]. intros [E|[E|[E|[E|[]]]]]; congruence.
Qed.

(** ** Examples *)

Section Examples.

(** The writes of the [parallel_for] in index order, one schedule. *)
Definition index_order (n : nat) : list nat := seq 0 n.
Local Open Scope string_scope.

(** Two triangles on four nodes, an edge and a point. *)
Definition ex_file : stream := "$MeshFormat
2.2 0 8
$EndMeshFormat
$Nodes
4
1 0 0 0
2 1 0 0
3 1 1 0
4 0 1.5e-1 0
$EndNodes
$Elements
4
1 15 2 0 1 1
2 1 2 0 3 1 2
3 2 2 0 7 1 2 3
4 2 2 0 7 1 3 4
$EndElements
".

Definition ex_elements : stream := "1 15 2 0 1 1
2 1 2 0 3 1 2
".

(** The same file with a quadrangle (type 3). *)
Definition ex_quad_file : stream := "$MeshFormat
2.2 0 8
$EndMeshFormat
$Nodes
4
1 0 0 0
2 1 0 0
3 1 1 0
4 0 1 0
$EndNodes
$Elements
1
1 3 2 0 7 1 2 3 4
$EndElements
".

Example read_example_calls :
  match read index_order 2 (open_stream ex_file) with
  | Ok calls _ => map classified_dim calls = [None; None; None; Some 1%nat; Some 0%nat; None]
  | _ => False
  end.
Proof. vm_compute. reflexivity. Qed.

(** [ex_file] cut in the node list of its last triangle, at the end of
    the file. *)
Definition ex_cut_file : stream := "$MeshFormat
2.2 0 8
$EndMeshFormat
$Nodes
4
1 0 0 0
2 1 0 0
3 1 1 0
4 0 1.5e-1 0
$EndNodes
$Elements
4
1 15 2 0 1 1
2 1 2 0 3 1 2
3 2 2 0 7 1 2 3
4 2 2 0 7 1 3
".

(** The cut file is read without error: its last triangle has the
    vertices [0 2 2], and the stream is left failed. *)
Example read_cut_file_degenerate :
  match read index_order 2 (open_stream ex_cut_file) with
  | Ok (AddCoords _ :: BuildFromElems _ ev2v _ :: _) st => ev2v = [0; 1; 2; 0; 2; 2] /\ is_fail st = true
  | _ => False
  end.
Proof. vm_compute. split; reflexivity. Qed.

Example read_rejects_quads : exists s, read index_order 2 (open_stream ex_quad_file) = Abort type_msg s.
Proof. eexists. vm_compute. reflexivity. Qed.

Lemma read_elements_ok_witness :
  exists e' s', read_elements 2 no_ents (open_stream ex_elements) = Ok e' s' /\
    ents_ok e' /\ ents_count e' = (ents_count no_ents + 2)%nat.
Proof.
  do 2 eexists. split; [vm_compute; reflexivity|].
  eapply (read_elements_ok 2 no_ents (open_stream ex_elements)); [apply no_ents_ok | vm_compute; reflexivity].
Defined.

Lemma read_call_order_witness :
  exists hc md ev2v lower,
    (md = 2 \/ md = 3)%nat /\
    (match read index_order 2 (open_stream ex_file) with Ok calls _ => calls | _ => [] end) =
      AddCoords hc :: BuildFromElems md ev2v hc :: ClassifyElements
        :: lower ++ [ProjectClassification] /\
    map classified_dim lower = map Some (rev (seq 0 md)) /\
    ev2v <> [] /\ Nat.modulo (length ev2v) (S md) = 0%nat.
Proof.
  apply (read_call_order index_order 2 (open_stream ex_file) _ (match read index_order 2 (open_stream ex_file) with Ok _ s => s | _ => open_stream "" end)).
  vm_compute. reflexivity.
Defined.

Lemma read_coords_unwritten_witness :
  exists n, hd_error (match read index_order 0 (open_stream ex_file) with Ok calls _ => calls | _ => [] end) =
    Some (AddCoords (repeat None n)).
Proof.
  apply (read_coords_unwritten index_order 0 (open_stream ex_file) _ (match read index_order 0 (open_stream ex_file) with Ok _ s => s | _ => open_stream "" end));
    [vm_compute; reflexivity | lia].
Defined.
End Examples.

(** Two point entities name vertex 0 ([eqv2v = [0; 2; 0]]); run in the
    order [2, 0, 1], the first one's tag stays. *)
Lemma vert_class_tags_spec_witness :
  match vert_class_tags 4 [0; 2; 0] [7; 8; 9] [2; 0; 1]%nat with
  | Some (cd, ci) =>
      (forall eq, (eq < length [7; 8; 9])%nat -> 0 <= get [0; 2; 0] eq 0 < Z.of_nat 4) /\
      ((get cd 0 0 = -1 /\ get ci 0 0 = -1 /\
        forall eq, (eq < length [7; 8; 9])%nat -> get [0; 2; 0] eq 0 <> Z.of_nat 0) \/
       (get cd 0 0 = 0 /\ exists eq, (eq < length [7; 8; 9])%nat /\ get [0; 2; 0] eq 0 = Z.of_nat 0 /\
                                     get ci 0 0 = get [7; 8; 9] eq 0))
  | None => exists eq, (eq < length [7; 8; 9])%nat /\ ~ (0 <= get [0; 2; 0] eq 0 < Z.of_nat 4)
  end.
Proof.
  apply vert_class_tags_spec; [|lia].
  apply (Permutation_trans (l' := [0; 2; 1]%nat)); [apply perm_swap|]. apply perm_skip, perm_swap.
Defined.

(** In that order vertex 0 keeps the tag [7] of entity 0; in index order
    it gets the tag [9] of entity 2: the race of two entities on one
    vertex. *)
Example vert_class_tags_race :
  option_map (fun '(cd, ci) => get ci 0 0) (vert_class_tags 4 [0; 2; 0] [7; 8; 9] [2; 0; 1]%nat) = Some 7 /\
  option_map (fun '(cd, ci) => get ci 0 0) (vert_class_tags 4 [0; 2; 0] [7; 8; 9] (index_order 3)) = Some 9.
Proof. split; reflexivity. Qed.

(** A point entity naming vertex 5 of 4 is a write out of bounds. *)
Example vert_class_tags_oob : vert_class_tags 4 [0; 5] [7; 8] (index_order 2) = None.
Proof. reflexivity. Qed.

Lemma copy_coords_spec_witness :
  copy_coords [[mkDec 1 0; mkDec 2 0; mkDec 3 0]] 1 2 2 =
  flat_map (coord_row 2 (Z.to_nat 2)) [[mkDec 1 0; mkDec 2 0; mkDec 3 0]].
Proof. apply copy_coords_spec; [reflexivity | repeat constructor | cbn; lia]. Defined.

Lemma read_node_numbers_cut_witness :
  read_node_numbers 3 None (mkIS (ints_text [1; 3]) false) =
  Ok (map lo_pred [1; 3] ++ repeat (lo_pred (last [1; 3] 0)) (3 - length [1; 3]))
     (mkIS String.EmptyString (negb (Nat.eqb 3 (length [1; 3])))).
Proof.
  apply read_node_numbers_cut; [discriminate | | cbn; lia].
  repeat apply Forall_cons; try apply Forall_nil; unfold INT_MIN, INT_MAX; lia.
Defined.
