(* ===== verification/Bytes.v ===== *)
(** Values as bytes: the little-endian bytes of a value of a fixed
    width, two's complement for the signed integers [I8], [I32], [I64],
    unsigned for [std::size_t], the bit pattern of a [Real]; the memory
    image of a value on a CPU of either byte order and
    [binary::swap_if_needed] (src/src/vtk.cpp reads and writes arrays
    through these), with the laws the reader relies on and the lemmas
    that decode a sequence of values. *)

From Stdlib Require Import ZArith List Lia Bool.
Import ListNotations.

Local Open Scope Z_scope.

(** ** Bytes of values *)

Definition is_byte (b : Z) : bool := (0 <=? b) && (b <? 256).

(** The [n] little-endian bytes of [z] modulo [2 ^ (8 n)]. *)
Fixpoint le_split (n : nat) (z : Z) : list Z :=
  match n with
  | O => []
  | S n' => z mod 256 :: le_split n' (z / 256)
  end.

Fixpoint le_combine (bs : list Z) : Z :=
  match bs with
  | [] => 0
  | b :: bs' => b + 256 * le_combine bs'
  end.

(** The value of [n] bytes read as a signed integer. *)
Definition to_signed (n : nat) (v : Z) : Z :=
  if 2 ^ (8 * Z.of_nat n - 1) <=? v then v - 2 ^ (8 * Z.of_nat n) else v.

(** The little-endian bytes of a value and back. *)
Class Serial (T : Type) := {
  ser_width : nat;
  ser_le : T -> list Z;
  ser_of_le : list Z -> T
}.

(** What [write_array] and [read_array] rely on: a value has [ser_width]
    bytes and is read back from them; [valid] says which values the type
    holds. *)
Class SerialLaws (T : Type) {S : Serial T} (valid : T -> Prop) := {
  ser_le_length : forall x, length (ser_le x) = ser_width;
  ser_le_bytes : forall x, Forall (fun b => is_byte b = true) (ser_le x);
  ser_roundtrip : forall x, valid x -> ser_of_le (ser_le x) = x;
  ser_valid : forall bs, length bs = ser_width -> Forall (fun b => is_byte b = true) bs ->
    valid (ser_of_le bs) /\ ser_le (ser_of_le bs) = bs;
  (** Fewer bytes than the width (the end of a short buffer) still make
      a value of the type. *)
  ser_short_valid : forall bs, (length bs <= ser_width)%nat ->
    Forall (fun b => is_byte b = true) bs -> valid (ser_of_le bs)
}.

(** A signed integer of [n] bytes ([I8], [I32], [I64]). *)
Record SInt (n : nat) : Type := mkSInt { sint_val : Z }.
Arguments mkSInt {n} _.
Arguments sint_val {n} _.

#[export] Instance serial_sint (n : nat) : Serial (SInt n) := {
  ser_width := n;
  ser_le := fun x => le_split n (sint_val x);
  ser_of_le := fun bs => mkSInt (to_signed n (le_combine bs))
}.

Definition sint_valid (n : nat) (x : SInt n) : Prop :=
  - 2 ^ (8 * Z.of_nat n - 1) <= sint_val x < 2 ^ (8 * Z.of_nat n - 1).

(** [std::size_t], unsigned on 8 bytes. *)
Record SizeT : Type := mkSizeT { size_val : Z }.

#[export] Instance serial_size_t : Serial SizeT := {
  ser_width := 8%nat;
  ser_le := fun x => le_split 8 (size_val x);
  ser_of_le := fun bs => mkSizeT (le_combine bs)
}.

Definition size_t_valid (x : SizeT) : Prop := 0 <= size_val x < 2 ^ 64.

(** [Real], a [double]: its value in memory is its IEEE-754 binary64
    bit pattern, 8 bytes.  The VTK code only copies and pads [Real]s, so
    the pattern is the value. *)
Record Real : Type := mkReal { real_bits : Z }.

#[export] Instance serial_real : Serial Real := {
  ser_width := 8%nat;
  ser_le := fun x => le_split 8 (real_bits x);
  ser_of_le := fun bs => mkReal (le_combine bs)
}.

Definition real_valid (x : Real) : Prop := 0 <= real_bits x < 2 ^ 64.

(** [0.0]: all bits clear. *)
Definition real_zero : Real := mkReal 0.

(** The memory image of a value on a CPU of the given byte order, and
    the value of a memory image. *)
Definition mem_bytes {T} {S : Serial T} (cpu_le : bool) (x : T) : list Z :=
  if cpu_le then ser_le x else rev (ser_le x).

Definition of_mem {T} {S : Serial T} (cpu_le : bool) (bs : list Z) : T :=
  ser_of_le (if cpu_le then bs else rev bs).

(** [binary::swap_if_needed] on one value. *)
Definition swap_bytes {T} {S : Serial T} (x : T) : T := ser_of_le (rev (ser_le x)).

Definition swap_if_needed {T} {S : Serial T} (cpu_le file_le : bool) (xs : list T) : list T :=
  if Bool.eqb file_le cpu_le then xs else map swap_bytes xs.

(** ** Lemmas on bytes *)

Lemma le_split_length n z : length (le_split n z) = n.
Proof. revert z. induction n as [|n IH]; intros z; cbn [le_split length]; [reflexivity | rewrite IH; reflexivity]. Qed.

Lemma le_split_bytes n z : Forall (fun b => is_byte b = true) (le_split n z).
Proof.
  revert z. induction n as [|n IH]; intros z; cbn [le_split]; constructor; auto.
  unfold is_byte. pose proof (Z.mod_pos_bound z 256 ltac:(lia)). apply andb_true_iff; split; lia.
Qed.

Lemma mod_mul_split a b c :
  0 < b -> 0 < c -> a mod (b * c) = a mod b + b * ((a / b) mod c).
Proof.
  intros Hb Hc. symmetry. apply Z.mod_unique with ((a / b) / c).
  - left. pose proof (Z.mod_pos_bound a b Hb). pose proof (Z.mod_pos_bound (a / b) c Hc). nia.
  - pose proof (Z.div_mod a b ltac:(lia)). pose proof (Z.div_mod (a / b) c ltac:(lia)). nia.
Qed.

Lemma le_combine_split n z : le_combine (le_split n z) = z mod 2 ^ (8 * Z.of_nat n).
Proof.
  revert z. induction n as [|n IH]; intros z; cbn [le_split le_combine].
  - rewrite Z.mod_1_r. reflexivity.
  - rewrite IH. replace (8 * Z.of_nat (S n)) with (8 + 8 * Z.of_nat n) by lia.
    rewrite Z.pow_add_r by lia. change (2 ^ 8) with 256.
    rewrite mod_mul_split by (try apply Z.pow_pos_nonneg; lia). reflexivity.
Qed.

Lemma le_combine_bound bs :
  Forall (fun b => is_byte b = true) bs -> 0 <= le_combine bs < 2 ^ (8 * Z.of_nat (length bs)).
Proof.
  induction 1 as [|b bs Hb _ IH]; cbn [le_combine length]; [simpl; lia|].
  unfold is_byte in Hb. apply andb_true_iff in Hb as [Hb1 Hb2]. apply Z.leb_le in Hb1. apply Z.ltb_lt in Hb2.
  replace (8 * Z.of_nat (S (length bs))) with (8 + 8 * Z.of_nat (length bs)) by lia.
  rewrite Z.pow_add_r by lia. change (2 ^ 8) with 256. nia.
Qed.

Lemma le_split_combine bs :
  Forall (fun b => is_byte b = true) bs -> le_split (length bs) (le_combine bs) = bs.
Proof.
  induction 1 as [|b bs Hb Hbs IH]; cbn [le_split le_combine length]; [reflexivity|].
  unfold is_byte in Hb. apply andb_true_iff in Hb as [Hb1 Hb2]. apply Z.leb_le in Hb1. apply Z.ltb_lt in Hb2.
  f_equal.
  - rewrite Z.mul_comm, Z.mod_add by lia. apply Z.mod_small. lia.
  - rewrite Z.mul_comm, Z.div_add by lia. rewrite Z.div_small by lia. exact IH.
Qed.

Lemma le_split_mod n z : le_split n z = le_split n (z mod 2 ^ (8 * Z.of_nat n)).
Proof.
  pose proof (le_split_combine (le_split n z) (le_split_bytes n z)) as E.
  rewrite le_split_length, le_combine_split in E. symmetry. exact E.
Qed.

(** Two's complement at [n] bytes: [z mod 2 ^ (8 n)] read as signed is [z]
    when [z] is in range. *)
Lemma to_signed_mod n z :
  (n <> 0)%nat -> - 2 ^ (8 * Z.of_nat n - 1) <= z < 2 ^ (8 * Z.of_nat n - 1) ->
  to_signed n (z mod 2 ^ (8 * Z.of_nat n)) = z.
Proof.
  intros Hn Hz. unfold to_signed.
  assert (Hp : 2 ^ (8 * Z.of_nat n) = 2 * 2 ^ (8 * Z.of_nat n - 1)).
  { rewrite <- Z.pow_succ_r by lia. f_equal. lia. }
  set (h := 2 ^ (8 * Z.of_nat n - 1)) in *. assert (0 < h) by (apply Z.pow_pos_nonneg; lia).
  rewrite Hp. destruct (Z.leb_spec 0 z).
  - rewrite Z.mod_small by lia. destruct (Z.leb_spec h z); lia.
  - replace (z mod (2 * h)) with (z + 2 * h).
    + destruct (Z.leb_spec h (z + 2 * h)); lia.
    + symmetry. rewrite <- (Z.mod_small (z + 2 * h) (2 * h)) by lia.
      rewrite <- (Z.mod_add z 1 (2 * h)) by lia. f_equal. lia.
Qed.

Lemma to_signed_range n v :
  (n <> 0)%nat -> 0 <= v < 2 ^ (8 * Z.of_nat n) ->
  - 2 ^ (8 * Z.of_nat n - 1) <= to_signed n v < 2 ^ (8 * Z.of_nat n - 1) /\
  to_signed n v mod 2 ^ (8 * Z.of_nat n) = v.
Proof.
  intros Hn Hv. unfold to_signed.
  assert (Hp : 2 ^ (8 * Z.of_nat n) = 2 * 2 ^ (8 * Z.of_nat n - 1)).
  { rewrite <- Z.pow_succ_r by lia. f_equal. lia. }
  set (h := 2 ^ (8 * Z.of_nat n - 1)) in *. assert (0 < h) by (apply Z.pow_pos_nonneg; lia).
  rewrite Hp in *. destruct (Z.leb_spec h v).
  - split; [lia|]. rewrite <- (Z.mod_add _ 1) by lia. rewrite Z.mod_small; lia.
  - split; [lia|]. apply Z.mod_small. lia.
Qed.

Lemma le_combine_short bs n :
  (length bs <= n)%nat -> Forall (fun b => is_byte b = true) bs ->
  0 <= le_combine bs < 2 ^ (8 * Z.of_nat n).
Proof.
  intros Hl Hb. pose proof (le_combine_bound bs Hb) as [H0 H1]. split; [exact H0|].
  eapply Z.lt_le_trans; [exact H1|]. apply Z.pow_le_mono_r; lia.
Qed.

#[export] Instance sint_laws (n : nat) (Hn : (n <> 0)%nat) : SerialLaws (SInt n) (sint_valid n).
Proof.
  split.
  - intros x. apply le_split_length.
  - intros x. apply le_split_bytes.
  - intros [z] Hz. cbn. unfold sint_valid in Hz. cbn in Hz.
    rewrite le_combine_split, to_signed_mod by auto. reflexivity.
  - intros bs Hl Hb. cbn in Hl. cbn. pose proof (le_combine_bound bs Hb) as Hv. rewrite Hl in Hv.
    destruct (to_signed_range n _ Hn Hv) as [Hr Hm]. split; [exact Hr|].
    rewrite le_split_mod, Hm, <- Hl. apply le_split_combine, Hb.
  - intros bs Hl Hb. cbn in Hl. unfold sint_valid. cbn [ser_of_le serial_sint sint_val].
    exact (proj1 (to_signed_range n _ Hn (le_combine_short bs n Hl Hb))).
Qed.

#[export] Instance size_t_laws : SerialLaws SizeT size_t_valid.
Proof.
  split.
  - intros x. apply le_split_length.
  - intros x. apply le_split_bytes.
  - intros [z] Hz. unfold size_t_valid in Hz. cbn [size_val] in Hz.
    change (mkSizeT (le_combine (le_split 8 z)) = mkSizeT z).
    rewrite le_combine_split. f_equal. apply Z.mod_small. exact Hz.
  - intros bs Hl Hb. change (length bs = 8%nat) in Hl.
    change (size_t_valid (mkSizeT (le_combine bs)) /\ le_split 8 (le_combine bs) = bs).
    pose proof (le_combine_bound bs Hb) as Hv. rewrite Hl in Hv.
    split; [exact Hv|]. rewrite <- Hl. apply le_split_combine, Hb.
  - intros bs Hl Hb. exact (le_combine_short bs 8 Hl Hb).
Qed.


#[export] Instance real_laws : SerialLaws Real real_valid.
Proof.
  split.
  - intros x. apply le_split_length.
  - intros x. apply le_split_bytes.
  - intros [z] Hz. unfold real_valid in Hz. cbn [real_bits] in Hz.
    change (mkReal (le_combine (le_split 8 z)) = mkReal z).
    rewrite le_combine_split. f_equal. apply Z.mod_small. exact Hz.
  - intros bs Hl Hb. change (length bs = 8%nat) in Hl.
    change (real_valid (mkReal (le_combine bs)) /\ le_split 8 (le_combine bs) = bs).
    pose proof (le_combine_bound bs Hb) as Hv. rewrite Hl in Hv.
    split; [exact Hv|]. rewrite <- Hl. apply le_split_combine, Hb.
  - intros bs Hl Hb. exact (le_combine_short bs 8 Hl Hb).
Qed.

(** ** Sequences of values *)

(** [n] consecutive chunks of [w] bytes. *)
Fixpoint chunks (w n : nat) (bs : list Z) : list (list Z) :=
  match n with
  | O => []
  | S n' => firstn w bs :: chunks w n' (skipn w bs)
  end.

Lemma chunks_flat_map {A} (f : A -> list Z) w xs rest :
  Forall (fun x => length (f x) = w) xs ->
  chunks w (length xs) (flat_map f xs ++ rest) = map f xs.
Proof.
  induction 1 as [|x xs Hx _ IH]; [reflexivity|].
  cbn [length chunks flat_map map]. rewrite <- app_assoc.
  assert (E1 : firstn w (f x ++ flat_map f xs ++ rest) = f x).
  { rewrite firstn_app, Hx, Nat.sub_diag, firstn_O, app_nil_r, <- Hx. apply firstn_all. }
  assert (E2 : skipn w (f x ++ flat_map f xs ++ rest) = flat_map f xs ++ rest).
  { rewrite skipn_app, Hx, Nat.sub_diag, skipn_O, <- Hx, skipn_all. reflexivity. }
  rewrite E1, E2, IH. reflexivity.
Qed.

Lemma flat_map_length_const {A} (f : A -> list Z) w xs :
  Forall (fun x => length (f x) = w) xs -> length (flat_map f xs) = (length xs * w)%nat.
Proof.
  induction 1 as [|x xs Hx _ IH]; [reflexivity|].
  cbn [flat_map length]. rewrite length_app, Hx, IH. lia.
Qed.

Lemma Forall_flat_map {A B} (P : B -> Prop) (f : A -> list B) xs :
  Forall (fun x => Forall P (f x)) xs -> Forall P (flat_map f xs).
Proof. induction 1; cbn [flat_map]; [constructor | apply Forall_app; auto]. Qed.

Lemma Forall_rev' {A} (P : A -> Prop) l : Forall P l -> Forall P (rev l).
Proof. intros H. apply Forall_forall. intros x Hx. apply in_rev in Hx. rewrite Forall_forall in H. auto. Qed.

Section MemLaws.
Context {T : Type} {S : Serial T} {valid : T -> Prop} {L : SerialLaws T valid}.

Lemma mem_bytes_length cpu_le x : length (mem_bytes cpu_le x) = ser_width.
Proof. unfold mem_bytes. destruct cpu_le; rewrite ?length_rev; apply ser_le_length. Qed.

Lemma mem_bytes_bytes cpu_le x : Forall (fun b => is_byte b = true) (mem_bytes cpu_le x).
Proof. unfold mem_bytes. destruct cpu_le; [|apply Forall_rev']; apply ser_le_bytes. Qed.

Lemma of_mem_bytes cpu_le x : valid x -> of_mem cpu_le (mem_bytes cpu_le x) = x.
Proof. intros Hx. unfold of_mem, mem_bytes. destruct cpu_le; rewrite ?rev_involutive; apply ser_roundtrip, Hx. Qed.

Lemma swap_if_needed_same cpu_le (xs : list T) : swap_if_needed cpu_le cpu_le xs = xs.
Proof. unfold swap_if_needed. rewrite Bool.eqb_reflx. reflexivity. Qed.

Lemma decode_array cpu_le (xs : list T) rest :
  Forall valid xs ->
  map (of_mem cpu_le) (chunks ser_width (length xs) (flat_map (mem_bytes cpu_le) xs ++ rest)) = xs.
Proof.
  intros Hv. rewrite chunks_flat_map by (apply Forall_forall; intros; apply mem_bytes_length).
  rewrite map_map. induction Hv as [|x xs Hx _ IH]; [reflexivity|].
  cbn [map]. rewrite of_mem_bytes, IH by exact Hx. reflexivity.
Qed.
Lemma swap_cross wcpu x : valid x -> swap_bytes (of_mem (negb wcpu) (mem_bytes wcpu x)) = x.
Proof.
  intros Hx. assert (E : of_mem (negb wcpu) (mem_bytes wcpu x) = ser_of_le (rev (ser_le x)))
    by (unfold of_mem, mem_bytes; destruct wcpu; reflexivity).
  rewrite E. unfold swap_bytes.
  destruct (ser_valid (rev (ser_le x))) as [_ E2];
    [rewrite length_rev; apply ser_le_length | apply Forall_rev', ser_le_bytes|].
  rewrite E2, rev_involutive. apply ser_roundtrip, Hx.
Qed.

(** Values written on a CPU of byte order [wcpu], with the file declaring
    that order, are read back on a CPU of any byte order [rcpu]. *)
Lemma decode_values rcpu wcpu (xs : list T) rest :
  Forall valid xs ->
  swap_if_needed rcpu wcpu
    (map (of_mem rcpu) (chunks ser_width (length xs) (flat_map (mem_bytes wcpu) xs ++ rest))) = xs.
Proof.
  intros Hv. rewrite chunks_flat_map by (apply Forall_forall; intros; apply mem_bytes_length).
  rewrite map_map. unfold swap_if_needed.
  destruct (Bool.eqb_spec wcpu rcpu) as [<-|Hne].
  - induction Hv as [|x xs Hx _ IH]; [reflexivity|]. cbn [map]. rewrite of_mem_bytes, IH by exact Hx. reflexivity.
  - assert (Hr : rcpu = negb wcpu) by (destruct rcpu, wcpu; cbn; congruence). subst rcpu.
    rewrite map_map. induction Hv as [|x xs Hx _ IH]; [reflexivity|]. cbn [map].
    rewrite swap_cross, IH by exact Hx. reflexivity.
Qed.
Lemma decode_value1 rcpu wcpu (x : T) :
  valid x -> swap_if_needed rcpu wcpu [of_mem rcpu (mem_bytes wcpu x)] = [x].
Proof.
  intros Hx. pose proof (decode_values rcpu wcpu [x] [] ltac:(repeat constructor; exact Hx)) as E.
  cbn [length chunks flat_map] in E. rewrite !app_nil_r, firstn_all2 in E by (rewrite mem_bytes_length; lia).
  exact E.
Qed.
End MemLaws.

(** ** Deciding validity *)

Definition sint_validb (n : nat) (x : SInt n) : bool :=
  (- 2 ^ (8 * Z.of_nat n - 1) <=? sint_val x) && (sint_val x <? 2 ^ (8 * Z.of_nat n - 1)).

Definition real_validb (x : Real) : bool := (0 <=? real_bits x) && (real_bits x <? 2 ^ 64).

Lemma sint_validb_spec n x : sint_validb n x = true -> sint_valid n x.
Proof. unfold sint_validb, sint_valid. rewrite andb_true_iff, Z.leb_le, Z.ltb_lt. auto. Qed.

Lemma real_validb_spec x : real_validb x = true -> real_valid x.
Proof. unfold real_validb, real_valid. rewrite andb_true_iff, Z.leb_le, Z.ltb_lt. auto. Qed.

Lemma forallb_Forall {A} (p : A -> bool) (P : A -> Prop) l :
  (forall x, p x = true -> P x) -> forallb p l = true -> Forall P l.
Proof.
  intros Hp Hl. apply Forall_forall. intros x Hx. apply Hp.
  rewrite forallb_forall in Hl. auto.
Qed.
