(* ===== verification/Codecs.v ===== *)
(** The codecs the VTK writer calls: [base64::encode], [base64::decode]
    and [base64::encoded_size], and zlib's [compress2] and [uncompress].
    They are library code outside [src/]; the classes [Base64] and
    [Compressor] give their interface and [Base64Laws] and
    [CompressorLaws] the laws src/src/vtk.cpp relies on.  [rfc4648] is a
    standard base64 (RFC 4648, padded with [=]) that satisfies the laws,
    and [stored] the trivial compressor that keeps the bytes; the
    theorems of VtkArrays.v hold for every lawful instance, and these two
    instantiate them on concrete files. *)

From Stdlib Require Import ZArith List Lia Bool Ascii.
From Stdlib Require String.
From S2P Require Import Bytes.
Import ListNotations.

Local Open Scope Z_scope.

(** ** The codecs *)

(** [base64::encode], [base64::decode] into [n] bytes and
    [base64::encoded_size]. *)
Class Base64 := {
  b64_encode : list Z -> String.string;
  b64_decode : String.string -> nat -> list Z;
  b64_encoded_size : nat -> nat
}.

Class Base64Laws {B : Base64} := {
  b64_length : forall bs, String.length (b64_encode bs) = b64_encoded_size (length bs);
  b64_roundtrip : forall bs, Forall (fun b => is_byte b = true) bs ->
    b64_decode (b64_encode bs) (length bs) = bs;
  (** [decode] writes bytes ([unsigned char]), whatever the text. *)
  b64_decode_bytes : forall s n, Forall (fun b => is_byte b = true) (b64_decode s n)
}.

(** [compress2] and [uncompress] of zlib; [uncompress] fails ([None])
    on data it cannot inflate. *)
Class Compressor := {
  z_compress : list Z -> list Z;
  z_uncompress : list Z -> nat -> option (list Z)
}.

(** [compressBound(n)] of zlib. *)
Definition compress_bound (n : nat) : nat :=
  n + Nat.shiftr n 12 + Nat.shiftr n 14 + Nat.shiftr n 25 + 13.

Class CompressorLaws {C : Compressor} := {
  z_bytes : forall bs, Forall (fun b => is_byte b = true) (z_compress bs);
  z_bound : forall bs, (length (z_compress bs) <= compress_bound (length bs))%nat;
  z_roundtrip : forall bs, Forall (fun b => is_byte b = true) bs ->
    z_uncompress (z_compress bs) (length bs) = Some bs;
  (** [uncompress] writes bytes ([Bytef]), whatever the input. *)
  z_uncompress_bytes : forall bs n d, z_uncompress bs n = Some d ->
    Forall (fun b => is_byte b = true) d
}.

Lemma compress_bound_le n : (compress_bound n <= 4 * n + 13)%nat.
Proof.
  unfold compress_bound. rewrite !Nat.shiftr_div_pow2.
  pose proof (Nat.Div0.div_le_upper_bound n (2 ^ 12) n ltac:(apply Nat.le_mul_l; apply Nat.pow_nonzero; lia)).
  pose proof (Nat.Div0.div_le_upper_bound n (2 ^ 14) n ltac:(apply Nat.le_mul_l; apply Nat.pow_nonzero; lia)).
  pose proof (Nat.Div0.div_le_upper_bound n (2 ^ 25) n ltac:(apply Nat.le_mul_l; apply Nat.pow_nonzero; lia)).
  lia.
Qed.

(** ** A standard base64 *)

Module Rfc4648.

(** The character of a 6-bit value: [A-Z], [a-z], [0-9], [+], [/]. *)
Definition char_of_sextet (v : Z) : ascii :=
  ascii_of_nat (Z.to_nat
    (if v <? 26 then 65 + v
     else if v <? 52 then 71 + v
     else if v <? 62 then v - 4
     else if v =? 62 then 43 else 47)).

Definition sextet_of_char (c : ascii) : option Z :=
  let n := Z.of_nat (nat_of_ascii c) in
  if (65 <=? n) && (n <=? 90) then Some (n - 65)
  else if (97 <=? n) && (n <=? 122) then Some (n - 71)
  else if (48 <=? n) && (n <=? 57) then Some (n + 4)
  else if n =? 43 then Some 62
  else if n =? 47 then Some 63
  else None.

Definition pad : ascii := ascii_of_nat 61.

(** Three bytes make four characters; a last group of one or two bytes
    makes two or three, padded with [=] to four. *)
Fixpoint encode_chars (bs : list Z) : list ascii :=
  match bs with
  | b0 :: b1 :: b2 :: r =>
      map char_of_sextet [b0 / 4; b0 mod 4 * 16 + b1 / 16; b1 mod 16 * 4 + b2 / 64; b2 mod 64]
      ++ encode_chars r
  | [b0; b1] => map char_of_sextet [b0 / 4; b0 mod 4 * 16 + b1 / 16; b1 mod 16 * 4] ++ [pad]
  | [b0] => map char_of_sextet [b0 / 4; b0 mod 4 * 16] ++ [pad; pad]
  | [] => []
  end.

(** The 6-bit values of the characters up to the first one that is not
    of the alphabet ([=] or the end). *)
Fixpoint sextets (cs : list ascii) : list Z :=
  match cs with
  | [] => []
  | c :: r => match sextet_of_char c with Some v => v :: sextets r | None => [] end
  end.

Fixpoint bytes_of_sextets (vs : list Z) : list Z :=
  match vs with
  | a :: b :: c :: d :: r =>
      (a * 4 + b / 16) :: (b mod 16 * 16 + c / 4) :: (c mod 4 * 64 + d) :: bytes_of_sextets r
  | [a; b; c] => [a * 4 + b / 16; b mod 16 * 16 + c / 4]
  | [a; b] => [a * 4 + b / 16]
  | _ => []
  end.

#[export] Instance rfc4648 : Base64 := {
  b64_encode := fun bs => String.string_of_list_ascii (encode_chars bs);
  b64_decode := fun s n => firstn n (bytes_of_sextets (sextets (String.list_ascii_of_string s)));
  b64_encoded_size := fun n => (4 * ((n + 2) / 3))%nat
}.

Lemma list_ind3 {A} (P : list A -> Prop) :
  P [] -> (forall a, P [a]) -> (forall a b, P [a; b]) ->
  (forall a b c r, P r -> P (a :: b :: c :: r)) -> forall l, P l.
Proof.
  intros H0 H1 H2 H3.
  exact (fix IH l := match l with
    | [] => H0 | [a] => H1 a | [a; b] => H2 a b | a :: b :: c :: r => H3 a b c r (IH r) end).
Qed.

Lemma sextet_roundtrip v : 0 <= v < 64 -> sextet_of_char (char_of_sextet v) = Some v.
Proof.
  intros Hv.
  assert (Hall : forallb (fun k => match sextet_of_char (char_of_sextet (Z.of_nat k)) with
                                   | Some w => w =? Z.of_nat k | None => false end)
                         (seq 0 64) = true) by (vm_compute; reflexivity).
  rewrite forallb_forall in Hall.
  assert (Hin : In (Z.to_nat v) (seq 0 64)) by (apply in_seq; lia).
  specialize (Hall _ Hin). rewrite Z2Nat.id in Hall by lia.
  destruct (sextet_of_char (char_of_sextet v)) as [w|]; [|discriminate Hall].
  apply Z.eqb_eq in Hall. congruence.
Qed.

Lemma sextets_app vs rest :
  Forall (fun v => 0 <= v < 64) vs ->
  sextets (map char_of_sextet vs ++ rest) = vs ++ sextets rest.
Proof.
  induction 1 as [|v vs Hv _ IH]; [reflexivity|].
  cbn [map app sextets]. rewrite sextet_roundtrip by exact Hv. rewrite IH. reflexivity.
Qed.

Ltac byte_bounds :=
  unfold is_byte in *; repeat match goal with
  | H : _ && _ = true |- _ => apply andb_true_iff in H as [? ?]
  | H : (_ <=? _) = true |- _ => apply Z.leb_le in H
  | H : (_ <? _) = true |- _ => apply Z.ltb_lt in H
  end.

Ltac sextet_ranges :=
  byte_bounds;
  first [ apply Forall_forall; intros ? Hin; cbn in Hin;
          repeat (destruct Hin as [<-|Hin]; [Z.div_mod_to_equations; lia|]); contradiction
        | Z.div_mod_to_equations; lia ].

Lemma sextets_pad r : sextets (pad :: r) = [].
Proof. reflexivity. Qed.

Lemma decode_encode_chars bs :
  Forall (fun b => is_byte b = true) bs -> bytes_of_sextets (sextets (encode_chars bs)) = bs.
Proof.
  induction bs as [|a|a b|a b c r IH] using list_ind3; intros Hb; [reflexivity|..].
  - inversion Hb as [|? ? Ha]; subst. cbn [encode_chars].
    rewrite sextets_app, sextets_pad by sextet_ranges. cbn [app bytes_of_sextets].
    f_equal. sextet_ranges.
  - inversion Hb as [|? ? Ha Hb']; inversion Hb' as [|? ? Hb2]; subst. cbn [encode_chars].
    rewrite sextets_app, sextets_pad by sextet_ranges. cbn [app bytes_of_sextets].
    f_equal; [|f_equal]; sextet_ranges.
  - inversion Hb as [|? ? Ha Hb']; inversion Hb' as [|? ? Hb2 Hb'']; inversion Hb'' as [|? ? Hc Hr]; subst.
    cbn [encode_chars]. rewrite sextets_app by sextet_ranges.
    cbn [app bytes_of_sextets]. rewrite IH by exact Hr.
    f_equal; [|f_equal; [|f_equal]]; sextet_ranges.
Qed.

Lemma encode_chars_length bs : length (encode_chars bs) = (4 * ((length bs + 2) / 3))%nat.
Proof.
  induction bs as [|a|a b|a b c r IH] using list_ind3; [reflexivity..|].
  cbn [encode_chars length map app]. rewrite IH.
  replace (S (S (S (length r))) + 2)%nat with (length r + 2 + 1 * 3)%nat by lia.
  rewrite Nat.div_add by lia. lia.
Qed.

Lemma string_length_of_list_ascii l : String.length (String.string_of_list_ascii l) = length l.
Proof. induction l; cbn; auto. Qed.

Lemma sextet_of_char_range c v : sextet_of_char c = Some v -> 0 <= v < 64.
Proof.
  unfold sextet_of_char. set (n := Z.of_nat (nat_of_ascii c)).
  repeat match goal with
  | |- context [if ?b then _ else _] => let E := fresh "E" in destruct b eqn:E
  end; intros H; try discriminate H; injection H as <-;
  rewrite ?andb_true_iff, ?Z.leb_le, ?Z.eqb_eq in *; lia.
Qed.

Lemma sextets_range cs : Forall (fun v => 0 <= v < 64) (sextets cs).
Proof.
  induction cs as [|c cs IH]; cbn [sextets]; [constructor|].
  destruct (sextet_of_char c) eqn:E; [constructor; [eapply sextet_of_char_range; eauto | exact IH] | constructor].
Qed.

Lemma byte_of_range z : 0 <= z < 256 -> is_byte z = true.
Proof. intros Hz. unfold is_byte. apply andb_true_iff. split; [apply Z.leb_le | apply Z.ltb_lt]; lia. Qed.

Lemma bytes_of_sextets_bytes vs :
  Forall (fun v => 0 <= v < 64) vs -> Forall (fun b => is_byte b = true) (bytes_of_sextets vs).
Proof.
  remember (length vs) as n eqn:E. revert vs E.
  induction n as [n IH] using lt_wf_ind. intros [|a [|b [|c [|d r]]]] E Hv; cbn [bytes_of_sextets];
    repeat match goal with H : Forall _ (_ :: _) |- _ => inversion H; subst; clear H end;
    repeat constructor; try (apply byte_of_range; Z.div_mod_to_equations; lia).
  eapply IH; [| reflexivity | assumption]. cbn. lia.
Qed.

Lemma Forall_firstn_ {A} (P : A -> Prop) n l : Forall P l -> Forall P (firstn n l).
Proof. revert l. induction n; intros [|x l] H; cbn; auto. inversion H; subst. constructor; auto. Qed.

#[export] Instance rfc4648_laws : Base64Laws.
Proof.
  split.
  - intros bs. cbn. rewrite string_length_of_list_ascii. apply encode_chars_length.
  - intros bs Hb. cbn. rewrite String.list_ascii_of_string_of_list_ascii, decode_encode_chars by exact Hb.
    apply firstn_all.
  - intros t n. cbn. apply Forall_firstn_, bytes_of_sextets_bytes, sextets_range.
Qed.

End Rfc4648.

(** ** A lawful compressor *)

Module Stored.

(** Keeps the bytes (reduced to bytes); [uncompress] fails when they do
    not fit in the destination, as zlib's [Z_BUF_ERROR]. *)
#[export] Instance stored : Compressor := {
  z_compress := map (fun b => b mod 256);
  z_uncompress := fun bs n =>
    if Nat.leb (length bs) n then Some (map (fun b => b mod 256) bs) else None
}.

Lemma mod_256_bytes bs : Forall (fun b => is_byte b = true) (map (fun b => b mod 256) bs).
Proof.
  apply Forall_forall. intros b Hb. apply in_map_iff in Hb as (x & <- & _).
  apply Rfc4648.byte_of_range. apply Z.mod_pos_bound. lia.
Qed.

Lemma mod_256_id bs : Forall (fun b => is_byte b = true) bs -> map (fun b => b mod 256) bs = bs.
Proof.
  induction 1 as [|b bs Hb _ IH]; cbn; [reflexivity|]. rewrite IH. f_equal.
  unfold is_byte in Hb. apply andb_true_iff in Hb as [H1 H2]. apply Z.leb_le in H1. apply Z.ltb_lt in H2.
  apply Z.mod_small. lia.
Qed.

#[export] Instance stored_laws : CompressorLaws.
Proof.
  split.
  - intros bs. apply mod_256_bytes.
  - intros bs. cbn. rewrite length_map. unfold compress_bound. lia.
  - intros bs Hb. cbn. rewrite !length_map, Nat.leb_refl, !mod_256_id by (exact Hb || apply mod_256_bytes).
    reflexivity.
  - intros bs n d. cbn. destruct (Nat.leb _ _); intros H; [injection H as <-; apply mod_256_bytes | discriminate].
Qed.

End Stored.
