(* ===== verification/VtkArrays.v ===== *)
(** The data arrays of src/src/vtk.cpp: how a tag's array is described,
    encoded, written and read back.

    - The XML reader [xml::read_tag] and the [base64] and [zlib] codecs are
      library code outside [src/].  A file is modelled at the level the
      reader sees it: a sequence of [item]s, each an XML tag (name, kind,
      attributes) or the text between tags.  [base64] is the class [Base64]
      and zlib the class [Compressor], each with the laws the code relies
      on; whether the library is built with zlib is the boolean [use_zlib]
      ([#ifdef OMEGA_H_USE_ZLIB]).
    - A value of a C++ type [T] is written as the bytes of its memory
      image ([HostRead<T>::data()]), as Bytes.v models it.
    - The theorems: [read_known_array_written] (an array is read back
      as written, with or without zlib, on a CPU of either byte order) and
      [read_tag_written] (a tag is read back as [written_tag] says). *)

From Stdlib Require Import ZArith List Lia Bool.
From Stdlib Require String.
From S2P Require Import Prelude Text Bytes Codecs.
Import ListNotations.
Import String.StringSyntax.

Local Open Scope Z_scope.

(** ** Types and their names *)

(** [Omega_h_Type]. *)
Inductive omega_type : Type := OMEGA_H_I8 | OMEGA_H_I32 | OMEGA_H_I64 | OMEGA_H_F64.

Definition omega_type_eq_dec (a b : omega_type) : {a = b} + {a <> b}.
Proof. decide equality. Defined.

Section Names.
Local Open Scope string_scope.

(** [Traits<T>::name()]: the VTK name of a type, from its signedness and
    size ([IntTraits], [FloatTraits]). *)
Definition type_name (t : omega_type) : String.string :=
  match t with
  | OMEGA_H_I8 => "Int8"
  | OMEGA_H_I32 => "Int32"
  | OMEGA_H_I64 => "Int64"
  | OMEGA_H_F64 => "Float64"
  end.

(** [Traits<std::size_t>::name()], the header type. *)
Definition size_t_name : String.string := "UInt64".

(** The type named by an attribute in [read_array_start_tag]; a name it
    does not know leaves [*type_out] as it was. *)
Definition type_of_name (dflt : omega_type) (n : String.string) : omega_type :=
  if String.eqb n "Int8" then OMEGA_H_I8
  else if String.eqb n "Int32" then OMEGA_H_I32
  else if String.eqb n "Int64" then OMEGA_H_I64
  else if String.eqb n "Float64" then OMEGA_H_F64
  else dflt.

Definition data_array : String.string := "DataArray".
Definition a_type : String.string := "type".
Definition a_name : String.string := "Name".
Definition a_ncomps : String.string := "NumberOfComponents".
Definition a_format : String.string := "format".
Definition binary_format : String.string := "binary".
Definition xml_msg : String.string := "xml::read_tag".
Definition stoi_msg : String.string := "std::stoi".
Definition end_tag_msg : String.string := "st.type == xml::Tag::END".
Definition format_msg : String.string := "st.attribs[format] == binary".
End Names.

(** ** The XML items of a file *)

Inductive tag_kind : Type := START | END | SELF_CLOSING.

Definition tag_kind_eqb (a b : tag_kind) : bool :=
  match a, b with
  | START, START | END, END | SELF_CLOSING, SELF_CLOSING => true
  | _, _ => false
  end.

(** [xml::Tag]: the element name, the kind of tag and the attributes. *)
Record xml_tag : Type := mkTag {
  elem_name : String.string;
  tag_type : tag_kind;
  attribs : list (String.string * String.string)
}.

(** [st.attribs[k]] on the [std::map]: the empty string when absent. *)
Definition attrib (t : xml_tag) (k : String.string) : String.string :=
  match find (fun p => String.eqb (fst p) k) (attribs t) with
  | Some (_, v) => v
  | None => String.EmptyString
  end.

(** [st.attribs.count(k)]. *)
Definition has_attrib (t : xml_tag) (k : String.string) : bool :=
  existsb (fun p => String.eqb (fst p) k) (attribs t).

Inductive item : Type :=
| ITag (t : xml_tag)
| IText (s : String.string).

Abbreviation xstream := (list item).

(** [xml::read_tag(stream)]. *)
Definition read_xml_tag : comp xstream xml_tag := fun s =>
  match s with
  | ITag t :: r => Ok t r
  | _ => Abort xml_msg s
  end.

(** [base64::read_encoded(stream)]: the text up to the next tag. *)
Definition read_encoded : comp xstream String.string := fun s =>
  match s with
  | IText t :: r => Ok t r
  | _ => Ok String.EmptyString s
  end.

(** [std::stoi]: leading white space, a sign, digits; it throws when
    there is no digit or the value does not fit an [int]. *)
Definition stoi (s : String.string) : option Z :=
  match parse_int s with Some (v, _) => Some v | None => None end.

(** ** Writing and reading one array *)

Section Messages2.
Local Open Scope string_scope.
Definition not_compressed_msg : String.string := "is_compressed == false".
Definition bytes_msg : String.string := "uncompressed_bytes == std::size_t(size) * sizeof(T)".
Definition decompress_msg : String.string := "couldn't decompress".
Definition dest_bytes_msg : String.string := "dest_bytes == uncompressed_bytes".
(** [HostWrite<T> uncompressed(size)] with a negative [size]: the
    allocation fails and the program stops. *)
Definition host_write_msg : String.string := "HostWrite<T>(size): size >= 0".
Definition elem_name_msg : String.string := "et.elem_name == DataArray".
Definition start_msg : String.string := "st.type == xml::Tag::START".
Definition name_msg : String.string := "st.attribs[Name] == name".
Definition type_attr_msg : String.string := "st.attribs[type] == Traits<T>::name()".
Definition ncomps_msg : String.string := "st.attribs[NumberOfComponents] == to_string(ncomps)".
End Messages2.

(** [s.substr(n)]. *)
Definition substr_from (n : nat) (s : String.string) : String.string :=
  String.substring n (String.length s - n) s.

(** [describe_array<T>(stream, name, ncomps)]: the attributes of the
    [DataArray] tag. *)
Definition describe_array (t : omega_type) (name : String.string) (ncomps : Z)
    : list (String.string * String.string) :=
  [(a_type, type_name t); (a_name, name); (a_ncomps, print_int ncomps);
   (a_format, binary_format)].

(** [LO * Int] in C++: the product of two 32-bit [int]s, kept at 32
    bits.  Signed overflow is undefined in C++; the model takes the
    two's complement wrap-around the compilers produce. *)
Definition lo_mul (a b : Z) : Z := to_signed 4 ((a * b) mod 2 ^ 32).

(** [std::size_t(size) * sizeof(T)]: the [LO] converted to a 64-bit
    unsigned value (a negative one wraps), times the width, modulo
    [2^64]. *)
Definition size_t_bytes (size : Z) (w : nat) : Z := (size mod 2 ^ 64 * Z.of_nat w) mod 2 ^ 64.

Section Arrays.
Context {B : Base64} {C : Compressor}.
(** Whether the library is built with zlib, and the byte order of the CPU. *)
Variables (use_zlib cpu_le : bool).

(** The text [write_array] writes between the tags (lines 113-133): the
    encoded header, then the encoded (compressed) bytes of the array. *)
Definition encode_array {T} {S : Serial T} (array : list T) : String.string :=
  let data := flat_map (mem_bytes cpu_le) array in
  let ub := Z.of_nat (length data) in
  if use_zlib then
    let compressed := z_compress data in
    let header := [mkSizeT 1; mkSizeT ub; mkSizeT ub; mkSizeT (Z.of_nat (length compressed))] in
    String.append (b64_encode (flat_map (mem_bytes cpu_le) header)) (b64_encode compressed)
  else String.append (b64_encode (mem_bytes cpu_le (mkSizeT ub))) (b64_encode data).

(** [write_array<T>(stream, name, ncomps, array)] for an array of type
    [t] (lines 104-136). *)
Definition write_array {T} {S : Serial T} (t : omega_type) (name : String.string) (ncomps : Z)
    (array : list T) : list item :=
  [ITag (mkTag data_array START (describe_array t name ncomps));
   IText (encode_array array);
   ITag (mkTag data_array END [])].

(** The header of an encoded array: the number of uncompressed bytes, the
    number of compressed bytes and the encoded data after the header. *)
Definition read_array_header (is_little_endian is_compressed : bool) (enc_both : String.string)
    : comp xstream (Z * Z * String.string) :=
  if use_zlib && is_compressed then
    let nh := b64_encoded_size 32 in
    let header := swap_if_needed cpu_le is_little_endian
      (map (of_mem cpu_le) (chunks 8 4 (b64_decode (String.substring 0 nh enc_both) 32))) in
    ret (size_val (get header 2 (mkSizeT 0)), size_val (get header 3 (mkSizeT 0)),
         substr_from nh enc_both)
  else
    (if use_zlib then ret tt else check (negb is_compressed) not_compressed_msg) ;;
    let nh := b64_encoded_size 8 in
    let header := swap_if_needed cpu_le is_little_endian
      [of_mem cpu_le (b64_decode (String.substring 0 nh enc_both) 8)] in
    let ub := size_val (get header 0 (mkSizeT 0)) in
    ret (ub, ub, substr_from nh enc_both).

(** [read_array<T>(stream, size, is_little_endian, is_compressed)]
    (lines 138-192). *)
Definition read_array {T} {S : Serial T} (size : Z) (is_little_endian is_compressed : bool)
    : comp xstream (list T) :=
  enc_both <- read_encoded ;;
  '(ub, cb, encoded) <- read_array_header is_little_endian is_compressed enc_both ;;
  check (ub =? size_t_bytes size ser_width) bytes_msg ;;
  check (0 <=? size) host_write_msg ;;
  data <- (if use_zlib && is_compressed then
             match z_uncompress (b64_decode encoded (Z.to_nat cb)) (Z.to_nat ub) with
             | Some d => check (Nat.eqb (length d) (Z.to_nat ub)) dest_bytes_msg ;; ret d
             | None => abort decompress_msg
             end
           else ret (b64_decode encoded (Z.to_nat ub))) ;;
  ret (swap_if_needed cpu_le is_little_endian
         (map (of_mem cpu_le) (chunks ser_width (Z.to_nat size) data))).

(** [read_array_start_tag(stream, &type, &name, &ncomps)] (lines 82-102):
    [None] at the end tag that closes the list of arrays; [dflt] is the
    value [*type_out] had. *)
Definition read_array_start_tag (dflt : omega_type)
    : comp xstream (option (omega_type * String.string * Z)) :=
  st <- read_xml_tag ;;
  if negb (String.eqb (elem_name st) data_array && tag_kind_eqb (tag_type st) START) then
    check (tag_kind_eqb (tag_type st) END) end_tag_msg ;; ret None
  else
    let ty := type_of_name dflt (attrib st a_type) in
    let name := attrib st a_name in
    match stoi (attrib st a_ncomps) with
    | None => abort stoi_msg
    | Some ncomps =>
        check (String.eqb (attrib st a_format) binary_format) format_msg ;;
        ret (Some (ty, name, ncomps))
    end.

(** The end tag of an array. *)
Definition read_array_end_tag : comp xstream unit :=
  et <- read_xml_tag ;;
  check (String.eqb (elem_name et) data_array) elem_name_msg ;;
  check (tag_kind_eqb (tag_type et) END) end_tag_msg.

(** [read_known_array<T>(stream, name, nents, ncomps, ...)] (lines
    256-271): an array whose name, type and width are known. *)
Definition read_known_array {T} {S : Serial T} (t : omega_type) (name : String.string)
    (nents ncomps : Z) (is_little_endian is_compressed : bool) : comp xstream (list T) :=
  st <- read_xml_tag ;;
  check (String.eqb (elem_name st) data_array) elem_name_msg ;;
  check (tag_kind_eqb (tag_type st) START) start_msg ;;
  check (String.eqb (attrib st a_name) name) name_msg ;;
  check (String.eqb (attrib st a_type) (type_name t)) type_attr_msg ;;
  check (String.eqb (attrib st a_ncomps) (print_int ncomps)) ncomps_msg ;;
  array <- read_array (lo_mul nents ncomps) is_little_endian is_compressed ;;
  read_array_end_tag ;;
  ret array.

End Arrays.

(** ** The round trip of an array *)

Lemma substr_from_app a b : substr_from (String.length a) (String.append a b) = b.
Proof.
  unfold substr_from. rewrite substring_app_suffix, string_length_append.
  replace (String.length a + String.length b - String.length a)%nat with (String.length b) by lia.
  apply substring_all.
Qed.



Section ArrayRoundTrip.
Context {B : Base64} {BL : Base64Laws} {C : Compressor} {CL : CompressorLaws}.
(** The build, the byte order of the CPU that writes and of the one that
    reads. *)
Variables (use_zlib cpu_le rcpu : bool).
Context {T : Type} {S : Serial T} {valid : T -> Prop} {L : SerialLaws T valid}.

Lemma decode_encoded bs rest :
  Forall (fun b => is_byte b = true) bs ->
  b64_decode (String.substring 0 (b64_encoded_size (length bs))
                (String.append (b64_encode bs) rest)) (length bs) = bs /\
  substr_from (b64_encoded_size (length bs)) (String.append (b64_encode bs) rest) = rest.
Proof.
  intros Hb. rewrite <- b64_length, substring_app_prefix, substr_from_app.
  split; [apply b64_roundtrip, Hb | reflexivity].
Qed.

(** The bytes of the array, as [write_array] has them. *)
Definition array_bytes (arr : list T) : list Z := flat_map (mem_bytes cpu_le) arr.

Lemma array_bytes_length arr : length (array_bytes arr) = (length arr * ser_width)%nat.
Proof. apply flat_map_length_const. apply Forall_forall. intros. apply mem_bytes_length. Qed.

Lemma array_bytes_bytes arr : Forall (fun b => is_byte b = true) (array_bytes arr).
Proof. apply Forall_flat_map. apply Forall_forall. intros. apply mem_bytes_bytes. Qed.


Lemma Z_eqb_true a b : a = b -> (a =? b) = true.
Proof. intros ->. apply Z.eqb_refl. Qed.

Lemma decode_header (hdr : list SizeT) rest :
  Forall size_t_valid hdr ->
  let bs := flat_map (mem_bytes cpu_le) hdr in
  swap_if_needed rcpu cpu_le (map (of_mem rcpu) (chunks 8 (length hdr)
    (b64_decode (String.substring 0 (b64_encoded_size (8 * length hdr))
       (String.append (b64_encode bs) rest)) (8 * length hdr)))) = hdr /\
  substr_from (b64_encoded_size (8 * length hdr)) (String.append (b64_encode bs) rest) = rest.
Proof.
  intros Hv bs.
  assert (Hl : length bs = (8 * length hdr)%nat).
  { unfold bs. rewrite (flat_map_length_const _ 8); [lia|].
    apply Forall_forall. intros x _. apply (mem_bytes_length (L := size_t_laws)). }
  assert (Hb : Forall (fun b => is_byte b = true) bs).
  { apply Forall_flat_map, Forall_forall. intros x _. apply (mem_bytes_bytes (L := size_t_laws)). }
  destruct (decode_encoded bs rest Hb) as [D1 D2]. rewrite Hl in D1, D2.
  rewrite D1, D2. split; [|reflexivity].
  rewrite <- (app_nil_r bs). apply (decode_values (L := size_t_laws)), Hv.
Qed.

(** The byte count of [n] values of [w] bytes does not wrap. *)
Lemma size_t_bytes_nat n w :
  Z.of_nat (n * w) < 2 ^ 60 -> size_t_bytes (Z.of_nat n) w = Z.of_nat (n * w).
Proof.
  intros H. unfold size_t_bytes. change (2 ^ 60) with 1152921504606846976 in H.
  change (2 ^ 64) with 18446744073709551616. destruct w as [|w].
  - rewrite Nat.mul_0_r, Z.mul_0_r. reflexivity.
  - rewrite Nat2Z.inj_mul in *. rewrite (Z.mod_small (Z.of_nat n)), Z.mod_small; lia.
Qed.

Lemma read_array_written arr rest :
  Forall valid arr -> Z.of_nat (length arr * ser_width) < 2 ^ 60 ->
  read_array use_zlib rcpu (T := T) (Z.of_nat (length arr)) cpu_le use_zlib
    (IText (encode_array use_zlib cpu_le arr) :: rest) = Ok arr rest.
Proof.
  intros Hv Hn. pose proof (array_bytes_length arr) as Hl. pose proof (array_bytes_bytes arr) as Hb.
  unfold read_array, encode_array, read_array_header. fold (array_bytes arr).
  set (data := array_bytes arr) in *. rewrite <- Hl in Hn.
  change (2 ^ 60) with 1152921504606846976 in Hn.
  assert (Hdec : swap_if_needed rcpu cpu_le (map (of_mem rcpu) (chunks ser_width (length arr) data)) = arr).
  { rewrite <- (app_nil_r data). apply decode_values, Hv. }
  destruct use_zlib.
  - pose proof (z_bound data) as Hz. pose proof (compress_bound_le (length data)) as Hc.
    destruct (decode_header [mkSizeT 1; mkSizeT (Z.of_nat (length data)); mkSizeT (Z.of_nat (length data));
                             mkSizeT (Z.of_nat (length (z_compress data)))] (b64_encode (z_compress data)))
      as [D1 D2];
      [repeat (apply Forall_cons; [unfold size_t_valid; cbn [size_val]; change (2 ^ 64) with 18446744073709551616; lia|]); apply Forall_nil|].
    cbn [length Nat.mul Nat.add] in D1, D2.
    cbn [andb read_encoded bind ret]. rewrite D1, D2.
    cbn [get nth size_val check].
    rewrite size_t_bytes_nat, <- Hl, Z.eqb_refl by (rewrite <- Hl; lia). cbn [bind ret].
    rewrite (proj2 (Z.leb_le 0 _) (Nat2Z.is_nonneg (length arr))). cbn [bind ret check].
    rewrite !Nat2Z.id, b64_roundtrip by apply z_bytes.
    rewrite z_roundtrip by exact Hb. cbn [bind check ret]. rewrite Nat.eqb_refl. cbn [bind ret check].
    rewrite ?Nat2Z.id, Hdec. reflexivity.
  - assert (Hh : length (mem_bytes cpu_le (mkSizeT (Z.of_nat (length data)))) = 8%nat)
      by apply (mem_bytes_length (L := size_t_laws)).
    destruct (decode_encoded (mem_bytes cpu_le (mkSizeT (Z.of_nat (length data)))) (b64_encode data))
      as [D1 D2]; [apply (mem_bytes_bytes (L := size_t_laws))|].
    rewrite Hh in D1, D2.
    cbn [andb read_encoded bind ret check negb]. rewrite D1, D2.
    rewrite (decode_value1 (L := size_t_laws))
      by (unfold size_t_valid; cbn [size_val]; change (2 ^ 64) with 18446744073709551616; lia).
    cbn [get nth size_val check].
    rewrite size_t_bytes_nat, <- Hl, Z.eqb_refl by (rewrite <- Hl; lia). cbn [bind ret check].
    rewrite (proj2 (Z.leb_le 0 _) (Nat2Z.is_nonneg (length arr))). cbn [bind ret check].
    rewrite !Nat2Z.id, b64_roundtrip by exact Hb.
    rewrite Hdec. reflexivity.
Qed.

Lemma attrib_describe_array t name ncomps :
  let st := mkTag data_array START (describe_array t name ncomps) in
  attrib st a_type = type_name t /\ attrib st a_name = name /\
  attrib st a_ncomps = print_int ncomps /\ attrib st a_format = binary_format.
Proof. repeat split. Qed.

(** [LO * Int] is the product when it fits an [int]. *)
Lemma lo_mul_small a b : INT_MIN <= a * b <= INT_MAX -> lo_mul a b = a * b.
Proof.
  intros H. unfold lo_mul. change (2 ^ 32) with (2 ^ (8 * Z.of_nat 4)).
  apply to_signed_mod; [discriminate|]. unfold INT_MIN, INT_MAX in H. cbn. lia.
Qed.

Lemma read_known_array_written t name nents ncomps arr rest :
  Forall valid arr -> Z.of_nat (length arr * ser_width) < 2 ^ 60 ->
  nents * ncomps = Z.of_nat (length arr) -> Z.of_nat (length arr) <= INT_MAX ->
  read_known_array use_zlib rcpu (T := T) t name nents ncomps cpu_le use_zlib
    (write_array use_zlib cpu_le t name ncomps arr ++ rest) = Ok arr rest.
Proof.
  intros Hv Hn Hs Hi. destruct (attrib_describe_array t name ncomps) as (E1 & E2 & E3 & _).
  unfold read_known_array, write_array. cbn [app read_xml_tag bind elem_name tag_type].
  rewrite E1, E2, E3, !string_eqb_refl. cbn [check tag_kind_eqb bind].
  rewrite lo_mul_small, Hs by (unfold INT_MIN in *; lia).
  unfold bind at 1. rewrite read_array_written by assumption. reflexivity.
Qed.

(** C11: round trip of a data array.  What [write_array] writes for an
    array of valid values (less than [2^60] bytes, and no more values
    than an [int] counts) is read back by
    [read_known_array] with the same name, type and number of components,
    with or without zlib, on a CPU of either byte order, the file giving
    the writer's: the same values, and the stream is left after the
    array's end tag. *)
Theorem read_known_array_write_array t name nents ncomps arr rest :
  Forall valid arr -> Z.of_nat (length arr * ser_width) < 2 ^ 60 ->
  nents * ncomps = Z.of_nat (length arr) -> Z.of_nat (length arr) <= INT_MAX ->
  read_known_array use_zlib rcpu (T := T) t name nents ncomps cpu_le use_zlib
    (write_array use_zlib cpu_le t name ncomps arr ++ rest) = Ok arr rest.
Proof. intros; eapply read_known_array_written; eassumption. Qed.

End ArrayRoundTrip.

(** ** Tags *)

(** [vectors_2d_to_3d] and [vectors_3d_to_2d] (outside [src/]): a third
    component 0 added to, or dropped from, every vector. *)
Fixpoint vectors_2d_to_3d (a : list Real) : list Real :=
  match a with
  | x :: y :: r => x :: y :: real_zero :: vectors_2d_to_3d r
  | _ => []
  end.

Fixpoint vectors_3d_to_2d (a : list Real) : list Real :=
  match a with
  | x :: y :: _ :: r => x :: y :: vectors_3d_to_2d r
  | _ => []
  end.

(** The array of a tag, by its type. *)
Inductive tag_array : Type :=
| ArrI8 (a : list (SInt 1))
| ArrI32 (a : list (SInt 4))
| ArrI64 (a : list (SInt 8))
| ArrF64 (a : list Real).

Definition tag_array_type (a : tag_array) : omega_type :=
  match a with
  | ArrI8 _ => OMEGA_H_I8
  | ArrI32 _ => OMEGA_H_I32
  | ArrI64 _ => OMEGA_H_I64
  | ArrF64 _ => OMEGA_H_F64
  end.

Definition tag_array_length (a : tag_array) : nat :=
  match a with
  | ArrI8 l => length l
  | ArrI32 l => length l
  | ArrI64 l => length l
  | ArrF64 l => length l
  end.

(** A tag of the mesh: [TagBase] with its name, number of components,
    whether [outflags()] has [OMEGA_H_DO_VIZ], and its array. *)
Record vtag : Type := mkVtag {
  vt_name : String.string;
  vt_ncomps : Z;
  vt_viz : bool;
  vt_data : tag_array
}.

Section Tags.
Context {B : Base64} {C : Compressor}.
(** The bytes of a [Real]. *)
Variables (use_zlib cpu_le : bool).

(** [write_tag(stream, tag, space_dim)] (lines 194-217): nothing for a
    tag without [OMEGA_H_DO_VIZ]; a [Real] tag with as many components
    as the space dimension 2 is written with a third component 0. *)
Definition write_tag (tag : vtag) (space_dim : Z) : list item :=
  if negb (vt_viz tag) then []
  else
    let name := vt_name tag in
    let ncomps := vt_ncomps tag in
    match vt_data tag with
    | ArrI8 a => write_array use_zlib cpu_le OMEGA_H_I8 name ncomps a
    | ArrI32 a => write_array use_zlib cpu_le OMEGA_H_I32 name ncomps a
    | ArrI64 a => write_array use_zlib cpu_le OMEGA_H_I64 name ncomps a
    | ArrF64 a =>
        if (space_dim =? 2) && (ncomps =? space_dim)
        then write_array use_zlib cpu_le OMEGA_H_F64 name 3 (vectors_2d_to_3d a)
        else write_array use_zlib cpu_le OMEGA_H_F64 name ncomps a
    end.

(** [read_tag(stream, mesh, ent_dim, ...)] (lines 219-254) on the tags
    [tags] of dimension [ent_dim], which has [nents] entities: [None] at
    the end of the list of arrays; otherwise the tag of that name is
    replaced ([remove_tag], then [add_tag] at the end with
    [OMEGA_H_DO_OUTPUT]). *)
Definition read_tag (nents : Z) (is_little_endian is_compressed : bool) (tags : list vtag)
    : comp xstream (option (list vtag)) :=
  st <- read_array_start_tag OMEGA_H_I8 ;;
  match st with
  | None => ret None
  | Some (type, name, ncomps) =>
      let size := lo_mul nents ncomps in
      data <- (match type with
               | OMEGA_H_I8 => a <- read_array use_zlib cpu_le size is_little_endian is_compressed ;; ret (ArrI8 a)
               | OMEGA_H_I32 => a <- read_array use_zlib cpu_le size is_little_endian is_compressed ;; ret (ArrI32 a)
               | OMEGA_H_I64 => a <- read_array use_zlib cpu_le size is_little_endian is_compressed ;; ret (ArrI64 a)
               | OMEGA_H_F64 => a <- read_array use_zlib cpu_le size is_little_endian is_compressed ;; ret (ArrF64 a)
               end) ;;
      read_array_end_tag ;;
      ret (Some (filter (fun t => negb (String.eqb (vt_name t) name)) tags
                 ++ [mkVtag name ncomps true data]))
  end.

(** [while (read_tag(...));]: each tag read consumes items of the
    stream, so its length bounds the iterations. *)
Fixpoint read_vtk_tags_loop (fuel : nat) (nents : Z) (is_little_endian is_compressed : bool)
    (tags : list vtag) : comp xstream (list vtag) :=
  match fuel with
  | O => fun _ => OutOfFuel
  | S f =>
      r <- read_tag nents is_little_endian is_compressed tags ;;
      match r with
      | None => ret tags
      | Some tags' => read_vtk_tags_loop f nents is_little_endian is_compressed tags'
      end
  end.

Definition read_vtk_tags (nents : Z) (is_little_endian is_compressed : bool) (tags : list vtag)
    : comp xstream (list vtag) :=
  fun s => read_vtk_tags_loop (S (length s)) nents is_little_endian is_compressed tags s.

End Tags.

(** ** Round trip of a tag *)

Lemma type_of_name_type_name dflt t : type_of_name dflt (type_name t) = t.
Proof. destruct t; reflexivity. Qed.

Lemma stoi_print_int z : INT_MIN <= z <= INT_MAX -> stoi (print_int z) = Some z.
Proof.
  intros Hz. unfold stoi. rewrite <- (string_append_nil_r (print_int z)).
  unfold INT_MIN, INT_MAX in Hz.
  rewrite parse_int_print by (reflexivity || lia).
  unfold INT_MIN, INT_MAX. rewrite (proj2 (Z.leb_le _ _)), (proj2 (Z.leb_le _ _)) by lia. reflexivity.
Qed.

Lemma read_array_start_tag_written dflt t name ncomps rest :
  INT_MIN <= ncomps <= INT_MAX ->
  read_array_start_tag dflt (ITag (mkTag data_array START (describe_array t name ncomps)) :: rest) =
  Ok (Some (t, name, ncomps)) rest.
Proof.
  intros Hn. destruct (attrib_describe_array t name ncomps) as (E1 & E2 & E3 & E4).
  unfold read_array_start_tag. cbn [read_xml_tag bind elem_name tag_type].
  rewrite string_eqb_refl. cbn [tag_kind_eqb andb negb].
  rewrite E1, E2, E3, E4, type_of_name_type_name, stoi_print_int by exact Hn. reflexivity.
Qed.

(** Which values a tag array may hold: integers in the range of their type. *)
Definition tag_values_ok (d : tag_array) : Prop :=
  match d with
  | ArrI8 a => Forall (sint_valid 1) a
  | ArrI32 a => Forall (sint_valid 4) a
  | ArrI64 a => Forall (sint_valid 8) a
  | ArrF64 a => Forall real_valid a
  end.

(** The tag as [write_tag] puts it in the file: a 2D vector field of
    [Real]s gets three components. *)
Definition written_tag (t : vtag) (space_dim : Z) : vtag :=
  match vt_data t with
  | ArrF64 a =>
      if (space_dim =? 2) && (vt_ncomps t =? space_dim)
      then mkVtag (vt_name t) 3 true (ArrF64 (vectors_2d_to_3d a))
      else mkVtag (vt_name t) (vt_ncomps t) true (ArrF64 a)
  | d => mkVtag (vt_name t) (vt_ncomps t) true d
  end.

(** A tag that can be written and read back on [nents] entities: its
    number of components is an [int], its values are in range, it has
    [nents * ncomps] of them and no more than an [int] ([LO]) counts. *)
Definition tag_ok (nents : Z) (t : vtag) : Prop :=
  INT_MIN <= vt_ncomps t <= INT_MAX /\ tag_values_ok (vt_data t) /\
  Z.of_nat (tag_array_length (vt_data t)) = nents * vt_ncomps t /\
  Z.of_nat (tag_array_length (vt_data t)) <= INT_MAX.

Definition tag_values_okb (d : tag_array) : bool :=
  match d with
  | ArrI8 a => forallb (sint_validb 1) a
  | ArrI32 a => forallb (sint_validb 4) a
  | ArrI64 a => forallb (sint_validb 8) a
  | ArrF64 a => forallb real_validb a
  end.

Definition tag_okb (nents : Z) (t : vtag) : bool :=
  (INT_MIN <=? vt_ncomps t) && (vt_ncomps t <=? INT_MAX) && tag_values_okb (vt_data t) &&
  (Z.of_nat (tag_array_length (vt_data t)) =? nents * vt_ncomps t) &&
  (Z.of_nat (tag_array_length (vt_data t)) <=? INT_MAX).

Lemma tag_okb_spec nents t : tag_okb nents t = true -> tag_ok nents t.
Proof.
  unfold tag_okb, tag_ok. rewrite !andb_true_iff, !Z.leb_le, Z.eqb_eq.
  intros ((((H1 & H2) & H3) & H4) & H5). repeat split; auto.
  unfold tag_values_ok, tag_values_okb in *. destruct (vt_data t);
    eapply forallb_Forall; eauto using sint_validb_spec, real_validb_spec.
Qed.

Lemma tags_okb_spec nents sd ts :
  forallb (fun t => implb (vt_viz t) (tag_okb nents (written_tag t sd))) ts = true ->
  Forall (fun t => vt_viz t = true -> tag_ok nents (written_tag t sd)) ts.
Proof.
  apply forallb_Forall. intros t Ht Hv. rewrite Hv in Ht. apply tag_okb_spec, Ht.
Qed.

(** The tags of a dimension after [read_tag] has read a written tag [t]. *)
Definition tag_update (sd : Z) (tags : list vtag) (t : vtag) : list vtag :=
  if vt_viz t
  then filter (fun u => negb (String.eqb (vt_name u) (vt_name t))) tags ++ [written_tag t sd]
  else tags.

Definition count_viz (ts : list vtag) : nat := length (filter vt_viz ts).

Section TagRoundTrip.
Context {B : Base64} {BL : Base64Laws} {C : Compressor} {CL : CompressorLaws}.
Variables (use_zlib cpu_le rcpu : bool).

(** What [write_tag] writes for a tag with [OMEGA_H_DO_VIZ]: the array of
    the written tag. *)
Lemma write_tag_written t sd :
  vt_viz t = true ->
  write_tag use_zlib cpu_le t sd =
  let w := written_tag t sd in
  match vt_data w with
  | ArrI8 a => write_array use_zlib cpu_le OMEGA_H_I8 (vt_name w) (vt_ncomps w) a
  | ArrI32 a => write_array use_zlib cpu_le OMEGA_H_I32 (vt_name w) (vt_ncomps w) a
  | ArrI64 a => write_array use_zlib cpu_le OMEGA_H_I64 (vt_name w) (vt_ncomps w) a
  | ArrF64 a => write_array use_zlib cpu_le OMEGA_H_F64 (vt_name w) (vt_ncomps w) a
  end.
Proof.
  intros Hv. unfold write_tag, written_tag. rewrite Hv. cbn [negb].
  destruct (vt_data t); [reflexivity..|]. destruct (_ && _); reflexivity.
Qed.

Lemma read_typed {T} {S : Serial T} {valid} {L : SerialLaws T valid} {A}
    (f : list T -> A) (a : list T) size rest :
  Forall valid a -> size = Z.of_nat (length a) -> Z.of_nat (length a * ser_width) < 2 ^ 60 ->
  bind (read_array use_zlib rcpu (T := T) size cpu_le use_zlib) (fun x => ret (f x))
    (IText (encode_array use_zlib cpu_le a) :: rest) = Ok (f a) rest.
Proof.
  intros Hv -> Hn. erewrite bind_ok by (apply (read_array_written use_zlib cpu_le rcpu (L := L)); assumption). reflexivity.
Qed.

Lemma read_array_end_tag_written rest :
  read_array_end_tag (ITag (mkTag data_array END []) :: rest) = Ok tt rest.
Proof. reflexivity. Qed.

Lemma written_tag_eta t sd :
  written_tag t sd = mkVtag (vt_name t) (vt_ncomps (written_tag t sd)) true (vt_data (written_tag t sd)).
Proof. unfold written_tag. destruct (vt_data t); try reflexivity. destruct (_ && _); reflexivity. Qed.

Lemma read_tag_written nents sd t tags rest :
  vt_viz t = true -> tag_ok nents (written_tag t sd) ->
  read_tag use_zlib rcpu nents cpu_le use_zlib tags (write_tag use_zlib cpu_le t sd ++ rest) =
  Ok (Some (filter (fun u => negb (String.eqb (vt_name u) (vt_name t))) tags ++ [written_tag t sd])) rest.
Proof.
  intros Hviz Hok. rewrite write_tag_written by exact Hviz. rewrite written_tag_eta.
  destruct Hok as (Hn & Hv & Hs & Hb).
  set (w := written_tag t sd) in *. clearbody w. destruct w as [nm nc vz d]. cbn in Hn, Hv, Hs, Hb |- *.
  unfold read_tag.
  destruct d as [a|a|a|a]; unfold write_array; cbn [app]; cbn in Hv, Hs, Hb;
    (erewrite bind_ok by (apply read_array_start_tag_written; exact Hn));
    cbn [tag_array_type]; rewrite lo_mul_small by (unfold INT_MIN, INT_MAX in *; lia);
    (erewrite bind_ok by
      (first [ apply (read_typed (T := SInt 1) (L := sint_laws 1 ltac:(discriminate)))
             | apply (read_typed (T := SInt 4) (L := sint_laws 4 ltac:(discriminate)))
             | apply (read_typed (T := SInt 8) (L := sint_laws 8 ltac:(discriminate)))
             | apply (read_typed (T := Real) (L := real_laws)) ];
       [exact Hv | lia | cbn; unfold INT_MAX in *; lia]));
    (erewrite bind_ok by apply read_array_end_tag_written); reflexivity.
Qed.

(** C12: round trip of a tag.  A tag with [OMEGA_H_DO_VIZ] written by
    [write_tag] is read back by [read_tag] as the tag that was written:
    same name and values, except that a [Real] field with as many
    components as the space dimension 2 comes back with three components
    (the third 0); it replaces the tag of the same name and is added
    last. *)
Theorem read_tag_write_tag nents sd t tags rest :
  vt_viz t = true -> tag_ok nents (written_tag t sd) ->
  read_tag use_zlib rcpu nents cpu_le use_zlib tags (write_tag use_zlib cpu_le t sd ++ rest) =
  Ok (Some (filter (fun u => negb (String.eqb (vt_name u) (vt_name t))) tags ++ [written_tag t sd])) rest.
Proof. intros; eapply read_tag_written; eassumption. Qed.


(** The end tag that closes a list of arrays ([</PointData>],
    [</CellData>]) stops [read_tag]. *)
Lemma read_tag_end nents tags e rest :
  tag_type e = END ->
  read_tag use_zlib rcpu nents cpu_le use_zlib tags (ITag e :: rest) = Ok None rest.
Proof.
  intros He. destruct e as [n k a]. cbn in He. subst k.
  unfold read_tag, read_array_start_tag, bind. cbn [read_xml_tag tag_type tag_kind_eqb].
  rewrite andb_false_r. reflexivity.
Qed.

Lemma write_tag_length t sd : vt_viz t = true -> length (write_tag use_zlib cpu_le t sd) = 3%nat.
Proof. intros Hv. rewrite write_tag_written by exact Hv. cbv zeta. destruct (vt_data (written_tag t sd)); reflexivity. Qed.

Lemma write_tag_hidden t sd : vt_viz t = false -> write_tag use_zlib cpu_le t sd = [].
Proof. intros Hv. unfold write_tag. rewrite Hv. reflexivity. Qed.

Lemma read_vtk_tags_loop_written fuel nents sd ts tags e rest :
  Forall (fun t => vt_viz t = true -> tag_ok nents (written_tag t sd)) ts ->
  (count_viz ts < fuel)%nat -> tag_type e = END ->
  read_vtk_tags_loop use_zlib rcpu fuel nents cpu_le use_zlib tags
    (concat (map (fun t => write_tag use_zlib cpu_le t sd) ts) ++ ITag e :: rest) =
  Ok (fold_left (tag_update sd) ts tags) rest.
Proof.
  intros Hts. revert fuel tags. induction Hts as [|t ts Ht _ IH]; intros fuel tags Hf He.
  - destruct fuel as [|f]; [cbn in Hf; lia|]. cbn [read_vtk_tags_loop concat map app fold_left].
    erewrite bind_ok by (apply read_tag_end; exact He). reflexivity.
  - cbn [concat map fold_left]. unfold count_viz in Hf. cbn [filter] in Hf.
    destruct (vt_viz t) eqn:Hv.
    + destruct fuel as [|f]; [cbn in Hf; lia|]. cbn [length] in Hf.
      cbn [read_vtk_tags_loop]. rewrite <- app_assoc.
      erewrite bind_ok by (apply read_tag_written; auto).
      unfold tag_update at 2. rewrite Hv. apply IH; [unfold count_viz; lia | exact He].
    + rewrite write_tag_hidden by exact Hv. cbn [app].
      unfold tag_update at 2. rewrite Hv. apply IH; [exact Hf | exact He].
Qed.

Lemma written_tags_length sd ts :
  length (concat (map (fun t => write_tag use_zlib cpu_le t sd) ts)) = (3 * count_viz ts)%nat.
Proof.
  unfold count_viz. induction ts as [|t ts IH]; [reflexivity|].
  cbn [concat map filter]. rewrite length_app, IH.
  destruct (vt_viz t) eqn:Hv.
  - rewrite write_tag_length by exact Hv. cbn [length]. lia.
  - rewrite write_tag_hidden by exact Hv. reflexivity.
Qed.

Lemma read_vtk_tags_written nents sd ts tags e rest :
  Forall (fun t => vt_viz t = true -> tag_ok nents (written_tag t sd)) ts -> tag_type e = END ->
  read_vtk_tags use_zlib rcpu nents cpu_le use_zlib tags
    (concat (map (fun t => write_tag use_zlib cpu_le t sd) ts) ++ ITag e :: rest) =
  Ok (fold_left (tag_update sd) ts tags) rest.
Proof.
  intros Hts He. unfold read_vtk_tags. apply read_vtk_tags_loop_written; [exact Hts | | exact He].
  rewrite length_app, written_tags_length. cbn [length]. lia.
Qed.

(** C14: the tags of one dimension, written one after the other by
    [write_tag] and closed by an end tag, are read back by the loop
    [while (read_tag(...));] of [read_vtu]: each tag with
    [OMEGA_H_DO_VIZ] replaces the tag of its name, in the order written,
    the others are not in the file; the loop stops after the end tag. *)
Theorem read_vtk_tags_write_tags nents sd ts tags e rest :
  Forall (fun t => vt_viz t = true -> tag_ok nents (written_tag t sd)) ts -> tag_type e = END ->
  read_vtk_tags use_zlib rcpu nents cpu_le use_zlib tags
    (concat (map (fun t => write_tag use_zlib cpu_le t sd) ts) ++ ITag e :: rest) =
  Ok (fold_left (tag_update sd) ts tags) rest.
Proof. intros; eapply read_vtk_tags_written; eassumption. Qed.

End TagRoundTrip.

(** ** Concrete arrays and tags *)

Section Examples.
Local Open Scope string_scope.

(** An [Int32] array [1 2] as a build without zlib writes it: the header
    is the 8-byte size [8], then the 8 bytes of data, each in base64. *)
Example write_array_text :
  write_array (B := Rfc4648.rfc4648) (C := Stored.stored) false true OMEGA_H_I32 "x" 1
    [mkSInt (n := 4) 1; mkSInt 2] =
  [ITag (mkTag data_array START [("type", "Int32"); ("Name", "x");
                                 ("NumberOfComponents", "1"); ("format", "binary")]);
   IText "CAAAAAAAAAA=AQAAAAIAAAA=";
   ITag (mkTag data_array END [])].
Proof. vm_compute. reflexivity. Qed.

Lemma read_known_array_write_array_witness :
  read_known_array (B := Rfc4648.rfc4648) (C := Stored.stored) true false OMEGA_H_I32 "x" 2 1 true true
    (write_array (B := Rfc4648.rfc4648) (C := Stored.stored) true true OMEGA_H_I32 "x" 1
       [mkSInt (n := 4) 1; mkSInt (-2)] ++ []) =
  Ok [mkSInt (n := 4) 1; mkSInt (-2)] [].
Proof.
  apply (read_known_array_write_array (BL := Rfc4648.rfc4648_laws) (CL := Stored.stored_laws)
           true true false (T := SInt 4) (L := sint_laws 4 ltac:(discriminate))).
  - repeat constructor; unfold sint_valid; cbn; lia.
  - vm_compute. reflexivity.
  - reflexivity.
  - vm_compute. discriminate.
Defined.

(** A 2D vector field of [Real]s, written on a little-endian CPU and
    read back on a big-endian one: it comes back with three components. *)
Definition ex_velocity : vtag :=
  mkVtag "velocity" 2 true (ArrF64 [mkReal 1; mkReal 2; mkReal 3; mkReal 4]).

Lemma read_tag_write_tag_witness :
  read_tag (B := Rfc4648.rfc4648) (C := Stored.stored) true false 2 true true []
    (write_tag (B := Rfc4648.rfc4648) (C := Stored.stored) true true ex_velocity 2 ++ []) =
  Ok (Some ([] ++ [mkVtag "velocity" 3 true
                    (ArrF64 [mkReal 1; mkReal 2; real_zero; mkReal 3; mkReal 4; real_zero])])) [].
Proof.
  apply (read_tag_write_tag (BL := Rfc4648.rfc4648_laws) (CL := Stored.stored_laws) true true false 2 2
           ex_velocity [] []).
  - reflexivity.
  - unfold tag_ok. cbn. split; [cbn; lia|]. split; [repeat constructor; cbn; lia|].
    split; [reflexivity|]. vm_compute. discriminate.
Defined.

(** A hidden tag: [write_tag] skips it. *)
Definition ex_hidden : vtag := mkVtag "owner_copy" 1 false (ArrI32 [mkSInt 0; mkSInt 1]).

Lemma read_vtk_tags_write_tags_witness :
  read_vtk_tags (B := Rfc4648.rfc4648) (C := Stored.stored) true false 2 true true []
    (concat (map (fun t => write_tag (B := Rfc4648.rfc4648) (C := Stored.stored) true true t 2)
                 [ex_velocity; ex_hidden]) ++ ITag (mkTag "PointData" END []) :: []) =
  Ok (fold_left (tag_update 2) [ex_velocity; ex_hidden] []) [].
Proof.
  apply (read_vtk_tags_write_tags (BL := Rfc4648.rfc4648_laws) (CL := Stored.stored_laws) true true false).
  - apply tags_okb_spec. vm_compute. reflexivity.
  - reflexivity.
Defined.

End Examples.
