(* ===== verification/VtkReadTyped.v ===== *)
(** What the VTK reader of src/src/vtk.cpp returns on any file.

    The round trips of VtkArrays.v and Vtu.v are about files the writer
    made.  Here the input is any stream: a file edited by hand, cut
    short, or written by another program.  Whatever it holds, when
    [read_array] returns, the array has exactly the [size] elements it
    was asked for and each is a value of its type; when [read_tag] and
    the tag loop of [read_vtu] return, every tag they add has an [int]
    number of components and as many values of its type as the [LO]
    product [nents * ncomps] counts.  What makes this so is the
    allocation [HostWrite<T>(size)] of [read_array] (line 169 of vtk.cpp),
    the range check of [std::stoi], and decoders that produce bytes
    ([b64_decode_bytes], [z_uncompress_bytes]).

    The byte-count [CHECK] (line 168) is made with C++'s machine
    integers: the size is the 32-bit [LO] product (line 231) and
    [std::size_t(size) * sizeof(T)] wraps modulo [2^64].  So that count
    is not always [nents * ncomps]: [read_tag_lo_overflow] reads a tag of
    65536 components on 65536 entities that holds no value, and
    [read_tag_negative_ncomps] one with a negative number of
    components.  These are the tags [read_tag] hands to
    [Mesh::add_tag]; the checks [add_tag] makes of its own (in the mesh
    code, outside src/src/vtk.cpp and not described by the spec) are not
    modelled, and may reject them. *)

From Stdlib Require Import ZArith List Lia Bool.
From Stdlib Require String.
From S2P Require Import Prelude Text Bytes Codecs VtkArrays.
Import ListNotations.
Import String.StringSyntax.

Local Open Scope Z_scope.

(** ** Decoding bytes gives values of the type *)

Lemma Forall_skipn_ {A} (P : A -> Prop) n l : Forall P l -> Forall P (skipn n l).
Proof. revert l. induction n; intros [|x l] H; cbn; auto. inversion H; subst. auto. Qed.

Lemma chunks_length w n bs : length (chunks w n bs) = n.
Proof. revert bs. induction n; intros bs; cbn; [reflexivity | rewrite IHn; reflexivity]. Qed.

Lemma chunks_short w n bs :
  Forall (fun b => is_byte b = true) bs ->
  Forall (fun c => (length c <= w)%nat /\ Forall (fun b => is_byte b = true) c) (chunks w n bs).
Proof.
  revert bs. induction n as [|n IH]; intros bs Hb; cbn; constructor.
  - split; [rewrite length_firstn; lia | apply Rfc4648.Forall_firstn_, Hb].
  - apply IH, Forall_skipn_, Hb.
Qed.

Lemma get_forall {A} (P : A -> Prop) l i d : Forall P l -> P d -> P (get l i d).
Proof.
  intros Hl Hd. unfold get. destruct (nth_in_or_default i l d) as [Hin | ->]; [|exact Hd].
  rewrite Forall_forall in Hl. auto.
Qed.

Lemma Forall_filter_ {A} (P : A -> Prop) f l : Forall P l -> Forall P (filter f l).
Proof. induction 1; cbn; [constructor | destruct (f x); auto]. Qed.

Section Decode.
Context {T : Type} {S : Serial T} {valid : T -> Prop} {L : SerialLaws T valid}.

Lemma of_mem_valid c bs :
  (length bs <= ser_width)%nat -> Forall (fun b => is_byte b = true) bs -> valid (of_mem c bs).
Proof.
  intros Hl Hb. unfold of_mem. apply ser_short_valid; destruct c;
    rewrite ?length_rev; auto using Forall_rev'.
Qed.

Lemma swap_bytes_valid x : valid (swap_bytes x).
Proof.
  unfold swap_bytes. apply ser_short_valid;
    [rewrite length_rev, ser_le_length; lia | apply Forall_rev', ser_le_bytes].
Qed.

(** The values [read_array] makes of a buffer of bytes: as many as asked,
    each of the type, in either byte order. *)
Lemma decoded_typed c f n bs :
  Forall (fun b => is_byte b = true) bs ->
  length (swap_if_needed c f (map (of_mem c) (chunks ser_width n bs))) = n /\
  Forall valid (swap_if_needed c f (map (of_mem c) (chunks ser_width n bs))).
Proof.
  intros Hb. unfold swap_if_needed. destruct (Bool.eqb f c).
  - rewrite length_map, chunks_length. split; [reflexivity|].
    apply Forall_map. eapply Forall_impl; [|apply (chunks_short _ n bs Hb)].
    intros ch [Hl Hc]. apply of_mem_valid; assumption.
  - rewrite !length_map, chunks_length. split; [reflexivity|].
    apply Forall_map, Forall_forall. intros. apply swap_bytes_valid.
Qed.
End Decode.

Lemma parse_int_range s v r : parse_int s = Some (v, r) -> INT_MIN <= v <= INT_MAX.
Proof.
  unfold parse_int. destruct (read_sign (skip_ws s)) as [sg s2].
  destruct (take_digits s2) as [[|d ds] s3]; [discriminate|].
  destruct (_ && _) eqn:E; [|discriminate]. intros H. injection H as <- _.
  apply andb_true_iff in E as [E1 E2]. apply Z.leb_le in E1, E2. lia.
Qed.

(** ** Reading an array or a tag from any stream *)

Section ReadTyped.
Context {B : Base64} {BL : Base64Laws} {C : Compressor} {CL : CompressorLaws}.
Variables (use_zlib cpu_le : bool).

(** Whatever the stream, an array [read_array] returns has exactly
    [size] elements ([HostWrite<T>(size)]; a negative [size] stops the
    reader), each a value of its type. *)
Lemma read_array_typed {T} {S : Serial T} {valid} {L : SerialLaws T valid} size ile ic s a s' :
  read_array use_zlib cpu_le (T := T) size ile ic s = Ok a s' ->
  length a = Z.to_nat size /\ Forall valid a.
Proof.
  intros H. unfold read_array in H.
  apply bind_inv in H as (e & s1 & _ & H).
  apply bind_inv in H as ([[ub cb] enc] & s2 & _ & H).
  apply bind_inv in H as (u & s3 & _ & H).
  apply bind_inv in H as (u' & s3' & _ & H).
  apply bind_inv in H as (data & s4 & Hd & H). injection H as <- _.
  assert (Hb : Forall (fun b => is_byte b = true) data).
  { destruct (use_zlib && ic).
    - destruct (z_uncompress _ _) as [d|] eqn:Ez; [|discriminate].
      apply bind_inv in Hd as (v & s5 & _ & Hd). injection Hd as <- _.
      exact (z_uncompress_bytes _ _ _ Ez).
    - injection Hd as <- _. apply b64_decode_bytes. }
  exact (decoded_typed cpu_le ile (Z.to_nat size) data Hb).
Qed.

(** A tag as [read_tag] may return it for [nents] entities: an [int]
    number of components and as many values of its type as the [LO]
    product [nents * ncomps] says (none when it is negative).  When the
    product fits an [int] this is [nents * ncomps] ([typed_count]). *)
Definition tag_typed (nents : Z) (t : vtag) : Prop :=
  INT_MIN <= vt_ncomps t <= INT_MAX /\ tag_values_ok (vt_data t) /\
  tag_array_length (vt_data t) = Z.to_nat (lo_mul nents (vt_ncomps t)).

Lemma typed_count nents t :
  tag_typed nents t -> 0 <= nents * vt_ncomps t <= INT_MAX ->
  Z.of_nat (tag_array_length (vt_data t)) = nents * vt_ncomps t.
Proof.
  intros (_ & _ & Hl) Hr. rewrite Hl, lo_mul_small by (unfold INT_MIN; lia). lia.
Qed.

Lemma read_array_start_tag_range dflt s ty name ncomps s' :
  read_array_start_tag dflt s = Ok (Some (ty, name, ncomps)) s' -> INT_MIN <= ncomps <= INT_MAX.
Proof.
  unfold read_array_start_tag. intros H. apply bind_inv in H as (st & s1 & _ & H).
  destruct (negb _).
  - apply bind_inv in H as (u & s2 & _ & H). discriminate.
  - unfold stoi in H. destruct (parse_int _) as [[v r]|] eqn:E; [|discriminate].
    apply bind_inv in H as (u & s2 & _ & H). injection H as _ _ <- _.
    exact (parse_int_range _ _ _ E).
Qed.

Ltac typed_array T L :=
  match goal with
  | H : bind (read_array _ _ _ _ _) _ _ = Ok _ _ |- _ =>
      let a := fresh "a" in let Ha := fresh "Ha" in let Hr := fresh "Hr" in
      apply bind_inv in H as (a & ?s & Ha & Hr); injection Hr as <- _;
      destruct (read_array_typed (T := T) (L := L) _ _ _ _ _ _ Ha); cbn
  end.

Lemma read_tag_typed nents ile ic tags s tags' s' :
  read_tag use_zlib cpu_le nents ile ic tags s = Ok (Some tags') s' ->
  Forall (fun t => In t tags \/ tag_typed nents t) tags'.
Proof.
  unfold read_tag. intros H. apply bind_inv in H as (st & s1 & Hst & H).
  destruct st as [[[ty name] ncomps]|]; [|discriminate].
  apply read_array_start_tag_range in Hst.
  apply bind_inv in H as (data & s2 & Hd & H).
  apply bind_inv in H as (u & s3 & _ & H). injection H as <- _.
  apply Forall_app. split.
  - apply Forall_forall. intros t Ht. left. apply filter_In in Ht as [Ht _]. exact Ht.
  - constructor; [right | constructor]. unfold tag_typed. cbn [vt_ncomps vt_data].
    split; [exact Hst|].
    destruct ty;
      [ typed_array (SInt 1) (sint_laws 1 ltac:(discriminate))
      | typed_array (SInt 4) (sint_laws 4 ltac:(discriminate))
      | typed_array (SInt 8) (sint_laws 8 ltac:(discriminate))
      | typed_array Real real_laws ]; split; assumption.
Qed.

Lemma read_vtk_tags_loop_typed fuel nents ile ic : forall tags s tags' s',
  read_vtk_tags_loop use_zlib cpu_le fuel nents ile ic tags s = Ok tags' s' ->
  Forall (fun t => In t tags \/ tag_typed nents t) tags'.
Proof.
  induction fuel as [|f IH]; intros tags s tags' s' H; cbn in H; [discriminate|].
  apply bind_inv in H as (r & s1 & Hr & H). destruct r as [tags1|].
  - apply read_tag_typed in Hr. apply IH in H.
    eapply Forall_impl; [|exact H]. intros t [Ht | Ht]; [|right; exact Ht].
    rewrite Forall_forall in Hr. apply Hr, Ht.
  - injection H as <- _. apply Forall_forall. intros t Ht. left. exact Ht.
Qed.

(** C15: the tag loop of [read_vtu] returns well-typed tags from any file.
    Whatever the stream holds, when [read_vtk_tags] returns, every tag of
    its result was already there or was read from the stream; and a tag
    read from the stream has an [int] number of components and exactly
    as many values of its type as the [LO] product [nents * ncomps]
    counts: a file cannot give a tag values out of the range of their
    type, nor more or fewer values than that product. *)
Theorem read_vtk_tags_typed nents ile ic tags s tags' s' :
  read_vtk_tags use_zlib cpu_le nents ile ic tags s = Ok tags' s' ->
  Forall (fun t => In t tags \/ tag_typed nents t) tags'.
Proof. apply read_vtk_tags_loop_typed. Qed.

End ReadTyped.

(** ** Files that defeat the size check

    [read_tag] computes [size = mesh->nents(ent_dim) * ncomps] in [LO]
    (line 231) from a [NumberOfComponents] the file gives and never
    checks: the product can wrap, and the byte-count [CHECK] of
    [read_array] then compares against the wrapped size. *)

Section Examples.
Local Open Scope string_scope.

(** An [Int8] [DataArray] with no values, as [write_array] writes it
    without zlib on a little-endian CPU. *)
Definition empty_array (ncomps : Z) : list item :=
  write_array (B := Rfc4648.rfc4648) (C := Stored.stored) false true OMEGA_H_I8 "f" ncomps
    (@nil (SInt 1)).

(** The byte-count check does not catch a [nents * ncomps] that
    overflows an [int].  On 65536 entities, a file declaring 65536
    components ([65536 * 65536 = 2^32], which wraps to 0) and no values
    passes [read_array], and [read_tag] passes [add_tag] a tag of 65536
    components holding no value at all. *)
Example read_tag_lo_overflow :
  read_tag (B := Rfc4648.rfc4648) (C := Stored.stored) false true 65536 true false []
    (empty_array 65536) =
  Ok (Some [mkVtag "f" 65536 true (ArrI8 [])]) [] /\
  lo_mul 65536 65536 = 0 /\ 65536 * 65536 <> 0.
Proof. split; [vm_compute; reflexivity | split; [reflexivity | discriminate]]. Qed.

(** A negative number of components passes too: on 2 entities,
    [NumberOfComponents = INT_MIN] makes [2 * INT_MIN = -2^32], which
    wraps to 0, and the tag is added with [-2^31] components. *)
Example read_tag_negative_ncomps :
  read_tag (B := Rfc4648.rfc4648) (C := Stored.stored) false true 2 true false []
    (empty_array INT_MIN) =
  Ok (Some [mkVtag "f" INT_MIN true (ArrI8 [])]) [].
Proof. vm_compute. reflexivity. Qed.

Lemma read_vtk_tags_typed_witness :
  Forall (fun t => In t [] \/ tag_typed 65536 t) [mkVtag "f" 65536 true (ArrI8 [])].
Proof.
  apply (read_vtk_tags_typed (BL := Rfc4648.rfc4648_laws) (CL := Stored.stored_laws)
           false true 65536 true false []
           (empty_array 65536 ++ [ITag (mkTag "PointData" END [])]) _ []).
  vm_compute. reflexivity.
Defined.
End Examples.
