(* ===== verification/Vtu.v ===== *)
(** One VTU file of src/src/vtk.cpp: [write_vtu] writes a mesh's cells
    of one dimension, its vertex coordinates and the tags of vertices
    and cells; [read_vtu] reads such a file back into a mesh.

    - The writer's mesh is the record [vmesh]: what [write_vtu] asks of
      [Mesh] (its dimension, the size of its communicator, per dimension
      the number of entities, [ask_verts_of], [ask_owners] and the tags
      in order).  [get_tag<T>] of a tag that is missing or of another
      type fails; [write_vtu] is then [None].
    - The reader's mesh is the record [rmesh]: the dimension read, the
      cell-to-vertex array and vertex globals handed to
      [build_from_elems2verts], and the tags of vertices and of cells
      after the reader's [add_tag] and [remove_tag] calls.  The tags that
      [build_from_elems2verts] itself attaches are outside [src/] and are
      not modelled: the vertex tags start from the [coordinates] tag the
      reader adds, the cell tags from none.
    - The communicator is the record [comm]: its size and the values the
      other ranks contribute to [allreduce(dim, OMEGA_H_MAX)]. *)

From Stdlib Require Import ZArith List Lia Bool.
From Stdlib Require String.
From S2P Require Import Prelude Text Bytes Codecs VtkArrays.
Import ListNotations.
Import String.StringSyntax.

Local Open Scope Z_scope.

(** ** Names *)

Section Names.
Local Open Scope string_scope.
Definition vtkfile : String.string := "VTKFile".
Definition unstructured_grid : String.string := "UnstructuredGrid".
Definition piece : String.string := "Piece".
Definition cells_elem : String.string := "Cells".
Definition points_elem : String.string := "Points".
Definition point_data : String.string := "PointData".
Definition cell_data : String.string := "CellData".
Definition a_vtk_type : String.string := "type".
Definition a_byte_order : String.string := "byte_order".
Definition a_header_type : String.string := "header_type".
Definition a_compressor : String.string := "compressor".
Definition a_npoints : String.string := "NumberOfPoints".
Definition a_ncells : String.string := "NumberOfCells".
Definition little_endian : String.string := "LittleEndian".
Definition big_endian : String.string := "BigEndian".
Definition zlib_compressor : String.string := "vtkZLibDataCompressor".
Definition n_types : String.string := "types".
Definition n_connectivity : String.string := "connectivity".
Definition n_offsets : String.string := "offsets".
Definition n_local : String.string := "local".
Definition n_owner : String.string := "owner".
Definition n_coordinates : String.string := "coordinates".
Definition n_global : String.string := "global".
Definition vtkfile_msg : String.string := "st.elem_name == VTKFile".
Definition header_type_msg : String.string := "st.attribs[header_type] == Traits<std::size_t>::name()".
Definition piece_msg : String.string := "st.elem_name == Piece".
Definition dim_msg : String.string := "dim == 2 || dim == 3".
Definition elem_msg (name : String.string) : String.string :=
  String.append "xml::read_tag(stream).elem_name == " name.
End Names.

(** ** VTK cell types *)

Definition VTK_VERTEX : Z := 1.
Definition VTK_LINE : Z := 3.
Definition VTK_TRIANGLE : Z := 5.
Definition VTK_TETRA : Z := 10.

(** [vtk_types[DIMS]], indexed by the cell dimension. *)
Definition vtk_types : list Z := [VTK_VERTEX; VTK_LINE; VTK_TRIANGLE; VTK_TETRA].

(** ** The meshes *)

Record vmesh : Type := mkVMesh {
  vm_dim : Z;                        (* mesh->dim() *)
  vm_comm_size : Z;                  (* mesh->comm()->size() *)
  vm_nents : Z -> Z;                 (* mesh->nents(d) *)
  vm_verts_of : Z -> list (SInt 4);  (* mesh->ask_verts_of(d) *)
  vm_owners : Z -> list (SInt 4);    (* mesh->ask_owners(d).ranks *)
  vm_tags : Z -> list vtag           (* mesh->get_tag(d, i), i < ntags(d) *)
}.

Record rmesh : Type := mkRMesh {
  rm_dim : Z;
  rm_ev2v : list (SInt 4);
  rm_globals : list (SInt 8);
  rm_vert_tags : list vtag;
  rm_cell_tags : list vtag
}.

Record comm : Type := mkComm {
  comm_size : Z;
  comm_others : list Z
}.

(** [comm->allreduce(x, OMEGA_H_MAX)]. *)
Definition allreduce_max (c : comm) (x : Z) : Z := fold_left Z.max (comm_others c) x.

(** [mesh->has_tag(d, name)] and the tag [get_tag(d, name)] finds. *)
Definition find_tag (tags : list vtag) (name : String.string) : option vtag :=
  find (fun t => String.eqb (vt_name t) name) tags.

(** [get_tag<T>(d, name)]: the tag, when it exists and has type [T]. *)
Definition get_typed_tag (tags : list vtag) (name : String.string) (t : omega_type) : option vtag :=
  match find_tag tags name with
  | Some tag => if omega_type_eq_dec (tag_array_type (vt_data tag)) t then Some tag else None
  | None => None
  end.

(** [Read<LO>(n, start, stride)] and [Read<GO>(n, start, stride)]. *)
Definition lo_range (n start stride : Z) : list (SInt 4) :=
  map (fun i => mkSInt (start + stride * Z.of_nat i)) (seq 0 (Z.to_nat n)).

Definition go_range (n start stride : Z) : list (SInt 8) :=
  map (fun i => mkSInt (start + stride * Z.of_nat i)) (seq 0 (Z.to_nat n)).

Definition open_tag (name : String.string) : item := ITag (mkTag name START []).
Definition close_tag (name : String.string) : item := ITag (mkTag name END []).

(** ** Writing *)

Section Write.
Context {B : Base64} {C : Compressor}.
Variables (use_zlib cpu_le : bool).

(** [write_vtkfile_vtu_start_tag] (lines 293-308). *)
Definition write_vtkfile_vtu_start_tag : item :=
  ITag (mkTag vtkfile START
    ([(a_vtk_type, unstructured_grid);
      (a_byte_order, if cpu_le then little_endian else big_endian);
      (a_header_type, size_t_name)] ++
     (if use_zlib then [(a_compressor, zlib_compressor)] else []))).

(** [write_piece_start_tag] (lines 321-325). *)
Definition write_piece_start_tag (m : vmesh) (cell_dim : Z) : item :=
  ITag (mkTag piece START
    [(a_npoints, print_int (vm_nents m 0)); (a_ncells, print_int (vm_nents m cell_dim))]).

(** [write_connectivity] (lines 335-343); a simplex of dimension [d] has
    [d + 1] vertices ([simplex_degrees[d][VERT]]). *)
Definition write_connectivity (m : vmesh) (cell_dim : Z) : list item :=
  let n := vm_nents m cell_dim in
  let deg := cell_dim + 1 in
  write_array use_zlib cpu_le OMEGA_H_I8 n_types 1
    (repeat (mkSInt (n := 1) (get vtk_types (Z.to_nat cell_dim) 0)) (Z.to_nat n)) ++
  write_array use_zlib cpu_le OMEGA_H_I32 n_connectivity 1 (vm_verts_of m cell_dim) ++
  write_array use_zlib cpu_le OMEGA_H_I32 n_offsets 1 (lo_range n deg deg).

(** [write_locals_and_owners] (lines 365-377). *)
Definition write_locals_and_owners (m : vmesh) (ent_dim : Z) : list item :=
  write_array use_zlib cpu_le OMEGA_H_I32 n_local 1 (lo_range (vm_nents m ent_dim) 0 1) ++
  (if vm_comm_size m =? 1 then []
   else write_array use_zlib cpu_le OMEGA_H_I32 n_owner 1 (vm_owners m ent_dim)).

Definition write_tags (tags : list vtag) (space_dim : Z) : list item :=
  concat (map (fun t => write_tag use_zlib cpu_le t space_dim) tags).

Definition not_coords_or_global (t : vtag) : bool :=
  negb (String.eqb (vt_name t) n_coordinates) && negb (String.eqb (vt_name t) n_global).

(** [write_vtu(stream, mesh, cell_dim)] (lines 444-475). *)
Definition write_vtu (m : vmesh) (cell_dim : Z) : option (list item) :=
  let vtags := vm_tags m 0 in
  match get_typed_tag vtags n_coordinates OMEGA_H_F64 with
  | None => None
  | Some coords =>
      let global :=
        match find_tag vtags n_global with
        | None => Some []
        | Some _ =>
            match get_typed_tag vtags n_global OMEGA_H_I64 with
            | Some g => Some (write_tag use_zlib cpu_le g (vm_dim m))
            | None => None
            end
        end in
      match global with
      | None => None
      | Some gitems =>
          Some ([write_vtkfile_vtu_start_tag; open_tag unstructured_grid;
                 write_piece_start_tag m cell_dim; open_tag cells_elem] ++
                write_connectivity m cell_dim ++
                [close_tag cells_elem; open_tag points_elem] ++
                write_tag use_zlib cpu_le coords (vm_dim m) ++
                [close_tag points_elem; open_tag point_data] ++
                write_locals_and_owners m 0 ++ gitems ++
                write_tags (filter not_coords_or_global vtags) (vm_dim m) ++
                [close_tag point_data; open_tag cell_data] ++
                write_locals_and_owners m cell_dim ++
                write_tags (vm_tags m cell_dim) (vm_dim m) ++
                [close_tag cell_data; close_tag piece; close_tag unstructured_grid;
                 close_tag vtkfile])
      end
  end.

End Write.

(** ** Reading *)

Section Read.
Context {B : Base64} {C : Compressor}.
(** The build and the byte order of the CPU that reads. *)
Variables (use_zlib cpu_le : bool).

(** [read_vtkfile_vtu_start_tag] (lines 310-319): the file's byte order
    and whether it is compressed. *)
Definition read_vtkfile_vtu_start_tag : comp xstream (bool * bool) :=
  st <- read_xml_tag ;;
  check (String.eqb (elem_name st) vtkfile) vtkfile_msg ;;
  check (String.eqb (attrib st a_header_type) size_t_name) header_type_msg ;;
  ret (String.eqb (attrib st a_byte_order) little_endian, has_attrib st a_compressor).

(** [read_piece_start_tag] (lines 327-333). *)
Definition read_piece_start_tag : comp xstream (Z * Z) :=
  st <- read_xml_tag ;;
  check (String.eqb (elem_name st) piece) piece_msg ;;
  match stoi (attrib st a_npoints), stoi (attrib st a_ncells) with
  | Some nverts, Some ncells => ret (nverts, ncells)
  | _, _ => abort stoi_msg
  end.

(** [CHECK(xml::read_tag(stream).elem_name == name)]. *)
Definition read_elem (name : String.string) : comp xstream unit :=
  st <- read_xml_tag ;;
  check (String.eqb (elem_name st) name) (elem_msg name).

(** The dimension the first cell type gives ([-1] without cells). *)
Definition dim_of_types (types : list (SInt 1)) : Z :=
  match types with
  | [] => -1
  | t :: _ =>
      if sint_val t =? VTK_TRIANGLE then 2
      else if sint_val t =? VTK_TETRA then 3
      else -1
  end.

(** [read_connectivity] (lines 345-363): the dimension and [ev2v]. *)
Definition read_connectivity (c : comm) (ncells : Z) (is_le is_comp : bool)
    : comp xstream (Z * list (SInt 4)) :=
  types <- read_known_array use_zlib cpu_le (T := SInt 1) OMEGA_H_I8 n_types ncells 1 is_le is_comp ;;
  let dim := allreduce_max c (dim_of_types types) in
  check ((dim =? 2) || (dim =? 3)) dim_msg ;;
  ev2v <- read_known_array use_zlib cpu_le (T := SInt 4) OMEGA_H_I32 n_connectivity
            (ncells * (dim + 1)) 1 is_le is_comp ;;
  read_known_array use_zlib cpu_le (T := SInt 4) OMEGA_H_I32 n_offsets ncells 1 is_le is_comp ;;
  ret (dim, ev2v).

(** [read_locals_and_owners] (lines 379-386). *)
Definition read_locals_and_owners (c : comm) (nents : Z) (is_le is_comp : bool)
    : comp xstream unit :=
  read_known_array use_zlib cpu_le (T := SInt 4) OMEGA_H_I32 n_local nents 1 is_le is_comp ;;
  if comm_size c =? 1 then ret tt
  else read_known_array use_zlib cpu_le (T := SInt 4) OMEGA_H_I32 n_owner nents 1 is_le is_comp ;;
       ret tt.

(** [read_vtu(stream, comm, mesh)] (lines 477-515). *)
Definition read_vtu (c : comm) : comp xstream rmesh :=
  '(is_le, is_comp) <- read_vtkfile_vtu_start_tag ;;
  read_elem unstructured_grid ;;
  '(nverts, ncells) <- read_piece_start_tag ;;
  read_elem cells_elem ;;
  '(dim, ev2v) <- read_connectivity c ncells is_le is_comp ;;
  read_elem cells_elem ;;
  read_elem points_elem ;;
  coords <- read_known_array use_zlib cpu_le (T := Real) OMEGA_H_F64 n_coordinates nverts 3
              is_le is_comp ;;
  let coords := if dim =? 2 then vectors_3d_to_2d coords else coords in
  read_elem points_elem ;;
  read_elem point_data ;;
  read_locals_and_owners c nverts is_le is_comp ;;
  globals <- (if 1 <? comm_size c
              then read_known_array use_zlib cpu_le (T := SInt 8) OMEGA_H_I64 n_global nverts 1
                     is_le is_comp
              else ret (go_range nverts 0 1)) ;;
  vtags <- read_vtk_tags use_zlib cpu_le nverts is_le is_comp
             [mkVtag n_coordinates dim true (ArrF64 coords)] ;;
  read_elem cell_data ;;
  read_locals_and_owners c ncells is_le is_comp ;;
  ctags <- read_vtk_tags use_zlib cpu_le ncells is_le is_comp [] ;;
  read_elem piece ;;
  read_elem unstructured_grid ;;
  read_elem vtkfile ;;
  ret (mkRMesh dim ev2v globals vtags ctags).

End Read.

(** ** Reading back what was written, piece by piece *)

Lemma read_elem_open name rest : read_elem name (open_tag name :: rest) = Ok tt rest.
Proof. unfold read_elem, open_tag. cbn [read_xml_tag bind elem_name]. rewrite string_eqb_refl. reflexivity. Qed.

Lemma read_elem_close name rest : read_elem name (close_tag name :: rest) = Ok tt rest.
Proof. unfold read_elem, close_tag. cbn [read_xml_tag bind elem_name]. rewrite string_eqb_refl. reflexivity. Qed.

Lemma read_start_tag_written use_zlib wcpu rest :
  read_vtkfile_vtu_start_tag (write_vtkfile_vtu_start_tag use_zlib wcpu :: rest) =
  Ok (wcpu, use_zlib) rest.
Proof. destruct use_zlib, wcpu; reflexivity. Qed.

Lemma read_piece_written m d rest :
  INT_MIN <= vm_nents m 0 <= INT_MAX -> INT_MIN <= vm_nents m d <= INT_MAX ->
  read_piece_start_tag (write_piece_start_tag m d :: rest) = Ok (vm_nents m 0, vm_nents m d) rest.
Proof.
  intros H0 Hd. unfold read_piece_start_tag, write_piece_start_tag.
  cbn [read_xml_tag bind elem_name]. rewrite string_eqb_refl. cbn [check].
  change (attrib (mkTag piece START [(a_npoints, print_int (vm_nents m 0));
                                      (a_ncells, print_int (vm_nents m d))]) a_npoints)
    with (print_int (vm_nents m 0)).
  change (attrib (mkTag piece START [(a_npoints, print_int (vm_nents m 0));
                                      (a_ncells, print_int (vm_nents m d))]) a_ncells)
    with (print_int (vm_nents m d)).
  rewrite !stoi_print_int by assumption. reflexivity.
Qed.

Lemma dim_of_types_repeat d n :
  (0 < n)%nat -> d = 2 \/ d = 3 ->
  dim_of_types (repeat (mkSInt (n := 1) (get vtk_types (Z.to_nat d) 0)) n) = d.
Proof. intros Hn [-> | ->]; destruct n; [lia| |lia|]; reflexivity. Qed.

Lemma allreduce_max_le c x : Forall (fun y => y <= x) (comm_others c) -> allreduce_max c x = x.
Proof.
  unfold allreduce_max. generalize (comm_others c). intros l Hl.
  induction Hl as [|y l Hy _ IH]; [reflexivity|]. cbn [fold_left].
  rewrite Z.max_l by exact Hy. exact IH.
Qed.

Lemma lo_range_length n s k : length (lo_range n s k) = Z.to_nat n.
Proof. unfold lo_range. rewrite length_map, length_seq. reflexivity. Qed.

Lemma go_range_length n s k : length (go_range n s k) = Z.to_nat n.
Proof. unfold go_range. rewrite length_map, length_seq. reflexivity. Qed.

(** [Read<LO>(n, start, stride)] holds [int]s when its last value does. *)
Lemma lo_range_valid n s k :
  0 <= s -> 0 <= k -> s + k * n < 2 ^ 31 -> Forall (sint_valid 4) (lo_range n s k).
Proof.
  intros Hs Hk Hn. unfold lo_range. apply Forall_forall. intros x Hx.
  apply in_map_iff in Hx as (i & <- & Hi). apply in_seq in Hi.
  unfold sint_valid. cbn [sint_val]. change (2 ^ (8 * Z.of_nat 4 - 1)) with (2 ^ 31).
  assert (Z.of_nat i < n) by lia. nia.
Qed.

Lemma vtk_type_valid d n : d = 2 \/ d = 3 ->
  Forall (sint_valid 1) (repeat (mkSInt (n := 1) (get vtk_types (Z.to_nat d) 0)) n).
Proof.
  intros Hd. apply Forall_forall. intros y Hy. apply repeat_spec in Hy. subst y.
  unfold sint_valid. destruct Hd as [-> | ->]; vm_compute; split; congruence.
Qed.

Lemma vectors_2d_to_3d_length n a : length a = (2 * n)%nat -> length (vectors_2d_to_3d a) = (3 * n)%nat.
Proof.
  revert a. induction n as [|n IH]; intros [|x [|y r]] Ha; cbn in Ha |- *; try lia.
  rewrite (IH r) by lia. lia.
Qed.

Lemma vectors_3d_2d_3d n a : length a = (2 * n)%nat -> vectors_3d_to_2d (vectors_2d_to_3d a) = a.
Proof.
  revert a. induction n as [|n IH]; intros [|x [|y r]] Ha; cbn in Ha |- *; try lia; [reflexivity|].
  rewrite (IH r) by lia. reflexivity.
Qed.

Lemma vectors_2d_to_3d_valid a : Forall real_valid a -> Forall real_valid (vectors_2d_to_3d a).
Proof.
  remember (length a) as k eqn:Hk. revert a Hk. induction k as [k IH] using lt_wf_ind.
  intros [|x [|y r]] Hk Ha; cbn; [constructor..|].
  inversion Ha as [|? ? Hx Ha']; inversion Ha' as [|? ? Hy Hr]; subst.
  constructor; [exact Hx|]. constructor; [exact Hy|].
  constructor; [unfold real_valid, real_zero; cbn; lia|].
  apply (IH (length r)); [cbn; lia | reflexivity | exact Hr].
Qed.

(** ** What [read_vtu] gives back *)

(** The vertex globals: the [global] array of the file on more than one
    rank, [0, 1, ...] on one. *)
Definition vtu_globals (m : vmesh) (g : option vtag) : list (SInt 8) :=
  if 1 <? vm_comm_size m then
    match g with
    | Some t => match vt_data t with ArrI64 gs => gs | _ => [] end
    | None => []
    end
  else go_range (vm_nents m 0) 0 1.

(** The vertex tags the loop [while (read_tag(...))] of [read_vtu] meets:
    [global] on one rank (it is read before the loop on more), then the
    others but [coordinates]. *)
Definition vtu_vert_loop (m : vmesh) (g : option vtag) : list vtag :=
  (if vm_comm_size m =? 1 then match g with Some t => [t] | None => [] end else []) ++
  filter not_coords_or_global (vm_tags m 0).

(** The coordinates as [write_tag] writes them (three components) and
    as [read_vtu] keeps them for cells of dimension [d]. *)
Definition coords_written (sd : Z) (xs : list Real) : list Real :=
  if sd =? 2 then vectors_2d_to_3d xs else xs.

Definition vtu_coords (sd d : Z) (xs : list Real) : list Real :=
  if d =? 2 then vectors_3d_to_2d (coords_written sd xs) else coords_written sd xs.

Definition vtu_read_back (m : vmesh) (d : Z) (g : option vtag) (xs : list Real) : rmesh :=
  mkRMesh d (vm_verts_of m d) (vtu_globals m g)
    (fold_left (tag_update (vm_dim m)) (vtu_vert_loop m g)
       [mkVtag n_coordinates d true (ArrF64 (vtu_coords (vm_dim m) d xs))])
    (fold_left (tag_update (vm_dim m)) (vm_tags m d) []).

Section ReadKnown.
Context {B : Base64} {BL : Base64Laws} {C : Compressor} {CL : CompressorLaws}.
Variables (use_zlib wcpu rcpu : bool).

Lemma read_known_written {T} {S : Serial T} {valid} (L : SerialLaws T valid)
    t name nents ncomps (arr : list T) rest :
  Forall valid arr -> Z.of_nat (length arr * ser_width) < 2 ^ 60 ->
  nents * ncomps = Z.of_nat (length arr) -> nents * ncomps <= INT_MAX ->
  read_known_array use_zlib rcpu (T := T) t name nents ncomps wcpu use_zlib
    (write_array use_zlib wcpu t name ncomps arr ++ rest) = Ok arr rest.
Proof. intros; apply (read_known_array_written use_zlib wcpu rcpu (L := L)); auto; lia. Qed.

End ReadKnown.

Lemma find_tag_name tags name t : find_tag tags name = Some t -> vt_name t = name.
Proof. unfold find_tag. intros H. apply find_some in H as [_ H]. apply String.eqb_eq, H. Qed.

Lemma get_typed_tag_spec tags name ty t :
  get_typed_tag tags name ty = Some t -> find_tag tags name = Some t /\ tag_array_type (vt_data t) = ty.
Proof.
  unfold get_typed_tag. destruct (find_tag tags name) as [u|]; [|discriminate].
  destruct (omega_type_eq_dec _ ty); intros H; inversion H; subst; auto.
Qed.

Lemma tag_update_keep sd ts tags u :
  In u tags -> Forall (fun t => vt_name t <> vt_name u) ts -> In u (fold_left (tag_update sd) ts tags).
Proof.
  intros Hu Hts. revert tags Hu. induction Hts as [|t ts Ht _ IH]; intros tags Hu; [exact Hu|].
  cbn [fold_left]. apply IH. unfold tag_update. destruct (vt_viz t); [|exact Hu].
  apply in_or_app. left. apply filter_In. split; [exact Hu|].
  destruct (String.eqb_spec (vt_name u) (vt_name t)); [congruence | reflexivity].
Qed.

(** ** The round trip of a VTU file *)

Section VtuRoundTrip.
Context {B : Base64} {BL : Base64Laws} {C : Compressor} {CL : CompressorLaws}.
(** The build, the byte order of the CPU that writes and of the one that
    reads; the mesh, the dimension of the cells written and the
    communicator of the reader. *)
Variables (use_zlib wcpu rcpu : bool) (m : vmesh) (d : Z) (c : comm).
Variables (coords : vtag) (xs : list Real) (gtag : option vtag).

(** The mesh and its cells written are of dimension 2 or 3, and every
    rank that reads holds cells of that dimension or none. *)
Hypothesis H_sd : vm_dim m = 2 \/ vm_dim m = 3.
Hypothesis H_d : d = 2 \/ d = 3.
Hypothesis H_size : 1 <= vm_comm_size m.
Hypothesis H_comm : comm_size c = vm_comm_size m.
Hypothesis H_others : Forall (fun y => y <= d) (comm_others c).
Hypothesis H_nc : 0 < vm_nents m d < 2 ^ 27.
Hypothesis H_nv : 0 <= vm_nents m 0 < 2 ^ 27.
Hypothesis H_verts : Z.of_nat (length (vm_verts_of m d)) = vm_nents m d * (d + 1) /\
  Forall (sint_valid 4) (vm_verts_of m d).
Hypothesis H_owners : vm_comm_size m <> 1 -> forall e, e = 0 \/ e = d ->
  Z.of_nat (length (vm_owners m e)) = vm_nents m e /\ Forall (sint_valid 4) (vm_owners m e).

Ltac bytes_bound :=
  rewrite ?repeat_length, ?lo_range_length, ?Nat2Z.inj_mul, ?Z2Nat.id by lia; cbn [ser_width serial_sint serial_real serial_size_t];
  change (2 ^ 60) with 1152921504606846976; change (2 ^ 27) with 134217728 in *;
  let h := fresh "Hd" in destruct H_d as [h | h]; rewrite h in *; lia.

(** The [LO] sizes [nents * ncomps] of the arrays fit an [int]. *)
Ltac int_bound :=
  unfold INT_MAX; change (2 ^ 27) with 134217728 in *;
  let h := fresh "Hd" in destruct H_d as [h | h]; rewrite h in *; lia.

Lemma read_connectivity_written rest :
  read_connectivity use_zlib rcpu c (vm_nents m d) wcpu use_zlib
    (write_connectivity use_zlib wcpu m d ++ rest) = Ok (d, vm_verts_of m d) rest.
Proof.
  destruct H_verts as [Hvl Hvv].
  unfold read_connectivity, write_connectivity. rewrite <- !app_assoc.
  erewrite bind_ok by (apply (read_known_written use_zlib wcpu rcpu (T := SInt 1) (sint_laws 1 ltac:(discriminate)));
    [apply vtk_type_valid, H_d | bytes_bound
    | rewrite repeat_length, Z2Nat.id by lia; lia | int_bound]).
  rewrite dim_of_types_repeat, allreduce_max_le by (lia || exact H_d || exact H_others).
  assert (Hc : ((d =? 2) || (d =? 3)) = true) by (destruct H_d as [-> | ->]; reflexivity).
  rewrite Hc. erewrite bind_ok by reflexivity.
  erewrite bind_ok by (apply (read_known_written use_zlib wcpu rcpu (T := SInt 4) (sint_laws 4 ltac:(discriminate)));
    [exact Hvv | rewrite Nat2Z.inj_mul, Hvl; bytes_bound | rewrite Hvl; ring | int_bound]).
  erewrite bind_ok by (apply (read_known_written use_zlib wcpu rcpu (T := SInt 4) (sint_laws 4 ltac:(discriminate)));
    [apply lo_range_valid; bytes_bound | bytes_bound
    | rewrite lo_range_length, Z2Nat.id by lia; lia | int_bound]).
  reflexivity.
Qed.

Lemma read_locals_and_owners_written e rest :
  e = 0 \/ e = d -> 0 <= vm_nents m e < 2 ^ 27 ->
  read_locals_and_owners use_zlib rcpu c (vm_nents m e) wcpu use_zlib
    (write_locals_and_owners use_zlib wcpu m e ++ rest) = Ok tt rest.
Proof.
  intros He Hn. unfold read_locals_and_owners, write_locals_and_owners. rewrite <- app_assoc.
  erewrite bind_ok by (apply (read_known_written use_zlib wcpu rcpu (T := SInt 4) (sint_laws 4 ltac:(discriminate)));
    [apply lo_range_valid; bytes_bound | bytes_bound | rewrite lo_range_length, Z2Nat.id by lia; lia
    | int_bound]).
  rewrite H_comm. destruct (vm_comm_size m =? 1) eqn:Hs; [reflexivity|].
  apply Z.eqb_neq in Hs. destruct (H_owners Hs e He) as [Hl Hv].
  erewrite bind_ok by (apply (read_known_written use_zlib wcpu rcpu (T := SInt 4) (sint_laws 4 ltac:(discriminate)));
    [exact Hv | rewrite Nat2Z.inj_mul, Hl; bytes_bound | lia | int_bound]).
  reflexivity.
Qed.

Hypothesis H_coords : get_typed_tag (vm_tags m 0) n_coordinates OMEGA_H_F64 = Some coords.
Hypothesis H_coords_data :
  vt_viz coords = true /\ vt_ncomps coords = vm_dim m /\ vt_data coords = ArrF64 xs.
Hypothesis H_xs : Z.of_nat (length xs) = vm_nents m 0 * vm_dim m /\ Forall real_valid xs.

Lemma read_coords_written rest :
  read_known_array use_zlib rcpu (T := Real) OMEGA_H_F64 n_coordinates (vm_nents m 0) 3 wcpu use_zlib
    (write_tag use_zlib wcpu coords (vm_dim m) ++ rest) =
  Ok (coords_written (vm_dim m) xs) rest.
Proof.
  destruct H_coords_data as (Hviz & Hnc & Hdata). destruct H_xs as [Hl Hv].
  destruct (get_typed_tag_spec _ _ _ _ H_coords) as [Hf _]. apply find_tag_name in Hf.
  unfold write_tag, coords_written. rewrite Hviz, Hdata, Hnc, Hf. cbn [negb].
  destruct H_sd as [Hd | Hd]; rewrite Hd in Hl |- *; cbn [Z.eqb andb Pos.eqb].
  - assert (Hn : length xs = (2 * Z.to_nat (vm_nents m 0))%nat) by lia.
    apply (read_known_written use_zlib wcpu rcpu (T := Real) real_laws).
    + apply vectors_2d_to_3d_valid, Hv.
    + rewrite Nat2Z.inj_mul, (vectors_2d_to_3d_length _ _ Hn). bytes_bound.
    + rewrite (vectors_2d_to_3d_length _ _ Hn). lia.
    + int_bound.
  - apply (read_known_written use_zlib wcpu rcpu (T := Real) real_laws); [exact Hv | | lia | int_bound].
    rewrite Nat2Z.inj_mul, Hl. bytes_bound.
Qed.

(** A tag [write_tag] writes starts with the [DataArray] start tag of
    its name. *)
Lemma write_tag_head g sd :
  vt_viz g = true -> exists ty nc rest,
    write_tag use_zlib wcpu g sd = ITag (mkTag data_array START (describe_array ty (vt_name g) nc)) :: rest.
Proof.
  intros Hv. unfold write_tag, write_array. rewrite Hv. cbn [negb].
  destruct (vt_data g); [| | | destruct (_ && _)]; eauto.
Qed.

(** [read_known_array] of [global] fails on tags of other names
    followed by the end of the section. *)
Lemma read_global_missing tags sd x r nv le cp :
  Forall (fun g => vt_name g <> n_global) tags -> String.eqb x data_array = false ->
  exists w s, read_known_array use_zlib rcpu (T := SInt 8) OMEGA_H_I64 n_global nv 1 le cp
    (write_tags use_zlib wcpu tags sd ++ close_tag x :: r) = Abort w s.
Proof.
  intros Hn Hx. induction Hn as [|g tags Hg _ IH]; unfold write_tags in *; cbn [map concat].
  - cbn [app]. unfold read_known_array, bind, read_xml_tag, check, close_tag. cbn [elem_name].
    rewrite Hx. eauto.
  - destruct (vt_viz g) eqn:Ev.
    + destruct (write_tag_head g sd Ev) as (ty & nc & rest & ->). cbn [app].
      unfold read_known_array, bind, read_xml_tag, check. cbn [elem_name tag_type].
      rewrite string_eqb_refl. cbn [tag_kind_eqb].
      change (attrib (mkTag data_array START (describe_array ty (vt_name g) nc)) a_name) with (vt_name g).
      destruct (String.eqb_spec (vt_name g) n_global); [contradiction | eauto].
    + unfold write_tag at 1. rewrite Ev. exact IH.
Qed.

(** C13: a file written on several ranks without a visible [global] tag
    cannot be read back.  On more than one rank [read_vtu] reads the
    vertex globals from the array [global] (line 497); [write_vtu]
    writes that array only for a tag [global] with [OMEGA_H_DO_VIZ]
    (lines 456-458: [write_tag] writes nothing without it), and the
    arrays after it have other names, so for a
    mesh of dimension 2 or 3 whose vertices carry no visible [global]
    tag [read_vtu] aborts on the file [write_vtu] wrote. *)
Lemma read_vtu_no_global f rest :
  write_vtu use_zlib wcpu m d = Some f -> vm_comm_size m <> 1 ->
  (forall g, find_tag (vm_tags m 0) n_global = Some g -> vt_viz g = false) ->
  exists w s, read_vtu use_zlib rcpu c (f ++ rest) = Abort w s.
Proof.
  intros Hw Hn Hg. unfold write_vtu in Hw. rewrite H_coords in Hw.
  destruct (match find_tag (vm_tags m 0) n_global with
            | Some _ => _ | None => _ end) as [gi|] eqn:Egi; [|discriminate].
  assert (Hgi : gi = []).
  { destruct (find_tag (vm_tags m 0) n_global) as [g0|] eqn:Ef; [|congruence].
    destruct (get_typed_tag (vm_tags m 0) n_global OMEGA_H_I64) as [g|] eqn:Et; [|discriminate].
    destruct (get_typed_tag_spec _ _ _ _ Et) as [Ef' _]. rewrite Ef in Ef'. injection Ef' as ->.
    injection Egi as <-. unfold write_tag. rewrite (Hg g eq_refl). reflexivity. }
  subst gi. injection Hw as <-. unfold read_vtu. norm_app.
  rd (apply read_start_tag_written).
  rd (apply read_elem_open).
  rd (apply read_piece_written; unfold INT_MIN, INT_MAX; bytes_bound).
  rd (apply read_elem_open).
  rd (apply read_connectivity_written).
  rd (apply read_elem_close).
  rd (apply read_elem_open).
  rd (apply read_coords_written).
  rd (apply read_elem_close).
  rd (apply read_elem_open).
  rd (apply read_locals_and_owners_written; [left; reflexivity | lia]).
  replace (1 <? comm_size c) with true by (symmetry; apply Z.ltb_lt; lia).
  destruct (read_global_missing (filter not_coords_or_global (vm_tags m 0)) (vm_dim m) point_data
              (open_tag cell_data :: write_locals_and_owners use_zlib wcpu m d ++
               write_tags use_zlib wcpu (vm_tags m d) (vm_dim m) ++
               [close_tag cell_data; close_tag piece; close_tag unstructured_grid; close_tag vtkfile] ++ rest)
              (vm_nents m 0) wcpu use_zlib) as (w & s & Hs).
  - apply Forall_forall. intros t Ht. apply filter_In in Ht as [_ Ht].
    unfold not_coords_or_global in Ht. apply andb_true_iff in Ht as [_ Ht].
    destruct (String.eqb_spec (vt_name t) n_global); [discriminate | assumption].
  - reflexivity.
  - exists w, s. apply bind_abort. norm_app. exact Hs.
Qed.

Hypothesis H_gfind : find_tag (vm_tags m 0) n_global = gtag.
Hypothesis H_g :
  match gtag with
  | None => vm_comm_size m = 1
  | Some g => tag_array_type (vt_data g) = OMEGA_H_I64 /\
      (vt_viz g = true -> tag_ok (vm_nents m 0) (written_tag g (vm_dim m))) /\
      (vm_comm_size m <> 1 -> vt_viz g = true /\ vt_ncomps g = 1)
  end.

(** What [write_vtu] writes for the vertex globals. *)
Definition global_items : list item :=
  match gtag with
  | None => []
  | Some g => write_tag use_zlib wcpu g (vm_dim m)
  end.

Lemma write_vtu_global :
  match find_tag (vm_tags m 0) n_global with
  | None => Some []
  | Some _ =>
      match get_typed_tag (vm_tags m 0) n_global OMEGA_H_I64 with
      | Some g => Some (write_tag use_zlib wcpu g (vm_dim m))
      | None => None
      end
  end = Some global_items.
Proof.
  unfold global_items, get_typed_tag. rewrite H_gfind.
  destruct gtag as [g|]; [|reflexivity]. destruct H_g as [Ht _].
  destruct (omega_type_eq_dec _ _); [reflexivity | contradiction].
Qed.

(** On one rank the globals are part of the tags the loop reads. *)
Lemma point_data_split r :
  global_items ++ write_tags use_zlib wcpu (filter not_coords_or_global (vm_tags m 0)) (vm_dim m) ++ r =
  (if vm_comm_size m =? 1 then [] else global_items) ++
  write_tags use_zlib wcpu (vtu_vert_loop m gtag) (vm_dim m) ++ r.
Proof.
  unfold vtu_vert_loop, global_items, write_tags. rewrite map_app, concat_app.
  destruct (vm_comm_size m =? 1); destruct gtag; cbn [map concat app];
    rewrite ?app_nil_r, ?app_assoc; reflexivity.
Qed.

Lemma read_globals_written rest :
  (if 1 <? comm_size c
   then read_known_array use_zlib rcpu (T := SInt 8) OMEGA_H_I64 n_global (vm_nents m 0) 1 wcpu use_zlib
   else ret (go_range (vm_nents m 0) 0 1))
    ((if vm_comm_size m =? 1 then [] else global_items) ++ rest) =
  Ok (vtu_globals m gtag) rest.
Proof.
  unfold vtu_globals. rewrite H_comm.
  destruct (Z.eqb_spec (vm_comm_size m) 1) as [H1 | H1].
  - rewrite H1. reflexivity.
  - replace (1 <? vm_comm_size m) with true by (symmetry; apply Z.ltb_lt; lia).
    unfold global_items. destruct gtag as [g|]; [|contradiction].
    destruct H_g as (Ht & Hok & Hpar). destruct (Hpar H1) as [Hviz Hnc].
    destruct g as [gn gnc gv gd]; cbn in Ht, Hviz, Hnc |- *. subst gv gnc.
    destruct gd as [a|a|gs|a]; try discriminate Ht.
    pose proof (find_tag_name _ _ _ H_gfind) as Hn. cbn in Hn. subst gn.
    destruct (Hok eq_refl) as (_ & Hv & Hl & Hb). cbn in Hv, Hl, Hb.
    apply (read_known_written use_zlib wcpu rcpu (T := SInt 8) (sint_laws 8 ltac:(discriminate)));
      [exact Hv | cbn; unfold INT_MAX in Hb; lia | lia | unfold INT_MAX in *; lia].
Qed.

Hypothesis H_vtags : Forall (fun t => vt_viz t = true -> tag_ok (vm_nents m 0) (written_tag t (vm_dim m)))
  (filter not_coords_or_global (vm_tags m 0)).
Hypothesis H_ctags : Forall (fun t => vt_viz t = true -> tag_ok (vm_nents m d) (written_tag t (vm_dim m)))
  (vm_tags m d).


Lemma vert_loop_ok :
  Forall (fun t => vt_viz t = true -> tag_ok (vm_nents m 0) (written_tag t (vm_dim m))) (vtu_vert_loop m gtag).
Proof.
  unfold vtu_vert_loop. apply Forall_app. split; [|exact H_vtags].
  destruct (vm_comm_size m =? 1); [|constructor]. destruct gtag as [g|]; [|constructor].
  destruct H_g as (_ & Hok & _). constructor; [exact Hok | constructor].
Qed.

Lemma read_vtu_written f rest :
  write_vtu use_zlib wcpu m d = Some f ->
  read_vtu use_zlib rcpu c (f ++ rest) = Ok (vtu_read_back m d gtag xs) rest.
Proof.
  intros Hw. unfold write_vtu in Hw. rewrite H_coords, write_vtu_global in Hw.
  injection Hw as <-. unfold read_vtu. norm_app. rewrite point_data_split.
  rd (apply read_start_tag_written).
  rd (apply read_elem_open).
  rd (apply read_piece_written; unfold INT_MIN, INT_MAX; bytes_bound).
  rd (apply read_elem_open).
  rd (apply read_connectivity_written).
  rd (apply read_elem_close).
  rd (apply read_elem_open).
  rd (apply read_coords_written).
  rd (apply read_elem_close).
  rd (apply read_elem_open).
  rd (apply read_locals_and_owners_written; [left; reflexivity | lia]).
  rd (apply read_globals_written).
  unfold write_tags.
  rd (apply read_vtk_tags_written; [apply vert_loop_ok | reflexivity]).
  rd (apply read_elem_open).
  rd (apply read_locals_and_owners_written; [right; reflexivity | lia]).
  rd (apply read_vtk_tags_written; [exact H_ctags | reflexivity]).
  rd (apply read_elem_close). rd (apply read_elem_close). rd (apply read_elem_close).
  reflexivity.
Qed.

(** C10: round trip of a VTU file.  What [write_vtu] writes for the
    elements of a mesh of dimension 2 or 3 is read back by [read_vtu]
    (with or without zlib, on a CPU of either byte order, on as many
    ranks as wrote it): the dimension, the element-to-vertex array, the
    vertex globals, the coordinates, and the tags of vertices and
    elements as [write_tag] and [read_tag] carry them. *)
Theorem read_vtu_write_vtu f rest :
  write_vtu use_zlib wcpu m d = Some f ->
  read_vtu use_zlib rcpu c (f ++ rest) = Ok (vtu_read_back m d gtag xs) rest.
Proof. intros; eapply read_vtu_written; eassumption. Qed.


Lemma vert_loop_names :
  Forall (fun t => vt_name t <> n_coordinates) (vtu_vert_loop m gtag).
Proof.
  unfold vtu_vert_loop. apply Forall_app. split.
  - destruct (vm_comm_size m =? 1); [|constructor]. destruct gtag as [g|] eqn:Eg; [|constructor].
    constructor; [|constructor]. rewrite (find_tag_name _ _ _ H_gfind). discriminate.
  - apply Forall_forall. intros t Ht. apply filter_In in Ht as [_ Ht].
    unfold not_coords_or_global in Ht. apply andb_true_iff in Ht as [Ht _].
    destruct (String.eqb_spec (vt_name t) n_coordinates); [discriminate | assumption].
Qed.

(** The faces of a 3D mesh, written as their own file (as
    [FullWriter] does), come back as a 2D mesh: [read_vtu] takes the
    dimension from the cell type, reads the three coordinates of every
    vertex and keeps two of them, dropping [z]. *)
Theorem read_vtu_face_coords f rest :
  vm_dim m = 3 -> d = 2 -> write_vtu use_zlib wcpu m d = Some f ->
  exists r, read_vtu use_zlib rcpu c (f ++ rest) = Ok r rest /\ rm_dim r = 2 /\
    In (mkVtag n_coordinates 2 true (ArrF64 (vectors_3d_to_2d xs))) (rm_vert_tags r).
Proof.
  intros H3 H2 Hw. exists (vtu_read_back m d gtag xs).
  split; [apply read_vtu_written, Hw|]. split; [exact H2|].
  unfold vtu_read_back, vtu_coords, coords_written. rewrite H3, H2. cbn [rm_vert_tags Z.eqb Pos.eqb].
  apply tag_update_keep; [left; reflexivity|]. exact vert_loop_names.
Qed.

End VtuRoundTrip.

Lemma allreduce_max_lt c x k :
  x < k -> Forall (fun y => y < k) (comm_others c) -> allreduce_max c x < k.
Proof.
  unfold allreduce_max. generalize (comm_others c). intros l Hx Hl. revert x Hx.
  induction Hl as [|y l Hy _ IH]; intros x Hx; [exact Hx|]. cbn [fold_left]. apply IH. lia.
Qed.

(** ** Files of vertices or edges *)

Section LowDim.
Context {B : Base64} {BL : Base64Laws} {C : Compressor} {CL : CompressorLaws}.
Variables (use_zlib wcpu rcpu : bool) (m : vmesh) (d : Z) (c : comm).

(** Cells of dimension 0 or 1, and no rank that reads holds triangles or
    tetrahedra. *)
Hypothesis H_d : d = 0 \/ d = 1.
Hypothesis H_others : Forall (fun y => y < 2) (comm_others c).
Hypothesis H_nc : 0 < vm_nents m d < 2 ^ 27.
Hypothesis H_nv : 0 <= vm_nents m 0 < 2 ^ 27.

Lemma read_connectivity_low_dim rest :
  exists s, read_connectivity use_zlib rcpu c (vm_nents m d) wcpu use_zlib
    (write_connectivity use_zlib wcpu m d ++ rest) = Abort dim_msg s.
Proof.
  unfold read_connectivity, write_connectivity. rewrite <- !app_assoc.
  erewrite bind_ok by (apply (read_known_written use_zlib wcpu rcpu (T := SInt 1) (sint_laws 1 ltac:(discriminate)));
    [ apply Forall_forall; intros y Hy; apply repeat_spec in Hy; subst y; unfold sint_valid;
      destruct H_d as [-> | ->]; vm_compute; split; congruence
    | rewrite repeat_length, Nat2Z.inj_mul, Z2Nat.id by lia; cbn [ser_width serial_sint];
      change (2 ^ 27) with 134217728 in H_nc; lia
    | rewrite repeat_length, Z2Nat.id by lia; lia
    | unfold INT_MAX; change (2 ^ 27) with 134217728 in H_nc; lia ]).
  assert (Ht : dim_of_types (repeat (mkSInt (n := 1) (get vtk_types (Z.to_nat d) 0))
                               (Z.to_nat (vm_nents m d))) = -1).
  { destruct (Z.to_nat (vm_nents m d)) as [|k] eqn:E; [lia|]. destruct H_d as [-> | ->]; reflexivity. }
  rewrite Ht. pose proof (allreduce_max_lt c (-1) 2 ltac:(lia) H_others) as Hlt.
  destruct (Z.eqb_spec (allreduce_max c (-1)) 2); [lia|].
  destruct (Z.eqb_spec (allreduce_max c (-1)) 3); [lia|].
  eexists. apply bind_abort. reflexivity.
Qed.

(** [read_vtu] cannot read a file of vertices or edges: the cell type
    [VTK_VERTEX] or [VTK_LINE] gives no dimension, and unless some rank
    holds triangles or tetrahedra the check [dim == 2 || dim == 3]
    fails.  [FullWriter] writes such a file for the edges of every mesh. *)
Theorem read_vtu_rejects_low_dim f rest :
  write_vtu use_zlib wcpu m d = Some f ->
  exists s, read_vtu use_zlib rcpu c (f ++ rest) = Abort dim_msg s.
Proof.
  intros Hw. unfold write_vtu in Hw.
  destruct (get_typed_tag (vm_tags m 0) n_coordinates OMEGA_H_F64); [|discriminate].
  destruct (match find_tag (vm_tags m 0) n_global with
            | Some _ => _ | None => _ end) as [gi|]; [|discriminate].
  injection Hw as <-. unfold read_vtu. norm_app.
  rd (apply read_start_tag_written).
  rd (apply read_elem_open).
  rd (apply read_piece_written; unfold INT_MIN, INT_MAX; lia).
  rd (apply read_elem_open).
  edestruct read_connectivity_low_dim as [s Hs].
  exists s. apply bind_abort. exact Hs.
Qed.

End LowDim.

(** ** Concrete files *)

Section Examples.
Local Open Scope string_scope.

(** A triangle with a field on its cell, on one rank. *)
Definition ex_tri_coords : list Real :=
  [mkReal 0; mkReal 0; mkReal 1; mkReal 0; mkReal 0; mkReal 1].

Definition ex_tri_coords_tag : vtag := mkVtag "coordinates" 2 true (ArrF64 ex_tri_coords).

Definition ex_tri : vmesh :=
  mkVMesh 2 1 (fun d => if d =? 2 then 1 else 3)
    (fun _ => [mkSInt 0; mkSInt 1; mkSInt 2]) (fun _ => [])
    (fun d => if d =? 0 then [ex_tri_coords_tag]
              else if d =? 2 then [mkVtag "quality" 1 true (ArrF64 [mkReal 7])] else []).

(** A tetrahedron, its 4 faces and 6 edges, on one rank. *)
Definition ex_tet_coords : list Real :=
  [mkReal 0; mkReal 0; mkReal 0; mkReal 1; mkReal 0; mkReal 0;
   mkReal 0; mkReal 1; mkReal 0; mkReal 0; mkReal 0; mkReal 1].

Definition ex_tet_coords_tag : vtag := mkVtag "coordinates" 3 true (ArrF64 ex_tet_coords).

Definition ex_tet : vmesh :=
  mkVMesh 3 1 (fun d => if d =? 0 then 4 else if d =? 1 then 6 else if d =? 2 then 4 else 1)
    (fun d => if d =? 1 then map mkSInt [0; 1; 0; 2; 0; 3; 1; 2; 1; 3; 2; 3]
              else if d =? 2 then map mkSInt [0; 1; 2; 0; 1; 3; 0; 2; 3; 1; 2; 3]
              else map mkSInt [0; 1; 2; 3])
    (fun _ => []) (fun d => if d =? 0 then [ex_tet_coords_tag] else []).

Definition file_of (o : option (list item)) : list item :=
  match o with Some f => f | None => [] end.

Ltac concrete :=
  repeat match goal with
  | |- _ /\ _ => split
  | |- _ \/ _ => first [left; vm_compute; reflexivity | right]
  | |- Forall (sint_valid ?n) _ =>
      apply (forallb_Forall (sint_validb n)); [apply sint_validb_spec | vm_compute; reflexivity]
  | |- Forall real_valid _ =>
      apply (forallb_Forall real_validb); [apply real_validb_spec | vm_compute; reflexivity]
  | |- Forall (fun t => vt_viz t = true -> tag_ok _ _) _ =>
      apply tags_okb_spec; vm_compute; reflexivity
  | |- Forall _ _ => vm_compute; constructor
  | |- _ <= _ < _ => split
  | |- _ <= _ => apply Z.leb_le; vm_compute; reflexivity
  | |- _ < _ => apply Z.ltb_lt; vm_compute; reflexivity
  | |- _ <> _ -> _ => let H := fresh in intros H; exfalso; apply H; vm_compute; reflexivity
  | |- _ = _ => vm_compute; reflexivity
  end.

Lemma read_vtu_write_vtu_witness :
  read_vtu (B := Rfc4648.rfc4648) (C := Stored.stored) true false (mkComm 1 [])
    (file_of (write_vtu (B := Rfc4648.rfc4648) (C := Stored.stored) true true ex_tri 2) ++ []) =
  Ok (vtu_read_back ex_tri 2 None ex_tri_coords) [].
Proof.
  apply (read_vtu_write_vtu (BL := Rfc4648.rfc4648_laws) (CL := Stored.stored_laws)
           true true false ex_tri 2 (mkComm 1 []) ex_tri_coords_tag ex_tri_coords None);
    concrete.
Defined.

(** The triangle on a communicator of two ranks, without a [global]
    tag: rank 0 owns the first two vertices, rank 1 the third. *)
Definition ex_tri_2ranks : vmesh :=
  mkVMesh 2 2 (vm_nents ex_tri) (vm_verts_of ex_tri)
    (fun d => if d =? 2 then [mkSInt 0] else [mkSInt 0; mkSInt 0; mkSInt 1]) (vm_tags ex_tri).

Lemma read_vtu_no_global_witness :
  exists w s, read_vtu (B := Rfc4648.rfc4648) (C := Stored.stored) true false (mkComm 2 [2])
    (file_of (write_vtu (B := Rfc4648.rfc4648) (C := Stored.stored) true true ex_tri_2ranks 2) ++ []) =
  Abort w s.
Proof.
  apply (read_vtu_no_global (BL := Rfc4648.rfc4648_laws) (CL := Stored.stored_laws)
           true true false ex_tri_2ranks 2 (mkComm 2 [2]) ex_tri_coords_tag ex_tri_coords); concrete.
  - discriminate.
  - intros _ e [-> | ->]; concrete.
  - discriminate.
  - intros g Hg. vm_compute in Hg. discriminate.
Defined.

(** The read stops at the end of the vertex data, where it expects the
    [DataArray] of [global]: the vertices of the triangle carry no
    other tag. *)
Example read_vtu_no_global_abort :
  match read_vtu (B := Rfc4648.rfc4648) (C := Stored.stored) true false (mkComm 2 [2])
          (file_of (write_vtu (B := Rfc4648.rfc4648) (C := Stored.stored) true true ex_tri_2ranks 2)) with
  | Abort w _ => Some w
  | _ => None
  end = Some elem_name_msg.
Proof. vm_compute. reflexivity. Qed.

Lemma read_vtu_rejects_low_dim_witness :
  exists s, read_vtu (B := Rfc4648.rfc4648) (C := Stored.stored) true true (mkComm 1 [])
    (file_of (write_vtu (B := Rfc4648.rfc4648) (C := Stored.stored) true true ex_tet 1) ++ []) =
  Abort dim_msg s.
Proof.
  apply (read_vtu_rejects_low_dim (BL := Rfc4648.rfc4648_laws) (CL := Stored.stored_laws)
           true true true ex_tet 1 (mkComm 1 [])); concrete.
Defined.

Lemma read_vtu_face_coords_witness :
  exists r, read_vtu (B := Rfc4648.rfc4648) (C := Stored.stored) true true (mkComm 1 [])
    (file_of (write_vtu (B := Rfc4648.rfc4648) (C := Stored.stored) true true ex_tet 2) ++ []) =
  Ok r [] /\ rm_dim r = 2 /\
  In (mkVtag n_coordinates 2 true (ArrF64 (vectors_3d_to_2d ex_tet_coords))) (rm_vert_tags r).
Proof.
  apply (read_vtu_face_coords (BL := Rfc4648.rfc4648_laws) (CL := Stored.stored_laws)
           true true true ex_tet 2 (mkComm 1 []) ex_tet_coords_tag ex_tet_coords None); concrete.
Defined.

(** The face file of the tetrahedron: its vertices come back in the
    plane [z = 0], [(0,0) (1,0) (0,1) (0,0)]. *)
Example read_tet_faces :
  match read_vtu (B := Rfc4648.rfc4648) (C := Stored.stored) true true (mkComm 1 [])
          (file_of (write_vtu (B := Rfc4648.rfc4648) (C := Stored.stored) true true ex_tet 2)) with
  | Ok r _ => Some (rm_dim r, rm_vert_tags r)
  | _ => None
  end =
  Some (2, [mkVtag "coordinates" 2 true
              (ArrF64 [mkReal 0; mkReal 0; mkReal 1; mkReal 0; mkReal 0; mkReal 1; mkReal 0; mkReal 0])]).
Proof. vm_compute. reflexivity. Qed.

End Examples.
