(* ===== verification/VtkSeries.v ===== *)
(** Series of VTK files in src/src/vtk.cpp: the file names of the pieces
    and steps, the [.pvtu] file that lists the pieces of one step
    ([write_pvtu], [read_pvtu]), the [.pvd] collection of the steps
    ([write_initial_pvd], [update_pvd]), the parallel write and read of
    one step ([write_parallel], [read_parallel]) and the writers
    ([Writer], [FullWriter]).

    - A [.pvtu] file is read line by line with [xml::parse_tag]: it is a
      list of lines, each [Some] tag or [None] for a line that is not
      one.
    - The files are a shared store, [files]: an association list from
      paths to contents; writing a file replaces the content at its path.
      [safe_mkdir] records a directory.
    - The [.pvd] file is text ([String.string]) written through a
      [std::fstream] at a position: [update_pvd] seeks to the position it
      kept and overwrites from there ([overwrite]).
    - How [operator<<] prints a [Real] (the time of a step) is library
      code; it is the parameter [print_real].  [parent_path] and
      [plural_names] (file.cpp, simplices) are modelled from their
      contract.
    - The theorems: each rank reads back its own piece
      ([read_parallel_write_parallel]), the [.pvtu] lists the pieces
      ([read_pvtu_write_pvtu]), the [.pvd] file lists one line per step
      ([writer_pvd_steps]), later steps leave earlier ones alone
      ([writer_keeps_steps]), and the [.pvtu] declares the arrays as the
      pieces write them, except on a 1D mesh. *)

From Stdlib Require Import ZArith List Lia Bool Ascii.
From Stdlib Require String Finite.
From S2P Require Import Prelude Text Bytes Codecs VtkArrays Vtu.
Import ListNotations.
Import String.StringSyntax.

Local Open Scope Z_scope.

(** ** File names *)

Section Paths.
Local Open Scope string_scope.

(** [piece_filename] (lines 422-424). *)
Definition piece_filename (piecepath : String.string) (rank : Z) : String.string :=
  String.append piecepath (String.append "_" (String.append (print_int rank) ".vtu")).

(** [get_rel_step_path] (lines 426-428). *)
Definition get_rel_step_path (step : Z) : String.string := String.append "steps/step_" (print_int step).

(** [get_step_path] (lines 430-432). *)
Definition get_step_path (root_path : String.string) (step : Z) : String.string :=
  String.append root_path (String.append "/" (get_rel_step_path step)).

(** [get_pvtu_path] (lines 436-438). *)
Definition get_pvtu_path (step_path : String.string) : String.string :=
  String.append step_path "/pieces.pvtu".

(** [get_pvd_path] (lines 440-442). *)
Definition get_pvd_path (root_path : String.string) : String.string :=
  String.append root_path "/steps.pvd".

Definition pieces_dir : String.string := "/pieces".
Definition piece_prefix : String.string := "/piece".
Definition rel_piecepath : String.string := "pieces/piece".
Definition slash : String.string := "/".
End Paths.

(** [parent_path(path)] (file.cpp): the part before the last ['/'];
    [None] when there is none (its [CHECK] fails). *)
Fixpoint last_slash (s : String.string) (i : nat) (found : option nat) : option nat :=
  match s with
  | String.EmptyString => found
  | String.String c r =>
      last_slash r (S i) (if Ascii.eqb c "/"%char then Some i else found)
  end.

Definition parent_path (p : String.string) : option String.string :=
  match last_slash p 0 None with
  | Some i => Some (String.substring 0 i p)
  | None => None
  end.

(** ** The [.pvtu] file of a step *)

Section PNames.
Local Open Scope string_scope.
Definition pdata_array : String.string := "PDataArray".
Definition punstructured_grid : String.string := "PUnstructuredGrid".
Definition ppoints : String.string := "PPoints".
Definition ppoint_data : String.string := "PPointData".
Definition pcell_data : String.string := "PCellData".
Definition a_ghost_level : String.string := "GhostLevel".
Definition a_source : String.string := "Source".
Definition zero_text : String.string := "0".
Definition npieces_min_msg : String.string := "npieces >= 1".
Definition npieces_max_msg : String.string := "npieces <= comm->size()".
End PNames.

(** [write_p_data_array<T>] (lines 388-394) and [write_p_data_array2]
    (lines 396-412), one line each. *)
Definition write_p_data_array (t : omega_type) (name : String.string) (ncomps : Z) : xml_tag :=
  mkTag pdata_array SELF_CLOSING (describe_array t name ncomps).

(** [write_p_tag] (lines 414-420). *)
Definition write_p_tag (tag : vtag) (space_dim : Z) : list xml_tag :=
  if negb (vt_viz tag) then []
  else
    let ty := tag_array_type (vt_data tag) in
    if (if omega_type_eq_dec ty OMEGA_H_F64 then true else false) && (vt_ncomps tag =? space_dim)
    then [write_p_data_array OMEGA_H_F64 (vt_name tag) 3]
    else [write_p_data_array ty (vt_name tag) (vt_ncomps tag)].

Definition ptag (name : String.string) (k : tag_kind) : xml_tag := mkTag name k [].

Definition piece_line (piecepath : String.string) (rank : Z) : xml_tag :=
  mkTag piece SELF_CLOSING [(a_source, piece_filename piecepath rank)].

(** [0 .. n - 1] as the loop [for (I32 i = 0; i < n; ++i)]. *)
Definition ranks (n : Z) : list Z := map Z.of_nat (seq 0 (Z.to_nat n)).

(** [write_pvtu(stream, mesh, cell_dim, piecepath)] (lines 523-558). *)
Definition write_pvtu (m : vmesh) (cell_dim : Z) (piecepath : String.string) : list xml_tag :=
  let parallel := 1 <? vm_comm_size m in
  let owner := if parallel then [write_p_data_array OMEGA_H_I32 n_owner 1] else [] in
  [mkTag vtkfile START [(a_vtk_type, punstructured_grid)];
   mkTag punstructured_grid START [(a_ghost_level, zero_text)];
   ptag ppoints START;
   write_p_data_array OMEGA_H_F64 n_coordinates 3;
   ptag ppoints END;
   ptag ppoint_data START;
   write_p_data_array OMEGA_H_I32 n_local 1] ++ owner ++
  (match find_tag (vm_tags m 0) n_global with
   | Some _ => [write_p_data_array OMEGA_H_I64 n_global 1]
   | None => []
   end) ++
  concat (map (fun t => write_p_tag t (vm_dim m)) (filter not_coords_or_global (vm_tags m 0))) ++
  [ptag ppoint_data END;
   ptag pcell_data START;
   write_p_data_array OMEGA_H_I32 n_local 1] ++ owner ++
  concat (map (fun t => write_p_tag t (vm_dim m)) (vm_tags m cell_dim)) ++
  [ptag pcell_data END] ++
  map (piece_line piecepath) (ranks (vm_comm_size m)) ++
  [ptag punstructured_grid END; ptag vtkfile END].

(** The loop of [read_pvtu(stream, comm, ...)] over the lines (lines
    570-579): the number of [Piece] tags and the [Source] of the one at
    the reader's rank. *)
Fixpoint scan_pieces (rank : Z) (lines : list (option xml_tag)) (npieces : Z)
    (vtupath : String.string) : Z * String.string :=
  match lines with
  | [] => (npieces, vtupath)
  | None :: r => scan_pieces rank r npieces vtupath
  | Some t :: r =>
      if negb (String.eqb (elem_name t) piece) then scan_pieces rank r npieces vtupath
      else scan_pieces rank r (npieces + 1) (if npieces =? rank then attrib t a_source else vtupath)
  end.

(** [read_pvtu(stream, comm, &npieces, &vtupath)] (lines 567-584). *)
Definition read_pvtu (rank size : Z) (lines : list (option xml_tag)) : outcome unit (Z * String.string) :=
  let '(npieces, vtupath) := scan_pieces rank lines 0 String.EmptyString in
  (check (1 <=? npieces) npieces_min_msg ;;
   check (npieces <=? size) npieces_max_msg ;;
   ret (npieces, vtupath)) tt.

Lemma scan_pieces_skip rank l rest n v :
  Forall (fun t => String.eqb (elem_name t) piece = false) l ->
  scan_pieces rank (map Some l ++ rest) n v = scan_pieces rank rest n v.
Proof.
  induction 1 as [|t l Ht _ IH]; [reflexivity|]. cbn [map app scan_pieces]. rewrite Ht. exact IH.
Qed.

Lemma scan_pieces_lines rank pp k s rest v :
  scan_pieces rank (map Some (map (piece_line pp) (map Z.of_nat (seq s k))) ++ rest) (Z.of_nat s) v =
  scan_pieces rank rest (Z.of_nat (s + k))
    (if (Z.of_nat s <=? rank) && (rank <? Z.of_nat (s + k)) then piece_filename pp rank else v).
Proof.
  revert s v. induction k as [|k IH]; intros s v.
  - cbn [seq map app]. rewrite Nat.add_0_r.
    replace ((Z.of_nat s <=? rank) && (rank <? Z.of_nat s)) with false by
      (symmetry; apply andb_false_iff; destruct (Z.leb_spec (Z.of_nat s) rank); [right; apply Z.ltb_ge|left]; lia).
    reflexivity.
  - cbn [seq map app scan_pieces]. unfold piece_line at 1. cbn [elem_name].
    rewrite string_eqb_refl. cbn [negb].
    replace (Z.of_nat s + 1) with (Z.of_nat (S s)) by lia. rewrite IH.
    replace (S s + k)%nat with (s + S k)%nat by lia. f_equal.
    destruct (Z.eqb_spec (Z.of_nat s) rank) as [<- | Hne].
    + change (attrib (mkTag piece SELF_CLOSING [(a_source, piece_filename pp (Z.of_nat s))]) a_source)
        with (piece_filename pp (Z.of_nat s)).
      replace ((Z.of_nat (S s) <=? Z.of_nat s)) with false by (symmetry; apply Z.leb_gt; lia).
      replace ((Z.of_nat s <=? Z.of_nat s) && (Z.of_nat s <? Z.of_nat (s + S k))) with true
        by (symmetry; apply andb_true_iff; split; [apply Z.leb_le | apply Z.ltb_lt]; lia).
      reflexivity.
    + replace ((Z.of_nat (S s) <=? rank)) with (Z.of_nat s <=? rank) by
        (destruct (Z.leb_spec (Z.of_nat s) rank), (Z.leb_spec (Z.of_nat (S s)) rank); lia).
      reflexivity.
Qed.

Lemma write_p_tag_names t sd :
  Forall (fun u => String.eqb (elem_name u) piece = false) (write_p_tag t sd).
Proof.
  unfold write_p_tag. destruct (negb (vt_viz t)); [constructor|].
  destruct (_ && _); repeat constructor.
Qed.

Lemma concat_map_Forall {A B} (P : B -> Prop) (f : A -> list B) l :
  (forall x, Forall P (f x)) -> Forall P (concat (map f l)).
Proof. intros H. induction l as [|x l IH]; [constructor|]. cbn. apply Forall_app. auto. Qed.

(** C17: the [.pvtu] file [write_pvtu] writes on a communicator of size
    [n] is read by [read_pvtu] on every rank [r < n] of a communicator of
    that size as [n] pieces, the rank's piece being the file
    [piece_filename(piecepath, r)]. *)
Theorem read_pvtu_write_pvtu m d pp rank :
  0 <= rank < vm_comm_size m ->
  read_pvtu rank (vm_comm_size m) (map Some (write_pvtu m d pp)) =
  Ok (vm_comm_size m, piece_filename pp rank) tt.
Proof.
  intros Hr. unfold write_pvtu, read_pvtu. rewrite !map_app.
  set (owner := if 1 <? vm_comm_size m then _ else _).
  set (global := match find_tag (vm_tags m 0) n_global with Some _ => _ | None => _ end).
  assert (Ho : Forall (fun t => String.eqb (elem_name t) piece = false) owner)
    by (unfold owner; destruct (1 <? vm_comm_size m); repeat constructor).
  assert (Hg : Forall (fun t => String.eqb (elem_name t) piece = false) global)
    by (unfold global; destruct (find_tag _ _); repeat constructor).
  rewrite <- ?app_assoc.
  rewrite (scan_pieces_skip _ [_; _; _; _; _; _; _]) by repeat constructor.
  rewrite scan_pieces_skip by exact Ho. rewrite scan_pieces_skip by exact Hg.
  rewrite scan_pieces_skip by (apply concat_map_Forall; intros; apply write_p_tag_names).
  rewrite (scan_pieces_skip _ [_; _; _]) by repeat constructor.
  rewrite scan_pieces_skip by exact Ho.
  rewrite scan_pieces_skip by (apply concat_map_Forall; intros; apply write_p_tag_names).
  rewrite (scan_pieces_skip _ [_]) by repeat constructor.
  unfold ranks. change 0 with (Z.of_nat 0). rewrite scan_pieces_lines.
  rewrite <- (app_nil_r (map Some [ptag punstructured_grid END; ptag vtkfile END])).
  rewrite (scan_pieces_skip _ [_; _] []) by repeat constructor.
  cbn [scan_pieces]. rewrite Nat.add_0_l, Z2Nat.id by lia.
  replace ((Z.of_nat 0 <=? rank) && (rank <? vm_comm_size m)) with true
    by (symmetry; apply andb_true_iff; split; [apply Z.leb_le | apply Z.ltb_lt]; lia).
  replace (1 <=? vm_comm_size m) with true by (symmetry; apply Z.leb_le; lia).
  rewrite Z.leb_refl. reflexivity.
Qed.

(** ** The files *)

Inductive content : Type :=
| Dir
| VtuFile (items : list item)
| PvtuFile (lines : list xml_tag)
| TextFile (text : String.string).

(** The file system shared by the ranks: the most recent write of a path
    first. *)
Abbreviation files := (list (String.string * content)).

Definition fs_get (f : files) (p : String.string) : option content :=
  option_map snd (find (fun e => String.eqb (fst e) p) f).

(** Opening [p] for writing and writing [c]: the old content is gone. *)
Definition write_file (p : String.string) (c : content) : comp files unit := fun f =>
  Ok tt ((p, c) :: filter (fun e => negb (String.eqb (fst e) p)) f).

(** [safe_mkdir(path)] (file.cpp): [mkdir], an existing entry is no
    error. *)
Definition safe_mkdir (p : String.string) : comp files unit := fun f =>
  match fs_get f p with
  | Some _ => Ok tt f
  | None => Ok tt ((p, Dir) :: f)
  end.

Section Messages3.
Local Open Scope string_scope.
Definition write_fail_msg : String.string := "get_tag: no such tag".
Definition open_msg : String.string := "couldn't open".
Definition is_open_msg : String.string := "vtustream.is_open()".
Definition parent_msg : String.string := "pos != std::string::npos".
End Messages3.

Section Parallel.
Context {B : Base64} {C : Compressor}.
Variables (use_zlib : bool).

(** The ranks' meshes: [ms r] on rank [r]; they share the communicator,
    of size [vm_comm_size (ms 0)]; [cpu r] is the byte order of rank
    [r]'s CPU. *)
Variables (ms : Z -> vmesh) (cpu : Z -> bool).

(** [write_vtu(filename, mesh, cell_dim)] (lines 517-521) on rank [r]. *)
Definition write_vtu_file (filename : String.string) (r : Z) (cell_dim : Z) : comp files unit :=
  match write_vtu use_zlib (cpu r) (ms r) cell_dim with
  | Some items => write_file filename (VtuFile items)
  | None => abort write_fail_msg
  end.

Fixpoint write_pieces (piecepath : String.string) (cell_dim : Z) (rs : list Z) : comp files unit :=
  match rs with
  | [] => ret tt
  | r :: rs' => write_vtu_file (piece_filename piecepath r) r cell_dim ;;
                write_pieces piecepath cell_dim rs'
  end.

(** [write_parallel(path, mesh, cell_dim)] (lines 601-618) run by all
    ranks: rank 0 makes the directories and writes the [.pvtu] file
    between the barriers, then every rank writes its piece (in rank
    order; the pieces have different names). *)
Definition write_parallel (path : String.string) (cell_dim : Z) : comp files unit :=
  let piecesdir := String.append path pieces_dir in
  let piecepath := String.append piecesdir piece_prefix in
  safe_mkdir path ;;
  safe_mkdir piecesdir ;;
  write_file (get_pvtu_path path) (PvtuFile (write_pvtu (ms 0) cell_dim rel_piecepath)) ;;
  write_pieces piecepath cell_dim (ranks (vm_comm_size (ms 0))).

End Parallel.

Section ReadParallel.
Context {B : Base64} {C : Compressor}.
Variables (use_zlib : bool).

(** [read_pvtu(pvtupath, comm, ...)] (lines 586-599): the number of
    pieces and the path of the rank's piece. *)
Definition read_pvtu_file (f : files) (pvtupath : String.string) (rank size : Z)
    : outcome unit (Z * String.string) :=
  match fs_get f pvtupath with
  | Some (PvtuFile lines) =>
      match read_pvtu rank size (map Some lines) with
      | Ok (npieces, vtupath) _ =>
          match parent_path pvtupath with
          | Some parent => Ok (npieces, String.append parent (String.append slash vtupath)) tt
          | None => Abort parent_msg tt
          end
      | Abort w _ => Abort w tt
      | OutOfFuel => OutOfFuel
      end
  | _ => Abort open_msg tt
  end.

(** [read_parallel(pvtupath, comm, mesh)] (lines 620-632) on rank
    [rank] of a communicator of size [size] whose CPU has byte order
    [rcpu]: the ranks below the number of pieces read their piece with
    the sub-communicator of those ranks ([others] are the values the
    other ranks of it contribute to reductions); the others read nothing
    ([None]). *)
Definition read_parallel (f : files) (pvtupath : String.string) (rank size : Z) (rcpu : bool)
    (others : list Z) : outcome unit (option rmesh) :=
  match read_pvtu_file f pvtupath rank size with
  | Ok (npieces, vtupath) _ =>
      if rank <? npieces then
        match fs_get f vtupath with
        | Some (VtuFile items) =>
            match read_vtu use_zlib rcpu (mkComm npieces others) items with
            | Ok m _ => Ok (Some m) tt
            | Abort w _ => Abort w tt
            | OutOfFuel => OutOfFuel
            end
        | _ => Abort is_open_msg tt
        end
      else Ok None tt
  | Abort w _ => Abort w tt
  | OutOfFuel => OutOfFuel
  end.

End ReadParallel.

(** ** Reading back a step written in parallel *)

Lemma fs_get_written p c f : fs_get ((p, c) :: filter (fun e => negb (String.eqb (fst e) p)) f) p = Some c.
Proof. unfold fs_get. cbn. rewrite string_eqb_refl. reflexivity. Qed.

Lemma fs_get_other p q c f :
  p <> q -> fs_get ((p, c) :: filter (fun e => negb (String.eqb (fst e) p)) f) q = fs_get f q.
Proof.
  intros Hpq. unfold fs_get. cbn [find fst]. destruct (String.eqb_spec p q) as [|_]; [contradiction|].
  induction f as [|[p' c'] f IH]; [reflexivity|]. cbn [filter find fst].
  destruct (String.eqb_spec p' p) as [-> | Hne]; cbn [negb].
  - destruct (String.eqb_spec p q); [contradiction|]. exact IH.
  - cbn [find fst]. destruct (String.eqb p' q); [reflexivity | exact IH].
Qed.

Lemma fs_get_mkdir p q f f' : safe_mkdir p f = Ok tt f' -> p <> q -> fs_get f' q = fs_get f q.
Proof.
  unfold safe_mkdir. intros H Hpq. destruct (fs_get f p); injection H as <-; [reflexivity|].
  unfold fs_get. cbn [find fst]. destruct (String.eqb_spec p q); [contradiction | reflexivity].
Qed.

Lemma piece_filename_inj pp r1 r2 :
  INT_MIN <= r1 <= INT_MAX -> INT_MIN <= r2 <= INT_MAX ->
  piece_filename pp r1 = piece_filename pp r2 -> r1 = r2.
Proof.
  unfold piece_filename. intros H1 H2 E. apply string_append_cancel_l in E. injection E as E.
  eapply print_int_inj in E; [exact (proj1 E) | exact H1 | exact H2 | reflexivity | reflexivity].
Qed.

Lemma pvtu_not_piece path r :
  get_pvtu_path path <> piece_filename (String.append (String.append path pieces_dir) piece_prefix) r.
Proof.
  unfold get_pvtu_path, piece_filename. rewrite <- !string_append_assoc.
  intros E. apply string_append_cancel_l in E. discriminate E.
Qed.

Lemma parent_path_pvtu path : parent_path (get_pvtu_path path) = Some path.
Proof.
  unfold parent_path, get_pvtu_path.
  assert (L : forall a b i f, last_slash (String.append a b) i f =
                              last_slash b (i + String.length a) (last_slash a i f)).
  { induction a as [|c a IH]; intros b i f; cbn [String.append last_slash String.length].
    - rewrite Nat.add_0_r. reflexivity.
    - rewrite IH. f_equal. lia. }
  rewrite L. cbn. rewrite substring_app_prefix. reflexivity.
Qed.

(** ** What the [.pvtu] declares against what the pieces hold *)

(** The array headers of a piece: its [DataArray] start tags. *)
Definition array_headers (xs : xstream) : list xml_tag :=
  flat_map (fun it => match it with
                      | ITag t => if String.eqb (elem_name t) data_array && tag_kind_eqb (tag_type t) START
                                  then [t] else []
                      | IText _ => []
                      end) xs.

(** The [PDataArray] line that declares an array of that header. *)
Definition as_p_data_array (t : xml_tag) : xml_tag := mkTag pdata_array SELF_CLOSING (attribs t).

Section PieceHeaders.
Context {B : Base64} {C : Compressor}.
Variables (use_zlib cpu_le : bool).

Lemma array_headers_write_array {T} {S : Serial T} ty name n (a : list T) :
  map as_p_data_array (array_headers (write_array use_zlib cpu_le ty name n a)) =
  [write_p_data_array ty name n].
Proof. reflexivity. Qed.

(** C24: for a 2D or 3D mesh, [write_p_tag] declares each tag exactly as
    [write_tag] writes it in the pieces: same type, name and number of
    components (a 2-vector field is declared and written with 3), and
    nothing for a tag without [OMEGA_H_DO_VIZ]. *)
Theorem write_p_tag_declares_piece_arrays t sd :
  sd = 2 \/ sd = 3 ->
  write_p_tag t sd = map as_p_data_array (array_headers (write_tag use_zlib cpu_le t sd)).
Proof.
  intros Hsd. unfold write_p_tag, write_tag.
  destruct (vt_viz t); [|reflexivity]. cbn [negb].
  destruct (vt_data t); cbn [tag_array_type omega_type_eq_dec andb];
    rewrite ?array_headers_write_array; try reflexivity.
  destruct (Z.eqb_spec (vt_ncomps t) sd) as [E|E].
  - destruct Hsd as [-> | ->]; cbn [Z.eqb Pos.eqb andb]; rewrite E; cbn [Z.eqb Pos.eqb];
      rewrite array_headers_write_array; reflexivity.
  - destruct (sd =? 2); reflexivity.
Qed.

(** on a 1D mesh the two disagree: a one-component [Real] field is
    declared in the [.pvtu] with 3 components ([ncomps == space_dim]),
    while each piece writes it with 1 ([write_tag] pads only in 2D). *)
Theorem write_p_tag_edge_mesh_mismatch t a :
  vt_viz t = true -> vt_data t = ArrF64 a -> vt_ncomps t = 1 ->
  write_p_tag t 1 = [write_p_data_array OMEGA_H_F64 (vt_name t) 3] /\
  map as_p_data_array (array_headers (write_tag use_zlib cpu_le t 1)) =
    [write_p_data_array OMEGA_H_F64 (vt_name t) 1].
Proof.
  intros Hv Hd Hn. unfold write_p_tag, write_tag. rewrite Hv, Hd, Hn. split; reflexivity.
Qed.
End PieceHeaders.

Section ParallelRoundTrip.
Context {B : Base64} {C : Compressor}.
Variables (use_zlib : bool) (ms : Z -> vmesh) (cpu : Z -> bool).

Lemma write_pieces_spec pp d rs f f' :
  write_pieces use_zlib ms cpu pp d rs f = Ok tt f' -> NoDup rs ->
  Forall (fun r => INT_MIN <= r <= INT_MAX) rs ->
  (forall q, (forall r, In r rs -> q <> piece_filename pp r) -> fs_get f' q = fs_get f q) /\
  (forall r, In r rs -> exists items, write_vtu use_zlib (cpu r) (ms r) d = Some items /\
                       fs_get f' (piece_filename pp r) = Some (VtuFile items)).
Proof.
  revert f. induction rs as [|r rs IH]; intros f Hw Hnd Hint.
  - injection Hw as <-. split; [reflexivity | intros r []].
  - inversion Hnd as [|? ? Hr Hnd']; subst. inversion Hint as [|? ? Hr1 Hint']; subst.
    cbn [write_pieces] in Hw. apply bind_inv in Hw as ([] & f1 & H1 & H2).
    unfold write_vtu_file in H1. destruct (write_vtu use_zlib (cpu r) (ms r) d) as [items|] eqn:Ew;
      [|discriminate]. injection H1 as <-.
    destruct (IH _ H2 Hnd' Hint') as [Hkeep Hnew].
    assert (Hne : forall r', In r' rs -> piece_filename pp r <> piece_filename pp r').
    { intros r' Hin E. apply piece_filename_inj in E; [subst; contradiction | exact Hr1 |].
      rewrite Forall_forall in Hint'. auto. }
    split.
    + intros q Hq. rewrite Hkeep by (intros r' Hin; apply Hq; right; exact Hin).
      apply fs_get_other. intros E. apply (Hq r); [left; reflexivity | symmetry; exact E].
    + intros r' [<- | Hin].
      * exists items. split; [exact Ew|]. rewrite Hkeep by exact Hne. apply fs_get_written.
      * apply Hnew, Hin.
Qed.

Lemma ranks_spec n : NoDup (ranks n) /\ forall r, In r (ranks n) <-> 0 <= r < n.
Proof.
  unfold ranks. split.
  - apply Finite.Injective_map_NoDup; [intros a b; lia | apply seq_NoDup].
  - intros r. rewrite in_map_iff. split.
    + intros (k & <- & Hk). apply in_seq in Hk. lia.
    + intros Hr. exists (Z.to_nat r). rewrite in_seq. split; lia.
Qed.

(** [read_parallel] after [write_parallel]: the piece of the rank. *)
Lemma write_parallel_read path d f f' rank rcpu others :
  write_parallel use_zlib ms cpu path d f = Ok tt f' ->
  0 <= rank < vm_comm_size (ms 0) -> vm_comm_size (ms 0) <= INT_MAX ->
  exists items, write_vtu use_zlib (cpu rank) (ms rank) d = Some items /\
    read_parallel use_zlib f' (get_pvtu_path path) rank (vm_comm_size (ms 0)) rcpu others =
    match read_vtu use_zlib rcpu (mkComm (vm_comm_size (ms 0)) others) items with
    | Ok m _ => Ok (Some m) tt
    | Abort w _ => Abort w tt
    | OutOfFuel => OutOfFuel
    end.
Proof.
  intros Hw Hr Hn. unfold write_parallel in Hw.
  apply bind_inv in Hw as ([] & f1 & _ & Hw).
  apply bind_inv in Hw as ([] & f2 & _ & Hw).
  apply bind_inv in Hw as ([] & f3 & H3 & Hw). injection H3 as <-.
  destruct (ranks_spec (vm_comm_size (ms 0))) as [Hnd Hin].
  destruct (write_pieces_spec _ _ _ _ _ Hw Hnd) as [Hkeep Hnew].
  { apply Forall_forall. intros r Hr'. apply Hin in Hr'. unfold INT_MIN, INT_MAX in *. lia. }
  destruct (Hnew rank (proj2 (Hin rank) Hr)) as (items & Ew & Eg).
  exists items. split; [exact Ew|].
  unfold read_parallel, read_pvtu_file.
  rewrite Hkeep by (intros r _; apply pvtu_not_piece). rewrite fs_get_written.
  rewrite read_pvtu_write_pvtu by lia. rewrite parent_path_pvtu.
  replace (rank <? vm_comm_size (ms 0)) with true by (symmetry; apply Z.ltb_lt; lia).
  replace (String.append path (String.append slash (piece_filename rel_piecepath rank)))
    with (piece_filename (String.append (String.append path pieces_dir) piece_prefix) rank)
    by (unfold piece_filename; rewrite <- !string_append_assoc; reflexivity).
  rewrite Eg. reflexivity.
Qed.

(** C16: each rank reads back its own piece.  After [write_parallel]
    wrote a step on [n] ranks, [read_parallel] on rank [r < n] of a
    communicator of size [n] finds the [.pvtu] file, its [n] pieces, and
    reads with [read_vtu] exactly the file [write_vtu] wrote for rank
    [r]. *)
Theorem read_parallel_write_parallel path d f f' rank rcpu others :
  write_parallel use_zlib ms cpu path d f = Ok tt f' ->
  0 <= rank < vm_comm_size (ms 0) -> vm_comm_size (ms 0) <= INT_MAX ->
  exists items, write_vtu use_zlib (cpu rank) (ms rank) d = Some items /\
    read_parallel use_zlib f' (get_pvtu_path path) rank (vm_comm_size (ms 0)) rcpu others =
    match read_vtu use_zlib rcpu (mkComm (vm_comm_size (ms 0)) others) items with
    | Ok m _ => Ok (Some m) tt
    | Abort w _ => Abort w tt
    | OutOfFuel => OutOfFuel
    end.
Proof. apply write_parallel_read. Qed.

End ParallelRoundTrip.

(** ** The [.pvd] collection *)

Definition cat (l : list String.string) : String.string := fold_right String.append String.EmptyString l.

Definition quote : String.string := String.String (ascii_of_nat 34) String.EmptyString.
Definition nl : String.string := String.String (ascii_of_nat 10) String.EmptyString.

Section PvdText.
Local Open Scope string_scope.

(** The lines [write_initial_pvd] writes before and after the position
    it returns (lines 634-644). *)
Definition pvd_header : String.string :=
  cat ["<VTKFile type="; quote; "Collection"; quote; " version="; quote; "0.1"; quote; ">"; nl;
       "<Collection>"; nl].

Definition pvd_footer : String.string := cat ["</Collection>"; nl; "</VTKFile>"; nl].

(** The line [update_pvd] writes for a step (lines 652-656); how
    [operator<<] prints the time is [print_real]. *)
Definition dataset_line (time_text : String.string) (step : Z) : String.string :=
  cat ["<DataSet timestep="; quote; time_text; quote; " part="; quote; "0"; quote; " ";
       "file="; quote; get_pvtu_path (get_rel_step_path step); quote; "/>"; nl].

Definition pvd_open_msg : String.string := "file.is_open()".
Definition steps_dir : String.string := "/steps".
End PvdText.

(** Writing [s] at position [pos] of [t] through a [std::fstream]: the
    characters from [pos] on are replaced, those beyond stay. *)
Definition overwrite (t : String.string) (pos : nat) (s : String.string) : String.string :=
  String.append (String.substring 0 pos t)
    (String.append s (String.substring (pos + String.length s)
                        (String.length t - (pos + String.length s)) t)).

(** [write_initial_pvd(root_path)] (lines 634-644): the position after
    [<Collection>]. *)
Definition write_initial_pvd (root_path : String.string) : comp files nat :=
  write_file (get_pvd_path root_path) (TextFile (String.append pvd_header pvd_footer)) ;;
  ret (String.length pvd_header).

(** [update_pvd(root_path, &pos, step, time)] (lines 646-660) with the
    time printed as [time_text]: the new position. *)
Definition update_pvd (root_path : String.string) (pos : nat) (step : Z) (time_text : String.string)
    : comp files nat := fun f =>
  let p := get_pvd_path root_path in
  match fs_get f p with
  | Some (TextFile t) =>
      let line := dataset_line time_text step in
      let t' := overwrite t pos (String.append line pvd_footer) in
      (write_file p (TextFile t') ;; ret (pos + String.length line)%nat) f
  | _ => Abort pvd_open_msg f
  end.

(** ** The writers *)

(** [Writer] (lines 690-741): its members but the mesh, which each
    write is given. *)
Record writer : Type := mkWriter {
  w_root : String.string;
  w_cell_dim : Z;
  w_step : Z;
  w_pvd_pos : nat
}.

Section Writers.
Context {B : Base64} {C : Compressor}.
Variables (use_zlib : bool) (cpu : Z -> bool).
(** [operator<<] on a [Real], and [Real(step_)]. *)
Variables (print_real : Real -> String.string) (real_of_int : Z -> Real).
(** [plural_names[DIMS]]. *)
Variable (plural_names : Z -> String.string).

(** [Writer::Writer(mesh, root_path, cell_dim)] (lines 715-731). *)
Definition writer_new (root_path : String.string) (cell_dim : Z) : comp files writer :=
  safe_mkdir root_path ;;
  safe_mkdir (String.append root_path steps_dir) ;;
  pos <- write_initial_pvd root_path ;;
  ret (mkWriter root_path cell_dim 0 pos).

(** [Writer::write(time)] (lines 733-739) with the mesh [ms] as it is
    now on each rank. *)
Definition writer_write (ms : Z -> vmesh) (w : writer) (time : Real) : comp files writer :=
  write_parallel use_zlib ms cpu (get_step_path (w_root w) (w_step w)) (w_cell_dim w) ;;
  pos <- update_pvd (w_root w) (w_pvd_pos w) (w_step w) (print_real time) ;;
  ret (mkWriter (w_root w) (w_cell_dim w) (w_step w + 1) pos).

(** [Writer::write()] (line 741). *)
Definition writer_write_step (ms : Z -> vmesh) (w : writer) : comp files writer :=
  writer_write ms w (real_of_int (w_step w)).

(** A sequence of [Writer::write(time)] calls, each with the mesh of
    that time. *)
Fixpoint writer_writes (w : writer) (calls : list ((Z -> vmesh) * Real)) : comp files writer :=
  match calls with
  | [] => ret w
  | (ms, time) :: r => w' <- writer_write ms w time ;; writer_writes w' r
  end.

Fixpoint full_writers (root_path : String.string) (dims : list Z) : comp files (list writer) :=
  match dims with
  | [] => ret []
  | i :: r =>
      w <- writer_new (String.append root_path (String.append slash (plural_names i))) i ;;
      ws <- full_writers root_path r ;;
      ret (w :: ws)
  end.

(** [FullWriter::FullWriter(mesh, root_path)] (lines 754-761): a writer
    for each dimension from [EDGE] to [mesh->dim()]. *)
Definition full_writer_new (root_path : String.string) (dim : Z) : comp files (list writer) :=
  safe_mkdir root_path ;;
  full_writers root_path (map Z.of_nat (seq 1 (Z.to_nat dim))).

(** [FullWriter::write(time)] (lines 763-765). *)
Fixpoint full_write (ms : Z -> vmesh) (ws : list writer) (time : Real) : comp files (list writer) :=
  match ws with
  | [] => ret []
  | w :: r => w' <- writer_write ms w time ;; r' <- full_write ms r time ;; ret (w' :: r')
  end.

(** [FullWriter::write()] (lines 767-769): every writer writes with the
    time [Real(step_)] of its own step. *)
Fixpoint full_write_step (ms : Z -> vmesh) (ws : list writer) : comp files (list writer) :=
  match ws with
  | [] => ret []
  | w :: r => w' <- writer_write_step ms w ;; r' <- full_write_step ms r ;; ret (w' :: r')
  end.

End Writers.

(** ** What the writers leave in the files *)

Lemma substring_zero n s : String.substring n 0 s = String.EmptyString.
Proof. revert s. induction n as [|n IH]; intros [|c s]; cbn; auto. Qed.

Lemma cat_app l1 l2 : cat (l1 ++ l2) = String.append (cat l1) (cat l2).
Proof.
  unfold cat. induction l1 as [|x l IH]; cbn [app fold_right]; [reflexivity|].
  rewrite IH, string_append_assoc. reflexivity.
Qed.

Lemma cat_one x : cat [x] = x.
Proof. apply string_append_nil_r. Qed.

(** Overwriting the closing lines at the position before them with a new
    line and the closing lines leaves nothing of the old text behind. *)
Lemma overwrite_footer p line :
  overwrite (String.append p pvd_footer) (String.length p) (String.append line pvd_footer) =
  String.append p (String.append line pvd_footer).
Proof.
  unfold overwrite. rewrite substring_app_prefix.
  rewrite !string_length_append.
  replace (String.length p + String.length pvd_footer -
           (String.length p + (String.length line + String.length pvd_footer)))%nat with 0%nat by lia.
  rewrite substring_zero, string_append_nil_r. reflexivity.
Qed.

Lemma write_file_frame p c q f f' : write_file p c f = Ok tt f' -> p <> q -> fs_get f' q = fs_get f q.
Proof. unfold write_file. intros H Hpq. injection H as <-. apply fs_get_other, Hpq. Qed.

Section Frames.
Context {B : Base64} {C : Compressor}.
Variables (use_zlib : bool) (ms : Z -> vmesh) (cpu : Z -> bool).

Lemma write_pieces_frame pp d rs q f f' :
  write_pieces use_zlib ms cpu pp d rs f = Ok tt f' -> (forall s, q <> String.append pp s) ->
  fs_get f' q = fs_get f q.
Proof.
  revert f. induction rs as [|r rs IH]; intros f Hw Hq; cbn [write_pieces] in Hw.
  - injection Hw as <-. reflexivity.
  - apply bind_inv in Hw as ([] & f1 & H1 & H2). rewrite (IH _ H2 Hq).
    unfold write_vtu_file in H1. destruct (write_vtu _ _ _ _); [|discriminate].
    apply (write_file_frame _ _ _ _ _ H1). intros E. apply (Hq _ (eq_sym E)).
Qed.

(** [write_parallel(path, ...)] changes only [path] and paths below it:
    [path] followed by text that does not start with a digit (so the
    step [1] does not touch the files of the step [12]). *)
Lemma write_parallel_frame path d q f f' :
  write_parallel use_zlib ms cpu path d f = Ok tt f' ->
  (forall s, starts_non_digit s = true -> q <> String.append path s) ->
  fs_get f' q = fs_get f q.
Proof.
  intros Hw Hq. unfold write_parallel in Hw.
  apply bind_inv in Hw as ([] & f1 & H1 & Hw).
  apply bind_inv in Hw as ([] & f2 & H2 & Hw).
  apply bind_inv in Hw as ([] & f3 & H3 & H4).
  rewrite (write_pieces_frame _ _ _ _ _ _ H4)
    by (intros s E; apply (Hq (String.append pieces_dir (String.append piece_prefix s)) eq_refl);
        rewrite E, !string_append_assoc; reflexivity).
  rewrite (write_file_frame _ _ _ _ _ H3) by (intros E; eapply Hq; [|exact (eq_sym E)]; reflexivity).
  rewrite (fs_get_mkdir _ _ _ _ H2) by (intros E; exact (Hq pieces_dir eq_refl (eq_sym E))).
  apply (fs_get_mkdir _ _ _ _ H1).
  intros E. apply (Hq String.EmptyString eq_refl). rewrite string_append_nil_r. symmetry. exact E.
Qed.

(** The [.pvtu] file of the step is the one rank 0 wrote. *)
Lemma write_parallel_pvtu path d f f' :
  write_parallel use_zlib ms cpu path d f = Ok tt f' ->
  fs_get f' (get_pvtu_path path) = Some (PvtuFile (write_pvtu (ms 0) d rel_piecepath)).
Proof.
  intros Hw. unfold write_parallel in Hw.
  apply bind_inv in Hw as ([] & f1 & _ & Hw).
  apply bind_inv in Hw as ([] & f2 & _ & Hw).
  apply bind_inv in Hw as ([] & f3 & H3 & H4). injection H3 as <-.
  rewrite (write_pieces_frame _ _ _ _ _ _ H4).
  - apply fs_get_written.
  - intros s E. unfold get_pvtu_path in E. rewrite <- !string_append_assoc in E.
    apply string_append_cancel_l in E. discriminate E.
Qed.

End Frames.

(** The [.pvd] file is not inside the directory of a step. *)
Lemma pvd_not_in_step root k s : get_pvd_path root <> String.append (get_step_path root k) s.
Proof.
  unfold get_pvd_path, get_step_path, get_rel_step_path. rewrite <- !string_append_assoc.
  intros E. apply string_append_cancel_l in E. discriminate E.
Qed.

(** The text of the [.pvd] file listing [lines]. *)
Definition pvd_text (lines : list String.string) : String.string :=
  String.append pvd_header (String.append (cat lines) pvd_footer).

Lemma update_pvd_ok root pos step txt lines f :
  fs_get f (get_pvd_path root) = Some (TextFile (pvd_text lines)) ->
  pos = String.length (String.append pvd_header (cat lines)) ->
  exists f', update_pvd root pos step txt f =
             Ok (pos + String.length (dataset_line txt step))%nat f' /\
    fs_get f' (get_pvd_path root) = Some (TextFile (pvd_text (lines ++ [dataset_line txt step]))) /\
    forall q, q <> get_pvd_path root -> fs_get f' q = fs_get f q.
Proof.
  intros Hf Hp. unfold update_pvd. rewrite Hf. cbn [bind write_file ret].
  eexists. split; [reflexivity|]. split.
  - rewrite fs_get_written. f_equal. f_equal. unfold pvd_text. rewrite Hp.
    rewrite (string_append_assoc pvd_header (cat lines) pvd_footer), overwrite_footer.
    rewrite cat_app, cat_one, <- !string_append_assoc. reflexivity.
  - intros q Hq. apply fs_get_other. intros E. apply Hq. symmetry. exact E.
Qed.

(** The [DataSet] lines of a sequence of writes from step [k] on. *)
Fixpoint step_lines (print_real : Real -> String.string) (calls : list ((Z -> vmesh) * Real)) (k : Z)
    : list String.string :=
  match calls with
  | [] => []
  | (_, time) :: r => dataset_line (print_real time) k :: step_lines print_real r (k + 1)
  end.

Lemma pvtu_not_pvd root k : get_pvtu_path (get_step_path root k) <> get_pvd_path root.
Proof. intros E. eapply pvd_not_in_step. symmetry. exact E. Qed.

(** [update_pvd] changes only the [.pvd] file. *)
Lemma update_pvd_frame root pos step txt q f p f' :
  update_pvd root pos step txt f = Ok p f' -> q <> get_pvd_path root -> fs_get f' q = fs_get f q.
Proof.
  unfold update_pvd. destruct (fs_get f (get_pvd_path root)) as [[]|]; try discriminate.
  cbn [bind write_file ret]. intros H Hq. injection H as _ <-.
  apply fs_get_other. intros E. apply Hq. symmetry. exact E.
Qed.

(** Distinct steps have distinct directories, and neither is a prefix
    of a path below the other: [step_1/...] is not below [step_12]. *)
Lemma step_path_distinct root j k s1 s2 :
  0 <= j <= INT_MAX -> 0 <= k <= INT_MAX -> j <> k ->
  starts_non_digit s1 = true -> starts_non_digit s2 = true ->
  String.append (get_step_path root j) s1 <> String.append (get_step_path root k) s2.
Proof.
  intros Hj Hk Hjk N1 N2 E. unfold get_step_path, get_rel_step_path in E.
  rewrite <- !string_append_assoc in E.
  do 3 apply string_append_cancel_l in E.
  apply print_int_inj in E as [? _]; auto; unfold INT_MIN, INT_MAX in *; lia.
Qed.

Section WriterRun.
Context {B : Base64} {C : Compressor}.
Variables (use_zlib : bool) (cpu : Z -> bool) (print_real : Real -> String.string).

Lemma writer_new_spec root cd f f' w :
  writer_new root cd f = Ok w f' ->
  w = mkWriter root cd 0 (String.length pvd_header) /\
  fs_get f' (get_pvd_path root) = Some (TextFile (pvd_text [])).
Proof.
  unfold writer_new, write_initial_pvd. intros H.
  apply bind_inv in H as ([] & f1 & _ & H).
  apply bind_inv in H as ([] & f2 & _ & H).
  apply bind_inv in H as (pos & f3 & H3 & H4).
  apply bind_inv in H3 as ([] & f4 & H5 & H6). injection H6 as <- <-. injection H4 as <- <-.
  split; [reflexivity|]. injection H5 as <-. rewrite fs_get_written. reflexivity.
Qed.

Lemma writer_writes_spec calls : forall w f f' w' lines,
  fs_get f (get_pvd_path (w_root w)) = Some (TextFile (pvd_text lines)) ->
  w_pvd_pos w = String.length (String.append pvd_header (cat lines)) ->
  writer_writes use_zlib cpu print_real w calls f = Ok w' f' ->
  fs_get f' (get_pvd_path (w_root w)) =
    Some (TextFile (pvd_text (lines ++ step_lines print_real calls (w_step w)))) /\
  w_root w' = w_root w /\ w_step w' = w_step w + Z.of_nat (length calls) /\
  w_cell_dim w' = w_cell_dim w.
Proof.
  induction calls as [|[ms time] calls IH]; intros w f f' w' lines Hf Hp Hw; cbn [writer_writes] in Hw.
  - injection Hw as <- <-. rewrite app_nil_r. cbn [length]. split; [exact Hf|]. split; [reflexivity | split; [lia | reflexivity]].
  - apply bind_inv in Hw as (w1 & f1 & H1 & H2). unfold writer_write in H1.
    apply bind_inv in H1 as ([] & fa & Ha & H1).
    rewrite <- (write_parallel_frame _ _ _ _ _ _ _ _ Ha (fun s _ => pvd_not_in_step _ _ s)) in Hf.
    destruct (update_pvd_ok (w_root w) (w_pvd_pos w) (w_step w) (print_real time) lines fa Hf Hp)
      as (fb & Hu & Hfb & _).
    unfold bind in H1. rewrite Hu in H1. injection H1 as <- <-.
    edestruct (IH (mkWriter (w_root w) (w_cell_dim w) (w_step w + 1)
                    (w_pvd_pos w + String.length (dataset_line (print_real time) (w_step w))))
                  fb f' w' _ Hfb) as (Hf' & Hr & Hs & Hc); [| exact H2 |].
    { cbn [w_pvd_pos]. rewrite Hp, cat_app, cat_one, !string_length_append. lia. }
    cbn [w_root w_step w_cell_dim] in Hf', Hr, Hs, Hc. rewrite <- app_assoc in Hf'.
    split; [exact Hf'|]. split; [exact Hr|]. cbn [length]. split; [lia | exact Hc].
Qed.

(** The [.pvd] text after the constructor and the writes. *)
Lemma writer_pvd_text root cd calls f f' w :
  (w0 <- writer_new root cd ;; writer_writes use_zlib cpu print_real w0 calls) f = Ok w f' ->
  fs_get f' (get_pvd_path root) = Some (TextFile (pvd_text (step_lines print_real calls 0))) /\
  w_step w = Z.of_nat (length calls).
Proof.
  intros H. apply bind_inv in H as (w0 & f0 & H0 & H1).
  destruct (writer_new_spec _ _ _ _ _ H0) as [-> Hf0].
  destruct (writer_writes_spec calls (mkWriter root cd 0 (String.length pvd_header)) f0 f' w [] Hf0)
    as (Hf & _ & Hs & _); [cbn [w_pvd_pos cat fold_right]; rewrite string_append_nil_r; reflexivity | exact H1 |].
  cbn [w_root w_step app] in Hf, Hs. split; [exact Hf | lia].
Qed.

(** C18: the [.pvd] collection of a [Writer].  After the constructor and
    any sequence of [write(time)] calls, the file [root/steps.pvd] lists
    one [DataSet] line per call, in order, with the time of the call and
    the [.pvtu] file of its step, between the opening and the closing
    lines: [update_pvd] overwrites the closing lines at the position it
    kept and writes them again after the new line. *)
Theorem writer_pvd_steps root cd calls f f' w :
  (w0 <- writer_new root cd ;; writer_writes use_zlib cpu print_real w0 calls) f = Ok w f' ->
  fs_get f' (get_pvd_path root) = Some (TextFile (pvd_text (step_lines print_real calls 0))) /\
  w_step w = Z.of_nat (length calls).
Proof. apply writer_pvd_text. Qed.



(** Writes from the step [w_step w] on change only the [.pvd] file and
    the directories of those steps. *)
Lemma writer_writes_frame calls : forall w f f' w' q,
  writer_writes use_zlib cpu print_real w calls f = Ok w' f' ->
  q <> get_pvd_path (w_root w) ->
  (forall j s, w_step w <= j < w_step w + Z.of_nat (length calls) -> starts_non_digit s = true ->
               q <> String.append (get_step_path (w_root w) j) s) ->
  fs_get f' q = fs_get f q.
Proof.
  induction calls as [|[ms time] calls IH]; intros w f f' w' q Hw Hp Hs; cbn [writer_writes] in Hw.
  - injection Hw as _ <-. reflexivity.
  - apply bind_inv in Hw as (w1 & f1 & H1 & H2). unfold writer_write in H1.
    apply bind_inv in H1 as ([] & fa & Ha & H1).
    apply bind_inv in H1 as (pos & fb & Hb & H1). injection H1 as <- <-.
    rewrite (IH _ _ _ _ _ H2 Hp)
      by (cbn [w_root w_step]; intros j s Hj; apply Hs; cbn [length]; lia).
    rewrite (update_pvd_frame _ _ _ _ _ _ _ _ Hb Hp).
    apply (write_parallel_frame _ _ _ _ _ _ _ _ Ha). intros s. apply Hs. cbn [length]. lia.
Qed.

Lemma writer_writes_app l1 l2 : forall w f,
  writer_writes use_zlib cpu print_real w (l1 ++ l2) f =
  (w1 <- writer_writes use_zlib cpu print_real w l1 ;; writer_writes use_zlib cpu print_real w1 l2) f.
Proof.
  induction l1 as [|[ms time] l1 IH]; intros w f; cbn [app writer_writes].
  - rewrite bind_ret. reflexivity.
  - rewrite bind_assoc. unfold bind at 1 2.
    destruct (writer_write _ _ _ _ _ _ f); try reflexivity. apply IH.
Qed.

(** Whatever the writes after it, the files below the directory of the
    [k]-th step are those [write_parallel] left for it. *)
Lemma writer_step_files root cd l1 ms time l2 f f' w :
  (w0 <- writer_new root cd ;;
   writer_writes use_zlib cpu print_real w0 (l1 ++ (ms, time) :: l2)) f = Ok w f' ->
  Z.of_nat (length (l1 ++ (ms, time) :: l2)) <= INT_MAX ->
  exists fa fk,
    write_parallel use_zlib ms cpu (get_step_path root (Z.of_nat (length l1))) cd fa = Ok tt fk /\
    forall s, starts_non_digit s = true ->
      fs_get f' (String.append (get_step_path root (Z.of_nat (length l1))) s) =
      fs_get fk (String.append (get_step_path root (Z.of_nat (length l1))) s).
Proof.
  intros H Hn. rewrite length_app in Hn. cbn [length] in Hn.
  apply bind_inv in H as (w0 & f0 & H0 & H1).
  destruct (writer_new_spec _ _ _ _ _ H0) as [-> Hf0].
  rewrite writer_writes_app in H1. apply bind_inv in H1 as (w1 & f1 & H1 & H2).
  destruct (writer_writes_spec l1 (mkWriter root cd 0 (String.length pvd_header)) f0 f1 w1 [] Hf0)
    as (_ & Hr & Hs & Hc); [cbn [w_pvd_pos cat fold_right]; rewrite string_append_nil_r; reflexivity | exact H1 |].
  cbn [w_root w_step w_cell_dim] in Hr, Hs, Hc. rewrite Z.add_0_l in Hs. cbn [writer_writes] in H2.
  apply bind_inv in H2 as (w2 & f2 & H2 & H3). unfold writer_write in H2.
  apply bind_inv in H2 as ([] & fa & Ha & H2).
  apply bind_inv in H2 as (pos & fb & Hb & H2). injection H2 as <- <-.
  rewrite Hr, Hs, Hc in *. cbn [w_root w_step] in H3.
  exists f1, fa. split; [exact Ha|]. intros s Ns.
  rewrite (writer_writes_frame _ _ _ _ _ _ H3); cbn [w_root w_step].
  - apply (update_pvd_frame _ _ _ _ _ _ _ _ Hb). intros E. eapply pvd_not_in_step. symmetry. exact E.
  - intros E. eapply pvd_not_in_step. symmetry. exact E.
  - intros j s' Hj N. apply step_path_distinct; auto; lia.
Qed.

(** C19: a later step never overwrites an earlier one.  After the
    constructor and a sequence of [write] calls (no more than
    [INT_MAX] of them), the [.pvtu] file of the [k]-th step is still the
    one written from the mesh of the [k]-th call. *)
Theorem writer_keeps_steps root cd l1 ms time l2 f f' w :
  (w0 <- writer_new root cd ;;
   writer_writes use_zlib cpu print_real w0 (l1 ++ (ms, time) :: l2)) f = Ok w f' ->
  Z.of_nat (length (l1 ++ (ms, time) :: l2)) <= INT_MAX ->
  fs_get f' (get_pvtu_path (get_step_path root (Z.of_nat (length l1)))) =
    Some (PvtuFile (write_pvtu (ms 0) cd rel_piecepath)).
Proof.
  intros H Hn. destruct (writer_step_files _ _ _ _ _ _ _ _ _ H Hn) as (fa & fk & Ha & Hk).
  unfold get_pvtu_path at 1. rewrite Hk by reflexivity.
  apply (write_parallel_pvtu _ _ _ _ _ _ _ Ha).
Qed.

End WriterRun.

Section Examples.
Local Open Scope string_scope.

(** The triangle of [Vtu] split over two ranks, for the [.pvtu] file. *)
Definition ex_tri2 : vmesh :=
  mkVMesh (vm_dim ex_tri) 2 (vm_nents ex_tri) (vm_verts_of ex_tri) (vm_owners ex_tri) (vm_tags ex_tri).

Lemma read_pvtu_write_pvtu_witness :
  read_pvtu 1 2 (map Some (write_pvtu ex_tri2 2 rel_piecepath)) =
  Ok (2, "pieces/piece_1.vtu") tt.
Proof. apply (read_pvtu_write_pvtu ex_tri2 2 rel_piecepath 1). split; vm_compute; congruence. Defined.

(** One step of the triangle written on one rank from an empty store. *)
Definition ex_step : String.string := get_step_path "out" 0.

Definition ex_written : files :=
  match write_parallel (B := Rfc4648.rfc4648) (C := Stored.stored) true (fun _ => ex_tri)
          (fun _ => true) ex_step 2 [] with
  | Ok _ f => f
  | _ => []
  end.

Lemma read_parallel_write_parallel_witness :
  exists items,
    write_vtu (B := Rfc4648.rfc4648) (C := Stored.stored) true true ex_tri 2 = Some items /\
    read_parallel (B := Rfc4648.rfc4648) (C := Stored.stored) true ex_written
      (get_pvtu_path ex_step) 0 1 false [] =
    match read_vtu (B := Rfc4648.rfc4648) (C := Stored.stored) true false (mkComm 1 []) items with
    | Ok m _ => Ok (Some m) tt
    | Abort w _ => Abort w tt
    | OutOfFuel => OutOfFuel
    end.
Proof.
  apply (read_parallel_write_parallel (B := Rfc4648.rfc4648) (C := Stored.stored) true
           (fun _ => ex_tri) (fun _ => true) ex_step 2 [] ex_written 0 false []);
    vm_compute; [reflexivity | split; congruence | congruence].
Defined.

(** Two [write(time)] calls of a writer on the triangle, the time
    printed as its bits. *)
Definition ex_print_real (r : Real) : String.string := print_int (real_bits r).

Definition ex_calls : list ((Z -> vmesh) * Real) :=
  [(fun _ => ex_tri, mkReal 0); (fun _ => ex_tri2, mkReal 5)].

Definition ex_run : comp files writer :=
  w0 <- writer_new "out" 2 ;;
  writer_writes (B := Rfc4648.rfc4648) (C := Stored.stored) true (fun _ => true) ex_print_real w0 ex_calls.

Definition ex_run_files : files :=
  match ex_run [] with Ok _ f => f | _ => [] end.

Definition ex_run_writer : writer :=
  match ex_run [] with Ok w _ => w | _ => mkWriter "" 0 0 0 end.

Lemma writer_pvd_steps_witness :
  fs_get ex_run_files (get_pvd_path "out") =
    Some (TextFile (pvd_text (step_lines ex_print_real ex_calls 0))) /\
  w_step ex_run_writer = 2.
Proof.
  apply (writer_pvd_steps (B := Rfc4648.rfc4648) (C := Stored.stored) true (fun _ => true)
           ex_print_real "out" 2 ex_calls [] ex_run_files ex_run_writer).
  vm_compute. reflexivity.
Defined.

Lemma writer_keeps_steps_witness :
  fs_get ex_run_files (get_pvtu_path (get_step_path "out" 0)) =
    Some (PvtuFile (write_pvtu ex_tri 2 rel_piecepath)).
Proof.
  apply (writer_keeps_steps (B := Rfc4648.rfc4648) (C := Stored.stored) true (fun _ => true)
           ex_print_real "out" 2 [] (fun _ => ex_tri) (mkReal 0) [(fun _ => ex_tri2, mkReal 5)]
           [] ex_run_files ex_run_writer); vm_compute; [reflexivity | congruence].
Defined.

(** A density field of one component on an edge mesh. *)
Definition ex_density : vtag := mkVtag "density" 1 true (ArrF64 [real_zero; real_zero]).

Lemma write_p_tag_declares_piece_arrays_witness :
  write_p_tag ex_density 2 =
  map as_p_data_array (array_headers
    (write_tag (B := Rfc4648.rfc4648) (C := Stored.stored) true true ex_density 2)).
Proof. apply write_p_tag_declares_piece_arrays. left. reflexivity. Defined.

Lemma write_p_tag_edge_mesh_mismatch_witness :
  write_p_tag ex_density 1 = [write_p_data_array OMEGA_H_F64 "density" 3] /\
  map as_p_data_array (array_headers
    (write_tag (B := Rfc4648.rfc4648) (C := Stored.stored) true true ex_density 1)) =
    [write_p_data_array OMEGA_H_F64 "density" 1].
Proof.
  apply (write_p_tag_edge_mesh_mismatch (B := Rfc4648.rfc4648) (C := Stored.stored) true true
           ex_density [real_zero; real_zero]); reflexivity.
Defined.
End Examples.
