(* ===== verification/Pvd.v ===== *)
(** Reading the [.pvd] collection of a series: [read_pvd] of
    src/src/vtk.cpp (lines 662-688).

    [read_pvd] reads the [.pvd] file line by line with [std::getline]
    and parses each line with [xml::parse_tag]: a [DataSet] tag gives a
    time ([std::stod] of its [timestep]) and a [.pvtu] path (its [file],
    relative to the directory of the [.pvd] file).  [xml::parse_tag] is
    library code outside [src/]; the class [XmlParser] gives it and
    [XmlLaws] says what [read_pvd] relies on: a [DataSet] line as
    [update_pvd] writes it parses to its three attributes, and the lines
    around them are not [DataSet] tags.  [DataSetParser] is a parser that
    satisfies the laws.  [std::stod] is the parameter [stod], which fails
    ([None]) where [std::stod] throws.

    [read_pvd_writer] is the round trip of the collection: after the
    [Writer] constructor and any sequence of [write(time)] calls,
    [read_pvd] gives back one time per call, read from its printed text,
    and the [.pvtu] path of each step, in order. *)

From Stdlib Require Import ZArith List Lia Bool Ascii.
From Stdlib Require String.
Import String.StringSyntax.
From S2P Require Import Prelude Text Bytes Codecs VtkArrays Vtu VtkSeries.
Import ListNotations.

Local Open Scope Z_scope.

(** ** Characters of the printed text *)

Fixpoint str_forall (p : ascii -> bool) (s : String.string) : bool :=
  match s with
  | String.EmptyString => true
  | String.String c r => p c && str_forall p r
  end.

Definition quote_char : ascii := ascii_of_nat 34.

(** A character that is neither a newline nor a double quote: the text
    of an attribute value that [xml::parse_tag] reads back as such. *)
Definition plain (c : ascii) : bool := negb (Ascii.eqb c newline) && negb (Ascii.eqb c quote_char).

Lemma str_forall_app p a b : str_forall p (String.append a b) = str_forall p a && str_forall p b.
Proof. induction a as [|c a IH]; cbn; [reflexivity | rewrite IH, andb_assoc; reflexivity]. Qed.

Definition nonl (c : ascii) : bool := negb (Ascii.eqb c newline).

Lemma str_forall_cat p l : str_forall p (cat l) = forallb (str_forall p) l.
Proof.
  induction l as [|x l IH]; [reflexivity|].
  unfold cat in *; cbn [fold_right forallb]. rewrite str_forall_app, IH. reflexivity.
Qed.

Lemma str_forall_impl (p q : ascii -> bool) s :
  (forall c, p c = true -> q c = true) -> str_forall p s = true -> str_forall q s = true.
Proof.
  intros Hpq. induction s as [|c s IH]; cbn [str_forall]; [reflexivity|].
  intros H. apply andb_true_iff in H as [Hc Hs]. rewrite Hpq, IH by assumption. reflexivity.
Qed.

Lemma nonl_plain s : str_forall plain s = true -> str_forall nonl s = true.
Proof. apply str_forall_impl. intros c H. unfold plain in H. apply andb_true_iff in H. apply H. Qed.

Lemma has_nl_nonl s : str_forall nonl s = true -> has_nl s = false.
Proof.
  induction s as [|c s IH]; cbn [str_forall has_nl]; [reflexivity|]. unfold nonl.
  intros H. apply andb_true_iff in H as [Hn Hs].
  apply negb_true_iff in Hn. rewrite Hn, IH by exact Hs. reflexivity.
Qed.

Lemma zdigits_small fuel n : Forall (fun d => d < 10)%nat (zdigits fuel n).
Proof.
  revert n. induction fuel as [|f IH]; intros n; cbn; [constructor|].
  destruct (Z.ltb_spec n 10).
  - constructor; [lia | constructor].
  - apply Forall_app. split; [apply IH|]. constructor; [|constructor].
    pose proof (Z.mod_pos_bound n 10). lia.
Qed.

Lemma str_forall_digits p ds :
  (forall d, (d < 10)%nat -> p (digit_char d) = true) -> Forall (fun d => d < 10)%nat ds ->
  str_forall p (string_of_digits ds) = true.
Proof. intros Hp. induction 1; cbn [string_of_digits str_forall]; [reflexivity | rewrite Hp, IHForall by assumption; reflexivity]. Qed.

(** A printed [int] is plain text: a sign and digits. *)
Lemma print_int_plain z : str_forall plain (print_int z) = true.
Proof.
  assert (Hd : forall d, (d < 10)%nat -> plain (digit_char d) = true).
  { intros d Hd. do 10 (destruct d as [|d]; [reflexivity|]). lia. }
  unfold print_int. destruct (z <? 0); cbn [str_forall];
    rewrite str_forall_digits by (exact Hd || apply zdigits_small); reflexivity.
Qed.

(** ** The lines of the [.pvd] file *)

Section Lines.
Local Open Scope string_scope.

(** A [DataSet] line without its newline. *)
Definition dataset_body (t f : String.string) : String.string :=
  cat ["<DataSet timestep="; quote; t; quote; " part="; quote; "0"; quote; " ";
       "file="; quote; f; quote; "/>"].

(** The four lines around them, without their newlines. *)
Definition pvd_head_lines : list String.string :=
  [cat ["<VTKFile type="; quote; "Collection"; quote; " version="; quote; "0.1"; quote; ">"];
   "<Collection>"].
Definition pvd_tail_lines : list String.string := ["</Collection>"; "</VTKFile>"].
Definition pvd_frame_lines : list String.string := pvd_head_lines ++ pvd_tail_lines.

Definition dataset_name : String.string := "DataSet".
Definition a_timestep : String.string := "timestep".
Definition a_file : String.string := "file".
Definition a_part : String.string := "part".
Definition part_zero : String.string := "0".
Definition stod_msg : String.string := "std::stod".
Definition pvd_is_open_msg : String.string := "pvdstream.is_open()".
End Lines.

(** The body of a [DataSet] line has no newline when its values are
    plain. *)
Lemma dataset_body_nonl t f :
  str_forall plain t = true -> str_forall plain f = true -> has_nl (dataset_body t f) = false.
Proof.
  intros Ht Hf. apply has_nl_nonl. unfold dataset_body. rewrite str_forall_cat. cbn [forallb].
  rewrite (nonl_plain _ Ht), (nonl_plain _ Hf). reflexivity.
Qed.

Lemma dataset_line_body t k :
  dataset_line t k = String.append (dataset_body t (get_pvtu_path (get_rel_step_path k))) nl.
Proof. unfold dataset_line, dataset_body. rewrite <- (cat_one nl), <- cat_app. reflexivity. Qed.

(** [xml::parse_tag(line, &tag)]. *)
Class XmlParser := { parse_tag : String.string -> option xml_tag }.

Class XmlLaws {X : XmlParser} := {
  parse_dataset : forall t f, str_forall plain t = true -> str_forall plain f = true ->
    parse_tag (dataset_body t f) =
    Some (mkTag dataset_name SELF_CLOSING [(a_timestep, t); (a_part, part_zero); (a_file, f)]);
  parse_frame : forall l tag, In l pvd_frame_lines -> parse_tag l = Some tag ->
    elem_name tag <> dataset_name
}.

(** ** [read_pvd] *)

Section ReadPvd.
Context {X : XmlParser}.
Variable stod : String.string -> option Real.

(** The loop of [read_pvd(std::istream&, ...)] (lines 662-675): a line
    that is no tag, or a tag of another name, is skipped. *)
Fixpoint read_pvd_loop (fuel : nat) : comp stream (list Real * list String.string) :=
  match fuel with
  | O => fun _ => OutOfFuel
  | S f => fun s =>
      match getline s with
      | None => Ok ([], []) s
      | Some (line, r) =>
          match parse_tag line with
          | Some tag =>
              if String.eqb (elem_name tag) dataset_name then
                match stod (attrib tag a_timestep) with
                | Some x =>
                    match read_pvd_loop f r with
                    | Ok (ts, ps) s' => Ok (x :: ts, attrib tag a_file :: ps) s'
                    | o => o
                    end
                | None => Abort stod_msg r
                end
              else read_pvd_loop f r
          | None => read_pvd_loop f r
          end
      end
  end.

(** Every line consumes a character: the length of the text bounds the
    iterations. *)
Definition read_pvd_stream : comp stream (list Real * list String.string) :=
  fun s => read_pvd_loop (S (String.length s)) s.

(** [read_pvd(pvdpath, ...)] (lines 677-688): the paths are made
    relative to the current directory with the parent of [pvdpath]. *)
Definition read_pvd (f : files) (pvdpath : String.string)
    : outcome unit (list Real * list String.string) :=
  match fs_get f pvdpath with
  | Some (TextFile t) =>
      match read_pvd_stream t with
      | Ok (ts, ps) _ =>
          match parent_path pvdpath with
          | Some parent => Ok (ts, map (fun p => String.append parent (String.append slash p)) ps) tt
          | None => Abort parent_msg tt
          end
      | Abort w _ => Abort w tt
      | OutOfFuel => OutOfFuel
      end
  | _ => Abort pvd_is_open_msg tt
  end.
End ReadPvd.

(** ** The [.pvd] text as lines *)

Lemma unlines_app ls1 ls2 last : unlines (ls1 ++ ls2) last = unlines ls1 (unlines ls2 last).
Proof. induction ls1 as [|l ls IH]; cbn [app unlines]; [reflexivity | rewrite IH; reflexivity]. Qed.

Lemma cat_lines bs x :
  String.append (cat (map (fun b => String.append b nl) bs)) x = unlines bs x.
Proof.
  induction bs as [|b bs IH]; [reflexivity|]. unfold cat in *. cbn [map fold_right unlines].
  rewrite <- !string_append_assoc, IH. reflexivity.
Qed.

(** The text [write_initial_pvd] and [update_pvd] leave: the two opening
    lines, the [DataSet] lines, the two closing lines. *)
Lemma pvd_text_unlines bs :
  pvd_text (map (fun b => String.append b nl) bs) =
  unlines (pvd_head_lines ++ bs ++ pvd_tail_lines) String.EmptyString.
Proof.
  unfold pvd_text. rewrite cat_lines, !unlines_app.
  change pvd_footer with (unlines pvd_tail_lines String.EmptyString).
  generalize (unlines bs (unlines pvd_tail_lines String.EmptyString)). intros x. reflexivity.
Qed.

(** [std::stod] on each time, all of them or none. *)
Fixpoint all_some {A} (l : list (option A)) : option (list A) :=
  match l with
  | [] => Some []
  | o :: r => match o, all_some r with Some x, Some xs => Some (x :: xs) | _, _ => None end
  end.

Definition ds_lines (es : list (String.string * String.string)) : list String.string :=
  map (fun e => dataset_body (fst e) (snd e)) es.

Definition plain_entry (e : String.string * String.string) : Prop :=
  str_forall plain (fst e) = true /\ str_forall plain (snd e) = true.

(** ** The loop on the lines of the collection *)

Section Loop.
Context {X : XmlParser} {XL : XmlLaws}.
Variable stod : String.string -> option Real.

(** A line that is no [DataSet] tag is skipped. *)
Lemma read_pvd_loop_skip fuel l ls last :
  has_nl l = false -> (forall tag, parse_tag l = Some tag -> elem_name tag <> dataset_name) ->
  read_pvd_loop stod (S fuel) (unlines (l :: ls) last) = read_pvd_loop stod fuel (unlines ls last).
Proof.
  intros Hl Hp. cbn [read_pvd_loop unlines]. rewrite getline_app by exact Hl.
  destruct (parse_tag l) as [tag|]; [|reflexivity].
  destruct (String.eqb_spec (elem_name tag) dataset_name) as [e|_]; [|reflexivity].
  exfalso. exact (Hp tag eq_refl e).
Qed.

Lemma read_pvd_loop_frame fuel l ls last :
  In l pvd_frame_lines ->
  read_pvd_loop stod (S fuel) (unlines (l :: ls) last) = read_pvd_loop stod fuel (unlines ls last).
Proof.
  intros Hin. apply read_pvd_loop_skip; [| intros tag; apply parse_frame, Hin].
  repeat destruct Hin as [<- | Hin]; try reflexivity. destruct Hin.
Qed.

(** A [DataSet] line gives its time, or aborts where [std::stod] throws. *)
Lemma read_pvd_loop_entry fuel t f ls last :
  str_forall plain t = true -> str_forall plain f = true ->
  read_pvd_loop stod (S fuel) (unlines (dataset_body t f :: ls) last) =
  match stod t with
  | Some x =>
      match read_pvd_loop stod fuel (unlines ls last) with
      | Ok (ts, ps) s' => Ok (x :: ts, f :: ps) s'
      | o => o
      end
  | None => Abort stod_msg (unlines ls last)
  end.
Proof.
  intros Ht Hf. cbn [read_pvd_loop unlines].
  rewrite getline_app by (apply dataset_body_nonl; assumption).
  rewrite parse_dataset by assumption. cbn [elem_name]. rewrite String.eqb_refl. reflexivity.
Qed.

Lemma read_pvd_loop_entries es :
  Forall plain_entry es -> forall fuel, (length es + 2 < fuel)%nat ->
  match all_some (map (fun e => stod (fst e)) es) with
  | Some ts => read_pvd_loop stod fuel (unlines (ds_lines es ++ pvd_tail_lines) String.EmptyString)
               = Ok (ts, map snd es) String.EmptyString
  | None => exists r, read_pvd_loop stod fuel (unlines (ds_lines es ++ pvd_tail_lines) String.EmptyString)
               = Abort stod_msg r
  end.
Proof.
  induction 1 as [|[t f] es [Ht Hf] _ IH]; intros fuel Hfuel.
  - destruct fuel as [|[|[|fuel]]]; [lia..|]. unfold ds_lines, pvd_tail_lines. cbn [all_some map app].
    rewrite !read_pvd_loop_frame by (cbn; tauto). reflexivity.
  - destruct fuel as [|fuel]; [cbn in Hfuel; lia|]. cbn [map all_some ds_lines app].
    change (map _ es ++ pvd_tail_lines) with (ds_lines es ++ pvd_tail_lines).
    rewrite read_pvd_loop_entry by assumption. cbn [fst snd].
    specialize (IH fuel ltac:(cbn in Hfuel; lia)).
    destruct (stod t) as [x|]; [|eexists; reflexivity].
    destruct (all_some _); [rewrite IH; reflexivity | destruct IH as [r ->]; eexists; reflexivity].
Qed.

(** The whole text: the opening lines are skipped too, and the length
    of the text is enough fuel. *)
Lemma read_pvd_stream_entries es :
  Forall plain_entry es ->
  match all_some (map (fun e => stod (fst e)) es) with
  | Some ts => read_pvd_stream stod (pvd_text (map (fun b => String.append b nl) (ds_lines es)))
               = Ok (ts, map snd es) String.EmptyString
  | None => exists r, read_pvd_stream stod (pvd_text (map (fun b => String.append b nl) (ds_lines es)))
               = Abort stod_msg r
  end.
Proof.
  intros Hes. rewrite pvd_text_unlines. unfold read_pvd_stream.
  pose proof (length_unlines (pvd_head_lines ++ ds_lines es ++ pvd_tail_lines) String.EmptyString) as L.
  set (n := String.length (unlines (pvd_head_lines ++ ds_lines es ++ pvd_tail_lines) _)) in *.
  clearbody n. rewrite !length_app in L. unfold ds_lines in L. rewrite length_map in L.
  unfold pvd_head_lines, pvd_tail_lines in L. cbn [length String.length] in L.
  destruct n as [|[|n]]; [lia..|]. unfold pvd_head_lines. cbn [app].
  rewrite !read_pvd_loop_frame by (cbn; tauto).
  apply read_pvd_loop_entries; [exact Hes | lia].
Qed.
End Loop.

(** ** A parser of [DataSet] lines

    [DataSetParser] reads a line of the shape [update_pvd] writes: the
    prefix up to the opening quote of [timestep], the value up to the
    next quote, the text between the two values, the value of [file] up
    to the next quote and the closing text. *)

Fixpoint strip_prefix (p s : String.string) : option String.string :=
  match p, s with
  | String.EmptyString, _ => Some s
  | String.String c p', String.String d s' => if Ascii.eqb c d then strip_prefix p' s' else None
  | String.String _ _, String.EmptyString => None
  end.

Fixpoint take_until (q : ascii) (s : String.string) : String.string * String.string :=
  match s with
  | String.EmptyString => (String.EmptyString, String.EmptyString)
  | String.String c r =>
      if Ascii.eqb c q then (String.EmptyString, s)
      else let '(a, b) := take_until q r in (String.String c a, b)
  end.

Section DataSetText.
Local Open Scope string_scope.
Definition ds_open : String.string := cat ["<DataSet timestep="; quote].
Definition ds_mid : String.string := cat [quote; " part="; quote; "0"; quote; " "; "file="; quote].
Definition ds_close : String.string := cat [quote; "/>"].
End DataSetText.

Definition parse_dataset_line (l : String.string) : option xml_tag :=
  match strip_prefix ds_open l with
  | Some r =>
      let '(t, r1) := take_until quote_char r in
      match strip_prefix ds_mid r1 with
      | Some r2 =>
          let '(f, r3) := take_until quote_char r2 in
          if String.eqb r3 ds_close
          then Some (mkTag dataset_name SELF_CLOSING [(a_timestep, t); (a_part, part_zero); (a_file, f)])
          else None
      | None => None
      end
  | None => None
  end.

#[export] Instance DataSetParser : XmlParser := { parse_tag := parse_dataset_line }.

Lemma strip_prefix_app p s : strip_prefix p (String.append p s) = Some s.
Proof.
  induction p as [|c p IH]; cbn [String.append strip_prefix]; [destruct s; reflexivity|].
  rewrite Ascii.eqb_refl. exact IH.
Qed.

Lemma take_until_plain t r :
  str_forall plain t = true -> String.get 0 r = Some quote_char ->
  take_until quote_char (String.append t r) = (t, r).
Proof.
  intros Ht Hr. destruct r as [|c r]; [discriminate|]. injection Hr as ->. revert Ht.
  induction t as [|c t IH]; cbn [String.append take_until str_forall].
  - rewrite Ascii.eqb_refl. reflexivity.
  - unfold plain at 1. intros H. apply andb_true_iff in H as [Hc Ht].
    apply andb_true_iff in Hc as [_ Hq]. apply negb_true_iff in Hq. rewrite Hq, IH by exact Ht.
    reflexivity.
Qed.

Lemma dataset_body_split t f :
  dataset_body t f =
  String.append ds_open (String.append t (String.append ds_mid (String.append f ds_close))).
Proof.
  unfold dataset_body, ds_open, ds_mid, ds_close, cat. cbn [fold_right].
  rewrite !string_append_nil_r, <- !string_append_assoc. reflexivity.
Qed.

#[export] Instance DataSetParser_laws : XmlLaws (X := DataSetParser).
Proof.
  split.
  - intros t f Ht Hf. cbn [parse_tag DataSetParser]. unfold parse_dataset_line.
    rewrite dataset_body_split, strip_prefix_app.
    rewrite take_until_plain by (exact Ht || reflexivity). rewrite strip_prefix_app.
    rewrite take_until_plain by (exact Hf || reflexivity). rewrite String.eqb_refl. reflexivity.
  - intros l tag Hin. cbn [parse_tag DataSetParser].
    repeat destruct Hin as [<- | Hin]; try (vm_compute; discriminate). destruct Hin.
Qed.

(** ** The collection a [Writer] leaves, read back *)

Lemma last_slash_shift s : forall i f,
  last_slash s i f = match last_slash s 0 None with Some j => Some (i + j)%nat | None => f end.
Proof.
  induction s as [|c s IH]; intros i f; cbn [last_slash]; [reflexivity|].
  rewrite (IH (S i)), (IH 1%nat). destruct (Ascii.eqb c "/"%char), (last_slash s 0 None);
    cbn; try reflexivity; f_equal; lia.
Qed.

(** The parent of a path ending in a name without a slash. *)
Lemma parent_path_app path name :
  last_slash name 0 None = Some 0%nat -> parent_path (String.append path name) = Some path.
Proof.
  intros Hn. unfold parent_path.
  assert (L : forall a b i f, last_slash (String.append a b) i f =
                              last_slash b (i + String.length a) (last_slash a i f)).
  { induction a as [|c a IH]; intros b i f; cbn [String.append last_slash String.length].
    - rewrite Nat.add_0_r. reflexivity.
    - rewrite IH. f_equal. lia. }
  rewrite L, last_slash_shift, Hn. cbn [Nat.add]. rewrite Nat.add_0_r, substring_app_prefix.
  reflexivity.
Qed.

Lemma parent_path_pvd root : parent_path (get_pvd_path root) = Some root.
Proof. apply parent_path_app. reflexivity. Qed.

Lemma all_some_map {A} (l : list (option A)) :
  Forall (fun o => o <> None) l -> exists xs, all_some l = Some xs /\ map Some xs = l.
Proof.
  induction 1 as [|[x|] l Hx _ [xs [E1 E2]]]; [exists []; auto | | congruence].
  exists (x :: xs). cbn [all_some map]. rewrite E1, E2. auto.
Qed.

Lemma all_some_none {A} (l : list (option A)) : Exists (fun o => o = None) l -> all_some l = None.
Proof.
  induction 1 as [o l -> | [x|] l _ IH]; cbn [all_some]; [reflexivity | rewrite IH | ]; reflexivity.
Qed.

Section WriterPvd.
Context {B : Base64} {C : Compressor} {X : XmlParser} {XL : XmlLaws}.
Variables (use_zlib : bool) (cpu : Z -> bool).
Variables (print_real : Real -> String.string) (stod : String.string -> option Real).

(** The values of the [DataSet] lines of [step_lines]. *)
Fixpoint step_entries (calls : list ((Z -> vmesh) * Real)) (k : Z)
    : list (String.string * String.string) :=
  match calls with
  | [] => []
  | (_, time) :: r => (print_real time, get_pvtu_path (get_rel_step_path k)) :: step_entries r (k + 1)
  end.

Lemma step_lines_entries calls : forall k,
  step_lines print_real calls k = map (fun b => String.append b nl) (ds_lines (step_entries calls k)).
Proof.
  induction calls as [|[ms time] calls IH]; intros k; [reflexivity|].
  cbn [step_lines step_entries ds_lines map fst snd]. rewrite dataset_line_body, IH. reflexivity.
Qed.

Lemma rel_pvtu_plain k : str_forall plain (get_pvtu_path (get_rel_step_path k)) = true.
Proof. unfold get_pvtu_path, get_rel_step_path. rewrite !str_forall_app, print_int_plain. reflexivity. Qed.

Lemma step_entries_plain calls k :
  (forall r, str_forall plain (print_real r) = true) -> Forall plain_entry (step_entries calls k).
Proof.
  intros Hp. revert k. induction calls as [|[ms time] calls IH]; intros k; constructor; auto.
  split; [apply Hp | apply rel_pvtu_plain].
Qed.

Lemma step_entries_times calls : forall k,
  map (fun e => stod (fst e)) (step_entries calls k) = map (fun c => stod (print_real (snd c))) calls.
Proof. induction calls as [|[ms time] calls IH]; intros k; cbn; [reflexivity | rewrite IH; reflexivity]. Qed.

Lemma step_entries_paths calls : forall k,
  map snd (step_entries calls k) =
  map (fun i => get_pvtu_path (get_rel_step_path (k + Z.of_nat i))) (seq 0 (length calls)).
Proof.
  induction calls as [|[ms time] calls IH]; intros k; [reflexivity|].
  cbn [step_entries map snd length seq]. rewrite IH, <- seq_shift, map_map, Z.add_0_r.
  f_equal. apply map_ext. intros i. do 2 f_equal. lia.
Qed.

Lemma pvtu_path_under root k :
  String.append root (String.append slash (get_pvtu_path (get_rel_step_path k))) =
  get_pvtu_path (get_step_path root k).
Proof. unfold get_pvtu_path, get_step_path. rewrite !string_append_assoc. reflexivity. Qed.

(** [read_pvd] on the collection [write_initial_pvd] and [update_pvd]
    leave, whatever [std::stod] makes of the times. *)
Lemma read_pvd_writer_text root cd calls f f' w :
  (forall r, str_forall plain (print_real r) = true) ->
  (w0 <- writer_new root cd ;; writer_writes use_zlib cpu print_real w0 calls) f = Ok w f' ->
  match all_some (map (fun c => stod (print_real (snd c))) calls) with
  | Some ts => read_pvd stod f' (get_pvd_path root) =
               Ok (ts, map (fun i => get_pvtu_path (get_step_path root (Z.of_nat i)))
                           (seq 0 (length calls))) tt
  | None => read_pvd stod f' (get_pvd_path root) = Abort stod_msg tt
  end.
Proof.
  intros Hp H. destruct (writer_pvd_text use_zlib cpu print_real root cd calls f f' w H) as [Hf _].
  pose proof (read_pvd_stream_entries stod (step_entries calls 0) (step_entries_plain calls 0 Hp)) as R.
  rewrite step_entries_times, <- step_lines_entries in R.
  unfold read_pvd. rewrite Hf.
  destruct (all_some _); [rewrite R | destruct R as [r ->]]; [|reflexivity].
  rewrite parent_path_pvd, step_entries_paths, map_map. do 2 f_equal. apply map_ext. intros i. apply pvtu_path_under.
Qed.

(** C20: the round trip of the collection.  After the [Writer]
    constructor and any sequence of [write(time)] calls, with times that
    print without a quote or a newline and that [std::stod] reads back,
    [read_pvd] on [root/steps.pvd] returns one time per call, the one
    [std::stod] reads from its printed text, and the [.pvtu] file of each
    step, [root/steps/step_k/pieces.pvtu], in the order of the calls. *)
Theorem read_pvd_writer root cd calls f f' w :
  (forall r, str_forall plain (print_real r) = true) ->
  (w0 <- writer_new root cd ;; writer_writes use_zlib cpu print_real w0 calls) f = Ok w f' ->
  Forall (fun c => stod (print_real (snd c)) <> None) calls ->
  exists ts,
    read_pvd stod f' (get_pvd_path root) =
      Ok (ts, map (fun i => get_pvtu_path (get_step_path root (Z.of_nat i))) (seq 0 (length calls))) tt /\
    map Some ts = map (fun c => stod (print_real (snd c))) calls.
Proof.
  intros Hp H Hs. pose proof (read_pvd_writer_text root cd calls f f' w Hp H) as R.
  destruct (all_some_map (map (fun c => stod (print_real (snd c))) calls)) as (ts & E & Ets);
    [apply Forall_map, Hs|].
  rewrite E in R. exists ts. auto.
Qed.

(** C21: the error path of [read_pvd].  When [std::stod] throws on the
    printed time of one of the calls, [read_pvd] on the collection of
    the [Writer] aborts there, and returns none of the times or paths. *)
Theorem read_pvd_stod_error root cd calls f f' w :
  (forall r, str_forall plain (print_real r) = true) ->
  (w0 <- writer_new root cd ;; writer_writes use_zlib cpu print_real w0 calls) f = Ok w f' ->
  Exists (fun c => stod (print_real (snd c)) = None) calls ->
  read_pvd stod f' (get_pvd_path root) = Abort stod_msg tt.
Proof.
  intros Hp H Hs. pose proof (read_pvd_writer_text root cd calls f f' w Hp H) as R.
  rewrite all_some_none in R; [exact R|]. apply Exists_map, Hs.
Qed.
End WriterPvd.

(** ** Examples *)

Section Examples.
Local Open Scope string_scope.

(** A [std::stod] on the times [ex_print_real] prints (their bits): like
    the C++ library, it fails on a subnormal value, where [strtod]
    reports an underflow and [std::stod] throws [std::out_of_range]. *)
Definition ex_stod (s : String.string) : option Real :=
  let '(sg, s2) := read_sign s in
  match take_digits s2 with
  | ((_ :: _) as ds, String.EmptyString) =>
      let z := sg * digits_value ds in
      if (0 <? z) && (z <? 2 ^ 52) then None else Some (mkReal z)
  | _ => None
  end.

Definition ex_normal_calls : list ((Z -> vmesh) * Real) :=
  [(fun _ => ex_tri, mkReal 0); (fun _ => ex_tri2, mkReal (2 ^ 62))].

Definition ex_series (calls : list ((Z -> vmesh) * Real)) : outcome files writer :=
  (w0 <- writer_new "out" 2 ;;
   writer_writes (B := Rfc4648.rfc4648) (C := Stored.stored) true (fun _ => true) ex_print_real w0 calls) [].

Definition ex_series_files (calls : list ((Z -> vmesh) * Real)) : files :=
  match ex_series calls with Ok _ f => f | _ => [] end.

Definition ex_series_writer (calls : list ((Z -> vmesh) * Real)) : writer :=
  match ex_series calls with Ok w _ => w | _ => mkWriter "" 0 0 0 end.

Lemma ex_print_real_plain r : str_forall plain (ex_print_real r) = true.
Proof. apply print_int_plain. Qed.

Lemma read_pvd_writer_witness :
  exists ts,
    read_pvd (X := DataSetParser) ex_stod (ex_series_files ex_normal_calls) (get_pvd_path "out") =
      Ok (ts, map (fun i => get_pvtu_path (get_step_path "out" (Z.of_nat i))) (seq 0 2)) tt /\
    map Some ts = map (fun c => ex_stod (ex_print_real (snd c))) ex_normal_calls.
Proof.
  eapply (read_pvd_writer (B := Rfc4648.rfc4648) (C := Stored.stored) (XL := DataSetParser_laws) true (fun _ => true) ex_print_real ex_stod
           "out" 2 ex_normal_calls [] _ (ex_series_writer ex_normal_calls) ex_print_real_plain).
  - vm_compute. reflexivity.
  - unfold ex_normal_calls. repeat apply Forall_cons; try apply Forall_nil; vm_compute; discriminate.
Defined.

(** The times of [ex_calls] are [0] and the subnormal [mkReal 5]. *)
Lemma read_pvd_stod_error_witness :
  read_pvd (X := DataSetParser) ex_stod (ex_series_files ex_calls) (get_pvd_path "out") =
    Abort stod_msg tt.
Proof.
  eapply (read_pvd_stod_error (B := Rfc4648.rfc4648) (C := Stored.stored) (XL := DataSetParser_laws) true (fun _ => true) ex_print_real ex_stod
           "out" 2 ex_calls [] _ (ex_series_writer ex_calls) ex_print_real_plain).
  - vm_compute. reflexivity.
  - unfold ex_calls. constructor 2. constructor 1. vm_compute. reflexivity.
Defined.

(** The collection of [ex_normal_calls], read by evaluation. *)
Example read_pvd_normal :
  read_pvd (X := DataSetParser) ex_stod (ex_series_files ex_normal_calls) (get_pvd_path "out") =
    Ok ([mkReal 0; mkReal (2 ^ 62)], ["out/steps/step_0/pieces.pvtu"; "out/steps/step_1/pieces.pvtu"]) tt.
Proof. vm_compute. reflexivity. Qed.
End Examples.
