(* ===== verification/Series.v ===== *)
(** Reading a whole series back: [read_pvd] composed with
    [read_parallel] (src/src/vtk.cpp), the way a reader of the output
    of a [Writer] uses them.  The [.pvd] collection names the [.pvtu]
    file of each step; [read_parallel] on that path reads the rank's
    piece.

    - [read_parallel_frame]: [read_parallel] on the [.pvtu] file of a
      step reads only files below the directory of that step, so two
      stores that agree there give the same result (a frame lemma).
    - [read_series]: after the [Writer] constructor and any sequence of
      [write(time)] calls, the [k]-th entry [read_pvd] returns is the
      time of the [k]-th call as [std::stod] reads it back and a path on
      which [read_parallel] reads, on every rank, the piece [write_vtu]
      wrote for that rank from the mesh of the [k]-th call: the later
      steps and the rewrites of the [.pvd] file left it alone. *)

From Stdlib Require Import ZArith List Lia Bool.
From Stdlib Require String.
Import String.StringSyntax.
From S2P Require Import Prelude Text Bytes Codecs VtkArrays Vtu VtkSeries Pvd.
Import ListNotations.

Local Open Scope Z_scope.

Section Frame.
Context {B : Base64} {C : Compressor}.
Variable use_zlib : bool.
Implicit Types (f : files) (step : String.string).

(** [read_parallel] on [step/pieces.pvtu] depends only on the files
    below [step]: the [.pvtu] file and the piece it names, which is
    [step/] followed by the relative path of the piece. *)
Lemma read_parallel_frame f1 f2 step rank size rcpu others :
  (forall s, starts_non_digit s = true ->
             fs_get f1 (String.append step s) = fs_get f2 (String.append step s)) ->
  read_parallel use_zlib f1 (get_pvtu_path step) rank size rcpu others =
  read_parallel use_zlib f2 (get_pvtu_path step) rank size rcpu others.
Proof.
  intros Hs. unfold read_parallel, read_pvtu_file.
  assert (E : fs_get f1 (get_pvtu_path step) = fs_get f2 (get_pvtu_path step)) by (apply Hs; reflexivity).
  rewrite E. destruct (fs_get f2 (get_pvtu_path step)) as [[| |lines|]|]; try reflexivity.
  destruct (read_pvtu rank size (map Some lines)) as [[np vp] u | w u |]; try reflexivity.
  rewrite parent_path_pvtu. destruct (rank <? np); [|reflexivity].
  rewrite Hs by reflexivity. reflexivity.
Qed.
End Frame.

Lemma nth_error_step_paths root n k :
  (k < n)%nat ->
  nth_error (map (fun i => get_pvtu_path (get_step_path root (Z.of_nat i))) (seq 0 n)) k =
  Some (get_pvtu_path (get_step_path root (Z.of_nat k))).
Proof.
  intros Hk. rewrite nth_error_map, (nth_error_nth' _ 0%nat) by (rewrite length_seq; exact Hk).
  rewrite seq_nth by exact Hk. reflexivity.
Qed.

(** The [k]-th time [read_pvd] returns is what [std::stod] reads from the
    printed time of the [k]-th call. *)
Lemma nth_time {A} (stod : String.string -> option Real) (print_real : Real -> String.string)
    (ts : list Real) l1 (c : A * Real) l2 :
  map Some ts = map (fun c => stod (print_real (snd c))) (l1 ++ c :: l2) ->
  nth_error ts (length l1) = stod (print_real (snd c)).
Proof.
  intros E. apply (f_equal (fun l => nth_error l (length l1))) in E.
  rewrite !nth_error_map, nth_error_app2, Nat.sub_diag in E by lia. cbn in E.
  destruct (nth_error ts (length l1)); cbn in E; congruence.
Qed.

Section ReadSeries.
Context {B : Base64} {C : Compressor} {X : XmlParser} {XL : XmlLaws}.
Variables (use_zlib : bool) (cpu : Z -> bool).
Variables (print_real : Real -> String.string) (stod : String.string -> option Real).

(** C22: a series reads back step by step.  After the [Writer]
    constructor and a sequence of at most [INT_MAX] [write(time)] calls
    whose times print as plain text that [std::stod] reads, [read_pvd]
    on [root/steps.pvd] succeeds; its entry for the [k]-th call holds
    the time [std::stod] reads from the printed time of that call and a
    path on which [read_parallel], on any rank below the size of the
    communicator of that call's mesh, reads exactly the piece
    [write_vtu] wrote for the rank from that mesh. *)
Theorem read_series root cd l1 ms time l2 f f' w rank rcpu others :
  (forall r, str_forall plain (print_real r) = true) ->
  (w0 <- writer_new root cd ;;
   writer_writes use_zlib cpu print_real w0 (l1 ++ (ms, time) :: l2)) f = Ok w f' ->
  Z.of_nat (length (l1 ++ (ms, time) :: l2)) <= INT_MAX ->
  Forall (fun c => stod (print_real (snd c)) <> None) (l1 ++ (ms, time) :: l2) ->
  0 <= rank < vm_comm_size (ms 0) -> vm_comm_size (ms 0) <= INT_MAX ->
  exists ts paths pvtupath items,
    read_pvd stod f' (get_pvd_path root) = Ok (ts, paths) tt /\
    nth_error ts (length l1) = stod (print_real time) /\
    nth_error paths (length l1) = Some pvtupath /\
    write_vtu use_zlib (cpu rank) (ms rank) cd = Some items /\
    read_parallel use_zlib f' pvtupath rank (vm_comm_size (ms 0)) rcpu others =
    match read_vtu use_zlib rcpu (mkComm (vm_comm_size (ms 0)) others) items with
    | Ok m _ => Ok (Some m) tt
    | Abort w _ => Abort w tt
    | OutOfFuel => OutOfFuel
    end.
Proof.
  intros Hp H Hn Hs Hr Hc.
  pose proof (read_pvd_writer_text use_zlib cpu print_real stod root cd _ f f' w Hp H) as R.
  destruct (all_some_map (map (fun c => stod (print_real (snd c))) (l1 ++ (ms, time) :: l2)))
    as (ts & Ets & Hts); [apply Forall_map, Hs|].
  rewrite Ets in R.
  destruct (writer_step_files use_zlib cpu print_real _ _ _ _ _ _ _ _ _ H Hn) as (fa & fk & Ha & Hk).
  destruct (write_parallel_read use_zlib ms cpu _ _ _ _ rank rcpu others Ha Hr Hc) as (items & Ew & Er).
  do 4 eexists. split; [exact R|]. split; [apply (nth_time _ _ _ _ _ _ Hts)|].
  split; [apply nth_error_step_paths; rewrite length_app; cbn [length]; lia|].
  split; [exact Ew|]. rewrite <- Er. apply read_parallel_frame, Hk.
Qed.
End ReadSeries.

Section Examples.
Local Open Scope string_scope.

(** The second step of [ex_normal_calls] is the triangle split over two
    ranks; rank 1 reads its piece back through the collection. *)
Lemma read_series_witness :
  exists ts paths pvtupath items,
    read_pvd (X := DataSetParser) ex_stod (ex_series_files ex_normal_calls) (get_pvd_path "out") =
      Ok (ts, paths) tt /\
    nth_error ts 1 = ex_stod (ex_print_real (mkReal (2 ^ 62))) /\
    nth_error paths 1 = Some pvtupath /\
    write_vtu (B := Rfc4648.rfc4648) (C := Stored.stored) true true ex_tri2 2 = Some items /\
    read_parallel (B := Rfc4648.rfc4648) (C := Stored.stored) true (ex_series_files ex_normal_calls)
      pvtupath 1 2 false [0] =
    match read_vtu (B := Rfc4648.rfc4648) (C := Stored.stored) true false (mkComm 2 [0]) items with
    | Ok m _ => Ok (Some m) tt
    | Abort w _ => Abort w tt
    | OutOfFuel => OutOfFuel
    end.
Proof.
  eapply (read_series (B := Rfc4648.rfc4648) (C := Stored.stored) (XL := DataSetParser_laws)
            true (fun _ => true) ex_print_real ex_stod "out" 2 [(fun _ => ex_tri, mkReal 0)]
            (fun _ => ex_tri2) (mkReal (2 ^ 62)) [] [] _ (ex_series_writer ex_normal_calls)
            1 false [0] ex_print_real_plain).
  - vm_compute. reflexivity.
  - vm_compute. discriminate.
  - repeat apply Forall_cons; try apply Forall_nil; vm_compute; discriminate.
  - cbn. lia.
  - cbn. unfold INT_MAX. lia.
Defined.
End Examples.
