(* ===== verification/FullSeries.v ===== *)
(** The [FullWriter] of src/src/vtk.cpp (lines 743-773) and what can be
    read back from it.

    [FullWriter::FullWriter(mesh, root_path)] makes one [Writer] per
    dimension from [EDGE] to [mesh->dim()], each in the directory
    [root_path/plural_names[i]]; [FullWriter::write(time)] calls
    [write(time)] on each of them in turn, [FullWriter::write()] calls
    [write()] ([full_write_step]).  A [FullWriter] is its list of
    writers; its copy constructor and assignment copy that list.

    - [full_writers_spec]: the writers the constructor makes, their
      directories, steps and cell dimensions.
    - [full_write_frame]: a [write] of the [FullWriter] changes only the
      [.pvd] files and the step directories of its writers.
    - [full_writer_edges_unreadable]: the first step of the edge writer,
      which every [FullWriter] has, cannot be read back with
      [read_parallel]: [read_vtu] finds cells of dimension 1 and fails
      its [CHECK(dim == 2 || dim == 3)].  The writes of the other writers
      in the same call leave those files alone, because the directory
      names [plural_names[i]] are distinct and hold no ['/']. *)

From Stdlib Require Import ZArith List Lia Bool Ascii.
From Stdlib Require String.
Import String.StringSyntax.
From S2P Require Import Prelude Text Bytes Codecs VtkArrays Vtu VtkSeries Series.
Import ListNotations.

Local Open Scope Z_scope.

(** ** Directory names *)

Fixpoint no_slash (s : String.string) : bool :=
  match s with
  | String.EmptyString => true
  | String.String c r => negb (Ascii.eqb c "/"%char) && no_slash r
  end.

(** Two names without ['/'], each followed by ['/'] and a path, are the
    same name when the paths are the same. *)
Lemma no_slash_app_inj a b x y :
  no_slash a = true -> no_slash b = true ->
  String.append a (String.append slash x) = String.append b (String.append slash y) -> a = b.
Proof.
  revert b. induction a as [|ca a IH]; intros [|cb b] Ha Hb E; cbn [String.append no_slash] in *;
    try reflexivity.
  - injection E as E _. subst cb. cbn in Hb. discriminate.
  - injection E as E _. subst ca. cbn in Ha. discriminate.
  - apply andb_true_iff in Ha as [_ Ha]. apply andb_true_iff in Hb as [_ Hb].
    injection E as -> E. f_equal. exact (IH b Ha Hb E).
Qed.

(** The directory of the writer of dimension [i]. *)
Definition writer_dir (plural_names : Z -> String.string) (root : String.string) (i : Z) : String.string :=
  String.append root (String.append slash (plural_names i)).

Section Names.
Variables (plural_names : Z -> String.string) (root : String.string).

(** A path below the directory of one writer is not below another's. *)
Lemma writer_dirs_apart i j x y :
  no_slash (plural_names i) = true -> no_slash (plural_names j) = true ->
  plural_names i <> plural_names j ->
  String.append (writer_dir plural_names root i) (String.append slash x) <>
  String.append (writer_dir plural_names root j) (String.append slash y).
Proof.
  intros Hi Hj Hne E. unfold writer_dir in E. rewrite <- !string_append_assoc in E.
  apply string_append_cancel_l in E. cbn [String.append slash] in E. injection E as E.
  exact (Hne (no_slash_app_inj _ _ _ _ Hi Hj E)).
Qed.

Lemma step_path_below dir k s :
  String.append (get_step_path dir k) s =
  String.append dir (String.append slash (String.append (get_rel_step_path k) s)).
Proof. unfold get_step_path. rewrite <- !string_append_assoc. reflexivity. Qed.

Lemma pvd_path_below dir : get_pvd_path dir = String.append dir (String.append slash "steps.pvd").
Proof. reflexivity. Qed.
End Names.

(** ** The writers of a [FullWriter] *)

Section Full.
Context {B : Base64} {C : Compressor}.
Variables (use_zlib : bool) (cpu : Z -> bool) (print_real : Real -> String.string).
Variable plural_names : Z -> String.string.

Lemma full_writers_spec root dims f f' ws :
  full_writers plural_names root dims f = Ok ws f' ->
  Forall2 (fun i w => w_root w = writer_dir plural_names root i /\ w_step w = 0 /\ w_cell_dim w = i)
    dims ws.
Proof.
  revert f f' ws. induction dims as [|i dims IH]; intros f f' ws H; cbn [full_writers] in H.
  - injection H as <- _. constructor.
  - apply bind_inv in H as (w & f1 & H1 & H).
    apply bind_inv in H as (ws1 & f2 & H2 & H). injection H as <- _.
    destruct (writer_new_spec _ _ _ _ _ H1) as [-> _].
    constructor; [cbn; auto | exact (IH _ _ _ H2)].
Qed.

(** [Writer::write(time)] changes only its [.pvd] file and the
    directory of its current step. *)
Lemma writer_write_frame ms w time f w' f' q :
  writer_write use_zlib cpu print_real ms w time f = Ok w' f' ->
  q <> get_pvd_path (w_root w) ->
  (forall s, starts_non_digit s = true -> q <> String.append (get_step_path (w_root w) (w_step w)) s) ->
  fs_get f' q = fs_get f q.
Proof.
  intros H Hp Hs. unfold writer_write in H.
  apply bind_inv in H as ([] & fa & Ha & H).
  apply bind_inv in H as (pos & fb & Hb & H). injection H as _ <-.
  rewrite (update_pvd_frame _ _ _ _ _ _ _ _ Hb Hp).
  apply (write_parallel_frame _ _ _ _ _ _ _ _ Ha). exact Hs.
Qed.

Lemma full_write_frame ms ws time f ws' f' q :
  full_write use_zlib cpu print_real ms ws time f = Ok ws' f' ->
  Forall (fun w => q <> get_pvd_path (w_root w) /\
             forall s, starts_non_digit s = true -> q <> String.append (get_step_path (w_root w) (w_step w)) s)
    ws ->
  fs_get f' q = fs_get f q.
Proof.
  intros H Hws. revert f ws' H. induction Hws as [|w ws [Hp Hs] _ IH]; intros f ws' H; cbn [full_write] in H.
  - injection H as _ <-. reflexivity.
  - apply bind_inv in H as (w1 & f1 & H1 & H).
    apply bind_inv in H as (ws1 & f2 & H2 & H). injection H as _ <-.
    rewrite (IH _ _ H2). exact (writer_write_frame _ _ _ _ _ _ _ H1 Hp Hs).
Qed.
End Full.

Section EdgesUnreadable.
Context {B : Base64} {BL : Base64Laws} {C : Compressor} {CL : CompressorLaws}.
Variables (use_zlib : bool) (cpu : Z -> bool) (print_real : Real -> String.string).
Variable plural_names : Z -> String.string.

Lemma full_dims dim : 1 <= dim ->
  map Z.of_nat (seq 1 (Z.to_nat dim)) = 1 :: map Z.of_nat (seq 2 (Z.to_nat dim - 1)).
Proof. intros Hd. replace (Z.to_nat dim) with (S (Z.to_nat dim - 1)) at 1 by lia. reflexivity. Qed.

(** The files below the first step of the writer of dimension [1] are
    not touched by writers of other dimensions. *)
Lemma other_writers_frame root dims ws s :
  Forall2 (fun i w => w_root w = writer_dir plural_names root i /\ w_step w = 0 /\ w_cell_dim w = i)
    dims ws ->
  Forall (fun i => no_slash (plural_names i) = true /\ plural_names 1 <> plural_names i) dims ->
  no_slash (plural_names 1) = true ->
  Forall (fun w => String.append (get_step_path (writer_dir plural_names root 1) 0) s <> get_pvd_path (w_root w) /\
             forall s', starts_non_digit s' = true ->
               String.append (get_step_path (writer_dir plural_names root 1) 0) s <>
               String.append (get_step_path (w_root w) (w_step w)) s') ws.
Proof.
  intros F Hn H1. induction F as [|i w dims ws [Hr [Hs _]] _ IH]; constructor.
  - inversion Hn as [|? ? [Hi Hne] _]; subst. rewrite Hr, Hs, step_path_below, pvd_path_below.
    split; [|intros s' _; rewrite step_path_below]; apply writer_dirs_apart; assumption.
  - apply IH. inversion Hn; assumption.
Qed.

(** C23: the edge files of a [FullWriter] cannot be read back.  After
    the constructor and one [write(time)] of a [FullWriter] for a mesh
    of dimension at least 1, whose directory names are distinct and
    hold no ['/'], [read_parallel] of the first step of the edge writer
    aborts on every rank whose mesh has edges: [read_vtu] reads cells of
    dimension 1 and fails [CHECK(dim == 2 || dim == 3)] unless another
    rank holds triangles or tetrahedra. *)
Theorem full_writer_edges_unreadable root dim ms time f ws' f' rank rcpu others :
  (ws <- full_writer_new plural_names root dim ;; full_write use_zlib cpu print_real ms ws time) f =
    Ok ws' f' ->
  1 <= dim ->
  (forall i, 1 <= i <= dim -> no_slash (plural_names i) = true) ->
  (forall i, 2 <= i <= dim -> plural_names 1 <> plural_names i) ->
  0 <= rank < vm_comm_size (ms 0) -> vm_comm_size (ms 0) <= INT_MAX ->
  0 < vm_nents (ms rank) 1 < 2 ^ 27 -> 0 <= vm_nents (ms rank) 0 < 2 ^ 27 ->
  Forall (fun y => y < 2) others ->
  read_parallel use_zlib f' (get_pvtu_path (get_step_path (writer_dir plural_names root 1) 0))
    rank (vm_comm_size (ms 0)) rcpu others = Abort dim_msg tt.
Proof.
  intros H Hd Hns Hne Hr Hc Hnc Hnv Ho.
  apply bind_inv in H as (ws & f1 & H1 & H2). unfold full_writer_new in H1.
  apply bind_inv in H1 as ([] & f0 & _ & H1). rewrite full_dims in H1 by exact Hd.
  pose proof (full_writers_spec _ _ _ _ _ _ H1) as F.
  inversion F as [|? w1 ? wrest [Hr1 [Hs1 Hc1]] Frest]; subst ws.
  cbn [full_write] in H2. apply bind_inv in H2 as (w1' & fa & Ha & H2).
  apply bind_inv in H2 as (ws1 & fb & Hb & H2). injection H2 as _ <-.
  unfold writer_write in Ha. apply bind_inv in Ha as ([] & fp & Hp & Ha).
  apply bind_inv in Ha as (pos & fq & Hq & Ha). injection Ha as _ <-.
  rewrite Hr1, Hs1, Hc1 in Hp. rewrite Hr1, Hs1 in Hq.
  destruct (write_parallel_read use_zlib ms cpu _ _ _ _ rank rcpu others Hp Hr Hc) as (items & Ew & Er).
  rewrite (read_parallel_frame use_zlib _ fp), Er.
  - destruct (read_vtu_rejects_low_dim use_zlib (cpu rank) rcpu (ms rank) 1
                (mkComm (vm_comm_size (ms 0)) others) (or_intror eq_refl) Ho Hnc Hnv items [] Ew)
      as [s Hs].
    rewrite app_nil_r in Hs. rewrite Hs. reflexivity.
  - intros s Ns. rewrite (full_write_frame _ _ _ _ _ _ _ _ _ _ Hb).
    + apply (update_pvd_frame _ _ _ _ _ _ _ _ Hq). intros E. eapply pvd_not_in_step. symmetry. exact E.
    + apply (other_writers_frame _ _ _ _ Frest); [|apply Hns; lia].
      apply Forall_forall. intros i Hi. apply in_map_iff in Hi as (k & <- & Hk). apply in_seq in Hk.
      split; [apply Hns | apply Hne]; lia.
Qed.
End EdgesUnreadable.

Section Examples.
Local Open Scope string_scope.

(** [plural_names] of simplices.cpp. *)
Definition ex_plural (i : Z) : String.string :=
  if i =? 0 then "vertices" else if i =? 1 then "edges" else if i =? 2 then "faces" else "regions".

(** A [FullWriter] on the tetrahedron and one [write(0)]. *)
Definition ex_full_run : outcome files (list writer) :=
  (ws <- full_writer_new ex_plural "out" 3 ;;
   full_write (B := Rfc4648.rfc4648) (C := Stored.stored) true (fun _ => true) ex_print_real
     (fun _ => ex_tet) ws (mkReal 0)) [].

Definition ex_full_files : files := match ex_full_run with Ok _ f => f | _ => [] end.
Definition ex_full_writers : list writer := match ex_full_run with Ok ws _ => ws | _ => [] end.

Lemma full_writer_edges_unreadable_witness :
  read_parallel (B := Rfc4648.rfc4648) (C := Stored.stored) true ex_full_files
    (get_pvtu_path (get_step_path (writer_dir ex_plural "out" 1) 0)) 0 1 false [] = Abort dim_msg tt.
Proof.
  apply (full_writer_edges_unreadable (BL := Rfc4648.rfc4648_laws) (CL := Stored.stored_laws)
           true (fun _ => true) ex_print_real ex_plural "out" 3 (fun _ => ex_tet) (mkReal 0) []
           ex_full_writers).
  - vm_compute. reflexivity.
  - lia.
  - intros i Hi. unfold ex_plural.
    destruct (Z.eqb_spec i 0), (Z.eqb_spec i 1), (Z.eqb_spec i 2); reflexivity.
  - intros i Hi. unfold ex_plural.
    destruct (Z.eqb_spec i 0), (Z.eqb_spec i 1), (Z.eqb_spec i 2); try lia; discriminate.
  - cbn. lia.
  - cbn. unfold INT_MAX. lia.
  - cbn. lia.
  - cbn. lia.
  - constructor.
Defined.

(** The faces and the tetrahedron itself, written by the same call,
    read back as meshes of dimension 2 and 3. *)
Example full_writer_faces_regions :
  map (fun i => match read_parallel (B := Rfc4648.rfc4648) (C := Stored.stored) true ex_full_files
                        (get_pvtu_path (get_step_path (writer_dir ex_plural "out" i) 0)) 0 1 false [] with
                | Ok (Some m) _ => Some (rm_dim m)
                | _ => None
                end) [2; 3] = [Some 2; Some 3].
Proof. vm_compute. reflexivity. Qed.
End Examples.
